(* ===== verification/_CoqProject ===== *)
-Q . S2P
Prelude.v
Util.v
CircBuf.v
Hdlc.v
ListHead.v
Masks.v
MaskTables.v
Queue.v
Watch.v
World.v
Dm.v
Cntl.v
CntlProps.v
DiagIds.v
Peripheral.v
AppCmds.v
CommonCmds.v
Router.v
DmRecv.v
Devnode.v
Qrtr.v
Clients.v
UsbDesc.v
EventLoop.v
Cmdline.v
SendData.v
RouterProps.v
MaskRequests.v
MaskReadback.v
Hotplug.v
DataPath.v
Requests.v
Nhdlc.v
QrtrProps.v
QrtrCmd.v
Keeps.v
RawClients.v
Preserve.v
Flow.v
Surplus.v
Stall.v
Stream.v
Refs.v
Timers.v
Validity.v
Packets.v
Drain.v
Lifetime.v
Reached.v
Typed.v
EndToEnd.v
Bursts.v
Scenario.v
LoopScenario.v
RunScenario.v
