(* ===== verification/Prelude.v ===== *)
(** * The diagnostic router of linux-msm/diag, modelled and verified

    The program under [router/] sits between diagnostic monitors (USB, UNIX
    socket, TCP, UART) and the peripherals of a Qualcomm SoC (rpmsg channels,
    QRTR sockets).  Requests of a monitor go to a handler of the router, to
    the peripherals that registered the command, or back as an error; what the
    peripherals send goes to every monitor; the masks that say which messages,
    log packets and events are wanted are kept and forwarded.

    ** The files, in dependency order

    - [Prelude] (this file): machine integers, bytes, bounds-checked memory,
      the allocator, the monad [M] of stateful computations that may fail, its
      lenses, and the automation.
    - [Util]: [util.c], [util.h].
    - [CircBuf]: [circ_buf.c]; against the class [FileDesc] of a descriptor.
    - [Hdlc]: [hdlc.c]; CRC, encoder, decoder and the frame scanner.
    - [ListHead]: [list.h] on a heap of links, refined to sequences.
    - [Masks]: [masks.c], [masks.h]; [MaskTables]: theorems about the message
      masks and [diag_masks_init].
    - [Queue]: [mbuf.c], the queueing functions of [diag.c] and [hdlc.c], the
      flow counters of [watch.c], the non-HDLC frame check.
    - [Watch]: watches and timers of [watch.c].
    - [World]: the structs and global variables, one record of the program's
      state with a lens per component, and the environment.
    - [Dm]: the sending side of [dm.c]; [DmRecv]: its receiving side.
    - [Cntl]: [diag_cntl.c]; [CntlProps], [DiagIds]: theorems about it.
    - [Peripheral]: [peripheral.c] and the receive callbacks of
      [peripheral-rpmsg.c]; [Devnode]: the rest of [peripheral-rpmsg.c] (udev,
      opening channels); [Hotplug]: theorems about channels that come and go;
      [Qrtr]: [peripheral-qrtr.c]; [QrtrProps], [QrtrCmd]: theorems about its
      data socket and its command socket.
    - [AppCmds]: [app_cmds.c]; [CommonCmds]: [common_cmds.c]; [Router]:
      [router.c]; [RouterProps], [MaskRequests]: theorems about requests end
      to end; [MaskReadback]: what a monitor sets, a monitor reads back.
    - [Clients]: [usb.c], [unix.c], [socket.c], [uart.c]; [UsbDesc]: the
      descriptor tables of [usb.c].
    - [EventLoop]: [watch_run] of [watch.c] and what [main] of [diag.c] starts.
    - [Cmdline]: the command line of [main], with [getopt], [strtok] and [atoi].
    - [SendData]: [tools/send_data.c].
    - [DataPath]: theorems about the data channel, from chunks to clients;
      [Requests], [Nhdlc]: about the ring of a monitor, from chunks to the
      router; [RawClients]: about a monitor whose descriptor keeps the
      boundaries of requests.
    - [Keeps]: the rules of "a computation keeps a property" and the
      interfaces between a property and the program: [Quiet], for the handlers
      of requests and of received packets, [Reading], for what receives data,
      and [Inner], for all that callbacks run but opening and closing
      peripherals; [Preserve]: the interfaces [Inv], for what callbacks do,
      [ClockInv], for what rounds do to timers and clock, and [LoopInv] for
      whole rounds and runs.
    - [Flow], [Surplus], [Stall], [Stream], [Packets] and [Drain] are about
      flow counters and the queues of watches; [Timers] about the timers;
      [Refs] and [Validity] about the identities the state mentions; [Typed]
      about the data: bytes, rings, decoders; [Lifetime] has what goes wrong
      with freed and duplicated watches.
    - [Reached]: [Drain] in the states a run of the program reaches;
      [EndToEnd]: the data path and the event loop together; [Bursts]: any
      number of times.
    - [Scenario], [LoopScenario], [RunScenario]: concrete states and runs in
      which the theorems are applied.

    ** How the program is modelled

    A function of the program is a definition of the same name.  A call that
    changes state is a computation [M S A]: from the heap's allocator and a
    state to an [outcome], a result with the new state, or [UB] (an access
    outside an object, a null or dangling pointer), [Exit] ([err], [errx],
    [assert]) or [Spin] (fuel exhausted).  A component's operations run on the
    component's own state and are lifted into the program with [zoom].

    Integers are [Z], with the wrap-around of their width written out ([u8],
    [u16], [u32], [u64]).  Memory objects are lists of bytes; reading and
    writing them is [UB] outside their bounds.  Fresh memory has the contents
    the allocator's oracle gives it, so uninitialised bytes are arbitrary, and
    the allocator may fail at any call ([alloc_ok] excludes it where a theorem
    says so).  Pointers to clients, peripherals, watches and handles are
    identities, with [UB] when the object is gone; lists of structs are Rocq
    lists, which [ListHead] justifies.  Packets are written and read field by
    field, little-endian, on a 64-bit machine.

    The system is an argument: [env] holds what reads, system calls and udev
    answer, [round] the clock before and after [select], what [select] answers
    to the descriptors and the timeout it is given, and what [io_getevents]
    says; theorems quantify over all of it.  libqrtr's [qrtr_decode], the kernel's FunctionFS
    event, the layout and constants of its USB headers ([UsbHeaders]) and the
    signedness of [char] are parameters of the sections that use them.  A
    system call that fails gives a negative result, and the environment's
    default, once its script is used up, is failure ([EAGAIN] for a read).

    ** What the theorems show

    - The wire: [hdlc_encode] and [hdlc_decode_one] are inverse, the decoder
      implements a scanner of frames up to its buffer's size, the table CRC is
      CRC-CCITT-16, the ring is a FIFO, the non-HDLC framing round-trips and
      its check never reads outside a packet.
    - The data path: a peripheral's byte stream, however it is cut into
      chunks, reaches every enabled client message by message
      ([DataPath.diag_data_recv_hdlc_delivers]), and from there the kernel:
      one round of the event loop that reads and quiet ones that write,
      however often the channel becomes ready ([Bursts.run_delivers_bursts]).
      Both are about frames that fit the decoder's buffer and have their check
      sequence, and have one exception: when the bytes end exactly at the end
      of the ring's array, those received last wait in it, complete frames
      included, until more arrive
      ([DataPath.exact_fill_delays_message]).  What the second asks of the
      state is that nothing waits and that clients have their watches; that it
      is typed is proved of every run.
    - Peripherals: the channels udev reports are the ones in the table, and
      each processor gets one peripheral ([Hotplug.rpmsg_hotplug_refines]);
      opening connects its channels, closing undoes it; a QRTR data socket
      keeps a session ([QrtrProps.qrtr_data_session]), and a command socket
      counts its announcements ([QrtrCmd.qrtr_cmd_session]).
    - Requests: what a monitor sends is handed to the router request by
      request ([Requests.dm_recv_in_order]), without HDLC only the first
      request ([Nhdlc.nhdlc_request_repeats]), from a raw descriptor every
      [read] in turn ([RawClients.dm_recv_raw_in_order]); [diag_cmd_dispatch]
      refines the routing rule; local commands are followed end to end, with
      their errors.
    - The control channel: received packets update the command table as their
      contents say, whatever is received the dispatcher ends; the feature
      handshake, byte for byte, the mask packets, the diag ids.
    - Masks: the operations refine updates of a map (log masks) and of words in
      a table entry (message masks); the tables are well formed after an
      initialisation that succeeds, whatever the allocator does; the masks a monitor sets reach the peripherals and are
      what the next request reads ([MaskReadback]).
    - The event loop: flow counters never fall below the packets they stand
      for, packets reach the kernel in the order they were queued, and they do
      get there: a system that keeps taking writes empties the queue of every
      write watch, when no two share a descriptor or a queue
      ([Reached.run_drains_queues]).  Selecting, submitting and releasing never go
      wrong in any state the program reaches ([Packets.watching_safe]).  Timers
      run, the earliest first, when they are due and nothing else is
      ([Timers.timers_run_when_due]).
    - The typing of the state: every peripheral, client, handle and queue that
      a watch, a registration or another object mentions exists
      ([Validity.references_valid]), and every peripheral receives into a ring
      and a decoder of bytes ([Typed.run_stays_typed]), in every state the
      rounds of the loop reach.
    - The edges of the program: the options of a command line are read back as
      they were printed; the tool frames a request and prints the frames of
      the reply, but takes a command above 127 for something else where [char]
      is signed; the USB descriptors written to the kernel are well formed.
    - Limits: where the code leaves its buffers or its promises (overlong
      frames, shrinking masks, truncated ids, a client that hangs up, watches
      freed while in use, a service announced twice), theorems give the states
      and inputs.

    ** Fuel

    [circ_read] needs at most three rounds and [hdlc_decode_one] one round per
    byte of the ring, both proved; [cntl_recv_loop] has one round per header
    in the received bytes ([diag_cntl_recv_terminates]); [drain_frames] one
    round per byte of the ring, proved with the data path; the loops that read
    until a descriptor is drained take the number of reads as an argument, and
    [diag_data_recv_hdlc_delivers] proves a bound by the bytes to come;
    [aio_loop] is bounded by the list, [read_round] takes the number of visits
    as an argument because callbacks add watches.

    ** Not modelled

    Messages on stdout and stderr; [free] of buffers and [close] of
    descriptors (a watch or peripheral that is freed does disappear); overflow
    of a flow counter; the size of the stack; terminal settings and socket
    addresses.

    ** What is left open

    The data path is followed to the kernel for one peripheral at a time, whose
    messages are written before it sends more, with writes that succeed; a completion that fails with [EAGAIN] is modelled and
    covered by the invariants, but no theorem follows the packet it puts back
    to its second submission. *)

From Stdlib Require Export ZArith Lia.
From stdpp Require Export base tactics numbers list gmap strings.

#[global] Open Scope Z_scope.

(** Buffers are long: never unfold one while simplifying. *)
#[global] Arguments replicate : simpl never.

(** ** Machine integers *)

Abbreviation bytes := (list Z).

Definition u8 (z : Z) : Z := z mod 2 ^ 8.
Definition u16 (z : Z) : Z := z mod 2 ^ 16.
Definition u32 (z : Z) : Z := z mod 2 ^ 32.
Definition u64 (z : Z) : Z := z mod 2 ^ 64.

(** A byte string as C sees it: every element fits an [uint8_t]. *)
Definition is_byte (b : Z) : Prop := 0 <= b < 256.
Definition bytes_ok (l : bytes) : Prop := Forall is_byte l.

(** The length of a list as an integer (a [size_t]). *)
Definition zlen {A} (l : list A) : Z := Z.of_nat (length l).

Create HintDb diag.
Create Rewrite HintDb zlen.

Lemma u8_range z : 0 <= u8 z < 2 ^ 8.
Proof. apply Z.mod_pos_bound; lia. Qed.
Lemma u16_range z : 0 <= u16 z < 2 ^ 16.
Proof. apply Z.mod_pos_bound; lia. Qed.
Lemma u32_range z : 0 <= u32 z < 2 ^ 32.
Proof. apply Z.mod_pos_bound; lia. Qed.
Lemma u64_range z : 0 <= u64 z < 2 ^ 64.
Proof. apply Z.mod_pos_bound; lia. Qed.
Lemma u8_id z : 0 <= z < 2 ^ 8 -> u8 z = z.
Proof. apply Z.mod_small. Qed.
Lemma u16_id z : 0 <= z < 2 ^ 16 -> u16 z = z.
Proof. apply Z.mod_small. Qed.
Lemma u32_id z : 0 <= z < 2 ^ 32 -> u32 z = z.
Proof. apply Z.mod_small. Qed.
Lemma u64_id z : 0 <= z < 2 ^ 64 -> u64 z = z.
Proof. apply Z.mod_small. Qed.

Lemma u8_is_byte z : is_byte (u8 z).
Proof. apply u8_range. Qed.
#[export] Hint Resolve u8_is_byte : diag.

(** ** Lengths *)

Lemma zlen_nonneg {A} (l : list A) : 0 <= zlen l.
Proof. unfold zlen; lia. Qed.
Lemma zlen_nil {A} : zlen (@nil A) = 0.
Proof. done. Qed.
Lemma zlen_cons {A} (x : A) l : zlen (x :: l) = 1 + zlen l.
Proof. unfold zlen; simpl; lia. Qed.
Lemma zlen_app {A} (l k : list A) : zlen (l ++ k) = zlen l + zlen k.
Proof. unfold zlen; rewrite length_app; lia. Qed.
Lemma zlen_fmap {A B} (f : A -> B) (l : list A) : zlen (f <$> l) = zlen l.
Proof. unfold zlen; by rewrite length_fmap. Qed.
Lemma zlen_replicate {A} n (x : A) : zlen (replicate n x) = Z.of_nat n.
Proof. unfold zlen; by rewrite length_replicate. Qed.
Lemma zlen_take {A} n (l : list A) : zlen (take n l) = Z.min (Z.of_nat n) (zlen l).
Proof. unfold zlen; rewrite length_take; lia. Qed.
Lemma zlen_drop {A} n (l : list A) : zlen (drop n l) = Z.max 0 (zlen l - Z.of_nat n).
Proof. unfold zlen; rewrite length_drop; lia. Qed.
Lemma zlen_insert {A} i (x : A) l : zlen (<[i:=x]> l) = zlen l.
Proof. unfold zlen; by rewrite length_insert. Qed.
Lemma zlen_0_nil {A} (l : list A) : zlen l = 0 -> l = [].
Proof. destruct l; [done|rewrite zlen_cons; pose proof (zlen_nonneg l); lia]. Qed.

#[export] Hint Rewrite @zlen_nil @zlen_cons @zlen_app @zlen_fmap @zlen_replicate
  @zlen_take @zlen_drop @zlen_insert @Z2Nat.id using lia : zlen.

(** [zlia]: linear arithmetic after the length equations. *)
Ltac pose_zlens :=
  repeat match goal with
  | |- context [zlen ?l] =>
      lazymatch goal with
      | _ : 0 <= zlen l |- _ => fail
      | _ => pose proof (zlen_nonneg l)
      end
  | _ : context [zlen ?l] |- _ =>
      lazymatch goal with
      | _ : 0 <= zlen l |- _ => fail
      | _ => pose proof (zlen_nonneg l)
      end
  end.
Ltac zlia := autorewrite with zlen in *; pose_zlens; lia.

Lemma bytes_ok_nil : bytes_ok [].
Proof. constructor. Qed.
Lemma bytes_ok_cons b l : bytes_ok (b :: l) <-> is_byte b /\ bytes_ok l.
Proof. apply Forall_cons. Qed.
Lemma bytes_ok_app l k : bytes_ok (l ++ k) <-> bytes_ok l /\ bytes_ok k.
Proof. apply Forall_app. Qed.
Lemma bytes_ok_take n l : bytes_ok l -> bytes_ok (take n l).
Proof. apply Forall_take. Qed.
Lemma bytes_ok_drop n l : bytes_ok l -> bytes_ok (drop n l).
Proof. apply Forall_drop. Qed.
Lemma bytes_ok_replicate n b : is_byte b -> bytes_ok (replicate n b).
Proof. intros; by apply Forall_replicate. Qed.
#[export] Hint Resolve bytes_ok_nil bytes_ok_take bytes_ok_drop bytes_ok_replicate : diag.

Lemma filter_all {A} (P : A -> Prop) `{!forall x, Decision (P x)} (l : list A) : Forall P l -> filter P l = l.
Proof. induction 1 as [|x l Hx _ IH]; [done|]. by rewrite filter_cons_True, IH. Qed.

(** ** Little-endian integers in byte strings

    Every target of the program is little endian; the packed structs it
    copies in and out of packets are laid out by [le]. *)

Fixpoint le (n : nat) (z : Z) : bytes :=
  match n with
  | O => []
  | S n' => z mod 256 :: le n' (z / 256)
  end.

Fixpoint le_dec (l : bytes) : Z :=
  match l with
  | [] => 0
  | b :: l' => b + 256 * le_dec l'
  end.

Lemma zlen_le n z : zlen (le n z) = Z.of_nat n.
Proof. revert z; induction n as [|n IH]; intros; simpl; [done|]. rewrite zlen_cons, IH; lia. Qed.
#[export] Hint Rewrite zlen_le : zlen.

Lemma bytes_ok_le n z : bytes_ok (le n z).
Proof.
  revert z; induction n as [|n IH]; intros; simpl; [constructor|].
  constructor; [apply Z.mod_pos_bound; lia | apply IH].
Qed.
#[export] Hint Resolve bytes_ok_le : diag.

Lemma le_dec_le n z : le_dec (le n z) = z mod 256 ^ Z.of_nat n.
Proof.
  revert z; induction n as [|n IH]; intros z.
  - by rewrite Z.mod_1_r.
  - cbn [le le_dec]. rewrite IH, Nat2Z.inj_succ, Z.pow_succ_r by lia.
    rewrite Z.rem_mul_r by (try apply Z.pow_pos_nonneg; lia). lia.
Qed.

Lemma le_dec_range l : bytes_ok l -> 0 <= le_dec l < 256 ^ zlen l.
Proof.
  induction 1 as [|b l Hb Hl IH]; cbn [le_dec]; [done|].
  rewrite zlen_cons, Z.pow_add_r by (pose proof (zlen_nonneg l); lia).
  unfold is_byte in Hb; lia.
Qed.

Lemma le_le_dec l : bytes_ok l -> le (length l) (le_dec l) = l.
Proof.
  induction 1 as [|b l Hb Hl IH]; [done|].
  unfold is_byte in Hb. cbn [length le le_dec]. f_equal.
  - rewrite Z.mul_comm, Z.mod_add by lia. apply Z.mod_small; lia.
  - rewrite Z.mul_comm, Z.div_add by lia. rewrite (Z.div_small b) by lia. apply IH.
Qed.

(** ** Outcomes of C code

    [UB] is undefined behaviour, in practice a memory error: a read or write
    outside the object a pointer points into, or through a null pointer.
    [Exit] is [err(1, ...)] or a failed assertion; [Spin] is a loop that used up its fuel. *)

Inductive outcome (A : Type) : Type :=
| Done (a : A)
| UB
| Exit
| Spin.
Arguments Done {A} a.
Arguments UB {A}.
Arguments Exit {A}.
Arguments Spin {A}.

#[global] Instance outcome_ret : MRet outcome := fun _ a => Done a.
#[global] Instance outcome_bind : MBind outcome := fun _ _ f m =>
  match m with
  | Done a => f a
  | UB => UB
  | Exit => Exit
  | Spin => Spin
  end.

(** Reading and writing [n] bytes at offset [off] of an object. *)
Definition slice (b : bytes) (off n : Z) : bytes :=
  take (Z.to_nat n) (drop (Z.to_nat off) b).

Definition in_object (b : bytes) (off n : Z) : bool :=
  (0 <=? off) && (0 <=? n) && (off + n <=? zlen b).

Definition mem_read (b : bytes) (off n : Z) : outcome bytes :=
  if in_object b off n then Done (slice b off n) else UB.

Definition splice (b : bytes) (off : Z) (src : bytes) : bytes :=
  take (Z.to_nat off) b ++ src ++ drop (Z.to_nat (off + zlen src)) b.

Definition mem_write (b : bytes) (off : Z) (src : bytes) : outcome bytes :=
  if in_object b off (zlen src) then Done (splice b off src) else UB.

(** Reading an [n]-byte little-endian field. *)
Definition rd (n : nat) (b : bytes) (off : Z) : outcome Z :=
  bs ← mem_read b off (Z.of_nat n); Done (le_dec bs).

(** ** Stateful code

    [M S A]: a computation over a component's state [S] and the C allocator.
    The allocator is an oracle: its [k]-th call either fails ([None]) or
    returns memory whose contents are arbitrary ([Some junk]). *)

Record heap := Heap { h_calls : nat; h_oracle : nat -> option (nat -> Z) }.

Definition M (S A : Type) : Type := heap -> S -> outcome (A * heap * S).

#[global] Instance M_ret {S} : MRet (M S) := fun _ a h s => Done (a, h, s).
#[global] Instance M_bind {S} : MBind (M S) := fun _ _ f m h s =>
  match m h s with
  | Done (a, h', s') => f a h' s'
  | UB => UB
  | Exit => Exit
  | Spin => Spin
  end.

Definition get {S} : M S S := fun h s => Done (s, h, s).
Definition put {S} (s : S) : M S unit := fun h _ => Done (tt, h, s).
Definition modify {S} (f : S -> S) : M S unit := fun h s => Done (tt, h, f s).
Definition fail_ub {S A} : M S A := fun _ _ => UB.
Definition exit1 {S A} : M S A := fun _ _ => Exit.
Definition lift {S A} (o : outcome A) : M S A := fun h s =>
  match o with
  | Done a => Done (a, h, s)
  | UB => UB
  | Exit => Exit
  | Spin => Spin
  end.

Definition junk_bytes (junk : nat -> Z) (n : Z) : bytes :=
  (fun i => u8 (junk i)) <$> seq 0 (Z.to_nat n).

Definition tick (h : heap) : heap := Heap (S (h_calls h)) (h_oracle h).

Definition malloc {S} (n : Z) : M S (option bytes) := fun h s =>
  Done ((fun junk => junk_bytes junk n) <$> h_oracle h (h_calls h), tick h, s).

Definition calloc {S} (n : Z) : M S (option bytes) := fun h s =>
  Done ((fun _ => replicate (Z.to_nat n) 0) <$> h_oracle h (h_calls h), tick h, s).

(** [realloc] keeps the common prefix; the rest of a grown object is junk. *)
Definition realloc {S} (p : bytes) (n : Z) : M S (option bytes) := fun h s =>
  Done ((fun junk => take (Z.to_nat n) p ++ drop (length p) (junk_bytes junk n))
          <$> h_oracle h (h_calls h), tick h, s).

(** Stack memory ([alloca], a local array) cannot fail; its contents are as
    arbitrary as the heap's. *)
Definition stack {S} (n : Z) : M S bytes := fun h s =>
  Done (junk_bytes (default (fun _ => 0) (h_oracle h (h_calls h))) n, tick h, s).

(** The allocator never refuses a request. *)
Definition alloc_ok (h : heap) : Prop := forall k, is_Some (h_oracle h k).

(** ** Lemmas on memory *)

Lemma zlen_slice b off n :
  0 <= off -> 0 <= n -> off + n <= zlen b -> zlen (slice b off n) = n.
Proof. intros. unfold slice. zlia. Qed.

Lemma in_object_true b off n :
  in_object b off n = true <-> 0 <= off /\ 0 <= n /\ off + n <= zlen b.
Proof. unfold in_object. rewrite !andb_true_iff, !Z.leb_le. tauto. Qed.

Lemma mem_read_ok b off n :
  0 <= off -> 0 <= n -> off + n <= zlen b -> mem_read b off n = Done (slice b off n).
Proof. intros. unfold mem_read. by rewrite (proj2 (in_object_true b off n)). Qed.

Lemma mem_read_ub b off n : zlen b < off + n -> mem_read b off n = UB.
Proof.
  intros. unfold mem_read. destruct (in_object b off n) eqn:E; [|done].
  apply in_object_true in E; lia.
Qed.

Lemma mem_write_ok b off src :
  0 <= off -> off + zlen src <= zlen b -> mem_write b off src = Done (splice b off src).
Proof.
  intros. unfold mem_write. rewrite (proj2 (in_object_true b off (zlen src))); [done|].
  pose proof (zlen_nonneg src); lia.
Qed.

Lemma mem_write_ub b off src : zlen b < off + zlen src -> mem_write b off src = UB.
Proof.
  intros. unfold mem_write. destruct (in_object b off (zlen src)) eqn:E; [|done].
  apply in_object_true in E; lia.
Qed.

Lemma zlen_splice b off src :
  0 <= off -> off + zlen src <= zlen b -> zlen (splice b off src) = zlen b.
Proof. intros. unfold splice. zlia. Qed.

Lemma mem_read_shape b off n d :
  mem_read b off n = Done d -> 0 <= off /\ 0 <= n /\ off + n <= zlen b /\ d = slice b off n.
Proof.
  unfold mem_read. destruct (in_object b off n) eqn:E; [|done]. intros [= <-].
  by apply in_object_true in E as (? & ? & ?).
Qed.

Lemma mem_write_shape b off src d :
  mem_write b off src = Done d -> 0 <= off /\ off + zlen src <= zlen b /\ zlen d = zlen b.
Proof.
  unfold mem_write. destruct (in_object b off (zlen src)) eqn:E; [|done]. intros [= <-].
  apply in_object_true in E as (? & ? & ?). by rewrite zlen_splice by lia.
Qed.

Lemma slice_0_all b n : n = zlen b -> slice b 0 n = b.
Proof.
  intros ->. unfold slice, zlen. rewrite Nat2Z.id. change (Z.to_nat 0) with 0%nat.
  rewrite drop_0. by rewrite firstn_all.
Qed.

Lemma slice_app_r a b off n :
  zlen a <= off -> slice (a ++ b) off n = slice b (off - zlen a) n.
Proof.
  intros. unfold slice. rewrite drop_app_ge by (unfold zlen in *; lia).
  repeat f_equal. unfold zlen in *; lia.
Qed.

Lemma slice_app_l a b off n :
  0 <= off -> 0 <= n -> off + n <= zlen a -> slice (a ++ b) off n = slice a off n.
Proof.
  intros. unfold slice. rewrite drop_app_le by (unfold zlen in *; lia).
  apply take_app_le. rewrite length_drop. unfold zlen in *; lia.
Qed.

Lemma slice_app_exact a b n : n = zlen a -> slice (a ++ b) 0 n = a.
Proof. intros ->. pose proof (zlen_nonneg a). rewrite slice_app_l by lia. by apply slice_0_all. Qed.

Lemma slice_slice_0 b n m : 0 <= n <= m -> slice b 0 n = slice (slice b 0 m) 0 n.
Proof.
  intros. unfold slice. change (Z.to_nat 0) with 0%nat. rewrite !drop_0, take_take. f_equal; lia.
Qed.

Lemma slice_splice b off src n :
  0 <= off -> off + zlen src <= zlen b -> n = zlen src -> slice (splice b off src) off n = src.
Proof.
  intros ? ? ->. unfold splice. rewrite slice_app_r by zlia.
  replace (off - _) with 0 by zlia. by apply slice_app_exact.
Qed.

Lemma bytes_ok_slice b off n : bytes_ok b -> bytes_ok (slice b off n).
Proof. intros. unfold slice. auto with diag. Qed.

Lemma bytes_ok_splice b off src : bytes_ok b -> bytes_ok src -> bytes_ok (splice b off src).
Proof. intros. unfold splice. rewrite !bytes_ok_app. auto with diag. Qed.
#[export] Hint Resolve bytes_ok_slice bytes_ok_splice : diag.

Lemma u8_bytes d : bytes_ok d -> u8 <$> d = d.
Proof. intros Hd. induction Hd as [|b d Hb _ IH]; [done|]. cbn. rewrite IH. f_equal. by apply u8_id. Qed.

Lemma drop_splice b off src n :
  0 <= off -> off + zlen src <= zlen b -> off + zlen src <= n ->
  drop (Z.to_nat n) (splice b off src) = drop (Z.to_nat n) b.
Proof.
  unfold splice, zlen. intros. rewrite app_assoc, drop_app_ge by (rewrite length_app, length_take; lia).
  rewrite drop_drop, length_app, length_take. f_equal. lia.
Qed.

Lemma splice_full b src : zlen src = zlen b -> splice b 0 src = src.
Proof.
  intros E. unfold splice. change (Z.to_nat 0) with 0%nat. rewrite take_0, drop_ge.
  - by rewrite app_nil_r.
  - unfold zlen in *. lia.
Qed.

Lemma slice_splice_ne b off src off' n :
  0 <= off -> off + zlen src <= zlen b -> 0 <= off' -> 0 <= n ->
  off' + n <= off \/ off + zlen src <= off' ->
  slice (splice b off src) off' n = slice b off' n.
Proof.
  intros Ho Hl Ho' Hn Hd. unfold splice, slice. destruct Hd as [Hd|Hd].
  - rewrite drop_app_le by (rewrite length_take; unfold zlen in *; lia).
    rewrite take_app_le by (rewrite length_drop, length_take; unfold zlen in *; lia).
    rewrite !take_drop_commute, take_take. do 2 f_equal. lia.
  - rewrite app_assoc, drop_app_ge
      by (rewrite length_app, length_take; unfold zlen in *; lia).
    rewrite drop_drop. do 2 f_equal. rewrite length_app, length_take. unfold zlen in *. lia.
Qed.

Lemma splice_lookup_in b off src k :
  0 <= off -> off + zlen src <= zlen b -> off <= Z.of_nat k < off + zlen src ->
  splice b off src !! k = src !! Z.to_nat (Z.of_nat k - off).
Proof.
  intros. unfold splice. rewrite lookup_app_r by (rewrite length_take; unfold zlen in *; lia).
  rewrite lookup_app_l by (rewrite length_take; unfold zlen in *; lia).
  f_equal. rewrite length_take. unfold zlen in *; lia.
Qed.

Lemma splice_lookup_out b off src k :
  0 <= off -> off + zlen src <= zlen b -> ~ off <= Z.of_nat k < off + zlen src ->
  splice b off src !! k = b !! k.
Proof.
  intros Ho Hl Hk. unfold splice. destruct (decide (Z.of_nat k < off)).
  - rewrite lookup_app_l by (rewrite length_take; unfold zlen in *; lia).
    apply lookup_take_lt. lia.
  - rewrite lookup_app_r by (rewrite length_take; unfold zlen in *; lia).
    rewrite lookup_app_r by (rewrite length_take; unfold zlen in *; lia).
    rewrite lookup_drop. f_equal. rewrite length_take. unfold zlen in *; lia.
Qed.

Lemma rd_app_r n a b off : zlen a <= off -> rd n (a ++ b) off = rd n b (off - zlen a).
Proof.
  intros. unfold rd, mem_read. rewrite slice_app_r by done.
  replace (in_object (a ++ b) off (Z.of_nat n))
    with (in_object b (off - zlen a) (Z.of_nat n)); [done|].
  unfold in_object. pose proof (zlen_nonneg a). rewrite zlen_app.
  destruct (0 <=? Z.of_nat n); rewrite ?andb_false_r; [|done]. rewrite !andb_true_r.
  f_equal; apply eq_bool_prop_intro; rewrite !Is_true_true, !Z.leb_le; lia.
Qed.

Lemma rd_range n b off x : bytes_ok b -> rd n b off = Done x -> 0 <= x < 256 ^ Z.of_nat n.
Proof.
  intros Hb. unfold rd. destruct (mem_read b off (Z.of_nat n)) eqn:E; [|done..]. intros [= <-].
  apply mem_read_shape in E as (H1 & H2 & H3 & ->).
  pose proof (le_dec_range (slice b off (Z.of_nat n)) ltac:(auto with diag)) as H. by rewrite zlen_slice in H by lia.
Qed.

Lemma rd_le n z rest : rd n (le n z ++ rest) 0 = Done (z mod 256 ^ Z.of_nat n).
Proof.
  unfold rd. rewrite mem_read_ok by (pose proof (zlen_nonneg rest); zlia).
  rewrite slice_app_exact by zlia. cbn. by rewrite le_dec_le.
Qed.

(** Reading a field out of a concatenation: skip the fields before it. *)
Lemma rd_skip n a b off k : k = zlen a -> 0 <= off -> rd n (a ++ b) (k + off) = rd n b off.
Proof. intros -> ?. rewrite rd_app_r by lia. f_equal; lia. Qed.

Lemma zlen_junk_bytes junk n : 0 <= n -> zlen (junk_bytes junk n) = n.
Proof. intros. unfold junk_bytes, zlen. rewrite length_fmap, length_seq. lia. Qed.

Lemma bytes_ok_junk junk n : bytes_ok (junk_bytes junk n).
Proof. apply Forall_fmap, Forall_true. intros; apply u8_is_byte. Qed.
#[export] Hint Resolve bytes_ok_junk : diag.

(** ** Lemmas on computations *)

Section monad.
Context {S A B : Type}.

Lemma bind_done (m : M S A) (f : A -> M S B) h s a h' s' :
  m h s = Done (a, h', s') -> (m ≫= f) h s = f a h' s'.
Proof. intros E. unfold mbind, M_bind. by rewrite E. Qed.

Lemma bind_ub (m : M S A) (f : A -> M S B) h s : m h s = UB -> (m ≫= f) h s = UB.
Proof. intros E. unfold mbind, M_bind. by rewrite E. Qed.

Lemma bind_exit (m : M S A) (f : A -> M S B) h s : m h s = Exit -> (m ≫= f) h s = Exit.
Proof. intros E. unfold mbind, M_bind. by rewrite E. Qed.

Lemma bind_done_inv (m : M S A) (f : A -> M S B) h s r :
  (m ≫= f) h s = Done r ->
  exists a h' s', m h s = Done (a, h', s') /\ f a h' s' = Done r.
Proof.
  unfold mbind, M_bind. destruct (m h s) as [[[a h'] s']| | |]; [|done..].
  intros; by exists a, h', s'.
Qed.
End monad.

Lemma bind_assoc {S A B C} (m : M S A) (f : A -> M S B) (g : B -> M S C) h s :
  ((m ≫= f) ≫= g) h s = (m ≫= (fun a => f a ≫= g)) h s.
Proof. unfold mbind, M_bind. by destruct (m h s) as [[[a h'] s']| | |]. Qed.

(** [steps n h] is the heap after [n] allocator calls. *)
Definition steps (n : nat) (h : heap) : heap := Heap (n + h_calls h) (h_oracle h).

Lemma steps_steps a b h : steps a (steps b h) = steps (a + b) h.
Proof. unfold steps. cbn. by rewrite Nat.add_assoc. Qed.

Lemma alloc_ok_tick h : alloc_ok h -> alloc_ok (tick h).
Proof. done. Qed.
Lemma alloc_ok_steps n h : alloc_ok h -> alloc_ok (steps n h).
Proof. done. Qed.
#[export] Hint Resolve alloc_ok_tick alloc_ok_steps : diag.

Lemma malloc_ok {S} n h (s : S) :
  alloc_ok h -> exists b, malloc n h s = Done (Some b, tick h, s) /\ bytes_ok b /\ (0 <= n -> zlen b = n).
Proof.
  intros Hh. unfold malloc. destruct (Hh (h_calls h)) as [junk ->]. cbn.
  exists (junk_bytes junk n). split; [done|]. split; [auto with diag|].
  apply zlen_junk_bytes.
Qed.

Lemma malloc_fails {S} n h (s : S) :
  h_oracle h (h_calls h) = None -> malloc n h s = Done (None, tick h, s).
Proof. intros E. unfold malloc. by rewrite E. Qed.

Lemma stack_ok {S} n h (s : S) :
  exists b, stack n h s = Done (b, tick h, s) /\ bytes_ok b /\ (0 <= n -> zlen b = n).
Proof. eexists; split; [done|]. split; [auto with diag | apply zlen_junk_bytes]. Qed.

Lemma realloc_ok {S} p n h (s : S) :
  alloc_ok h -> bytes_ok p -> 0 <= n ->
  exists b, realloc p n h s = Done (Some b, tick h, s) /\ bytes_ok b /\ zlen b = n /\
    take (Z.to_nat (Z.min n (zlen p))) b = take (Z.to_nat n) p.
Proof.
  intros Hh Hp Hn. unfold realloc. destruct (Hh (h_calls h)) as [junk ->]. cbn.
  eexists; split; [done|]. pose proof (zlen_junk_bytes junk n Hn) as Hl.
  split; [|split].
  - apply bytes_ok_app; auto with diag.
  - rewrite zlen_app, zlen_take, zlen_drop, Hl. unfold zlen in *; lia.
  - rewrite take_app_le, take_take by (rewrite length_take; unfold zlen in *; lia).
    destruct (decide (n <= zlen p)).
    + f_equal; lia.
    + rewrite !take_ge by (unfold zlen in *; lia). done.
Qed.

(** ** A component inside a larger state *)

Class Lens (S T : Type) := {
  view : S -> T;
  over : (T -> T) -> S -> S;
  view_over f s : view (over f s) = f (view s);
  over_over f g s : over f (over g s) = over (fun t => f (g t)) s;
  over_view s t : t = view s -> over (fun _ => t) s = s }.

(** Run a component's computation inside the larger state. *)
Definition zoom {S T A} `{!Lens S T} (m : M T A) : M S A := fun h s =>
  match m h (view s) with
  | Done (a, h', t) => Done (a, h', over (fun _ => t) s)
  | UB => UB
  | Exit => Exit
  | Spin => Spin
  end.

Lemma zoom_done {S T A} `{!Lens S T} (m : M T A) h (s : S) a h' t :
  m h (view s) = Done (a, h', t) -> zoom m h s = Done (a, h', over (fun _ => t) s).
Proof. intros E. unfold zoom. by rewrite E. Qed.

Lemma zoom_inv {S T A} `{!Lens S T} (m : M T A) h (s : S) a h' s' :
  zoom m h s = Done (a, h', s') -> exists t, m h (view s) = Done (a, h', t) /\ s' = over (fun _ => t) s.
Proof.
  unfold zoom. destruct (m h (view s)) as [[[b h1] t]| | |]; try done. intros [= -> -> <-]. by exists t.
Qed.

Lemma lift_shape {S A} (o : outcome A) h (s : S) a h' s' :
  lift o h s = Done (a, h', s') -> o = Done a /\ h' = h /\ s' = s.
Proof. unfold lift. destruct o; try done. by intros [= -> -> ->]. Qed.

(** Symbolic execution of a computation: unfold the monad's plumbing and
    reduce the matches on results already known. *)
Ltac mrun :=
  repeat first
    [ progress cbn [mbind M_bind outcome_bind mret M_ret outcome_ret get put modify lift fail_ub exit1]
    | progress unfold mbind, M_bind, outcome_bind, mret, M_ret, outcome_ret, get, put, modify, lift,
        fail_ub, exit1 ].

(** ** Termination

    [terminates m]: [m] never runs out of fuel, whatever the allocator and the
    state.  The hint database [term] proves it for straight-line code. *)

Definition terminates {S A} (m : M S A) : Prop := forall h s, m h s <> Spin.

Create HintDb term discriminated.
#[export] Hint Constants Opaque : term.

Lemma terminates_ret {S A} (a : A) : terminates (mret a : M S A).
Proof. done. Qed.
Lemma terminates_bind {S A B} (m : M S A) (f : A -> M S B) :
  terminates m -> (forall a, terminates (f a)) -> terminates (m ≫= f).
Proof.
  intros Hm Hf h s. unfold mbind, M_bind. specialize (Hm h s).
  destruct (m h s) as [[[a h'] s']| | |]; [apply Hf|done..].
Qed.
Lemma terminates_lift {S A} (o : outcome A) : o <> Spin -> terminates (lift o : M S A).
Proof. intros Ho h s. unfold lift. by destruct o. Qed.
Lemma terminates_get {S} : terminates (@get S).
Proof. done. Qed.
Lemma terminates_put {S} (s : S) : terminates (put s).
Proof. done. Qed.
Lemma terminates_modify {S} (f : S -> S) : terminates (modify f).
Proof. done. Qed.
Lemma terminates_fail {S A} : terminates (@fail_ub S A).
Proof. done. Qed.
Lemma terminates_exit {S A} : terminates (@exit1 S A).
Proof. done. Qed.
Lemma terminates_malloc {S} n : terminates (@malloc S n).
Proof. done. Qed.
Lemma terminates_calloc {S} n : terminates (@calloc S n).
Proof. done. Qed.
Lemma terminates_realloc {S} p n : terminates (@realloc S p n).
Proof. done. Qed.
Lemma terminates_stack {S} n : terminates (@stack S n).
Proof. done. Qed.
Lemma terminates_zoom {S T A} `{!Lens S T} (m : M T A) : terminates m -> terminates (zoom m : M S A).
Proof.
  intros Hm h s. unfold zoom. specialize (Hm h (view s)). by destruct (m h (view s)) as [[[a h'] s']| | |].
Qed.

Lemma mem_read_no_spin b off n : mem_read b off n <> Spin.
Proof. unfold mem_read. by case_match. Qed.
Lemma mem_write_no_spin b off src : mem_write b off src <> Spin.
Proof. unfold mem_write. by case_match. Qed.
Lemma rd_no_spin n b off : rd n b off <> Spin.
Proof. unfold rd, mem_read. by case_match. Qed.

#[export] Hint Resolve terminates_ret terminates_lift terminates_get terminates_put
  terminates_modify terminates_fail terminates_exit terminates_malloc terminates_calloc
  terminates_realloc terminates_stack terminates_zoom mem_read_no_spin mem_write_no_spin
  rd_no_spin : term.

(** Walk down binds and conditionals. *)
Ltac term :=
  repeat first
    [ progress intros
    | solve [eauto with term nocore]
    | match goal with |- terminates (mbind _ _) => apply terminates_bind end
    | match goal with |- terminates (zoom _) => apply terminates_zoom end
    | match goal with |- terminates (match ?x with _ => _ end) => destruct x end ].
