(* ===== verification/Util.v ===== *)
(** * Util: [router/util.c] and [router/util.h]

    The hex dump used for unsupported control packets, and the arithmetic
    macros.  [print_hex_dump] returns the lines it hands to [printf] (the
    offset and the text of each), since [printf] itself is the C library's. *)

From S2P Require Import Prelude.

(** [MIN]/[MAX] on operands of one type. *)
Definition MIN (x y : Z) : Z := if x <? y then x else y.
Definition MAX (x y : Z) : Z := if x >? y then x else y.

(** [BITS_TO_BYTES(n)] for an [uint32_t] operand, where the sum wraps, and for
    an [uint16_t] operand, which is promoted to [int] and does not. *)
Definition BITS_TO_BYTES (n : Z) : Z := u32 (n + 7) / 8.
Definition BITS_TO_BYTES_16 (n : Z) : Z := (n + 7) / 8.

Definition to_hex (ch : Z) : Z :=
  let ch := Z.land ch 15 in
  if ch <=? 9 then 48 + ch else 97 + ch - 10.

(** [isprint] in the C locale. *)
Definition isprint (ch : Z) : bool := (32 <=? ch) && (ch <=? 126).

Definition hex_columns (ch : Z) : bytes := [to_hex (Z.shiftr ch 4); to_hex ch; 32].

(** One line of at most 16 bytes: the three loops of [print_hex_dump], each
    appending to [line], an array of [16 * 3 + 16 + 1] chars, and the
    terminating zero. *)
Definition hex_dump_line (chunk : bytes) : outcome bytes :=
  let line :=
    (chunk ≫= hex_columns) ++
    replicate (3 * (16 - length chunk)) 32 ++
    ((fun ch => if isprint ch then ch else 46) <$> chunk) ++ [0] in
  if zlen line <=? 16 * 3 + 16 + 1 then Done line else UB.

Fixpoint hex_dump_loop (fuel : nat) (i : Z) (buf : bytes) : outcome (list (Z * bytes)) :=
  match fuel with
  | O => Spin
  | S fuel =>
      if i <? zlen buf then
        let linelen := MIN 16 (zlen buf - i) in
        line ← hex_dump_line (slice buf i linelen);
        rest ← hex_dump_loop fuel (i + 16) buf;
        Done ((i, line) :: rest)
      else Done []
  end.

Definition print_hex_dump (buf : bytes) : outcome (list (Z * bytes)) :=
  hex_dump_loop (S (length buf)) 0 buf.

(** ** Properties *)

Lemma MIN_min x y : MIN x y = Z.min x y.
Proof. unfold MIN. destruct (x <? y) eqn:E; lia. Qed.

Lemma MAX_max x y : MAX x y = Z.max x y.
Proof. unfold MAX. destruct (x >? y) eqn:E; lia. Qed.

Lemma BITS_TO_BYTES_16_small n : 0 <= n < 2 ^ 32 - 7 -> BITS_TO_BYTES n = BITS_TO_BYTES_16 n.
Proof. intros. unfold BITS_TO_BYTES, BITS_TO_BYTES_16. rewrite u32_id; lia. Qed.

Lemma BITS_TO_BYTES_16_bound n k : 0 <= n <= 8 * k -> 0 <= BITS_TO_BYTES_16 n <= k.
Proof.
  intros. unfold BITS_TO_BYTES_16. split; [apply Z.div_pos; lia|].
  apply Z.lt_succ_r, Z.div_lt_upper_bound; lia.
Qed.

(** Reading a hex digit back. *)
Definition of_hex (c : Z) : Z := if c <=? 57 then c - 48 else c - 97 + 10.

Lemma of_to_hex ch : of_hex (to_hex ch) = ch mod 16.
Proof.
  unfold of_hex, to_hex. change 15 with (Z.ones 4). rewrite Z.land_ones by lia.
  change (2 ^ 4) with 16. pose proof (Z.mod_pos_bound ch 16).
  destruct (ch mod 16 <=? 9) eqn:E1; case_match; lia.
Qed.

Definition of_columns (c : bytes) : Z :=
  match c with
  | hi :: lo :: _ => 16 * of_hex hi + of_hex lo
  | _ => 0
  end.

Lemma of_hex_columns ch : is_byte ch -> of_columns (hex_columns ch) = ch.
Proof.
  unfold is_byte. intros. unfold hex_columns, of_columns. rewrite !of_to_hex.
  rewrite Z.shiftr_div_pow2 by lia. change (2 ^ 4) with 16.
  rewrite (Z.mod_small (ch / 16)); [pose proof (Z.div_mod ch 16); lia|].
  split; [apply Z.div_pos; lia | apply Z.div_lt_upper_bound; lia].
Qed.

(** What a reader of the dump recovers from a line: the byte in the [j]-th
    group of three columns. *)
Definition line_byte (line : bytes) (j : nat) : Z := of_columns (drop (3 * j) line).

Lemma of_columns_app ch k : of_columns (hex_columns ch ++ k) = of_columns (hex_columns ch).
Proof. done. Qed.

Lemma drop_columns chunk j ch k :
  chunk !! j = Some ch ->
  exists k', drop (3 * j) ((chunk ≫= hex_columns) ++ k) = hex_columns ch ++ k'.
Proof.
  revert j. induction chunk as [|c chunk IH]; intros j; [done|].
  destruct j as [|j]; cbn [lookup list_lookup]; intros E.
  - injection E as ->. change (3 * 0)%nat with 0%nat. rewrite drop_0. eexists.
    by rewrite bind_cons, <- app_assoc.
  - destruct (IH j E) as [k' Hk]. exists k'. rewrite <- Hk.
    by replace (3 * S j)%nat with (S (S (S (3 * j)))) by lia.
Qed.

Lemma line_byte_correct chunk line j ch :
  bytes_ok chunk -> hex_dump_line chunk = Done line -> chunk !! j = Some ch ->
  line_byte line j = ch.
Proof.
  intros Hok. unfold hex_dump_line. case_match; [|done]. intros [= <-] Hj.
  unfold line_byte.
  match goal with |- context [_ ++ ?k] => destruct (drop_columns chunk j ch k Hj) as [k' E] end.
  setoid_rewrite E.
  rewrite of_columns_app. apply of_hex_columns. by apply (Forall_lookup_1 _ _ _ _ Hok Hj).
Qed.

Lemma zlen_columns chunk : zlen (chunk ≫= hex_columns) = 3 * zlen chunk.
Proof. induction chunk; [done|]. rewrite bind_cons, zlen_app, IHchunk, zlen_cons.
  change (zlen (hex_columns a)) with 3. lia. Qed.

Lemma hex_dump_line_ok chunk :
  zlen chunk <= 16 -> exists line, hex_dump_line chunk = Done line /\ zlen line = 49 + zlen chunk.
Proof.
  intros. unfold hex_dump_line.
  match goal with |- context [zlen ?l <=? _] => assert (zlen l = 49 + zlen chunk) as Hl end.
  { rewrite !zlen_app, zlen_columns. unfold zlen in *. rewrite length_replicate, length_fmap.
    cbn [length]. lia. }
  rewrite Hl. destruct (Z.leb_spec (49 + zlen chunk) (16 * 3 + 16 + 1)); [eauto|lia].
Qed.

Lemma hex_dump_loop_correct fuel i buf :
  bytes_ok buf -> 0 <= i -> (0 < fuel)%nat -> zlen buf - i <= 16 * (Z.of_nat fuel - 1) ->
  exists lines, hex_dump_loop fuel i buf = Done lines /\
    forall k ch, i <= Z.of_nat k -> buf !! k = Some ch ->
      exists n line, lines !! n = Some (i + 16 * Z.of_nat n, line) /\
        Z.of_nat n = (Z.of_nat k - i) / 16 /\
        line_byte line (Z.to_nat ((Z.of_nat k - i) mod 16)) = ch.
Proof.
  intros Hok. revert i. induction fuel as [|fuel IH]; intros i Hi H0 Hfuel; [lia|].
  cbn [hex_dump_loop].
  destruct (Z.ltb_spec i (zlen buf)).
  2:{ exists []; split; [done|]. intros k ch Hk Hb. apply lookup_lt_Some in Hb.
      unfold zlen in *; lia. }
  set (n := MIN 16 (zlen buf - i)). assert (n = Z.min 16 (zlen buf - i)) by apply MIN_min.
  pose proof (zlen_slice buf i n ltac:(lia) ltac:(lia) ltac:(lia)) as Hs.
  destruct (hex_dump_line_ok (slice buf i n)) as [line [El _]]; [lia|].
  destruct (IH (i + 16) ltac:(lia) ltac:(lia) ltac:(lia)) as [lines [Er Hr]].
  exists ((i, line) :: lines). rewrite El. cbn. rewrite Er. split; [done|].
  intros k ch Hk Hb. destruct (decide (Z.of_nat k < i + 16)).
  - exists 0%nat, line. cbn. rewrite Z.add_0_r. split; [done|].
    rewrite Z.div_small, Z.mod_small by lia. split; [done|].
    apply (line_byte_correct (slice buf i n)); auto with diag.
    unfold slice. pose proof (lookup_lt_Some _ _ _ Hb).
    rewrite lookup_take_lt, lookup_drop by (unfold zlen in *; lia).
    rewrite <- Hb. f_equal; lia.
  - destruct (Hr k ch ltac:(lia) Hb) as (m & l & Hm & Hq & Hl).
    exists (S m), l. cbn [lookup list_lookup].
    replace (Z.of_nat k - i) with (Z.of_nat k - (i + 16) + 1 * 16) by lia.
    rewrite Z.div_add, Z.mod_add by lia. repeat split; [|lia|done].
    change ((lines !! m) = Some (i + 16 * Z.of_nat (S m), l)). rewrite Hm. do 2 f_equal. lia.
Qed.

Lemma hex_dump_loop_no_spin fuel i buf :
  0 <= i -> zlen buf - i <= 16 * (Z.of_nat fuel - 1) -> (0 < fuel)%nat -> hex_dump_loop fuel i buf <> Spin.
Proof.
  revert i. induction fuel as [|fuel IH]; intros i Hi Hf H0; [lia|]. cbn [hex_dump_loop].
  destruct (Z.ltb_spec i (zlen buf)); [|done].
  unfold hex_dump_line. case_match; cbn [mbind outcome_bind]; [|done].
  specialize (IH (i + 16) ltac:(lia)). destruct fuel as [|fuel]; [lia|].
  specialize (IH ltac:(lia) ltac:(lia)). by destruct (hex_dump_loop (S fuel) (i + 16) buf).
Qed.

Lemma print_hex_dump_no_spin buf : print_hex_dump buf <> Spin.
Proof. unfold print_hex_dump. apply hex_dump_loop_no_spin; unfold zlen; lia. Qed.
#[export] Hint Resolve print_hex_dump_no_spin : term.

(** [print_hex_dump] never writes outside its line buffer, prints lines at
    offsets 0, 16, 32, ..., and its hex columns lose nothing: the byte at
    index [k] of the buffer is the one printed in column [k mod 16] of line
    [k / 16]. *)
Lemma print_hex_dump_roundtrip buf :
  bytes_ok buf ->
  exists lines, print_hex_dump buf = Done lines /\
    forall k ch, buf !! k = Some ch ->
      exists n line, Z.of_nat n = Z.of_nat k / 16 /\
        lines !! n = Some (16 * Z.of_nat n, line) /\
        line_byte line (Z.to_nat (Z.of_nat k mod 16)) = ch.
Proof.
  intros Hok. unfold print_hex_dump.
  destruct (hex_dump_loop_correct (S (length buf)) 0 buf) as [lines [E H]];
    [done|lia|lia|unfold zlen; lia|].
  exists lines. split; [done|]. intros k ch Hk.
  destruct (H k ch ltac:(lia) Hk) as (n & line & Hn & Hq & Hl).
  rewrite Z.sub_0_r in *. by exists n, line.
Qed.

Lemma print_hex_dump_roundtrip_witness :
  bytes_ok [0xde; 0xad] /\ exists lines, print_hex_dump [0xde; 0xad] = Done lines /\
    forall k ch, [0xde; 0xad] !! k = Some ch ->
      exists n line, Z.of_nat n = Z.of_nat k / 16 /\
        lines !! n = Some (16 * Z.of_nat n, line) /\
        line_byte line (Z.to_nat (Z.of_nat k mod 16)) = ch.
Proof.
  split; [by repeat constructor|]. apply (print_hex_dump_roundtrip [0xde; 0xad]). by repeat constructor.
Defined.
