(* ===== verification/CircBuf.v ===== *)
(** * CircBuf: [router/circ_buf.c] and [router/circ_buf.h]

    The receive ring.  [circ_read] is proved against the interface
    [FileDesc] of a descriptor, and refines appending to a FIFO. *)

From S2P Require Import Prelude Util.

Definition HDLC_BUF_SIZE : Z := 16384.

Record circ_buf := CircBuf { cb_buf : bytes; cb_head : Z; cb_tail : Z }.

Definition CIRC_SPACE (b : circ_buf) : Z :=
  Z.land (u64 (cb_tail b - cb_head b - 1)) (HDLC_BUF_SIZE - 1).

Definition CIRC_SPACE_TO_END (b : circ_buf) : Z :=
  MIN (CIRC_SPACE b) (u64 (HDLC_BUF_SIZE - cb_head b)).

(** [read(2)] on a non-blocking descriptor: an [errno], or at most as many
    bytes as asked for (none at the end of the file).  [fd_can_read f d f']
    says that [f] has handed out [d] and become [f']. *)
Class FileDesc (F : Type) := {
  fd_read : F -> Z -> (Z + bytes) * F;
  fd_read_short f n d f' : 0 <= n -> fd_read f n = (inr d, f') -> zlen d <= n;
  fd_read_bytes f n d f' : fd_read f n = (inr d, f') -> bytes_ok d }.

(** What [circ_read] returns: a negative [n] with its [errno], or 0. *)
Definition ssize := (Z + unit)%type.

Fixpoint circ_read_loop {F} `{!FileDesc F} (fuel : nat) (fd : F) (buf : circ_buf)
    : outcome (ssize * F * circ_buf) :=
  match fuel with
  | O => Spin
  | S fuel =>
      let space := CIRC_SPACE_TO_END buf in
      if space =? 0 then Done (inr tt, fd, buf) else
      match fd_read fd space with
      | (inl errno, fd) => Done (inl errno, fd, buf)
      | (inr d, fd) =>
          mem ← mem_write (cb_buf buf) (cb_head buf) d;
          let n := zlen d in
          let buf := CircBuf mem (Z.land (cb_head buf + n) (HDLC_BUF_SIZE - 1)) (cb_tail buf) in
          if n =? space then circ_read_loop fuel fd buf else Done (inr tt, fd, buf)
      end
  end.

(** Three rounds are enough: fill to the end of the array, fill the start,
    find no space ([circ_read_ok]). *)
Definition circ_read {F} `{!FileDesc F} (fd : F) (buf : circ_buf) :
    outcome (ssize * F * circ_buf) := circ_read_loop 3 fd buf.

(** ** The FIFO a ring stands for *)

Definition circ_wf (b : circ_buf) : Prop :=
  zlen (cb_buf b) = HDLC_BUF_SIZE /\
  0 <= cb_head b < HDLC_BUF_SIZE /\ 0 <= cb_tail b < HDLC_BUF_SIZE.

(** The bytes waiting in the ring, oldest first. *)
Definition circ_used (b : circ_buf) : Z := (cb_head b - cb_tail b) mod HDLC_BUF_SIZE.

Definition circ_at (mem : bytes) (i : Z) : Z := mem !!! Z.to_nat (i mod HDLC_BUF_SIZE).

Definition circ_contents (b : circ_buf) : bytes :=
  circ_at (cb_buf b) <$> seqZ (cb_tail b) (circ_used b).

Lemma circ_mask z : 0 <= z -> Z.land z (HDLC_BUF_SIZE - 1) = z mod HDLC_BUF_SIZE.
Proof.
  intros. change (HDLC_BUF_SIZE - 1) with (Z.ones 14). by rewrite Z.land_ones by lia.
Qed.

Lemma CIRC_SPACE_eq b :
  circ_wf b -> CIRC_SPACE b = HDLC_BUF_SIZE - 1 - circ_used b.
Proof.
  intros (_ & Hh & Ht). unfold CIRC_SPACE, circ_used.
  rewrite circ_mask by apply u64_range.
  unfold u64, HDLC_BUF_SIZE in *. change (2 ^ 64) with (1125899906842624 * 16384).
  rewrite (Z.mul_comm 1125899906842624), Z.rem_mul_r by lia.
  rewrite (Z.mul_comm 16384), Z.mod_add, Z.mod_mod by lia.
  destruct (Z.ltb_spec (cb_head b) (cb_tail b)).
  - rewrite (Z.mod_small (cb_tail b - _ - 1)) by lia.
    replace (cb_head b - cb_tail b) with (cb_head b - cb_tail b + 16384 + -1 * 16384) by lia.
    rewrite Z.mod_add, Z.mod_small by lia. lia.
  - rewrite (Z.mod_small (cb_head b - _)) by lia.
    replace (cb_tail b - cb_head b - 1) with (cb_tail b - cb_head b - 1 + 16384 + -1 * 16384) by lia.
    rewrite Z.mod_add, Z.mod_small by lia. lia.
Qed.

Lemma circ_used_range b : 0 <= circ_used b < HDLC_BUF_SIZE.
Proof. apply Z.mod_pos_bound. unfold HDLC_BUF_SIZE; lia. Qed.

Lemma CIRC_SPACE_TO_END_eq b :
  circ_wf b ->
  CIRC_SPACE_TO_END b = Z.min (HDLC_BUF_SIZE - 1 - circ_used b) (HDLC_BUF_SIZE - cb_head b).
Proof.
  intros Hb. unfold CIRC_SPACE_TO_END. rewrite MIN_min, CIRC_SPACE_eq by done.
  destruct Hb as (_ & Hh & _). rewrite u64_id; [done|]. unfold HDLC_BUF_SIZE in *; lia.
Qed.

Lemma zlen_circ_contents b : zlen (circ_contents b) = circ_used b.
Proof.
  unfold circ_contents. rewrite zlen_fmap. unfold zlen. rewrite length_seqZ.
  pose proof (circ_used_range b). lia.
Qed.
#[export] Hint Rewrite zlen_circ_contents : zlen.

(** Shifting a run of indices by whole turns of the ring changes nothing. *)
Lemma circ_at_mod mem i n :
  circ_at mem <$> seqZ (i mod HDLC_BUF_SIZE) n = circ_at mem <$> seqZ i n.
Proof.
  apply list_eq. intros k. rewrite !list_lookup_fmap.
  destruct (decide (Z.of_nat k < n)).
  - rewrite !lookup_seqZ_lt by done. cbn. unfold circ_at.
    rewrite Zplus_mod_idemp_l. done.
  - rewrite !lookup_seqZ_ge by lia. done.
Qed.

(** Taking the oldest byte. *)
Lemma circ_contents_pop b :
  circ_wf b -> cb_tail b <> cb_head b ->
  exists ch, cb_buf b !! Z.to_nat (cb_tail b) = Some ch /\
    circ_contents b = ch :: circ_contents
      (CircBuf (cb_buf b) (cb_head b) ((cb_tail b + 1) mod HDLC_BUF_SIZE)).
Proof.
  intros (Hl & Hh & Ht) Hne.
  destruct (lookup_lt_is_Some_2 (cb_buf b) (Z.to_nat (cb_tail b))) as [ch Hch];
    [unfold zlen, HDLC_BUF_SIZE in *; lia|].
  exists ch. split; [done|]. unfold circ_contents, circ_used. cbn.
  assert (0 < (cb_head b - cb_tail b) mod HDLC_BUF_SIZE) as Hpos.
  { pose proof (Z.mod_pos_bound (cb_head b - cb_tail b) HDLC_BUF_SIZE ltac:(done)).
    destruct (decide ((cb_head b - cb_tail b) mod HDLC_BUF_SIZE = 0)) as [E|]; [|lia].
    apply Z.mod_divide in E; [|done]. destruct E as [q Hq]. unfold HDLC_BUF_SIZE in *. nia. }
  rewrite seqZ_cons by done. rewrite fmap_cons. f_equal.
  - unfold circ_at. rewrite Z.mod_small by done. by apply list_lookup_total_correct.
  - rewrite circ_at_mod. do 2 f_equal.
    rewrite Zminus_mod_idemp_r.
    replace (cb_head b - (cb_tail b + 1)) with (cb_head b - cb_tail b - 1) by lia.
    rewrite <- (Zminus_mod_idemp_l (cb_head b - cb_tail b)).
    rewrite (Z.mod_small (_ - 1)); [lia|].
    pose proof (Z.mod_pos_bound (cb_head b - cb_tail b) HDLC_BUF_SIZE ltac:(done)). lia.
Qed.

Lemma circ_contents_empty b : circ_wf b -> cb_tail b = cb_head b -> circ_contents b = [].
Proof.
  intros _ E. unfold circ_contents, circ_used. by rewrite E, Z.sub_diag.
Qed.

Lemma circ_used_cases b :
  circ_wf b ->
  circ_used b = if cb_tail b <=? cb_head b then cb_head b - cb_tail b
                else cb_head b - cb_tail b + HDLC_BUF_SIZE.
Proof.
  intros (_ & Hh & Ht). unfold circ_used, HDLC_BUF_SIZE in *.
  destruct (Z.leb_spec (cb_tail b) (cb_head b)); [apply Z.mod_small; lia|].
  rewrite <- (Z.mod_add _ 1) by lia. rewrite Z.mod_small; lia.
Qed.

Lemma mod_cases i : 0 <= i < 2 * HDLC_BUF_SIZE ->
  i mod HDLC_BUF_SIZE = if i <? HDLC_BUF_SIZE then i else i - HDLC_BUF_SIZE.
Proof.
  unfold HDLC_BUF_SIZE. intros. destruct (Z.ltb_spec i 16384); [apply Z.mod_small; lia|].
  replace i with (i - 16384 + 1 * 16384) at 1 by lia. rewrite Z.mod_add, Z.mod_small; lia.
Qed.

(** Storing [d] at the head appends [d] to the FIFO. *)
Lemma circ_contents_push b d :
  circ_wf b -> zlen d <= CIRC_SPACE_TO_END b ->
  let b' := CircBuf (splice (cb_buf b) (cb_head b) d)
              ((cb_head b + zlen d) mod HDLC_BUF_SIZE) (cb_tail b) in
  circ_wf b' /\ circ_used b' = circ_used b + zlen d /\
  circ_contents b' = circ_contents b ++ d.
Proof.
  intros Hb Hd b'. rewrite CIRC_SPACE_TO_END_eq in Hd by done.
  pose proof (circ_used_cases b Hb) as Hu. destruct Hb as (Hl & Hh & Ht).
  pose proof (zlen_nonneg d) as Hd0. pose proof (circ_used_range b) as Hur.
  assert (circ_wf b') as Hb'.
  { split; [|split]; cbn; [rewrite zlen_splice by lia; done | | done].
    apply Z.mod_pos_bound. unfold HDLC_BUF_SIZE; lia. }
  assert (circ_used b' = circ_used b + zlen d) as Hu'.
  { rewrite circ_used_cases by done. cbn.
    rewrite mod_cases by (unfold HDLC_BUF_SIZE in *; lia).
    repeat case_match; unfold HDLC_BUF_SIZE in *; lia. }
  split; [done|]. split; [done|]. unfold circ_contents. rewrite Hu'.
  rewrite seqZ_app, fmap_app by lia. f_equal; apply list_eq; intros k.
  - rewrite !list_lookup_fmap. destruct (decide (Z.of_nat k < circ_used b)).
    2: by rewrite !lookup_seqZ_ge by lia.
    rewrite !lookup_seqZ_lt by done. cbn. unfold circ_at.
    rewrite !list_lookup_total_alt, splice_lookup_out; [done|lia|lia|].
    rewrite mod_cases by (unfold HDLC_BUF_SIZE in *; lia).
    repeat case_match; unfold HDLC_BUF_SIZE in *; lia.
  - rewrite list_lookup_fmap. destruct (decide (Z.of_nat k < zlen d)).
    2:{ rewrite lookup_seqZ_ge, lookup_ge_None_2 by (unfold zlen in *; lia). done. }
    rewrite lookup_seqZ_lt by done. cbn. unfold circ_at.
    rewrite mod_cases by (unfold HDLC_BUF_SIZE in *; lia).
    destruct (lookup_lt_is_Some_2 d k) as [x Hx]; [unfold zlen in *; lia|]. rewrite Hx.
    rewrite list_lookup_total_alt, splice_lookup_in;
      [|lia|lia|repeat case_match; unfold HDLC_BUF_SIZE in *; lia].
    f_equal. replace (Z.to_nat _) with k; [by rewrite Hx|].
    repeat case_match; unfold HDLC_BUF_SIZE in *; lia.
Qed.

(** ** What [circ_read] does *)

Section circ_read.
Context {F} `{!FileDesc F}.

(** [fd_reads f d f']: successive reads take [f] to [f'] and return [d]. *)
Inductive fd_reads : F -> bytes -> F -> Prop :=
| fd_reads_none f : fd_reads f [] f
| fd_reads_some f n d f' ds f'' :
    fd_read f n = (inr d, f') -> fd_reads f' ds f'' -> fd_reads f (d ++ ds) f''.

(** Why [circ_read] stopped: the ring is full, the descriptor returned less
    than asked for, or it failed. *)
Definition circ_stop (r : ssize) (f0 : F) (d : bytes) (f' : F) (b' : circ_buf) : Prop :=
  match r with
  | inr _ =>
      fd_reads f0 d f' /\
      (CIRC_SPACE b' = 0 \/
       exists f1 d1 n d2, fd_reads f0 d1 f1 /\ fd_read f1 n = (inr d2, f') /\
         d = d1 ++ d2 /\ zlen d2 < n)
  | inl e => exists f1 n, fd_reads f0 d f1 /\ fd_read f1 n = (inl e, f')
  end.

Definition rounds (b : circ_buf) : nat :=
  if CIRC_SPACE b =? 0 then 1 else if CIRC_SPACE b <=? HDLC_BUF_SIZE - cb_head b then 2 else 3.

Lemma fd_reads_snoc f d f' n d' f'' :
  fd_reads f d f' -> fd_read f' n = (inr d', f'') -> fd_reads f (d ++ d') f''.
Proof.
  induction 1 as [f|f m e g ds g' E H IH]; intros Hr.
  - rewrite app_nil_l, <- (app_nil_r d'). eapply fd_reads_some; [done|constructor].
  - rewrite <- app_assoc. eapply fd_reads_some; [done|]. by apply IH.
Qed.

(** After a read that filled the space up to the end of the array, one
    round less remains. *)
Lemma rounds_decrease b d :
  circ_wf b -> 0 < CIRC_SPACE_TO_END b -> zlen d = CIRC_SPACE_TO_END b ->
  let b' := CircBuf (splice (cb_buf b) (cb_head b) d)
              ((cb_head b + zlen d) mod HDLC_BUF_SIZE) (cb_tail b) in
  (rounds b' < rounds b)%nat.
Proof.
  intros Hb Hpos Hd b'.
  destruct (circ_contents_push b d Hb ltac:(lia)) as (Hb' & Hu & _). fold b' in Hb', Hu.
  rewrite CIRC_SPACE_TO_END_eq in * by done. unfold rounds.
  rewrite (CIRC_SPACE_eq b), (CIRC_SPACE_eq b') by done. rewrite Hu.
  destruct Hb as (_ & Hh & Ht). destruct Hb' as (_ & Hh' & _).
  pose proof (circ_used_range b). pose proof (circ_used_range b').
  assert (HDLC_BUF_SIZE - cb_head b < HDLC_BUF_SIZE - 1 - circ_used b -> cb_head b' = 0).
  { intros. subst b'. cbn. rewrite mod_cases by (unfold HDLC_BUF_SIZE in *; lia).
    case_match; unfold HDLC_BUF_SIZE in *; lia. }
  repeat case_match; unfold HDLC_BUF_SIZE in *; lia.
Qed.

Lemma circ_read_loop_correct fuel f0 d0 f b :
  circ_wf b -> bytes_ok (cb_buf b) -> (rounds b <= fuel)%nat -> fd_reads f0 d0 f ->
  exists r f' b' d, circ_read_loop fuel f b = Done (r, f', b') /\
    circ_wf b' /\ bytes_ok (cb_buf b') /\ cb_tail b' = cb_tail b /\
    circ_contents b' = circ_contents b ++ d /\ circ_stop r f0 (d0 ++ d) f' b'.
Proof.
  revert f0 d0 f b. induction fuel as [|fuel IH]; intros f0 d0 f b Hb Hok Hr Hf0.
  { unfold rounds in Hr. repeat case_match; lia. }
  cbn [circ_read_loop]. pose proof (CIRC_SPACE_TO_END_eq b Hb) as Hsp.
  pose proof (circ_used_range b). pose proof (CIRC_SPACE_eq b Hb) as Hspc. pose proof Hb as (Hl & Hh & Ht).
  destruct (Z.eqb_spec (CIRC_SPACE_TO_END b) 0) as [Hz|Hz].
  { exists (inr tt), f, b, []. rewrite !app_nil_r. repeat split; try done; try lia. }
  destruct (fd_read f (CIRC_SPACE_TO_END b)) as [[e|d] f'] eqn:Hrd.
  { exists (inl e), f', b, []. rewrite !app_nil_r. repeat split; try done; try lia.
    exists f, (CIRC_SPACE_TO_END b). done. }
  assert (zlen d <= CIRC_SPACE_TO_END b) as Hd by (eapply fd_read_short; [|exact Hrd]; lia).
  pose proof (zlen_nonneg d).
  rewrite mem_write_ok by lia. cbn [mbind outcome_bind].
  rewrite circ_mask by lia.
  destruct (circ_contents_push b d) as (Hb' & Hu' & Hc'); [done|lia|].
  set (b1 := CircBuf _ _ _) in *.
  pose proof (fd_reads_snoc _ _ _ _ _ _ Hf0 Hrd) as Hf1.
  assert (bytes_ok (cb_buf b1)) by (apply bytes_ok_splice; [done|by eapply fd_read_bytes]).
  destruct (Z.eqb_spec (zlen d) (CIRC_SPACE_TO_END b)) as [Hfull|Hshort].
  - destruct (IH f0 (d0 ++ d) f' b1) as (r & f2 & b2 & d2 & E & Hwf & Hok2 & Ht2 & Hc2 & Hst);
      [done|done| |done|].
    { pose proof (rounds_decrease b d Hb ltac:(lia) Hfull) as Hdec. cbv zeta in Hdec. fold b1 in Hdec. lia. }
    exists r, f2, b2, (d ++ d2). rewrite E, Hc2, Hc', (app_assoc d0), app_assoc.
    by rewrite Ht2.
  - exists (inr tt), f', b1, d. repeat split; try done; try (by apply Hb').
    right. exists f, d0, (CIRC_SPACE_TO_END b), d. repeat split; try done; lia.
Qed.

Lemma circ_read_ok f b :
  circ_wf b -> bytes_ok (cb_buf b) ->
  exists r f' b' d, circ_read f b = Done (r, f', b') /\
    circ_wf b' /\ bytes_ok (cb_buf b') /\
    circ_contents b' = circ_contents b ++ d /\ circ_stop r f d f' b'.
Proof.
  intros Hb Hok.
  destruct (circ_read_loop_correct 3 f [] f b Hb Hok) as (r & f' & b' & d & H);
    [unfold rounds; repeat case_match; lia | constructor |].
  exists r, f', b', d. cbn in H. tauto.
Qed.

(** When a read fails, nothing was read before it, or the reads before it
    filled the array exactly to its end. *)
Lemma circ_read_loop_error fuel f b e f' b' :
  circ_wf b -> circ_read_loop fuel f b = Done (inl e, f', b') ->
  (b' = b /\ CIRC_SPACE_TO_END b <> 0) \/ cb_head b' = 0.
Proof.
  revert f b. induction fuel as [|fuel IH]; intros f b Hb; [done|]. cbn [circ_read_loop].
  pose proof (CIRC_SPACE_TO_END_eq b Hb) as Hsp. pose proof (circ_used_range b). pose proof Hb as (Hl & Hh & Ht).
  destruct (Z.eqb_spec (CIRC_SPACE_TO_END b) 0) as [Hz|Hz]; [done|].
  destruct (fd_read f (CIRC_SPACE_TO_END b)) as [[e'|d] f1] eqn:Hrd; [intros [= -> -> ->]; by left|].
  assert (zlen d <= CIRC_SPACE_TO_END b) as Hd by (eapply fd_read_short; [|exact Hrd]; lia).
  pose proof (zlen_nonneg d). rewrite mem_write_ok by lia. cbn [mbind outcome_bind]. rewrite circ_mask by lia.
  destruct (circ_contents_push b d) as (Hb' & Hu' & Hc'); [done|lia|]. set (b1 := CircBuf _ _ _) in *.
  destruct (Z.eqb_spec (zlen d) (CIRC_SPACE_TO_END b)) as [Hfull|Hshort]; [|done].
  intros [[-> Hne]|?]%IH; [|by right|done]. right.
  rewrite CIRC_SPACE_TO_END_eq in Hne by done. pose proof Hb' as (_ & Hh' & _). rewrite Hu' in Hne.
  destruct (decide (HDLC_BUF_SIZE - cb_head b <= HDLC_BUF_SIZE - 1 - circ_used b)); [|lia].
  subst b1. cbn. replace (cb_head b + zlen d) with HDLC_BUF_SIZE by lia. by apply Z_mod_same_full.
Qed.
End circ_read.

(** C26 [circ_read] always returns, within three reads, keeps the ring
    well formed, and refines appending to a FIFO: the bytes it adds behind the
    ones already waiting are exactly the bytes the descriptor handed out, in
    order.  It returns 0 only when the ring is full or a read came back short,
    and a negative value only for a failed read. *)
Theorem circ_read_fifo {F} `{!FileDesc F} (f : F) b :
  circ_wf b -> bytes_ok (cb_buf b) ->
  exists r f' b' d, circ_read f b = Done (r, f', b') /\
    circ_wf b' /\ bytes_ok (cb_buf b') /\
    circ_contents b' = circ_contents b ++ d /\ circ_stop r f d f' b'.
Proof. apply circ_read_ok. Qed.

(** ** A ring as [calloc] leaves it, and a descriptor fed from a script *)

Definition circ_zero : circ_buf := CircBuf (replicate (Z.to_nat HDLC_BUF_SIZE) 0) 0 0.

Lemma circ_zero_wf : circ_wf circ_zero /\ bytes_ok (cb_buf circ_zero).
Proof.
  split; [split; [|split]|]; cbn [circ_zero cb_buf cb_head cb_tail].
  - rewrite zlen_replicate. unfold HDLC_BUF_SIZE; lia.
  - unfold HDLC_BUF_SIZE; lia.
  - unfold HDLC_BUF_SIZE; lia.
  - apply bytes_ok_replicate. unfold is_byte; lia.
Qed.

Definition EAGAIN : Z := 11.

(** A stream descriptor: the chunks and errors still to come; a chunk longer
    than the request leaves its rest for the next read. *)
Definition script_read (f : list (Z + bytes)) (n : Z) : (Z + bytes) * list (Z + bytes) :=
  match f with
  | [] => (inl EAGAIN, [])
  | inl e :: f => (inl e, f)
  | inr d :: f =>
      if zlen d <=? n then (inr (u8 <$> d), f)
      else (inr (u8 <$> take (Z.to_nat n) d), inr (drop (Z.to_nat n) d) :: f)
  end.

#[export] Program Instance script_fd : FileDesc (list (Z + bytes)) := {| fd_read := script_read |}.
Next Obligation.
  intros [|[e|c] f] n d f' Hn; cbn; [done..|]. case_match; intros [= <- <-]; zlia.
Qed.
Next Obligation.
  intros [|[e|c] f] n d f'; cbn; [done..|].
  case_match; intros [= <- <-]; apply Forall_fmap, Forall_true; intros; apply u8_is_byte.
Qed.

Lemma circ_read_fifo_witness :
  circ_wf circ_zero /\
  exists r f' b' d, circ_read [inr [1; 2; 3]] circ_zero = Done (r, f', b') /\
    circ_wf b' /\ bytes_ok (cb_buf b') /\
    circ_contents b' = circ_contents circ_zero ++ d /\ circ_stop r [inr [1; 2; 3]] d f' b'.
Proof.
  split; [apply circ_zero_wf|]. apply (circ_read_fifo [inr [1; 2; 3]] circ_zero); apply circ_zero_wf.
Defined.
