(* ===== verification/Hdlc.v ===== *)
(** * Hdlc: [router/hdlc.c] and [router/hdlc.h]

    The CRC, the encoder and the streaming decoder.  The table-driven CRC is
    proved equal to the bitwise reversed CRC-CCITT-16; the decoder refines a
    pure scanner of the byte stream; decoding an encoded message gives the
    message back. *)

From S2P Require Import Prelude CircBuf.

Definition crc_table : list Z := [
  0x0000; 0x1189; 0x2312; 0x329b; 0x4624; 0x57ad; 0x6536; 0x74bf; 0x8c48;
  0x9dc1; 0xaf5a; 0xbed3; 0xca6c; 0xdbe5; 0xe97e; 0xf8f7; 0x1081; 0x0108;
  0x3393; 0x221a; 0x56a5; 0x472c; 0x75b7; 0x643e; 0x9cc9; 0x8d40; 0xbfdb;
  0xae52; 0xdaed; 0xcb64; 0xf9ff; 0xe876; 0x2102; 0x308b; 0x0210; 0x1399;
  0x6726; 0x76af; 0x4434; 0x55bd; 0xad4a; 0xbcc3; 0x8e58; 0x9fd1; 0xeb6e;
  0xfae7; 0xc87c; 0xd9f5; 0x3183; 0x200a; 0x1291; 0x0318; 0x77a7; 0x662e;
  0x54b5; 0x453c; 0xbdcb; 0xac42; 0x9ed9; 0x8f50; 0xfbef; 0xea66; 0xd8fd;
  0xc974; 0x4204; 0x538d; 0x6116; 0x709f; 0x0420; 0x15a9; 0x2732; 0x36bb;
  0xce4c; 0xdfc5; 0xed5e; 0xfcd7; 0x8868; 0x99e1; 0xab7a; 0xbaf3; 0x5285;
  0x430c; 0x7197; 0x601e; 0x14a1; 0x0528; 0x37b3; 0x263a; 0xdecd; 0xcf44;
  0xfddf; 0xec56; 0x98e9; 0x8960; 0xbbfb; 0xaa72; 0x6306; 0x728f; 0x4014;
  0x519d; 0x2522; 0x34ab; 0x0630; 0x17b9; 0xef4e; 0xfec7; 0xcc5c; 0xddd5;
  0xa96a; 0xb8e3; 0x8a78; 0x9bf1; 0x7387; 0x620e; 0x5095; 0x411c; 0x35a3;
  0x242a; 0x16b1; 0x0738; 0xffcf; 0xee46; 0xdcdd; 0xcd54; 0xb9eb; 0xa862;
  0x9af9; 0x8b70; 0x8408; 0x9581; 0xa71a; 0xb693; 0xc22c; 0xd3a5; 0xe13e;
  0xf0b7; 0x0840; 0x19c9; 0x2b52; 0x3adb; 0x4e64; 0x5fed; 0x6d76; 0x7cff;
  0x9489; 0x8500; 0xb79b; 0xa612; 0xd2ad; 0xc324; 0xf1bf; 0xe036; 0x18c1;
  0x0948; 0x3bd3; 0x2a5a; 0x5ee5; 0x4f6c; 0x7df7; 0x6c7e; 0xa50a; 0xb483;
  0x8618; 0x9791; 0xe32e; 0xf2a7; 0xc03c; 0xd1b5; 0x2942; 0x38cb; 0x0a50;
  0x1bd9; 0x6f66; 0x7eef; 0x4c74; 0x5dfd; 0xb58b; 0xa402; 0x9699; 0x8710;
  0xf3af; 0xe226; 0xd0bd; 0xc134; 0x39c3; 0x284a; 0x1ad1; 0x0b58; 0x7fe7;
  0x6e6e; 0x5cf5; 0x4d7c; 0xc60c; 0xd785; 0xe51e; 0xf497; 0x8028; 0x91a1;
  0xa33a; 0xb2b3; 0x4a44; 0x5bcd; 0x6956; 0x78df; 0x0c60; 0x1de9; 0x2f72;
  0x3efb; 0xd68d; 0xc704; 0xf59f; 0xe416; 0x90a9; 0x8120; 0xb3bb; 0xa232;
  0x5ac5; 0x4b4c; 0x79d7; 0x685e; 0x1ce1; 0x0d68; 0x3ff3; 0x2e7a; 0xe70e;
  0xf687; 0xc41c; 0xd595; 0xa12a; 0xb0a3; 0x8238; 0x93b1; 0x6b46; 0x7acf;
  0x4854; 0x59dd; 0x2d62; 0x3ceb; 0x0e70; 0x1ff9; 0xf78f; 0xe606; 0xd49d;
  0xc514; 0xb1ab; 0xa022; 0x92b9; 0x8330; 0x7bc7; 0x6a4e; 0x58d5; 0x495c;
  0x3de3; 0x2c6a; 0x1ef1; 0x0f78 ].

Definition hdlc_crc_byte (crc ch : Z) : Z :=
  Z.lxor (Z.shiftr crc 8) (crc_table !!! Z.to_nat (Z.land (Z.lxor crc ch) 0xff)).

(** ** Encoding *)

(** One byte of the output loops: [0x7d] and [0x7e] are escaped. *)
Definition hdlc_escape (b : Z) : bytes :=
  if (b =? 0x7d) || (b =? 0x7e) then [0x7d; Z.lxor b 0x20] else [b].

Fixpoint hdlc_encode_loop (crc : Z) (s : bytes) : Z * bytes :=
  match s with
  | [] => (crc, [])
  | b :: s =>
      let '(crc, d) := hdlc_encode_loop (hdlc_crc_byte crc b) s in
      (crc, hdlc_escape b ++ d)
  end.

(** The two bytes of the frame check: [~crc & 0xff] and [~crc >> 8], where
    [~] acts on the promoted [int] and the result is stored in a [uint8_t]. *)
Definition hdlc_fcs (crc : Z) : bytes :=
  [u8 (Z.land (Z.lnot crc) 0xff); u8 (Z.shiftr (Z.lnot crc) 8)].

Definition hdlc_frame (src : bytes) : bytes :=
  let '(crc, d) := hdlc_encode_loop 0xffff src in
  d ++ (hdlc_fcs crc ≫= hdlc_escape) ++ [0x7e].

(** [hdlc_encode]: the frame, written into an object of [(slen + 2) * 2 + 1]
    bytes; [None] when the allocation fails. *)
Definition hdlc_encode {S} (src : bytes) : M S (option bytes) :=
  dst ← malloc ((zlen src + 2) * 2 + 1);
  match dst with
  | None => mret None
  | Some dst =>
      let out := hdlc_frame src in
      if zlen out <=? zlen dst then mret (Some out) else fail_ub
  end.

(** ** Decoding *)

(** [hd_raw] is the write position in [hd_raw_buf], [None] for a null
    pointer. *)
Record hdlc_decoder := HdlcDecoder { hd_raw_buf : bytes; hd_raw : option Z; hd_escape : Z }.

(** The [for (;;)] loop: consume bytes up to a flag ([true]) or until the ring
    is empty ([false]). *)
Fixpoint hdlc_decode_loop (fuel : nat) (h : hdlc_decoder) (raw : Z) (buf : circ_buf)
    : outcome (bool * hdlc_decoder * circ_buf) :=
  match fuel with
  | O => Spin
  | S fuel =>
      if cb_tail buf =? cb_head buf then
        Done (false, HdlcDecoder (hd_raw_buf h) (Some raw) (hd_escape h), buf)
      else
        c ← mem_read (cb_buf buf) (cb_tail buf) 1;
        let ch := le_dec c in
        let buf := CircBuf (cb_buf buf) (cb_head buf)
                     (Z.land (cb_tail buf + 1) (HDLC_BUF_SIZE - 1)) in
        if ch =? 0x7e then
          Done (true, HdlcDecoder (hd_raw_buf h) (Some raw) (hd_escape h), buf)
        else if ch =? 0x7d then
          hdlc_decode_loop fuel (HdlcDecoder (hd_raw_buf h) (Some raw) 0x20) raw buf
        else
          raw_buf ← mem_write (hd_raw_buf h) raw [Z.lxor ch (hd_escape h)];
          hdlc_decode_loop fuel (HdlcDecoder raw_buf (Some (raw + 1)) 0) (raw + 1) buf
  end.

(** The result is the value of [*msglen] when the returned pointer is
    [raw_buf], and [None] when it is null.  A frame of one byte makes [raw]
    point before [raw_buf], and [*msglen] is that difference as a [size_t].
    Every round of the loop moves [tail] one place, so a ring's worth of fuel
    is enough ([hdlc_decode_one_ok]). *)
Definition hdlc_decode_one (h : hdlc_decoder) (buf : circ_buf)
    : outcome (option Z * hdlc_decoder * circ_buf) :=
  let raw := default 0 (hd_raw h) in
  r ← hdlc_decode_loop (Z.to_nat HDLC_BUF_SIZE) h raw buf;
  let '(flag, h, buf) := r in
  if negb flag then Done (None, h, buf) else
  let raw := default 0 (hd_raw h) in
  if raw =? 0 then Done (None, h, buf) else
  Done (Some (u64 (raw - 2)), HdlcDecoder (hd_raw_buf h) (Some 0) 0, buf).

(** ** The CRC is CRC-CCITT-16 *)

(** One step of the reversed CRC with polynomial [x^16 + x^12 + x^5 + 1], whose
    bit-reversed representation is [0x8408]. *)
Definition crc_bit (x : Z) : Z :=
  if Z.odd x then Z.lxor (Z.shiftr x 1) 0x8408 else Z.shiftr x 1.

Definition crc_bits (x : Z) : Z := Nat.iter 8 crc_bit x.

Lemma crc_bit_lxor x y : crc_bit (Z.lxor x y) = Z.lxor (crc_bit x) (crc_bit y).
Proof.
  unfold crc_bit. rewrite <- !Z.bit0_odd, Z.lxor_spec, Z.shiftr_lxor.
  destruct (Z.testbit x 0), (Z.testbit y 0); cbn [xorb];
    rewrite ?Z.lxor_assoc; f_equal;
    rewrite ?(Z.lxor_comm 0x8408), ?Z.lxor_assoc, ?Z.lxor_nilpotent, ?Z.lxor_0_r; try done.
Qed.

Lemma crc_bits_lxor x y : crc_bits (Z.lxor x y) = Z.lxor (crc_bits x) (crc_bits y).
Proof. unfold crc_bits. cbn [Nat.iter nat_rect]. by rewrite !crc_bit_lxor. Qed.

Lemma crc_bit_shiftl y k : 0 <= k -> crc_bit (Z.shiftl y (Z.succ k)) = Z.shiftl y k.
Proof.
  intros. unfold crc_bit. rewrite <- Z.bit0_odd, Z.shiftl_spec_low by lia.
  rewrite Z.shiftr_shiftl_l by lia. f_equal; lia.
Qed.

Lemma crc_bits_shiftl y : crc_bits (Z.shiftl y 8) = y.
Proof.
  unfold crc_bits. cbn [Nat.iter nat_rect].
  do 8 match goal with |- context [crc_bit (Z.shiftl y ?n)] =>
    rewrite (crc_bit_shiftl y (Z.pred n) ltac:(lia) : crc_bit (Z.shiftl y n) = _) end.
  apply Z.shiftl_0_r.
Qed.

Lemma crc_table_bits i : 0 <= i < 256 -> crc_table !!! Z.to_nat i = crc_bits i.
Proof.
  intros Hi. assert (forallb (fun i => crc_table !!! i =? crc_bits (Z.of_nat i)) (seq 0 256) = true)
    as H by (vm_compute; reflexivity).
  rewrite forallb_forall in H. specialize (H (Z.to_nat i)). rewrite in_seq in H.
  apply Z.eqb_eq in H; [|lia]. by rewrite H, Z2Nat.id by lia.
Qed.

Lemma byte_shiftr ch : is_byte ch -> Z.shiftr ch 8 = 0.
Proof. unfold is_byte. intros. rewrite Z.shiftr_div_pow2 by lia. apply Z.div_small. lia. Qed.

Lemma land_255_range x : 0 <= Z.land x 0xff < 256.
Proof.
  change 0xff with (Z.ones 8). rewrite Z.land_ones by lia.
  change (2 ^ 8) with 256. apply Z.mod_pos_bound; lia.
Qed.

Lemma split_low_byte x : x = Z.lxor (Z.land x 0xff) (Z.shiftl (Z.shiftr x 8) 8).
Proof.
  apply Z.bits_inj'. intros n Hn. change 0xff with (Z.ones 8).
  rewrite Z.lxor_spec, Z.land_spec, Z.shiftl_spec by lia.
  destruct (decide (n < 8)).
  - rewrite Z.ones_spec_low, (Z.testbit_neg_r _ (n - 8)) by lia. by rewrite andb_true_r, xorb_false_r.
  - rewrite Z.ones_spec_high, Z.shiftr_spec by lia. rewrite andb_false_r, xorb_false_l.
    f_equal; lia.
Qed.

(** C38 The table lookup computes the CRC the comment above the table promises:
    [hdlc_crc_byte] is eight steps of the reversed CRC-CCITT-16 with
    polynomial 0x8408, for every register value and every byte. *)
Theorem hdlc_crc_byte_bitwise crc ch :
  is_byte ch -> hdlc_crc_byte crc ch = crc_bits (Z.lxor crc ch).
Proof.
  intros Hch. unfold hdlc_crc_byte. rewrite crc_table_bits by apply land_255_range.
  rewrite (split_low_byte (Z.lxor crc ch)) at 2.
  rewrite crc_bits_lxor, crc_bits_shiftl, Z.shiftr_lxor, (byte_shiftr ch) by done.
  by rewrite Z.lxor_0_r, Z.lxor_comm.
Qed.

Lemma hdlc_crc_byte_bitwise_witness :
  is_byte 0x7e /\ hdlc_crc_byte 0xffff 0x7e = crc_bits (Z.lxor 0xffff 0x7e).
Proof. split; [done|]. apply hdlc_crc_byte_bitwise. done. Defined.

Lemma lxor_range x y n : 0 <= n -> 0 <= x < 2 ^ n -> 0 <= y < 2 ^ n -> 0 <= Z.lxor x y < 2 ^ n.
Proof.
  intros Hn Hx Hy. split; [apply Z.lxor_nonneg; lia|].
  destruct (decide (Z.lxor x y = 0)) as [->|]; [lia|].
  apply Z.log2_lt_pow2; [assert (0 <= Z.lxor x y) by (apply Z.lxor_nonneg; lia); lia|].
  eapply Z.le_lt_trans; [apply Z.log2_lxor; lia|].
  destruct (decide (n = 0)) as [->|].
  - replace x with 0 in * by lia. replace y with 0 in * by lia. done.
  - apply Z.max_lub_lt.
    + destruct (decide (x = 0)) as [->|]; [cbn; lia | apply Z.log2_lt_pow2; lia].
    + destruct (decide (y = 0)) as [->|]; [cbn; lia | apply Z.log2_lt_pow2; lia].
Qed.

Lemma crc_table_range i : 0 <= i < 256 -> 0 <= crc_table !!! Z.to_nat i < 2 ^ 16.
Proof.
  intros Hi. assert (forallb (fun x => (0 <=? x) && (x <? 2 ^ 16)) crc_table = true) as H
    by (vm_compute; reflexivity).
  rewrite forallb_forall in H.
  destruct (lookup_lt_is_Some_2 crc_table (Z.to_nat i)) as [x Hx]; [change (length crc_table) with 256%nat; lia|].
  rewrite (list_lookup_total_correct _ _ _ Hx).
  specialize (H x). rewrite andb_true_iff, Z.leb_le, Z.ltb_lt in H. apply H.
  apply list_elem_of_In, list_elem_of_lookup. eauto.
Qed.

Lemma hdlc_crc_byte_range crc ch : 0 <= crc < 2 ^ 16 -> 0 <= hdlc_crc_byte crc ch < 2 ^ 16.
Proof.
  intros. unfold hdlc_crc_byte. apply lxor_range; [lia| |apply crc_table_range, land_255_range].
  rewrite Z.shiftr_div_pow2 by lia. split; [apply Z.div_pos; lia|].
  apply Z.div_lt_upper_bound; lia.
Qed.

(** The CRC register after a byte string. *)
Definition crc_of (crc : Z) (s : bytes) : Z := foldl hdlc_crc_byte crc s.

Lemma crc_of_range crc s : 0 <= crc < 2 ^ 16 -> 0 <= crc_of crc s < 2 ^ 16.
Proof.
  revert crc. induction s as [|b s IH]; intros crc H; [done|].
  apply IH. by apply hdlc_crc_byte_range.
Qed.

Lemma hdlc_encode_loop_eq crc s :
  hdlc_encode_loop crc s = (crc_of crc s, s ≫= hdlc_escape).
Proof.
  revert crc. induction s as [|b s IH]; intros crc; [done|].
  cbn [hdlc_encode_loop]. by rewrite IH.
Qed.

Definition hdlc_fcs_of (src : bytes) : bytes := hdlc_fcs (crc_of 0xffff src).

Lemma hdlc_frame_eq src :
  hdlc_frame src = ((src ++ hdlc_fcs_of src) ≫= hdlc_escape) ++ [0x7e].
Proof.
  unfold hdlc_frame. rewrite hdlc_encode_loop_eq, bind_app. by rewrite <- app_assoc.
Qed.

Lemma fcs_bytes_ok src : bytes_ok (hdlc_fcs_of src).
Proof. repeat constructor; apply u8_range. Qed.

Lemma u8_land z : u8 z = Z.land z 0xff.
Proof. change 0xff with (Z.ones 8). by rewrite Z.land_ones by lia. Qed.

(** Bytes [i] and [i] complemented cancel out. *)
Lemma xor_compl x y : Z.land (Z.lxor (Z.lxor x y) (Z.land (Z.lnot x) 0xff)) 0xff = Z.land (Z.lnot y) 0xff.
Proof.
  apply Z.bits_inj'. intros n Hn. change 0xff with (Z.ones 8).
  rewrite !Z.land_spec, !Z.lxor_spec, Z.land_spec, !Z.lnot_spec by lia.
  destruct (decide (n < 8)).
  - rewrite Z.ones_spec_low by lia. by destruct (Z.testbit x n), (Z.testbit y n).
  - rewrite Z.ones_spec_high by lia. by rewrite !andb_false_r.
Qed.

Lemma shiftr_lnot x n : 0 <= n -> Z.shiftr (Z.lnot x) n = Z.lnot (Z.shiftr x n).
Proof.
  intros. apply Z.bits_inj'. intros k Hk.
  by rewrite Z.shiftr_spec, !Z.lnot_spec, Z.shiftr_spec by lia.
Qed.

Lemma crc_of_fcs crc : 0 <= crc < 2 ^ 16 -> crc_of crc (hdlc_fcs crc) = 0xf0b8.
Proof.
  intros Hc. unfold hdlc_fcs, crc_of. cbn [foldl].
  assert (hdlc_crc_byte crc (u8 (Z.land (Z.lnot crc) 0xff)) = Z.lxor (Z.shiftr crc 8) 0x0f78) as ->.
  { unfold hdlc_crc_byte. rewrite u8_land, <- Z.land_assoc, Z.land_diag.
    pose proof (xor_compl crc 0) as E. rewrite Z.lxor_0_r in E. rewrite E. reflexivity. }
  unfold hdlc_crc_byte.
  rewrite u8_land, shiftr_lnot, xor_compl by lia.
  rewrite Z.shiftr_lxor. rewrite (Z.shiftr_div_pow2 (Z.shiftr _ _)), Z.shiftr_div_pow2 by lia.
  rewrite (Z.div_small (crc / 2 ^ 8)) by (split; [apply Z.div_pos | apply Z.div_lt_upper_bound]; lia).
  reflexivity.
Qed.

(** A receiver's check over message and frame check leaves the residue
    0xF0B8. *)
Lemma frame_residue src : crc_of 0xffff (src ++ hdlc_fcs_of src) = 0xf0b8.
Proof.
  unfold crc_of. rewrite foldl_app. apply crc_of_fcs. apply crc_of_range. lia.
Qed.

(** ** The encoder's output *)

Lemma hdlc_escape_spec b :
  is_byte b ->
  (0x7e ∉ hdlc_escape b) /\ 1 <= zlen (hdlc_escape b) <= 2 /\ bytes_ok (hdlc_escape b).
Proof.
  intros Hb. unfold hdlc_escape.
  destruct (Z.eqb_spec b 0x7d); [subst|destruct (Z.eqb_spec b 0x7e); [subst|]];
    cbn [orb]; autorewrite with zlen; (split; [|split; [lia|]]).
  - by apply (bool_decide_unpack _).
  - by repeat constructor.
  - by apply (bool_decide_unpack _).
  - by repeat constructor.
  - rewrite list_elem_of_singleton. congruence.
  - by apply Forall_singleton.
Qed.

Lemma escaped_spec l :
  bytes_ok l ->
  (0x7e ∉ (l ≫= hdlc_escape)) /\ zlen l <= zlen (l ≫= hdlc_escape) <= 2 * zlen l /\
  bytes_ok (l ≫= hdlc_escape).
Proof.
  induction 1 as [|b l Hb Hl (IH1 & IH2 & IH3)]; cbn.
  - split; [apply not_elem_of_nil|]. split; [done|constructor].
  - destruct (hdlc_escape_spec b Hb) as (E1 & E2 & E3). rewrite bytes_ok_app, not_elem_of_app.
    autorewrite with zlen. repeat split; try done; lia.
Qed.

Lemma hdlc_frame_bounds src :
  bytes_ok src ->
  bytes_ok (hdlc_frame src) /\ zlen src + 3 <= zlen (hdlc_frame src) <= (zlen src + 2) * 2 + 1.
Proof.
  intros Hsrc. destruct (escaped_spec (src ++ hdlc_fcs_of src)) as (_ & E2 & E3);
    [apply bytes_ok_app; split; [done|apply fcs_bytes_ok]|].
  rewrite zlen_app in E2. change (zlen (hdlc_fcs_of src)) with 2 in E2. rewrite hdlc_frame_eq.
  split; [|autorewrite with zlen; lia].
  apply bytes_ok_app. split; [done|]. by repeat constructor.
Qed.

Lemma hdlc_encode_ok {S} src h (s : S) :
  bytes_ok src -> alloc_ok h -> hdlc_encode src h s = Done (Some (hdlc_frame src), tick h, s).
Proof.
  intros Hsrc Hh. destruct (hdlc_frame_bounds src Hsrc) as [_ Hb].
  unfold hdlc_encode. pose proof (zlen_nonneg src).
  destruct (malloc_ok ((zlen src + 2) * 2 + 1) h s Hh) as (dst & E & _ & Hd).
  rewrite (bind_done _ _ _ _ _ _ _ E), Hd by lia.
  destruct (Z.leb_spec (zlen (hdlc_frame src)) ((zlen src + 2) * 2 + 1)); [done|lia].
Qed.

(** The frame of a message ends with the flag byte 0x7e, which appears
    nowhere before (so a receiver can delimit it), and fits the
    [(slen + 2) * 2 + 1] bytes that [hdlc_encode] allocates, so the encoder
    never writes outside its buffer and always returns the frame when the
    allocation succeeds. *)
Lemma hdlc_encode_framing {S} src h (s : S) :
  bytes_ok src -> alloc_ok h ->
  exists body, hdlc_encode src h s = Done (Some (body ++ [0x7e]), tick h, s) /\
    (0x7e ∉ body) /\ bytes_ok body /\
    zlen src + 2 <= zlen body <= 2 * (zlen src + 2).
Proof.
  intros Hsrc Hh. exists ((src ++ hdlc_fcs_of src) ≫= hdlc_escape).
  destruct (escaped_spec (src ++ hdlc_fcs_of src)) as (E1 & E2 & E3);
    [apply bytes_ok_app; split; [done|apply fcs_bytes_ok]|].
  rewrite zlen_app in E2. change (zlen (hdlc_fcs_of src)) with 2 in E2.
  split; [|split; [done|split; [done|lia]]]. by rewrite hdlc_encode_ok, hdlc_frame_eq.
Qed.

(** ** The decoder's specification: scanning a byte stream

    [hdlc_scan acc esc s] reads [s] with [acc] already unescaped and the
    pending escape [esc]: either all of [s] is consumed, or it stops behind
    the first flag. *)

Inductive scan_result :=
| Pending (acc : bytes) (esc : Z)
| Frame (acc : bytes) (esc : Z) (rest : bytes).

Fixpoint hdlc_scan (acc : bytes) (esc : Z) (s : bytes) : scan_result :=
  match s with
  | [] => Pending acc esc
  | ch :: s =>
      if ch =? 0x7e then Frame acc esc s
      else if ch =? 0x7d then hdlc_scan acc 0x20 s
      else hdlc_scan (acc ++ [Z.lxor ch esc]) 0 s
  end.

Definition scan_acc (r : scan_result) : bytes :=
  match r with Pending a _ | Frame a _ _ => a end.

Lemma scan_acc_prefix acc esc s : acc `prefix_of` scan_acc (hdlc_scan acc esc s).
Proof.
  revert acc esc. induction s as [|ch s IH]; intros acc esc; cbn; [done|].
  repeat case_match; [done|apply IH|].
  etrans; [|apply IH]. by apply prefix_app_r.
Qed.

Lemma zlen_prefix {A} (l k : list A) : l `prefix_of` k -> zlen l <= zlen k.
Proof. intros [k' ->]. zlia. Qed.

(** The scanner is a stream function: cutting the input anywhere and carrying
    the state over gives the same result. *)
Lemma hdlc_scan_app acc esc s1 s2 :
  hdlc_scan acc esc (s1 ++ s2) =
  match hdlc_scan acc esc s1 with
  | Pending acc esc => hdlc_scan acc esc s2
  | Frame acc esc rest => Frame acc esc (rest ++ s2)
  end.
Proof.
  revert acc esc. induction s1 as [|ch s1 IH]; intros acc esc; cbn; [done|].
  destruct (ch =? 0x7e); [done|]. destruct (ch =? 0x7d); apply IH.
Qed.

Lemma scan_escape acc b s :
  is_byte b -> hdlc_scan acc 0 (hdlc_escape b ++ s) = hdlc_scan (acc ++ [b]) 0 s.
Proof.
  intros Hb. unfold hdlc_escape.
  destruct (Z.eqb_spec b 0x7d); [by subst|]. destruct (Z.eqb_spec b 0x7e); [by subst|].
  cbn. rewrite Z.lxor_0_r. by repeat case_match; try lia.
Qed.

Lemma scan_escaped acc l s :
  bytes_ok l -> hdlc_scan acc 0 ((l ≫= hdlc_escape) ++ s) = hdlc_scan (acc ++ l) 0 s.
Proof.
  intros Hl. revert acc. induction Hl as [|b l Hb Hl IH]; intros acc; cbn.
  - by rewrite app_nil_r.
  - rewrite <- app_assoc, scan_escape, IH by done. by rewrite <- app_assoc.
Qed.

Lemma scan_frame src rest :
  bytes_ok src ->
  hdlc_scan [] 0 (hdlc_frame src ++ rest) = Frame (src ++ hdlc_fcs_of src) 0 rest.
Proof.
  intros Hsrc. rewrite hdlc_frame_eq, <- app_assoc, scan_escaped; [done|].
  apply bytes_ok_app. split; [done|apply fcs_bytes_ok].
Qed.

(** ** The decoder refines the scanner *)

Definition dec_ok (h : hdlc_decoder) : Prop :=
  zlen (hd_raw_buf h) = HDLC_BUF_SIZE /\ 0 <= default 0 (hd_raw h) <= HDLC_BUF_SIZE.

(** The unescaped bytes collected so far. *)
Definition dec_acc (h : hdlc_decoder) : bytes :=
  slice (hd_raw_buf h) 0 (default 0 (hd_raw h)).

Lemma zlen_dec_acc h : dec_ok h -> zlen (dec_acc h) = default 0 (hd_raw h).
Proof. intros [Hl Hr]. unfold dec_acc. apply zlen_slice; lia. Qed.

Lemma slice_splice_snoc b n x :
  0 <= n -> n + 1 <= zlen b -> slice (splice b n [x]) 0 (n + 1) = slice b 0 n ++ [x].
Proof.
  intros. unfold splice. rewrite app_assoc. apply slice_app_exact.
  rewrite zlen_app, zlen_slice, zlen_cons, zlen_nil; lia.
Qed.

(** A decoder between two calls: the state the scanner's accumulator and
    escape describe. *)
Definition dec_state (h : hdlc_decoder) (acc : bytes) (esc : Z) : Prop :=
  dec_ok h /\ dec_acc h = acc /\ hd_escape h = esc.

(** Reading one waiting byte of the ring, and advancing [tail]. *)
Lemma circ_take b ch s :
  circ_wf b -> circ_contents b = ch :: s ->
  cb_tail b <> cb_head b /\ mem_read (cb_buf b) (cb_tail b) 1 = Done [ch] /\
  let b' := CircBuf (cb_buf b) (cb_head b) (Z.land (cb_tail b + 1) (HDLC_BUF_SIZE - 1)) in
  circ_wf b' /\ circ_contents b' = s.
Proof.
  intros Hb Hc. assert (cb_tail b <> cb_head b) as Hne.
  { intros E. by rewrite circ_contents_empty in Hc. }
  destruct (circ_contents_pop b Hb Hne) as (c & Hlook & E). rewrite E in Hc. injection Hc as -> <-.
  destruct Hb as (Hl & Hh & Ht). rewrite circ_mask by lia.
  split; [done|]. split; [|split; [|done]].
  - rewrite mem_read_ok by lia. unfold slice. change (Z.to_nat 1) with 1%nat. f_equal.
    rewrite (drop_S _ _ _ Hlook). done.
  - split; [done|]. split; [done|]. apply Z.mod_pos_bound. unfold HDLC_BUF_SIZE; lia.
Qed.

Lemma decode_loop_refines fuel h raw b :
  dec_ok (HdlcDecoder (hd_raw_buf h) (Some raw) 0) -> circ_wf b ->
  circ_used b < Z.of_nat fuel ->
  let r := hdlc_scan (slice (hd_raw_buf h) 0 raw) (hd_escape h) (circ_contents b) in
  zlen (scan_acc r) <= HDLC_BUF_SIZE ->
  exists h' b', circ_wf b' /\ cb_head b' = cb_head b /\ is_Some (hd_raw h') /\
    match r with
    | Pending acc esc =>
        hdlc_decode_loop fuel h raw b = Done (false, h', b') /\
        dec_state h' acc esc /\ circ_contents b' = []
    | Frame acc esc rest =>
        hdlc_decode_loop fuel h raw b = Done (true, h', b') /\
        dec_state h' acc esc /\ circ_contents b' = rest
    end.
Proof.
  revert h raw b. induction fuel as [|fuel IH]; intros h raw b Hh Hb Hfuel r Hr.
  { pose proof (circ_used_range b). lia. }
  rewrite <- zlen_circ_contents in Hfuel. subst r. cbn [hdlc_decode_loop].
  destruct (circ_contents b) as [|ch s] eqn:Hc.
  - exists (HdlcDecoder (hd_raw_buf h) (Some raw) (hd_escape h)), b.
    assert (cb_tail b = cb_head b) as ->.
    { destruct (decide (cb_tail b = cb_head b)) as [|Hne]; [done|].
      by destruct (circ_contents_pop b Hb Hne) as (c & _ & E); rewrite E in Hc. }
    rewrite Z.eqb_refl. by repeat split; try apply Hb; try apply Hh.
  - destruct (circ_take b ch s Hb Hc) as (Hne & Hrd & Hb' & Hc'). cbv zeta.
    set (b' := CircBuf _ _ _) in *. destruct (Z.eqb_spec (cb_tail b) (cb_head b)); [done|].
    rewrite Hrd. cbn [mbind outcome_bind le_dec]. rewrite Z.mul_0_r, Z.add_0_r.
    assert (circ_used b' < Z.of_nat fuel) as Hf'.
    { rewrite <- zlen_circ_contents, Hc'. rewrite zlen_cons in Hfuel. lia. }
    cbn [hdlc_scan] in *. destruct (Z.eqb_spec ch 0x7e) as [->|Hf].
    { exists (HdlcDecoder (hd_raw_buf h) (Some raw) (hd_escape h)), b'.
      by repeat split; try apply Hb'; try apply Hh. }
    destruct (Z.eqb_spec ch 0x7d) as [->|He].
    + pose proof (IH (HdlcDecoder (hd_raw_buf h) (Some raw) 0x20) raw b' Hh Hb' Hf') as H2.
      cbn in H2. rewrite Hc' in H2. by apply H2.
    + pose proof (zlen_prefix _ _ (scan_acc_prefix
        (slice (hd_raw_buf h) 0 raw ++ [Z.lxor ch (hd_escape h)]) 0 s)) as Hpre.
      destruct Hh as [Hl Hraw]; cbn in Hl, Hraw.
      rewrite zlen_app, zlen_slice in Hpre by lia. change (zlen [_]) with 1 in Hpre.
      rewrite mem_write_ok by (change (zlen [_]) with 1; lia). cbn [mbind outcome_bind].
      pose proof (IH (HdlcDecoder (splice (hd_raw_buf h) raw [Z.lxor ch (hd_escape h)])
        (Some (raw + 1)) 0) (raw + 1) b') as H2.
      cbn in H2. rewrite Hc', slice_splice_snoc in H2 by lia. apply H2; try done.
      split; cbn; [rewrite zlen_splice by (change (zlen [_]) with 1; lia); done|lia].
Qed.

(** One call of the decoder, against the scanner. *)
Lemma hdlc_decode_one_ok h b :
  dec_ok h -> circ_wf b ->
  zlen (scan_acc (hdlc_scan (dec_acc h) (hd_escape h) (circ_contents b))) <= HDLC_BUF_SIZE ->
  exists h' b', circ_wf b' /\
    match hdlc_scan (dec_acc h) (hd_escape h) (circ_contents b) with
    | Pending acc esc =>
        hdlc_decode_one h b = Done (None, h', b') /\
        dec_state h' acc esc /\ circ_contents b' = []
    | Frame [] esc rest =>
        hdlc_decode_one h b = Done (None, h', b') /\
        dec_state h' [] esc /\ circ_contents b' = rest
    | Frame acc esc rest =>
        hdlc_decode_one h b = Done (Some (u64 (zlen acc - 2)), h', b') /\
        dec_state h' [] 0 /\ circ_contents b' = rest /\
        slice (hd_raw_buf h') 0 (zlen acc) = acc
    end.
Proof.
  intros Hh Hb Hr. pose proof Hh as [Hl Hraw].
  destruct (decode_loop_refines (Z.to_nat HDLC_BUF_SIZE) h (default 0 (hd_raw h)) b)
    as (h1 & b1 & Hb1 & _ & [raw1 Hraw1] & H); [by split|done| |done|].
  { pose proof (circ_used_range b). unfold HDLC_BUF_SIZE in *; lia. }
  fold (dec_acc h) in H. unfold hdlc_decode_one.
  destruct (hdlc_scan (dec_acc h) (hd_escape h) (circ_contents b)) as [acc esc|acc esc rest].
  { destruct H as (E & Hst & Hc). rewrite E. exists h1, b1. done. }
  destruct H as (E & (Hok & Hacc & Hesc) & Hc). rewrite E. cbn [mbind outcome_bind negb].
  pose proof (zlen_dec_acc h1 Hok) as Hn. rewrite Hacc in Hn. rewrite <- Hn.
  destruct acc as [|a acc].
  - exists h1, b1. done.
  - destruct (Z.eqb_spec (zlen (a :: acc)) 0); [zlia|].
    exists (HdlcDecoder (hd_raw_buf h1) (Some 0) 0), b1.
    split; [done|]. split; [done|]. split; [|split; [done|]].
    + split; [|done]. split; [apply Hok|]. cbn. unfold HDLC_BUF_SIZE; lia.
    + cbn [hd_raw_buf]. rewrite <- Hacc at 2. unfold dec_acc. by rewrite Hn.
Qed.

(** C25 [hdlc_decode_one] implements the scanner: on a well-formed ring, and as
    long as the frame fits [raw_buf], it returns the bytes up to the first
    flag (less the two check bytes) and leaves the rest of the ring for the
    next call, or consumes the whole ring and remembers the partial frame and
    its pending escape; it never gets stuck and never touches memory outside
    its two buffers. *)
Theorem hdlc_decode_one_refines h b :
  dec_ok h -> circ_wf b ->
  zlen (scan_acc (hdlc_scan (dec_acc h) (hd_escape h) (circ_contents b))) <= HDLC_BUF_SIZE ->
  exists h' b', circ_wf b' /\
    match hdlc_scan (dec_acc h) (hd_escape h) (circ_contents b) with
    | Pending acc esc =>
        hdlc_decode_one h b = Done (None, h', b') /\
        dec_state h' acc esc /\ circ_contents b' = []
    | Frame [] esc rest =>
        hdlc_decode_one h b = Done (None, h', b') /\
        dec_state h' [] esc /\ circ_contents b' = rest
    | Frame acc esc rest =>
        hdlc_decode_one h b = Done (Some (u64 (zlen acc - 2)), h', b') /\
        dec_state h' [] 0 /\ circ_contents b' = rest /\
        slice (hd_raw_buf h') 0 (zlen acc) = acc
    end.
Proof. apply hdlc_decode_one_ok. Qed.

(** A frame at the front of the ring. *)
Lemma hdlc_decode_frame src rest h b :
  bytes_ok src -> zlen src + 2 <= HDLC_BUF_SIZE ->
  dec_state h [] 0 -> circ_wf b -> circ_contents b = hdlc_frame src ++ rest ->
  exists h' b', hdlc_decode_one h b = Done (Some (zlen src), h', b') /\
    slice (hd_raw_buf h') 0 (zlen src) = src /\
    dec_state h' [] 0 /\ circ_wf b' /\ circ_contents b' = rest.
Proof.
  intros Hsrc Hn (Hok & Hacc & Hesc) Hb Hc.
  pose proof (hdlc_decode_one_ok h b Hok Hb) as H.
  rewrite Hacc, Hesc, Hc, scan_frame in H by done. cbn [scan_acc] in H.
  assert (zlen (src ++ hdlc_fcs_of src) = zlen src + 2) as Hl by (rewrite zlen_app; done).
  rewrite Hl in H. destruct (H Hn) as (h' & b' & Hb' & H'). exists h', b'.
  assert (HDLC_BUF_SIZE < 2 ^ 64) by done. pose proof (zlen_nonneg src).
  assert (u64 (zlen src + 2 - 2) = zlen src) as Hu by (rewrite u64_id; lia).
  destruct (src ++ hdlc_fcs_of src) as [|x l] eqn:E; [by destruct src|].
  rewrite Hu in H'. destruct H' as (E1 & E2 & E3 & E4).
  split; [done|]. split; [|done].
  rewrite (slice_slice_0 _ _ (zlen src + 2)), E4, <- E by lia. by apply slice_app_exact.
Qed.

(** C23 Decoding inverts encoding: a ring that starts with the frame of a
    message gives the message back, whatever follows the frame stays in the
    ring, and the decoder is ready for the next frame. *)
Theorem hdlc_decode_encode src rest h b :
  bytes_ok src -> zlen src + 2 <= HDLC_BUF_SIZE ->
  dec_state h [] 0 -> circ_wf b -> circ_contents b = hdlc_frame src ++ rest ->
  exists h' b', hdlc_decode_one h b = Done (Some (zlen src), h', b') /\
    slice (hd_raw_buf h') 0 (zlen src) = src /\
    dec_state h' [] 0 /\ circ_wf b' /\ circ_contents b' = rest.
Proof. apply hdlc_decode_frame. Qed.

(** A frame that does not fit: the write position runs past [raw_buf]. *)
Lemma decode_loop_overflow fuel h raw b :
  dec_ok (HdlcDecoder (hd_raw_buf h) (Some raw) 0) -> circ_wf b ->
  circ_used b < Z.of_nat fuel ->
  HDLC_BUF_SIZE <
    zlen (scan_acc (hdlc_scan (slice (hd_raw_buf h) 0 raw) (hd_escape h) (circ_contents b))) ->
  hdlc_decode_loop fuel h raw b = UB.
Proof.
  revert h raw b. induction fuel as [|fuel IH]; intros h raw b Hh Hb Hfuel Hr.
  { pose proof (circ_used_range b). lia. }
  rewrite <- zlen_circ_contents in Hfuel. cbn [hdlc_decode_loop].
  destruct Hh as [Hl Hraw] eqn:E; clear E; cbn in Hl, Hraw.
  destruct (circ_contents b) as [|ch s] eqn:Hc.
  { cbn in Hr. rewrite zlen_slice in Hr; lia. }
  destruct (circ_take b ch s Hb Hc) as (Hne & Hrd & Hb' & Hc').
  set (b' := CircBuf _ _ _) in *. destruct (Z.eqb_spec (cb_tail b) (cb_head b)); [done|].
  rewrite Hrd. cbn [mbind outcome_bind le_dec]. rewrite Z.mul_0_r, Z.add_0_r.
  assert (circ_used b' < Z.of_nat fuel) as Hf'.
  { rewrite <- zlen_circ_contents, Hc'. rewrite zlen_cons in Hfuel. lia. }
  cbn [hdlc_scan] in *. destruct (Z.eqb_spec ch 0x7e) as [->|Hf].
  { cbn in Hr. rewrite zlen_slice in Hr; lia. }
  destruct (Z.eqb_spec ch 0x7d) as [->|He]; [by apply IH; cbn; rewrite ?Hc'|].
  destruct (decide (raw < HDLC_BUF_SIZE)).
  - rewrite mem_write_ok by (change (zlen [_]) with 1; lia). cbn [mbind outcome_bind].
    apply IH; cbn; rewrite ?Hc', ?slice_splice_snoc by lia; try done.
    split; cbn; [rewrite zlen_splice by (change (zlen [_]) with 1; lia); done|lia].
  - by rewrite mem_write_ub by (change (zlen [_]) with 1; lia).
Qed.

(** C39 The limits of the decoder.  A frame longer than [raw_buf] is written
    past its end; and a frame of a single byte, too short to hold a check
    sequence, is not rejected but handed to the caller with the length
    [(size_t)-1]. *)
Theorem hdlc_decode_one_limits h b :
  circ_wf b ->
  (dec_ok h ->
   HDLC_BUF_SIZE < zlen (scan_acc (hdlc_scan (dec_acc h) (hd_escape h) (circ_contents b))) ->
   hdlc_decode_one h b = UB) /\
  (forall x rest, dec_state h [] 0 -> x <> 0x7d -> x <> 0x7e ->
   circ_contents b = x :: 0x7e :: rest ->
   exists h' b', hdlc_decode_one h b = Done (Some (2 ^ 64 - 1), h', b')).
Proof.
  intros Hb. split.
  - intros Hh Hr. unfold hdlc_decode_one. pose proof Hh as [Hl Hraw].
    rewrite decode_loop_overflow; [done|by split|done| |done].
    pose proof (circ_used_range b). unfold HDLC_BUF_SIZE in *; lia.
  - intros x rest (Hok & Hacc & Hesc) H1 H2 Hc.
    pose proof (hdlc_decode_one_ok h b Hok Hb) as H.
    rewrite Hacc, Hesc, Hc in H. cbn [hdlc_scan] in H.
    destruct (Z.eqb_spec x 0x7e); [done|]. destruct (Z.eqb_spec x 0x7d); [done|].
    cbn in H. destruct H as (h' & b' & _ & E & _); [done|]. by exists h', b'.
Qed.

Lemma lxor_byte a b : is_byte a -> is_byte b -> is_byte (Z.lxor a b).
Proof.
  unfold is_byte. intros Ha Hb. assert (0 <= Z.lxor a b) by (apply Z.lxor_nonneg; lia). split; [done|].
  destruct (decide (Z.lxor a b = 0)) as [->|]; [done|]. apply Z.log2_lt_pow2 with (b := 8); [lia|].
  pose proof (Z.log2_lxor a b ltac:(lia) ltac:(lia)).
  assert (forall z, 0 <= z < 256 -> Z.log2 z < 8) as H8.
  { intros z Hz. destruct (decide (z = 0)) as [->|]; [done|]. apply Z.log2_lt_pow2; lia. }
  pose proof (H8 a Ha). pose proof (H8 b Hb). lia.
Qed.

(** ** The receive state is made of bytes

    A ring and a decoder with their positions inside their arrays, and nothing
    but bytes in them: whatever is read and decoded, they stay so. *)

Definition ring_typed (b : circ_buf) : Prop := circ_wf b /\ bytes_ok (cb_buf b).
Definition decoder_typed (d : hdlc_decoder) : Prop := dec_ok d /\ bytes_ok (hd_raw_buf d) /\ is_byte (hd_escape d).

Lemma circ_wf_pop b : circ_wf b -> circ_wf (CircBuf (cb_buf b) (cb_head b) (Z.land (cb_tail b + 1) (HDLC_BUF_SIZE - 1))).
Proof.
  intros (Hl & Hh & Ht). rewrite circ_mask by lia. split; [done|]. split; [done|]. apply Z.mod_pos_bound. unfold HDLC_BUF_SIZE; lia.
Qed.

Lemma decode_loop_typed fuel h raw b r h' b' :
  hdlc_decode_loop fuel h raw b = Done (r, h', b') -> ring_typed b ->
  decoder_typed (HdlcDecoder (hd_raw_buf h) (Some raw) (hd_escape h)) -> ring_typed b' /\ decoder_typed h'.
Proof.
  revert h raw b. induction fuel as [|fuel IH]; intros h raw b; [done|]. cbn [hdlc_decode_loop].
  destruct (_ =? _); [by intros [= _ <- <-]|]. intros E [Hwf Hb] ([Hl Hraw] & Hbuf & Hesc). cbn in Hl, Hraw, Hbuf, Hesc.
  destruct (mem_read _ _ _) as [c| | |] eqn:Ec; [|done..]. cbn [mbind outcome_bind] in E.
  apply mem_read_shape in Ec as (_ & _ & _ & ->).
  assert (is_byte (le_dec (slice (cb_buf b) (cb_tail b) 1))) as Hch.
  { pose proof (bytes_ok_slice (cb_buf b) (cb_tail b) 1 Hb) as Hs. destruct Hwf as (Hwl & _ & Ht).
    destruct (slice (cb_buf b) (cb_tail b) 1) as [|x [|y l]] eqn:Es; [done|..].
    - apply Forall_inv in Hs. cbn. rewrite Z.mul_0_r, Z.add_0_r. done.
    - apply (f_equal zlen) in Es. rewrite zlen_slice in Es by lia. zlia. }
  pose proof (circ_wf_pop b Hwf) as Hpop. destruct (_ =? 0x7e).
  { injection E as _ <- <-. done. }
  destruct (_ =? 0x7d); [by apply IH in E|].
  destruct (mem_write _ _ _) as [m| | |] eqn:Em; [|done..]. cbn [mbind outcome_bind] in E.
  pose proof (mem_write_shape _ _ _ _ Em) as (H1 & H2 & H3). rewrite mem_write_ok in Em by lia. injection Em as <-.
  change (zlen [_]) with 1 in H2. apply IH in E; [done|done|]. split; [split; cbn; lia|]. split; [|done].
  apply bytes_ok_splice; [done|]. constructor; [|constructor]. by apply lxor_byte.
Qed.

Lemma decode_one_typed h b r h' b' :
  hdlc_decode_one h b = Done (r, h', b') -> ring_typed b -> decoder_typed h -> ring_typed b' /\ decoder_typed h'.
Proof.
  unfold hdlc_decode_one. intros E Hb ([Hl Hraw] & Hd).
  destruct (hdlc_decode_loop _ _ _ _) as [[[flag h1] b1]| | |] eqn:El; [|done..]. cbn [mbind outcome_bind] in E.
  apply decode_loop_typed in El as [Hb1 Hd1]; [|done|by split].
  destruct (negb flag); [by injection E as _ <- <-|]. destruct (_ =? 0); injection E as _ <- <-; [done|].
  split; [done|]. destruct Hd1 as ([Hl1 _] & Hd1). split; [|by split; [apply Hd1|]]. split; [done|]. cbn. unfold HDLC_BUF_SIZE. lia.
Qed.

Lemma circ_read_typed {F} `{!FileDesc F} (f : F) b r f' b' :
  circ_read f b = Done (r, f', b') -> ring_typed b -> ring_typed b'.
Proof.
  intros E [Hb Hok]. destruct (circ_read_ok f b Hb Hok) as (r0 & f0 & b0 & d & E0 & Hb0 & Hok0 & _).
  rewrite E in E0. injection E0 as <- <- <-. done.
Qed.

(** A decoder as zero-initialised memory, [struct hdlc_decoder d = {0}]. *)
Definition decoder_zero : hdlc_decoder :=
  HdlcDecoder (replicate (Z.to_nat HDLC_BUF_SIZE) 0) None 0.

Lemma decoder_zero_state : dec_state decoder_zero [] 0.
Proof.
  split; [|done]. split; cbn; [rewrite zlen_replicate|]; unfold HDLC_BUF_SIZE; lia.
Qed.

Lemma zero_typed : ring_typed circ_zero /\ decoder_typed decoder_zero.
Proof.
  split; [apply circ_zero_wf|]. split; [apply decoder_zero_state|]. split; [|done]. by apply Forall_replicate.
Qed.

(** A ring holding [s] from index 0 on. *)
Definition circ_of (s : bytes) : circ_buf :=
  CircBuf (splice (cb_buf circ_zero) 0 s) (zlen s mod HDLC_BUF_SIZE) 0.

Lemma circ_of_spec s :
  zlen s < HDLC_BUF_SIZE -> circ_wf (circ_of s) /\ circ_contents (circ_of s) = s.
Proof.
  intros Hs. destruct circ_zero_wf as [Hz _].
  assert (circ_used circ_zero = 0) as Hu by done.
  destruct (circ_contents_push circ_zero s Hz) as (H1 & _ & H3).
  - rewrite CIRC_SPACE_TO_END_eq, Hu by done. unfold circ_zero, HDLC_BUF_SIZE in *; cbn. lia.
  - split; [exact H1|]. rewrite (circ_contents_empty circ_zero Hz) in H3 by done. exact H3.
Qed.

Lemma hdlc_decode_one_refines_witness :
  exists h' b', circ_wf b' /\
    hdlc_decode_one decoder_zero (circ_of [1; 2]) = Done (None, h', b') /\
    dec_state h' [1; 2] 0 /\ circ_contents b' = [].
Proof.
  destruct (circ_of_spec [1; 2]) as [Hw Hc]; [done|]. destruct decoder_zero_state as (Hd & Ha & He).
  pose proof (hdlc_decode_one_refines decoder_zero (circ_of [1; 2]) Hd Hw) as H.
  rewrite Ha, He, Hc in H. apply H. done.
Defined.

Lemma hdlc_decode_one_limits_witness :
  circ_wf (circ_of [5; 0x7e]) /\
  exists h' b', hdlc_decode_one decoder_zero (circ_of [5; 0x7e]) = Done (Some (2 ^ 64 - 1), h', b').
Proof.
  destruct (circ_of_spec [5; 0x7e]) as [Hw Hc]; [done|]. split; [exact Hw|].
  exact (proj2 (hdlc_decode_one_limits decoder_zero (circ_of [5; 0x7e]) Hw) 5 []
    decoder_zero_state ltac:(done) ltac:(done) Hc).
Defined.

Lemma hdlc_decode_encode_witness :
  exists h' b',
    hdlc_decode_one decoder_zero (circ_of (hdlc_frame [0x7e; 5] ++ [9])) = Done (Some 2, h', b') /\
    slice (hd_raw_buf h') 0 2 = [0x7e; 5] /\
    dec_state h' [] 0 /\ circ_wf b' /\ circ_contents b' = [9].
Proof.
  destruct (circ_of_spec (hdlc_frame [0x7e; 5] ++ [9])) as [Hw Hc]; [done|].
  apply (hdlc_decode_encode [0x7e; 5] [9] _ _ ltac:(by repeat constructor) ltac:(by apply Z.leb_le)
    decoder_zero_state Hw Hc).
Defined.

Definition never_fails : heap := Heap 0 (fun _ => Some (fun _ => 0xaa)).

Lemma hdlc_encode_framing_witness :
  exists body, hdlc_encode [0x7d] never_fails tt = Done (Some (body ++ [0x7e]), tick never_fails, tt) /\
    (0x7e ∉ body) /\ bytes_ok body /\ 3 <= zlen body <= 6.
Proof.
  apply (hdlc_encode_framing [0x7d] never_fails tt); [by repeat constructor|].
  intros k. by eexists.
Defined.
