(* ===== verification/ListHead.v ===== *)
(** * ListHead: [router/list.h]

    The intrusive, circular, doubly linked lists, on a memory of nodes.  Every
    other file models a queue or a registry by a Rocq list; this file shows
    why that is right: [list_add] appends, [list_del] removes, the iteration
    macros visit the elements in order, and the [_safe] variant tolerates
    deleting the element it visits. *)

From S2P Require Import Prelude.

Abbreviation loc := nat.

Record list_head := ListHead { prev : loc; next : loc }.

Abbreviation memory := (gmap loc list_head).

Section operations.
Implicit Types (m : memory) (lst item : loc).

Definition load m (l : loc) : outcome list_head :=
  match m !! l with Some n => Done n | None => UB end.

Definition set_prev (l p : loc) m : outcome memory :=
  n ← load m l; Done (<[l := ListHead p (next n)]> m).

Definition set_next (l p : loc) m : outcome memory :=
  n ← load m l; Done (<[l := ListHead (prev n) p]> m).

Definition list_init lst m : outcome memory :=
  m ← set_next lst lst m; set_prev lst lst m.

Definition list_empty lst m : outcome bool :=
  n ← load m lst; Done (bool_decide (next n = lst)).

Definition list_add lst item m : outcome memory :=
  n ← load m lst;
  let p := prev n in
  m ← set_next item lst m;
  m ← set_prev item p m;
  m ← set_prev lst item m;
  set_next p item m.

Definition list_del item m : outcome memory :=
  n ← load m item;
  m ← set_next (prev n) (next n) m;
  n ← load m item;
  set_prev (next n) (prev n) m.

(** The nodes [list_for_each] visits. *)
Fixpoint list_for_each_from (fuel : nat) item lst m : outcome (list loc) :=
  match fuel with
  | O => Spin
  | S fuel =>
      if bool_decide (item = lst) then Done [] else
      n ← load m item;
      rest ← list_for_each_from fuel (next n) lst m;
      Done (item :: rest)
  end.

Definition list_for_each (fuel : nat) lst m : outcome (list loc) :=
  n ← load m lst; list_for_each_from fuel (next n) lst m.

(** [list_for_each_safe] with the body the program runs in it: delete the
    node if it satisfies a test. *)
Fixpoint list_for_each_safe_from (fuel : nat) (test : loc -> bool) item nxt lst m
    : outcome memory :=
  match fuel with
  | O => Spin
  | S fuel =>
      if bool_decide (item = lst) then Done m else
      m ← (if test item then list_del item m else Done m);
      n ← load m nxt;
      list_for_each_safe_from fuel test nxt (next n) lst m
  end.

Definition list_for_each_safe (fuel : nat) (test : loc -> bool) lst m : outcome memory :=
  n ← load m lst;
  n' ← load m (next n);
  list_for_each_safe_from fuel test (next n) (next n') lst m.
End operations.

(** ** The sequence a list stands for *)

Definition next_of (m : memory) (a : loc) : option loc := next <$> m !! a.
Definition prev_of (m : memory) (a : loc) : option loc := prev <$> m !! a.

Definition linked (m : memory) (a b : loc) : Prop := next_of m a = Some b /\ prev_of m b = Some a.

Fixpoint chain (m : memory) (a : loc) (l : list loc) (b : loc) : Prop :=
  match l with
  | [] => linked m a b
  | x :: l => linked m a x /\ chain m x l b
  end.

(** [dlist m h l]: the list with head [h] holds the nodes [l], in order. *)
Definition dlist (m : memory) (h : loc) (l : list loc) : Prop := NoDup (h :: l) /\ chain m h l h.

Lemma load_ok m a n : m !! a = Some n -> load m a = Done n.
Proof. intros E. unfold load. by rewrite E. Qed.

Lemma next_of_load m a b : next_of m a = Some b -> exists n, m !! a = Some n /\ next n = b.
Proof. unfold next_of. destruct (m !! a); cbn; [|done]. intros [= <-]. eauto. Qed.
Lemma prev_of_load m a b : prev_of m a = Some b -> exists n, m !! a = Some n /\ prev n = b.
Proof. unfold prev_of. destruct (m !! a); cbn; [|done]. intros [= <-]. eauto. Qed.

(** A store changes one field of one node. *)
Lemma set_next_spec a v m :
  is_Some (m !! a) ->
  exists m', set_next a v m = Done m' /\
    (forall y, next_of m' y = if decide (y = a) then Some v else next_of m y) /\
    (forall y, prev_of m' y = prev_of m y) /\
    (forall y, y <> a -> m' !! y = m !! y) /\ is_Some (m' !! a).
Proof.
  intros [n Hn]. unfold set_next. rewrite (load_ok _ _ _ Hn). cbn. eexists; split; [done|].
  unfold next_of, prev_of. split; [|split; [|split]].
  - intros y. destruct (decide (y = a)) as [->|]; by simplify_map_eq.
  - intros y. destruct (decide (y = a)) as [->|]; by simplify_map_eq.
  - intros y Hy. by simplify_map_eq.
  - by simplify_map_eq.
Qed.

Lemma set_prev_spec a v m :
  is_Some (m !! a) ->
  exists m', set_prev a v m = Done m' /\
    (forall y, prev_of m' y = if decide (y = a) then Some v else prev_of m y) /\
    (forall y, next_of m' y = next_of m y) /\
    (forall y, y <> a -> m' !! y = m !! y) /\ is_Some (m' !! a).
Proof.
  intros [n Hn]. unfold set_prev. rewrite (load_ok _ _ _ Hn). cbn. eexists; split; [done|].
  unfold next_of, prev_of. split; [|split; [|split]].
  - intros y. destruct (decide (y = a)) as [->|]; by simplify_map_eq.
  - intros y. destruct (decide (y = a)) as [->|]; by simplify_map_eq.
  - intros y Hy. by simplify_map_eq.
  - by simplify_map_eq.
Qed.

Lemma next_of_is_Some m a b : next_of m a = Some b -> is_Some (m !! a).
Proof. intros (n & E & _)%next_of_load. eauto. Qed.
Lemma prev_of_is_Some m a b : prev_of m a = Some b -> is_Some (m !! a).
Proof. intros (n & E & _)%prev_of_load. eauto. Qed.

Lemma chain_app m a l1 x l2 b : chain m a (l1 ++ x :: l2) b <-> chain m a l1 x /\ chain m x l2 b.
Proof.
  revert a. induction l1 as [|y l1 IH]; intros a; cbn; [done|]. rewrite IH. tauto.
Qed.

(** A chain depends on the [next] fields of all but its end and on the [prev]
    fields of all but its start. *)
Lemma chain_ext m m' a l b :
  (forall y, y ∈ a :: l -> next_of m' y = next_of m y) ->
  (forall y, y ∈ b :: l -> prev_of m' y = prev_of m y) ->
  chain m a l b -> chain m' a l b.
Proof.
  revert a. induction l as [|x l IH]; intros a Hn Hp; cbn; unfold linked.
  - rewrite Hn, Hp by set_solver. done.
  - intros [Hx Hch]. rewrite Hn, Hp by set_solver. split; [done|]. apply IH; set_solver.
Qed.

Lemma default_last_cons (a x : loc) l : default a (last (x :: l)) = default x (last l).
Proof. rewrite last_cons. by destruct (last l). Qed.

(** The last node of a chain points on to its end. *)
Lemma chain_last m a l b :
  chain m a l b -> exists p, prev_of m b = Some p /\ next_of m p = Some b /\ p = default a (last l).
Proof.
  revert a. induction l as [|x l IH]; intros a; cbn [chain].
  - intros [H1 H2]. by exists a.
  - intros [_ H]. destruct (IH x H) as (p & H1 & H2 & H3). exists p. split; [done|]. split; [done|].
    by rewrite default_last_cons.
Qed.

(** Redirecting the end of a chain. *)
Lemma chain_retarget m m' a l b c :
  NoDup (a :: l) -> b ∉ l -> c ∉ l -> chain m a l b ->
  (forall y, y ∈ a :: l -> y <> default a (last l) -> next_of m' y = next_of m y) ->
  (forall y, y ∈ l -> prev_of m' y = prev_of m y) ->
  linked m' (default a (last l)) c -> chain m' a l c.
Proof.
  revert a. induction l as [|x l IH]; intros a Hnd Hb Hc Hch Hn Hp Hl; cbn [chain] in *; [done|].
  destruct Hch as [[Hax Hxa] Hch].
  pose proof (default_last_cons a x l) as Hlast.
  rewrite Hlast in Hl. apply NoDup_cons in Hnd as [Ha Hnd]. split.
  - split; [rewrite Hn | rewrite Hp]; try done; try apply list_elem_of_here.
    intros E. apply Ha. rewrite E, Hlast. destruct (last l) as [z|] eqn:El; cbn.
    + apply list_elem_of_further. by apply last_Some_elem_of.
    + apply list_elem_of_here.
  - apply not_elem_of_cons in Hb as [_ Hb], Hc as [_ Hc]. apply IH; try done.
    + intros y Hy Hne. apply Hn; [by apply list_elem_of_further|]. by rewrite Hlast.
    + intros y Hy. apply Hp. by apply list_elem_of_further.
Qed.

Lemma last_in (h : loc) l : default h (last l) ∈ h :: l.
Proof.
  destruct (last l) as [z|] eqn:E; cbn; [|apply list_elem_of_here].
  apply list_elem_of_further. by apply last_Some_elem_of.
Qed.

Lemma chain_loaded m a l b y : chain m a l b -> y ∈ a :: l -> is_Some (m !! y).
Proof.
  revert a. induction l as [|x l IH]; intros a; cbn [chain].
  - intros [H1 _] Hy%list_elem_of_singleton. subst. by eapply next_of_is_Some.
  - intros [[H1 _] H2] [->|Hy]%elem_of_cons; [by eapply next_of_is_Some|eauto].
Qed.

(** [list_add] appends: a list that holds [l] holds [l ++ [item]]
    afterwards, and no other node is written. *)
Lemma list_add_appends m h l item :
  dlist m h l -> item ∉ h :: l -> is_Some (m !! item) ->
  exists m', list_add h item m = Done m' /\ dlist m' h (l ++ [item]) /\
    forall y, y ∉ h :: l ++ [item] -> m' !! y = m !! y.
Proof.
  intros [Hnd Hch] Hni Hsi. destruct (chain_last _ _ _ _ Hch) as (p & Hp & Hpn & Hpl).
  pose proof (last_in h l) as Hpin. rewrite <- Hpl in Hpin.
  assert (item <> h) as Hih by (intros ->; apply Hni, list_elem_of_here).
  assert (item <> p) as Hip by (by intros ->).
  apply prev_of_load in Hp as (n & Hn & Hnp).
  unfold list_add. rewrite (load_ok _ _ _ Hn). cbn [mbind outcome_bind]. rewrite Hnp.
  destruct (set_next_spec item h m Hsi) as (m1 & -> & N1 & P1 & F1 & S1). cbn [mbind outcome_bind].
  destruct (set_prev_spec item p m1 S1) as (m2 & -> & P2 & N2 & F2 & S2). cbn [mbind outcome_bind].
  destruct (set_prev_spec h item m2) as (m3 & -> & P3 & N3 & F3 & S3).
  { rewrite F2, F1 by done. eauto. }
  cbn [mbind outcome_bind].
  destruct (set_next_spec p item m3) as (m4 & -> & N4 & P4 & F4 & S4).
  { destruct (decide (p = h)) as [->|]; [done|]. rewrite F3, F2, F1 by done.
    by eapply next_of_is_Some. }
  exists m4. split; [done|].
  assert (linked m4 p item) as Hpi.
  { split; [rewrite N4, decide_True by done; done|].
    rewrite P4, P3, P2. by rewrite decide_False, decide_True. }
  assert (linked m4 item h) as Hih'.
  { split; [|by rewrite P4, P3, decide_True].
    rewrite N4, N3, N2, N1. by rewrite decide_False, decide_True. }
  split; [split|].
  - rewrite app_comm_cons. apply NoDup_app. split; [done|]. split; [|apply NoDup_singleton].
    intros x Hx ->%list_elem_of_singleton. done.
  - apply chain_app. split; [|done]. rewrite not_elem_of_cons in Hni. apply NoDup_cons in Hnd as Hnd'.
    apply (chain_retarget m _ _ _ h); try done; try (by apply Hnd'); try (by apply Hni).
    + intros y Hy Hne. rewrite N4, N3, N2, N1, !decide_False; [done| |congruence].
      intros ->. apply elem_of_cons in Hy as [->|]; [done|by apply Hni].
    + intros y Hy. rewrite P4, P3, P2, P1, !decide_False; [done| |].
      * intros ->. by apply Hni.
      * intros ->. by apply Hnd'.
    + by rewrite <- Hpl.
  - intros y Hy. rewrite app_comm_cons, not_elem_of_app, list_elem_of_singleton in Hy.
    destruct Hy as [Hy1 Hy2]. rewrite F4, F3, F2, F1; [done|done|done| |].
    + intros ->. apply Hy1, list_elem_of_here.
    + intros ->. done.
Qed.

Lemma chain_first m a l b : chain m a l b -> next_of m a = Some (default b (head l)).
Proof. destruct l; cbn; [by intros [? _]|by intros [[? _] _]]. Qed.

(** What [list_del] does to the links: its neighbours' only. *)
Lemma list_del_links m x p nx :
  prev_of m x = Some p -> next_of m x = Some nx -> x <> p -> x <> nx -> is_Some (m !! p) -> is_Some (m !! nx) ->
  exists m', list_del x m = Done m' /\
    (forall y, next_of m' y = if decide (y = p) then Some nx else next_of m y) /\
    (forall y, prev_of m' y = if decide (y = nx) then Some p else prev_of m y) /\
    (forall y, y <> p -> y <> nx -> m' !! y = m !! y).
Proof.
  intros Hp Hn Hxp Hxn Sp Snx. apply prev_of_load in Hp as (n & En & Enp).
  assert (next n = nx) as Enn by (unfold next_of in Hn; rewrite En in Hn; by injection Hn).
  unfold list_del. rewrite (load_ok _ _ _ En). cbn [mbind outcome_bind]. rewrite Enp, Enn.
  destruct (set_next_spec p nx m Sp) as (m1 & -> & N1 & P1 & F1 & S1).
  cbn [mbind outcome_bind]. rewrite (load_ok m1 x n) by (by rewrite F1). cbn [mbind outcome_bind].
  rewrite Enp, Enn. destruct (set_prev_spec nx p m1) as (m2 & -> & P2 & N2 & F2 & S2).
  { destruct (decide (nx = p)) as [->|]; [done|]. by rewrite F1. }
  exists m2. split; [done|]. split_and!.
  - intros y. by rewrite N2, N1.
  - intros y. by rewrite P2, P1.
  - intros y Hy1 Hy2. by rewrite F2, F1.
Qed.

Lemma list_del_removes m h l1 x l2 :
  dlist m h (l1 ++ x :: l2) ->
  exists m', list_del x m = Done m' /\ dlist m' h (l1 ++ l2) /\
    forall y, y ∉ h :: l1 ++ l2 -> m' !! y = m !! y.
Proof.
  intros [Hnd [Hch1 Hch2]%chain_app].
  destruct (chain_last _ _ _ _ Hch1) as (p & Hp & Hpn & Hpl).
  pose proof (chain_first _ _ _ _ Hch2) as Hn. set (nx := default h (head l2)) in *.
  rewrite app_comm_cons in Hnd. apply NoDup_app in Hnd as (Hnd1 & Hdisj & [Hx2 Hnd2]%NoDup_cons).
  assert (p ∈ h :: l1) as Hpin by (rewrite Hpl; apply last_in).
  assert (nx ∈ h :: l2) as Hnin.
  { subst nx. destruct l2 as [|y l2]; cbn; rewrite elem_of_cons, ?elem_of_cons; auto. }
  assert (x ∉ h :: l1) as Hx1 by (intros Hx; apply (Hdisj _ Hx), list_elem_of_here).
  assert (h ∉ l2) as Hh2.
  { intros Hh. apply (Hdisj h); [apply list_elem_of_here|by apply list_elem_of_further]. }
  assert (x <> p) as Hxp by (by intros ->).
  assert (x <> nx) as Hxn.
  { intros E. rewrite <- E in Hnin. apply elem_of_cons in Hnin as [->|]; [|done].
    apply Hx1, list_elem_of_here. }
  assert (is_Some (m !! nx)) as Snx.
  { apply elem_of_cons in Hnin as [->|Hin]; [eapply (chain_loaded _ _ _ _ _ Hch1), list_elem_of_here|].
    eapply (chain_loaded _ _ _ _ _ Hch2). by apply list_elem_of_further. }
  destruct (list_del_links m x p nx Hp Hn Hxp Hxn (next_of_is_Some _ _ _ Hpn) Snx) as (m2 & Edel & N & P & F).
  exists m2. split; [done|].
  assert (linked m2 p nx) as Hpx.
  { split; [by rewrite N, decide_True | by rewrite P, decide_True]. }
  assert (chain m2 h l1 nx) as Hc1.
  { apply NoDup_cons in Hnd1 as Hnd1'. rewrite not_elem_of_cons in Hx1.
    assert (nx ∉ l1) as Hnl.
    { apply elem_of_cons in Hnin as [->|Hin]; [apply Hnd1'|]. intros Hin'.
      apply (Hdisj nx); by apply list_elem_of_further. }
    apply (chain_retarget m _ _ _ x); try done; try apply Hx1.
    - intros y Hy Hne. rewrite N, decide_False; [done|congruence].
    - intros y Hy. rewrite P, decide_False; [done|]. by intros ->.
    - by rewrite <- Hpl. }
  split; [split|].
  - rewrite app_comm_cons. apply NoDup_app. split; [done|]. split; [|done].
    intros y Hy Hy2. apply (Hdisj y Hy). by apply list_elem_of_further.
  - destruct l2 as [|y l2]; [by rewrite app_nil_r|]. cbn in nx. subst nx.
    apply chain_app. split; [done|]. cbn [chain] in Hch2. destruct Hch2 as [_ Hch2].
    apply NoDup_cons in Hnd2 as [Hy2 Hnd2]. apply (chain_ext m); [| |done].
    + intros z Hz. rewrite N, decide_False; [done|]. intros ->.
      apply (Hdisj p Hpin). by apply list_elem_of_further.
    + intros z Hz. rewrite P, decide_False; [done|]. intros ->.
      apply elem_of_cons in Hz as [->|]; [|done]. apply Hh2, list_elem_of_here.
  - intros y Hy. rewrite app_comm_cons, not_elem_of_app in Hy. destruct Hy as [Hy1 Hy2].
    apply F; [by intros ->|]. intros ->.
    apply elem_of_cons in Hnin as [E|]; [|done]. rewrite E in Hy1. apply Hy1, list_elem_of_here.
Qed.

Lemma for_each_from_correct fuel m h k l :
  dlist m h (k ++ l) -> (length l < fuel)%nat ->
  list_for_each_from fuel (default h (head l)) h m = Done l.
Proof.
  revert k l. induction fuel as [|fuel IH]; intros k l Hd Hf; [lia|].
  cbn [list_for_each_from]. destruct l as [|x l]; cbn [head default from_option id length] in *.
  - by rewrite bool_decide_eq_true_2.
  - destruct Hd as [Hnd Hch]. pose proof Hch as [_ Hc2]%chain_app.
    rewrite bool_decide_eq_false_2.
    2:{ intros ->. apply NoDup_cons in Hnd as [Hh _]. apply Hh, elem_of_app. right. apply list_elem_of_here. }
    apply chain_first, next_of_load in Hc2 as (n & En & Enn).
    rewrite (load_ok _ _ _ En). cbn [mbind outcome_bind]. rewrite Enn.
    rewrite (IH (k ++ [x])); [done| |lia]. by rewrite <- app_assoc.
Qed.

Lemma for_each_safe_from_correct fuel test m h k l item nxt :
  dlist m h (k ++ l) -> (length l < fuel)%nat ->
  item = default h (head l) -> (forall x l', l = x :: l' -> nxt = default h (head l')) ->
  exists m', list_for_each_safe_from fuel test item nxt h m = Done m' /\
    dlist m' h (k ++ filter (fun x => negb (test x)) l).
Proof.
  revert m k l item nxt. induction fuel as [|fuel IH]; intros m k l item nxt Hd Hf Hi Hn; [lia|].
  cbn [list_for_each_safe_from]. destruct l as [|x l]; cbn in Hi; subst item.
  - rewrite bool_decide_eq_true_2 by done. by exists m.
  - rewrite bool_decide_eq_false_2.
    2:{ intros ->. destruct Hd as [[Hh _]%NoDup_cons _]. apply Hh, elem_of_app. right. apply list_elem_of_here. }
    specialize (Hn x l eq_refl) as ->. cbn [length] in Hf. rewrite filter_cons.
    assert (forall m1 k1, dlist m1 h (k1 ++ l) ->
      exists m', (n ← load m1 (default h (head l));
        list_for_each_safe_from fuel test (default h (head l)) (next n) h m1) = Done m' /\
        dlist m' h (k1 ++ filter (fun x => negb (test x)) l)) as Hnext.
    { intros m1 k1 Hd1. pose proof Hd1 as [_ Hch].
      destruct l as [|y l]; cbn [head default from_option id].
      - destruct (chain_loaded _ _ _ _ h Hch) as [n En]; [apply list_elem_of_here|].
        rewrite (load_ok _ _ _ En). cbn [mbind outcome_bind]. by apply IH; [|cbn in *; lia|..].
      - apply chain_app in Hch as [_ Hc2]. apply chain_first, next_of_load in Hc2 as (n & En & Enn).
        rewrite (load_ok _ _ _ En). cbn [mbind outcome_bind]. apply IH; [done|lia|done|].
        intros ? ? [= <- <-]. done. }
    destruct (test x) eqn:Et; cbn [negb].
    + destruct (list_del_removes _ _ _ _ _ Hd) as (m1 & -> & Hd1 & _). cbn [mbind outcome_bind].
      rewrite decide_False by (by intros []). by apply Hnext.
    + cbn [mbind outcome_bind]. rewrite decide_True by done.
      destruct (Hnext m (k ++ [x])) as (m' & E & Hd'); [by rewrite <- app_assoc|].
      exists m'. split; [done|]. by rewrite <- app_assoc in Hd'.
Qed.

(** [list_for_each] visits exactly the elements of a list, in order, and
    [list_for_each_safe] with a body that deletes the elements satisfying a
    test leaves the list holding exactly the others, in order, without ever
    following a stale pointer. *)
Lemma list_iteration_correct m h l test :
  dlist m h l ->
  list_for_each (S (length l)) h m = Done l /\
  exists m', list_for_each_safe (S (length l)) test h m = Done m' /\
    dlist m' h (filter (fun x => negb (test x)) l).
Proof.
  intros Hd. pose proof Hd as [Hnd Hch]. pose proof Hch as H. apply chain_first, next_of_load in H as (n & En & Enn).
  unfold list_for_each, list_for_each_safe. rewrite (load_ok _ _ _ En). cbn [mbind outcome_bind].
  rewrite Enn. split.
  - apply (for_each_from_correct _ _ _ []); [done|lia].
  - destruct l as [|x l]; cbn [head default from_option id].
    + rewrite (load_ok _ _ _ En). cbn [mbind outcome_bind].
      apply (for_each_safe_from_correct _ _ _ _ [] []); try done. cbn; lia.
    + destruct Hch as [_ Hc2]. apply chain_first, next_of_load in Hc2 as (n2 & En2 & Enn2).
      rewrite (load_ok _ _ _ En2). cbn [mbind outcome_bind].
      apply (for_each_safe_from_correct _ _ _ _ [] (x :: l)); try done; [lia|].
      intros ? ? [= <- <-]. done.
Qed.

(** [list_init] makes an empty list of any node; [list_empty] tells exactly
    the empty lists. *)
Lemma list_init_empty m h l :
  (is_Some (m !! h) -> exists m', list_init h m = Done m' /\ dlist m' h []) /\
  (dlist m h l -> list_empty h m = Done (bool_decide (l = []))).
Proof.
  split.
  - intros Hs. unfold list_init.
    destruct (set_next_spec h h m Hs) as (m1 & -> & N1 & P1 & _ & S1). cbn [mbind outcome_bind].
    destruct (set_prev_spec h h m1 S1) as (m2 & -> & P2 & N2 & _ & _).
    exists m2. split; [done|]. split; [apply NoDup_singleton|].
    split; [by rewrite N2, N1, decide_True | by rewrite P2, decide_True].
  - intros [Hnd Hch]. pose proof Hch as (n & En & Enn)%chain_first%next_of_load.
    unfold list_empty. rewrite (load_ok _ _ _ En). cbn. rewrite Enn. f_equal.
    apply bool_decide_ext. destruct l as [|x l]; cbn; [done|].
    split; [|done]. intros ->. apply NoDup_cons in Hnd as [Hh _].
    by destruct Hh; apply list_elem_of_here.
Qed.

Definition two_nodes : memory := {[ 0%nat := ListHead 0 0; 1%nat := ListHead 7 7 ]}.
Definition one_element : memory := {[ 0%nat := ListHead 1 1; 1%nat := ListHead 0 0 ]}.

Lemma list_init_empty_witness :
  exists m', list_init 0 two_nodes = Done m' /\ dlist m' 0 [].
Proof. apply (proj1 (list_init_empty two_nodes 0 [])). by eexists. Defined.

Lemma list_add_appends_witness :
  exists m', list_add 0 1 two_nodes = Done m' /\ dlist m' 0 [1%nat] /\
    forall y, y ∉ [0%nat; 1%nat] -> m' !! y = two_nodes !! y.
Proof.
  apply (list_add_appends two_nodes 0 [] 1).
  - split; [apply NoDup_singleton|done].
  - by apply (bool_decide_unpack _).
  - by eexists.
Defined.

Lemma list_iteration_correct_witness :
  list_for_each 2 0 one_element = Done [1%nat] /\
  exists m', list_for_each_safe 2 (Nat.eqb 1) 0 one_element = Done m' /\
    dlist m' 0 (filter (fun x => negb (Nat.eqb 1 x)) [1%nat]).
Proof.
  apply (list_iteration_correct one_element 0 [1%nat]).
  split; [|by repeat split]. apply (bool_decide_unpack _). done.
Defined.
