(* ===== verification/Masks.v ===== *)
(** * Masks: [router/masks.c] and [router/masks.h]

    The tables that say which messages, log packets and events the host wants
    from the peripherals.  Table entries own heap buffers; [None] is a pointer
    that must not be followed (null, or freed). *)

From S2P Require Import Prelude Util.

Definition ENOMEM : Z := 12.
Definition EINVAL : Z := 22.
Definition EIO : Z := 5.

(** ** Data *)

Definition log_code_last_tbl : list Z :=
  [0x0; 0x1A02; 0x0; 0x0; 0x4910; 0x5420; 0x0; 0x74FF; 0x0; 0x0; 0xA38A; 0xB201; 0x0; 0xD1FF; 0x0; 0x0].

Definition ssid_first_arr : list Z :=
  [    0;   500;  1000;  2000;  3000;  4000;  4500;  4600;
    5000;  5500;  6000;  6500;  7000;  7100;  7200;  8000;
    8500;  9000;  9500; 10200; 10251; 10300; 10350; 10400; 0xC000 ].

Definition ssid_last_arr : list Z :=
  [  120;   506;  1007;  2008;  3014;  4010;  4573;  4615;
    5033;  5516;  6081;  6521;  7003;  7111;  7201;  8000;
    8529;  9008;  9510; 10210; 10255; 10300; 10377; 10416; 0xC063 ].

Definition MSG_MASK_TBL_CNT : nat := 25.
Definition NUM_OF_MASK_RANGES : Z := 25.
Definition APPS_EVENT_LAST_ID : Z := 0x0B3F.
Definition MAX_SSID_PER_RANGE : Z := 200.
Definition MAX_EQUIP_ID : nat := 16.
Definition EVENT_MASK_SIZE : Z := 513.
Definition MAX_ITEMS_PER_EQUIP_ID : Z := 512.
Definition MAX_ITEMS_ALLOWED : Z := 0xFFF.
Definition APPS_BUF_SIZE : Z := 16384.

Definition LOG_GET_ITEM_NUM (xx_code : Z) : Z := Z.land xx_code 0x0FFF.

(** [MSG_RANGE_TO_SIZE]: an [int], stored into an [uint32_t] by its callers. *)
Definition MSG_RANGE_TO_SIZE (first last : Z) : Z := u32 ((last - first + 1) * 4).

Definition DIAG_CTRL_MASK_INVALID : Z := 0.
Definition DIAG_CTRL_MASK_ALL_DISABLED : Z := 1.
Definition DIAG_CTRL_MASK_ALL_ENABLED : Z := 2.
Definition DIAG_CTRL_MASK_VALID : Z := 3.

(** [struct diag_log_mask_t] *)
Record log_item := LogItem {
  li_equip_id : Z; li_num_items : Z; li_num_items_tools : Z;
  li_range : Z; li_range_tools : Z; li_ptr : option bytes }.

(** [struct diag_msg_mask_t]; the words behind [ptr] as bytes. *)
Record msg_item := MsgItem {
  mi_ssid_first : Z; mi_ssid_last : Z; mi_ssid_last_tools : Z;
  mi_range : Z; mi_range_tools : Z; mi_ptr : option bytes }.

Definition MSG_MASK_SIZE : Z := 25 * 28.
Definition LOG_MASK_SIZE : Z := 16 * 25.

(** [struct diag_mask_info], for the type of object its [ptr] points to. *)
Record mask_info (A : Type) := MaskInfo { mk_ptr : option A; mk_len : Z; mk_status : Z }.
Arguments MaskInfo {A}.
Arguments mk_ptr {A}.
Arguments mk_len {A}.
Arguments mk_status {A}.

Record masks := Masks {
  msg_mask : mask_info (list msg_item);
  msg_bt_mask : mask_info (list msg_item);
  log_mask : mask_info (list log_item);
  event_mask : mask_info bytes;
  event_max_num_bits : Z }.

Definition with_msg f m := Masks (f (msg_mask m)) (msg_bt_mask m) (log_mask m) (event_mask m) (event_max_num_bits m).
Definition with_bt f m := Masks (msg_mask m) (f (msg_bt_mask m)) (log_mask m) (event_mask m) (event_max_num_bits m).
Definition with_log f m := Masks (msg_mask m) (msg_bt_mask m) (f (log_mask m)) (event_mask m) (event_max_num_bits m).
Definition with_event f m := Masks (msg_mask m) (msg_bt_mask m) (log_mask m) (f (event_mask m)) (event_max_num_bits m).
Definition with_bits n m := Masks (msg_mask m) (msg_bt_mask m) (log_mask m) (event_mask m) n.

Definition with_ptr {A} (p : option A) (i : mask_info A) := MaskInfo p (mk_len i) (mk_status i).
Definition with_status {A} (s : Z) (i : mask_info A) := MaskInfo (mk_ptr i) (mk_len i) s.
Definition with_len {A} (n : Z) (i : mask_info A) := MaskInfo (mk_ptr i) n (mk_status i).

(** The static storage before [diag_masks_init]. *)
Definition info_zero {A} : mask_info A := MaskInfo None 0 0.
Definition masks_zero : masks := Masks info_zero info_zero info_zero info_zero 0.

(** Following a pointer. *)
Definition deref {S A} (p : option A) : M S A :=
  match p with Some a => mret a | None => fail_ub end.

(** ** Initialisation *)

(** [diag_mask_init]: [zero] is the object as [memset] leaves it. *)
Definition diag_mask_init {S A} (zero : A) (mask_len update_buf_len : Z) (info : mask_info A)
    : M S (Z * mask_info A) :=
  if (mask_len <? 0) || (update_buf_len <? 0) then mret (- EINVAL, info) else
  let info := MaskInfo (mk_ptr info) mask_len DIAG_CTRL_MASK_INVALID in
  if 0 <? mask_len then
    p ← malloc mask_len;
    match p with
    | None => mret (- ENOMEM, with_ptr None info)
    | Some _ => mret (0, with_ptr (Some zero) info)
    end
  else mret (0, info).

Definition msg_item_zero : msg_item := MsgItem 0 0 0 0 0 None.
Definition log_item_zero : log_item := LogItem 0 0 0 0 0 None.

Definition diag_create_msg_mask_table_entry {S} (entry : Z) : M S (Z * msg_item) :=
  if NUM_OF_MASK_RANGES <? entry then mret (- EINVAL, msg_item_zero) else
  first ← deref (ssid_first_arr !! Z.to_nat entry);
  last ← deref (ssid_last_arr !! Z.to_nat entry);
  let range := u32 (last - first + 1) in
  let range := if range <? MAX_SSID_PER_RANGE then MAX_SSID_PER_RANGE else range in
  let item := MsgItem first last last range range None in
  if 0 <? range then
    p ← malloc (range * 4);
    match p with
    | None => mret (- ENOMEM, item)
    | Some _ => mret (0, MsgItem first last last range range
                           (Some (replicate (Z.to_nat (range * 4)) 0xff)))
    end
  else mret (0, item).

(** The loop of [diag_create_msg_mask_table] and [diag_create_build_time_mask]
    from entry [i] on: stop at the first error. *)
Fixpoint create_msg_entries {S} (i : Z) (items : list msg_item) : M S (Z * list msg_item) :=
  match items with
  | [] => mret (0, [])
  | _ :: items =>
      r ← diag_create_msg_mask_table_entry i;
      let '(err, item) := r in
      if negb (err =? 0) then mret (err, item :: items) else
      r ← create_msg_entries (i + 1) items;
      let '(err, items) := r in mret (err, item :: items)
  end.

Definition diag_create_msg_mask_table : M masks Z :=
  m ← get;
  items ← deref (mk_ptr (msg_mask m));
  r ← create_msg_entries 0 items;
  let '(err, items) := r in
  _ ← modify (with_msg (with_ptr (Some items)));
  mret err.

Definition diag_create_build_time_mask : M masks Z :=
  m ← get;
  items ← deref (mk_ptr (msg_bt_mask m));
  r ← create_msg_entries 0 items;
  let '(err, items) := r in
  _ ← modify (with_bt (with_ptr (Some items)));
  mret err.

Definition diag_msg_mask_init : M masks Z :=
  m ← get;
  r ← diag_mask_init (replicate MSG_MASK_TBL_CNT msg_item_zero) MSG_MASK_SIZE APPS_BUF_SIZE (msg_mask m);
  let '(ret, info) := r in
  _ ← modify (with_msg (fun _ => info));
  if negb (ret =? 0) then mret ret else diag_create_msg_mask_table.

Definition diag_build_time_mask_init : M masks Z :=
  m ← get;
  r ← diag_mask_init (replicate MSG_MASK_TBL_CNT msg_item_zero) MSG_MASK_SIZE 0 (msg_bt_mask m);
  let '(err, info) := r in
  _ ← modify (with_bt (fun _ => info));
  if negb (err =? 0) then mret err else diag_create_build_time_mask.

(** The loop of [diag_create_log_mask_table]. *)
Fixpoint create_log_entries {S} (equip_id : Z) (items : list log_item) : M S (Z * list log_item) :=
  match items with
  | [] => mret (0, [])
  | _ :: items =>
      code ← deref (log_code_last_tbl !! Z.to_nat equip_id);
      let n := LOG_GET_ITEM_NUM code in
      let range := if MAX_ITEMS_PER_EQUIP_ID <? BITS_TO_BYTES n then BITS_TO_BYTES n
                   else MAX_ITEMS_PER_EQUIP_ID in
      p ← malloc range;
      match p with
      | None => mret (- ENOMEM, LogItem equip_id n n range range None :: items)
      | Some _ =>
          r ← create_log_entries (equip_id + 1) items;
          let '(err, items) := r in
          mret (err, LogItem equip_id n n range range (Some (replicate (Z.to_nat range) 0)) :: items)
      end
  end.

Definition diag_create_log_mask_table : M masks Z :=
  m ← get;
  items ← deref (mk_ptr (log_mask m));
  r ← create_log_entries 0 items;
  let '(err, items) := r in
  _ ← modify (with_log (with_ptr (Some items)));
  mret err.

Definition diag_log_mask_init : M masks Z :=
  m ← get;
  r ← diag_mask_init (replicate MAX_EQUIP_ID log_item_zero) LOG_MASK_SIZE APPS_BUF_SIZE (log_mask m);
  let '(ret, info) := r in
  _ ← modify (with_log (fun _ => info));
  if negb (ret =? 0) then mret ret else diag_create_log_mask_table.

Definition diag_event_mask_init : M masks Z :=
  _ ← modify (with_bits APPS_EVENT_LAST_ID);
  m ← get;
  r ← diag_mask_init (replicate (Z.to_nat EVENT_MASK_SIZE) 0) EVENT_MASK_SIZE APPS_BUF_SIZE (event_mask m);
  let '(ret, info) := r in
  _ ← modify (with_event (fun _ => info));
  mret ret.

(** The [_exit] functions free every buffer and the tables; the pointers left
    behind must not be followed any more. *)
Definition diag_msg_mask_exit : M masks unit := modify (with_msg (with_ptr None)).
Definition diag_build_time_mask_exit : M masks unit := modify (with_bt (with_ptr None)).
Definition diag_log_mask_exit : M masks unit := modify (with_log (with_ptr None)).
Definition diag_event_mask_exit : M masks unit := modify (with_event (with_ptr None)).

Definition diag_masks_exit : M masks unit :=
  _ ← diag_msg_mask_exit;
  _ ← diag_build_time_mask_exit;
  _ ← diag_log_mask_exit;
  diag_event_mask_exit.

(** The [||] of the four initialisers stops at the first that fails. *)
Definition diag_masks_init : M masks Z :=
  let fails := _ ← diag_masks_exit; mret (- ENOMEM) in
  r ← diag_msg_mask_init; if negb (r =? 0) then fails else
  r ← diag_build_time_mask_init; if negb (r =? 0) then fails else
  r ← diag_log_mask_init; if negb (r =? 0) then fails else
  r ← diag_event_mask_init; if negb (r =? 0) then fails else
  mret 0.

(** ** Log masks *)

Definition diag_get_log_mask_status (m : masks) : Z := mk_status (log_mask m).
Definition diag_get_build_mask_status (m : masks) : Z := mk_status (msg_bt_mask m).
Definition diag_get_msg_mask_status (m : masks) : Z := mk_status (msg_mask m).
Definition diag_get_event_mask_status (m : masks) : Z := mk_status (event_mask m).

(** [memset(p, b, n)] and [memcpy(p + off, src, n)] on the object [p] points to. *)
Definition memset {S} (p : option bytes) (b n : Z) : M S bytes :=
  mem ← deref p; lift (mem_write mem 0 (replicate (Z.to_nat n) b)).

Definition memcpy {S} (p : option bytes) (off : Z) (src : bytes) (n : Z) : M S bytes :=
  mem ← deref p; d ← lift (mem_read src 0 n); lift (mem_write mem off d).

Definition li_with_ptr (p : bytes) (i : log_item) : log_item :=
  LogItem (li_equip_id i) (li_num_items i) (li_num_items_tools i) (li_range i) (li_range_tools i) (Some p).

Fixpoint disable_log_entries {S} (items : list log_item) : M S (list log_item) :=
  match items with
  | [] => mret []
  | i :: items =>
      mem ← memset (li_ptr i) 0 (li_range i);
      items ← disable_log_entries items;
      mret (li_with_ptr mem i :: items)
  end.

Definition diag_cmd_disable_log : M masks unit :=
  m ← get;
  items ← deref (mk_ptr (log_mask m));
  items ← disable_log_entries items;
  modify (with_log (fun i => with_status DIAG_CTRL_MASK_ALL_DISABLED (with_ptr (Some items) i))).

(** The values stored to [ranges[0], ranges[1], ...]. *)
Definition diag_cmd_get_log_range (count : Z) : M masks (list Z) :=
  m ← get;
  items ← deref (mk_ptr (log_mask m));
  mret (li_num_items_tools <$> take (Z.to_nat (MIN (Z.of_nat MAX_EQUIP_ID) count)) items).

(** The loops that look an entry up: the first whose [equip_id] matches. *)
Definition log_lookup (equip_id : Z) (items : list log_item) : option (nat * log_item) :=
  list_find (fun i => li_equip_id i = equip_id) items.

Definition log_store (k : nat) (i : log_item) : M masks unit :=
  modify (with_log (fun l => with_ptr (insert k i <$> mk_ptr l) l)).

(** [mask] is the object from the pointer on.  The result is the return
    value with what [*num_items] and [*mask_size] hold afterwards. *)
Definition diag_cmd_set_log_mask (equip_id num_items : Z) (mask : bytes) (mask_size : Z)
    : M masks (Z * Z * Z) :=
  m ← get;
  items ← deref (mk_ptr (log_mask m));
  match log_lookup equip_id items with
  | None => mret (1, num_items, mask_size)
  | Some (k, it) =>
      let n := MIN num_items MAX_ITEMS_ALLOWED in
      let mask_size := BITS_TO_BYTES n in
      let entry range_tools p :=
        LogItem (li_equip_id it) (li_num_items it) n (li_range it) range_tools p in
      mem ← memset (li_ptr it) 0 (li_range_tools it);
      _ ← log_store k (entry (li_range_tools it) (Some mem));
      r ← (if li_range_tools it <? mask_size then
             tmp_buf ← realloc mem mask_size;
             match tmp_buf with
             | None =>
                 _ ← modify (with_log (with_status DIAG_CTRL_MASK_INVALID));
                 mret None
             | Some tmp_buf =>
                 mem ← memset (Some tmp_buf) 0 mask_size;
                 mret (Some (mem, mask_size))
             end
           else mret (Some (mem, li_range_tools it)));
      match r with
      | None => mret (- ENOMEM, num_items, mask_size)
      | Some (mem, range_tools) =>
          mem ← memcpy (Some mem) 0 mask mask_size;
          _ ← log_store k (entry range_tools (Some mem));
          _ ← modify (with_log (with_status DIAG_CTRL_MASK_VALID));
          mret (0, n, mask_size)
      end
  end.

(** The result: the return value, [*num_items], [*mask] and [*mask_size],
    which the callers initialise to zero and null. *)
Definition diag_cmd_get_log_mask (equip_id : Z) : M masks (Z * Z * option bytes * Z) :=
  m ← get;
  items ← deref (mk_ptr (log_mask m));
  match log_lookup equip_id items with
  | None => mret (1, 0, None, 0)
  | Some (_, it) =>
      let n := li_num_items_tools it in
      let mask_size := BITS_TO_BYTES n in
      mask ← malloc mask_size;
      match mask with
      | None => mret (- ENOMEM, n, None, mask_size)
      | Some mask =>
          src ← deref (li_ptr it);
          mask ← memcpy (Some mask) 0 src mask_size;
          mret (0, n, Some mask, mask_size)
      end
  end.

(** ** Message masks *)

(** [struct diag_ssid_range_t] is a pair of [uint16_t]. *)
Definition ssid_range : Type := Z * Z.

Definition ssid_range_bytes (r : ssid_range) : bytes := le 2 (r.1) ++ le 2 (r.2).

(** The result: [*count] and the array [*ranges] points to. *)
Definition diag_cmd_get_ssid_range : M masks (Z * option bytes) :=
  m ← get;
  let count := Z.of_nat MSG_MASK_TBL_CNT in
  ranges ← calloc (count * 4);
  match ranges with
  | None => mret (count, None)
  | Some _ =>
      items ← deref (mk_ptr (msg_mask m));
      mret (count, Some (items ≫= (fun i =>
        ssid_range_bytes (u16 (mi_ssid_first i), u16 (mi_ssid_last_tools i)))))
  end.

(** The result: the return value, [*range] and [*mask] (null if not set). *)
Definition diag_cmd_get_build_mask (range : ssid_range) : M masks (Z * ssid_range * option bytes) :=
  m ← get;
  items ← deref (mk_ptr (msg_bt_mask m));
  match list_find (fun i => mi_ssid_first i = range.1) items with
  | None => mret (1, range, None)
  | Some (_, it) =>
      let num_entries := u32 (range.2 - range.1 + 1) in
      let '(num_entries, range) :=
        if mi_range it <? num_entries then (mi_range it, (range.1, u16 (range.1 + mi_range it)))
        else (num_entries, range) in
      let mask_size := u32 (num_entries * 4) in
      mask ← malloc mask_size;
      match mask with
      | None => mret (- ENOMEM, range, None)
      | Some mask =>
          src ← deref (mi_ptr it);
          mask ← memcpy (Some mask) 0 src mask_size;
          mret (0, range, Some mask)
      end
  end.

Definition diag_cmd_get_msg_mask (range : ssid_range) : M masks (Z * ssid_range * option bytes) :=
  m ← get;
  items ← deref (mk_ptr (msg_mask m));
  match list_find (fun i => mi_ssid_first i <= range.1 <= mi_ssid_last_tools i) items with
  | None => mret (1, range, None)
  | Some (_, it) =>
      let mask_size := u32 (mi_range it * 4) in
      let range := (u16 (mi_ssid_first it), u16 (mi_ssid_last it)) in
      mask ← malloc mask_size;
      match mask with
      | None => mret (- ENOMEM, range, None)
      | Some mask =>
          src ← deref (mi_ptr it);
          mask ← memcpy (Some mask) 0 src mask_size;
          mret (0, range, Some mask)
      end
  end.

(** The loop of [diag_cmd_set_msg_mask]: the first entry whose window of
    [MAX_SSID_PER_RANGE] starts at or before [first] and whose successor (if
    any) starts behind it. *)
Fixpoint msg_lookup_window (k : nat) (first : Z) (items : list msg_item) : option (nat * msg_item) :=
  match items with
  | [] => None
  | i :: rest =>
      let skip :=
        (first <? mi_ssid_first i) ||
        (u32 (mi_ssid_first i + MAX_SSID_PER_RANGE) <? first) ||
        match rest with [] => false | nxt :: _ => mi_ssid_first nxt <=? first end in
      if skip then msg_lookup_window (S k) first rest else Some (k, i)
  end.

Definition msg_store (k : nat) (i : msg_item) : M masks unit :=
  modify (with_msg (fun l => with_ptr (insert k i <$> mk_ptr l) l)).

Definition diag_cmd_set_msg_mask (range : ssid_range) (mask : bytes) : M masks Z :=
  m ← get;
  items ← deref (mk_ptr (msg_mask m));
  match msg_lookup_window 0 (range.1) items with
  | None => mret 1
  | Some (k, it) =>
      let entry last_tools range_tools p :=
        MsgItem (mi_ssid_first it) (mi_ssid_last it) last_tools (mi_range it) range_tools p in
      let num_msgs := u32 (range.2 - range.1 + 1) in
      let '(num_msgs, range_tools, last_tools) :=
        if MAX_SSID_PER_RANGE <? num_msgs then
          (MAX_SSID_PER_RANGE, MAX_SSID_PER_RANGE, u32 (mi_ssid_first it + MAX_SSID_PER_RANGE))
        else (num_msgs, mi_range_tools it, mi_ssid_last_tools it) in
      _ ← msg_store k (entry last_tools range_tools (mi_ptr it));
      r ← (if last_tools <? range.2 then
             let last_tools :=
               if negb (num_msgs =? MAX_SSID_PER_RANGE) then range.2 else last_tools in
             let range_tools := u32 (last_tools - mi_ssid_first it + 1) in
             _ ← msg_store k (entry last_tools range_tools (mi_ptr it));
             mem ← deref (mi_ptr it);
             tmp_buf ← realloc mem (range_tools * 4);
             match tmp_buf with
             | None =>
                 _ ← modify (with_msg (with_status DIAG_CTRL_MASK_INVALID));
                 mret None
             | Some tmp_buf =>
                 _ ← msg_store k (entry last_tools range_tools (Some tmp_buf));
                 mret (Some (Some tmp_buf, range_tools, last_tools))
             end
           else mret (Some (mi_ptr it, range_tools, last_tools)));
      match r with
      | None => mret (- ENOMEM)
      | Some (p, range_tools, last_tools) =>
          let offset := u32 (range.1 - mi_ssid_first it) in
          if range_tools <? u32 (offset + num_msgs) then mret 1 else
          mem ← memcpy p (4 * offset) mask (num_msgs * 4);
          _ ← msg_store k (entry last_tools range_tools (Some mem));
          _ ← modify (with_msg (with_status DIAG_CTRL_MASK_VALID));
          mret 0
      end
  end.

(** [memset] takes the low byte of [mask]. *)
Fixpoint set_all_entries {S} (mask : Z) (items : list msg_item) : M S (list msg_item) :=
  match items with
  | [] => mret []
  | i :: items =>
      mem ← memset (mi_ptr i) (u8 mask) (mi_range_tools i * 4);
      items ← set_all_entries mask items;
      mret (MsgItem (mi_ssid_first i) (mi_ssid_last i) (mi_ssid_last_tools i)
              (mi_range i) (mi_range_tools i) (Some mem) :: items)
  end.

Definition diag_cmd_set_all_msg_mask (mask : Z) : M masks unit :=
  _ ← modify (with_msg (with_status
        (if mask =? 0 then DIAG_CTRL_MASK_ALL_DISABLED else DIAG_CTRL_MASK_ALL_ENABLED)));
  m ← get;
  items ← deref (mk_ptr (msg_mask m));
  items ← set_all_entries mask items;
  modify (with_msg (with_ptr (Some items))).

(** ** Event masks *)

Definition diag_cmd_get_event_mask (num_bits : Z) : M masks (Z * option bytes) :=
  m ← get;
  let mask_size := BITS_TO_BYTES_16 num_bits in
  if event_max_num_bits m <? num_bits then mret (1, None) else
  mask ← malloc mask_size;
  match mask with
  | None => mret (- ENOMEM, None)
  | Some mask =>
      src ← deref (mk_ptr (event_mask m));
      mask ← memcpy (Some mask) 0 src mask_size;
      mret (0, Some mask)
  end.

Definition diag_cmd_update_event_mask (num_bits : Z) (mask : bytes) : M masks Z :=
  m ← get;
  r ← (if event_max_num_bits m <? num_bits then
         mem ← deref (mk_ptr (event_mask m));
         tmp_buf ← realloc mem (BITS_TO_BYTES_16 num_bits);
         match tmp_buf with
         | None =>
             _ ← modify (with_event (with_status DIAG_CTRL_MASK_INVALID));
             mret (- ENOMEM)
         | Some tmp_buf =>
             _ ← modify (with_event (with_ptr (Some tmp_buf)));
             _ ← modify (with_bits num_bits);
             _ ← modify (with_event (with_len (BITS_TO_BYTES_16 num_bits)));
             mret 0
         end
       else mret 0);
  if negb (r =? 0) then mret r else
  m ← get;
  mem ← memcpy (mk_ptr (event_mask m)) 0 mask (BITS_TO_BYTES_16 num_bits);
  _ ← modify (with_event (with_ptr (Some mem)));
  _ ← modify (with_event (with_status DIAG_CTRL_MASK_VALID));
  mret 0.

Definition diag_cmd_toggle_events (enabled : bool) : M masks unit :=
  m ← get;
  mem ← memset (mk_ptr (event_mask m)) (if enabled then 0xff else 0) (mk_len (event_mask m));
  _ ← modify (with_event (with_ptr (Some mem)));
  modify (with_event (with_status
    (if enabled then DIAG_CTRL_MASK_ALL_ENABLED else DIAG_CTRL_MASK_ALL_DISABLED))).

(** ** Invariants *)

Definition buffer_ok (p : option bytes) (n : Z) : Prop :=
  exists b, p = Some b /\ zlen b = n /\ bytes_ok b.

Definition log_item_wf (k : nat) (i : log_item) : Prop :=
  li_equip_id i = Z.of_nat k /\ 0 <= li_num_items_tools i <= MAX_ITEMS_ALLOWED /\
  li_range i = MAX_ITEMS_PER_EQUIP_ID /\ li_range_tools i = MAX_ITEMS_PER_EQUIP_ID /\
  buffer_ok (li_ptr i) MAX_ITEMS_PER_EQUIP_ID.

Definition log_items_wf (items : list log_item) : Prop :=
  length items = MAX_EQUIP_ID /\ forall k i, items !! k = Some i -> log_item_wf k i.

Definition log_wf (m : masks) : Prop :=
  exists items, mk_ptr (log_mask m) = Some items /\ log_items_wf items.

(** The abstract state: each equipment id has a number of items and as many
    bits, in bytes. *)
Definition log_view (i : log_item) : Z * bytes :=
  (li_num_items_tools i,
   slice (default [] (li_ptr i)) 0 (BITS_TO_BYTES (li_num_items_tools i))).

Definition log_abs (m : masks) (equip_id : Z) : option (Z * bytes) :=
  items ← mk_ptr (log_mask m);
  it ← log_lookup equip_id items;
  Some (log_view it.2).

Lemma bits_bytes_small n : 0 <= n <= MAX_ITEMS_ALLOWED -> 0 <= BITS_TO_BYTES n <= MAX_ITEMS_PER_EQUIP_ID.
Proof.
  unfold MAX_ITEMS_ALLOWED, MAX_ITEMS_PER_EQUIP_ID. intros.
  rewrite BITS_TO_BYTES_16_small by lia. apply BITS_TO_BYTES_16_bound. lia.
Qed.

Lemma log_lookup_some items e :
  log_items_wf items -> 0 <= e < 16 ->
  exists it, items !! Z.to_nat e = Some it /\ log_lookup e items = Some (Z.to_nat e, it) /\
    log_item_wf (Z.to_nat e) it.
Proof.
  intros [Hl Hwf] He. destruct (lookup_lt_is_Some_2 items (Z.to_nat e)) as [it Hit];
    [rewrite Hl; unfold MAX_EQUIP_ID; lia|].
  exists it. split; [done|]. split; [|by apply Hwf]. apply list_find_Some. split; [done|].
  destruct (Hwf _ _ Hit) as [Heq _]. split; [lia|].
  intros j y Hj Hlt. destruct (Hwf _ _ Hj) as [Hy _]. lia.
Qed.

Lemma log_lookup_none items e :
  log_items_wf items -> ~ 0 <= e < 16 -> log_lookup e items = None.
Proof.
  intros [Hl Hwf] He. apply list_find_None, Forall_lookup. intros k i Hk.
  destruct (Hwf _ _ Hk) as [Heq _]. apply lookup_lt_Some in Hk. unfold MAX_EQUIP_ID in Hl. lia.
Qed.

Lemma log_items_wf_insert items k i :
  log_items_wf items -> log_item_wf k i -> log_items_wf (<[k := i]> items).
Proof.
  intros [Hl Hwf] Hi. split; [by rewrite length_insert|].
  intros j y. rewrite list_lookup_insert_Some. intros [(<- & <- & _)|[_ Hy]]; auto.
Qed.

Lemma log_abs_eq m items e :
  mk_ptr (log_mask m) = Some items -> log_items_wf items -> 0 <= e < 16 ->
  log_abs m e = log_view <$> items !! Z.to_nat e.
Proof.
  intros E Hwf He. destruct (log_lookup_some _ _ Hwf He) as (it & Hit & Hlk & _).
  unfold log_abs. rewrite E. cbn. by rewrite Hlk, Hit.
Qed.

Lemma mk_ptr_store k i m items :
  mk_ptr (log_mask m) = Some items ->
  mk_ptr (log_mask (with_log (fun l => with_ptr (insert k i <$> mk_ptr l) l) m)) =
  Some (<[k := i]> items).
Proof. intros E. cbn. by rewrite E. Qed.

Lemma memset_ok {S} b p n h (s : S) :
  0 <= n <= zlen p ->
  memset (Some p) b n h s = Done (splice p 0 (replicate (Z.to_nat n) b), h, s).
Proof.
  intros. unfold memset, deref. mrun. rewrite mem_write_ok; [done|lia|zlia].
Qed.

Lemma memcpy_ok {S} p off src n h (s : S) :
  0 <= off -> 0 <= n <= zlen src -> off + n <= zlen p ->
  memcpy (Some p) off src n h s = Done (splice p off (slice src 0 n), h, s).
Proof.
  intros. unfold memcpy, deref. mrun. rewrite mem_read_ok by lia.
  rewrite mem_write_ok; [done|lia|]. rewrite zlen_slice; lia.
Qed.

(** What [diag_cmd_set_log_mask] leaves in the entry. *)
Definition log_item_set (it : log_item) (n : Z) (mask : bytes) : log_item :=
  LogItem (li_equip_id it) (li_num_items it) n (li_range it) (li_range_tools it)
    (Some (splice (splice (default [] (li_ptr it)) 0 (replicate 512 0)) 0
             (slice mask 0 (BITS_TO_BYTES n)))).

Lemma log_item_set_wf k it n mask :
  log_item_wf k it -> 0 <= n <= MAX_ITEMS_ALLOWED -> bytes_ok mask ->
  BITS_TO_BYTES n <= zlen mask ->
  log_item_wf k (log_item_set it n mask) /\
  log_view (log_item_set it n mask) = (n, slice mask 0 (BITS_TO_BYTES n)).
Proof.
  intros (He & Hn0 & Hr & Hrt & (p & Hp & Hlp & Hok)) Hn Hmask Hlen.
  pose proof (bits_bytes_small n Hn) as Hb. unfold MAX_ITEMS_PER_EQUIP_ID in *.
  assert (zlen (slice mask 0 (BITS_TO_BYTES n)) = BITS_TO_BYTES n) as Hs by (apply zlen_slice; lia).
  assert (zlen (splice p 0 (replicate 512 0)) = 512) as Hz.
  { rewrite zlen_splice; [done|lia|]. rewrite zlen_replicate. lia. }
  unfold log_item_set, log_view. rewrite Hp. cbn. split.
  - unfold log_item_wf. cbn. split_and!; try done; try lia. eexists; split; [done|]. split.
    + rewrite zlen_splice; unfold MAX_ITEMS_PER_EQUIP_ID; lia.
    + apply bytes_ok_splice; auto with diag. apply bytes_ok_splice; auto with diag.
      apply bytes_ok_replicate. done.
  - f_equal. apply slice_splice; lia.
Qed.

Lemma diag_cmd_set_log_mask_ok e n mask ms h m items it :
  mk_ptr (log_mask m) = Some items -> log_items_wf items -> 0 <= e < 16 -> 0 <= n ->
  items !! Z.to_nat e = Some it -> BITS_TO_BYTES (Z.min n MAX_ITEMS_ALLOWED) <= zlen mask ->
  exists m', diag_cmd_set_log_mask e n mask ms h m =
      Done ((0, Z.min n MAX_ITEMS_ALLOWED, BITS_TO_BYTES (Z.min n MAX_ITEMS_ALLOWED)), h, m') /\
    mk_ptr (log_mask m') = Some (<[Z.to_nat e := log_item_set it (Z.min n MAX_ITEMS_ALLOWED) mask]> items) /\
    mk_status (log_mask m') = DIAG_CTRL_MASK_VALID /\
    msg_mask m' = msg_mask m /\ msg_bt_mask m' = msg_bt_mask m /\ event_mask m' = event_mask m /\
    event_max_num_bits m' = event_max_num_bits m.
Proof.
  intros E Hwf He Hn Hit Hlen. destruct (log_lookup_some _ _ Hwf He) as (it' & Hit' & Hlk & Hi).
  rewrite Hit in Hit'. injection Hit' as <-.
  destruct Hi as (Heq & Hn0 & Hr & Hrt & (p & Hp & Hlp & Hok)).
  unfold MAX_ITEMS_PER_EQUIP_ID, MAX_ITEMS_ALLOWED in *.
  pose proof (bits_bytes_small (Z.min n 4095) ltac:(unfold MAX_ITEMS_ALLOWED; lia)) as Hb.
  unfold MAX_ITEMS_PER_EQUIP_ID in Hb.
  unfold diag_cmd_set_log_mask. mrun. rewrite E. cbn [deref]. mrun. rewrite Hlk.
  rewrite MIN_min. unfold MAX_ITEMS_ALLOWED. rewrite Hp, Hrt, memset_ok by lia.
  unfold log_store. mrun. destruct (Z.ltb_spec 512 (BITS_TO_BYTES (Z.min n 4095))); [lia|].
  rewrite memcpy_ok by (rewrite ?zlen_splice; rewrite ?zlen_replicate; lia).
  eexists; split; [done|]. unfold log_item_set. rewrite Hp, Hrt. cbn.
  rewrite E. cbn. by rewrite list_insert_insert_eq.
Qed.

Lemma log_abs_none m e : log_wf m -> ~ 0 <= e < 16 -> log_abs m e = None.
Proof.
  intros (items & E & Hwf) He. unfold log_abs. rewrite E. cbn. by rewrite log_lookup_none.
Qed.

Lemma log_abs_update m m' items e it :
  mk_ptr (log_mask m) = Some items -> log_items_wf items -> 0 <= e < 16 ->
  mk_ptr (log_mask m') = Some (<[Z.to_nat e := it]> items) -> log_item_wf (Z.to_nat e) it ->
  log_wf m' /\ log_abs m' e = Some (log_view it) /\
  forall e', e' <> e -> log_abs m' e' = log_abs m e'.
Proof.
  intros E Hwf He E' Hit. pose proof (log_items_wf_insert _ _ _ Hwf Hit) as Hwf'.
  assert (log_wf m') as Hm' by (eexists; split; [exact E'|done]).
  split; [done|]. split.
  - rewrite (log_abs_eq _ _ _ E') by done.
    rewrite list_lookup_insert_eq; [done|]. destruct Hwf as [-> _]. unfold MAX_EQUIP_ID. lia.
  - intros e' Hne. destruct (decide (0 <= e' < 16)).
    + rewrite (log_abs_eq _ _ _ E'), (log_abs_eq _ _ _ E) by done.
      by rewrite list_lookup_insert_ne by lia.
    + rewrite !log_abs_none; [done|by eexists|done|done|done].
Qed.

Lemma diag_cmd_set_log_mask_sound m e n mask ms h :
  log_wf m -> 0 <= n -> bytes_ok mask ->
  BITS_TO_BYTES (Z.min n MAX_ITEMS_ALLOWED) <= zlen mask ->
  let n' := Z.min n MAX_ITEMS_ALLOWED in
  let size := BITS_TO_BYTES n' in
  exists r m', diag_cmd_set_log_mask e n mask ms h m = Done (r, h, m') /\ log_wf m' /\
    if decide (0 <= e < 16) then
      r = (0, n', size) /\ diag_get_log_mask_status m' = DIAG_CTRL_MASK_VALID /\
      log_abs m' e = Some (n', slice mask 0 size) /\
      forall e', e' <> e -> log_abs m' e' = log_abs m e'
    else r = (1, n, ms) /\ m' = m.
Proof.
  intros (items & E & Hwf) Hn Hmask Hlen n' size. case_decide as He.
  - destruct (log_lookup_some _ _ Hwf He) as (it & Hit & _ & Hi).
    destruct (diag_cmd_set_log_mask_ok e n mask ms h m items it E Hwf He Hn Hit Hlen)
      as (m' & R & E' & Hst & _).
    destruct (log_item_set_wf _ it n' mask Hi ltac:(subst n'; unfold MAX_ITEMS_ALLOWED; lia) Hmask Hlen)
      as [Hi' Hv].
    destruct (log_abs_update m m' items e _ E Hwf He E' Hi') as (H1 & H2 & H3).
    eexists _, m'. split; [exact R|]. rewrite H2. fold n'. rewrite Hv. done.
  - exists (1, n, ms), m. split; [|split; [by eexists|done]].
    unfold diag_cmd_set_log_mask. mrun. rewrite E. cbn [deref]. mrun. by rewrite log_lookup_none.
Qed.

(** [diag_cmd_set_log_mask] implements the update of a map from equipment
    ids to (number of items, bits): for a known id it stores the first
    [min(num_items, 0xFFF)] bits of the mask, reports the capped count and the
    size in bytes, and leaves every other id alone; for an unknown id it
    returns 1 and changes nothing.  No access leaves the entry's buffer. *)
Lemma diag_cmd_set_log_mask_refines m e n mask ms h :
  log_wf m -> 0 <= n -> bytes_ok mask ->
  BITS_TO_BYTES (Z.min n MAX_ITEMS_ALLOWED) <= zlen mask ->
  let n' := Z.min n MAX_ITEMS_ALLOWED in
  let size := BITS_TO_BYTES n' in
  exists r m', diag_cmd_set_log_mask e n mask ms h m = Done (r, h, m') /\ log_wf m' /\
    if decide (0 <= e < 16) then
      r = (0, n', size) /\ diag_get_log_mask_status m' = DIAG_CTRL_MASK_VALID /\
      log_abs m' e = Some (n', slice mask 0 size) /\
      forall e', e' <> e -> log_abs m' e' = log_abs m e'
    else r = (1, n, ms) /\ m' = m.
Proof. apply diag_cmd_set_log_mask_sound. Qed.

Lemma diag_cmd_get_log_mask_ok m e h :
  log_wf m -> alloc_ok h ->
  exists k, diag_cmd_get_log_mask e h m =
    Done (match log_abs m e with
          | Some (n, bits) => (0, n, Some bits, zlen bits)
          | None => (1, 0, None, 0)
          end, steps k h, m).
Proof.
  intros (items & E & Hwf) Hh. destruct (decide (0 <= e < 16)) as [He|He].
  - rewrite (log_abs_eq _ _ _ E Hwf He).
    destruct (log_lookup_some _ _ Hwf He) as (it & -> & Hlk & (_ & Hn & _ & _ & (p & Hp & Hlp & _))).
    pose proof (bits_bytes_small _ Hn) as Hb. unfold MAX_ITEMS_PER_EQUIP_ID in *.
    exists 1%nat. unfold diag_cmd_get_log_mask. mrun. rewrite E. cbn [deref]. mrun.
    rewrite Hlk. destruct (malloc_ok (BITS_TO_BYTES (li_num_items_tools it)) h m Hh) as (b & -> & _ & Hl).
    rewrite Hp. cbn [deref]. mrun. rewrite memcpy_ok by lia.
    cbn [fmap option_fmap option_map]. unfold log_view. rewrite Hp. cbn [default from_option id].
    rewrite zlen_slice by lia. do 5 f_equal.
    unfold splice. rewrite zlen_slice by lia. change (Z.to_nat 0) with 0%nat. rewrite take_0.
    rewrite drop_ge by (unfold zlen in *; lia). by rewrite app_nil_r.
  - exists 0%nat. rewrite log_abs_none by (done || by eexists).
    unfold diag_cmd_get_log_mask. mrun. rewrite E. cbn [deref]. mrun. rewrite log_lookup_none by done. by destruct h.
Qed.

(** [diag_cmd_get_log_mask] implements the lookup in that map: the stored
    number of items and bits for a known id, 1 and no mask for any other; it
    does not change the tables. *)
Lemma diag_cmd_get_log_mask_refines m e h :
  log_wf m -> alloc_ok h ->
  exists h', alloc_ok h' /\ diag_cmd_get_log_mask e h m =
    Done (match log_abs m e with
          | Some (n, bits) => (0, n, Some bits, zlen bits)
          | None => (1, 0, None, 0)
          end, h', m).
Proof.
  intros Hm Hh. destruct (diag_cmd_get_log_mask_ok m e h Hm Hh) as [k E]. by exists (steps k h).
Qed.

Lemma disable_log_entries_ok {T} k items h (s : T) :
  (forall j i, items !! j = Some i -> log_item_wf (k + j) i) ->
  disable_log_entries items h s = Done (li_with_ptr (replicate 512 0) <$> items, h, s).
Proof.
  revert k. induction items as [|i items IH]; intros k Hwf; [done|].
  cbn [disable_log_entries]. mrun.
  destruct (Hwf 0%nat i eq_refl) as (_ & _ & Hr & _ & (p & Hp & Hl & _)).
  rewrite Hp, Hr, memset_ok, splice_full by (unfold MAX_ITEMS_PER_EQUIP_ID in *; zlia).
  rewrite (IH (S k)%nat); [done|].
  intros j y Hy. specialize (Hwf (S j) y Hy). by replace (S k + j)%nat with (k + S j)%nat by lia.
Qed.

(** [diag_cmd_disable_log] clears every bit of every equipment id, keeps
    the item counts, and marks the table disabled. *)
Lemma diag_cmd_disable_log_clears m h :
  log_wf m ->
  exists m', diag_cmd_disable_log h m = Done (tt, h, m') /\ log_wf m' /\
    diag_get_log_mask_status m' = DIAG_CTRL_MASK_ALL_DISABLED /\
    forall e, log_abs m' e =
      (fun v => (v.1, replicate (Z.to_nat (BITS_TO_BYTES (v.1))) 0)) <$> log_abs m e.
Proof.
  intros (items & E & Hwf). pose proof Hwf as [Hlen Hi].
  unfold diag_cmd_disable_log. mrun. rewrite E. cbn [deref]. mrun.
  rewrite (disable_log_entries_ok 0) by done.
  set (items' := li_with_ptr (replicate 512 0) <$> items). eexists. split; [done|].
  match goal with |- log_wf ?m1 /\ _ => set (m' := m1) end.
  assert (log_items_wf items') as Hwf'.
  { split; [by subst items'; rewrite length_fmap|]. intros k i. subst items'.
    rewrite list_lookup_fmap_Some. intros (y & -> & Hy). destruct (Hi _ _ Hy) as (H1 & H2 & H3 & H4 & H5).
    unfold log_item_wf. cbn. split_and!; try done; try lia. eexists; split; [done|].
    split; [done|]. by apply bytes_ok_replicate. }
  split; [by exists items'|]. split; [done|]. intros e. destruct (decide (0 <= e < 16)) as [He|He].
  - rewrite (log_abs_eq m' items' e), (log_abs_eq m items e) by done. subst items'.
    rewrite list_lookup_fmap. destruct (items !! Z.to_nat e) as [i|] eqn:Ei; [|done].
    cbn. unfold log_view. cbn. do 2 f_equal.
    destruct (Hi _ _ Ei) as (_ & Hn & _). pose proof (bits_bytes_small _ Hn) as Hb.
    unfold MAX_ITEMS_PER_EQUIP_ID in Hb. unfold slice. change (Z.to_nat 0) with 0%nat.
    rewrite drop_0, take_replicate. f_equal. lia.
  - rewrite !log_abs_none; [done|by eexists|done|by exists items'|done].
Qed.

(** ** Events *)

Definition event_wf (m : masks) : Prop :=
  buffer_ok (mk_ptr (event_mask m)) (mk_len (event_mask m)) /\
  0 <= event_max_num_bits m < 2 ^ 16 /\
  BITS_TO_BYTES_16 (event_max_num_bits m) <= mk_len (event_mask m).

(** The event bits: the whole buffer. *)
Definition event_bits (m : masks) : bytes := default [] (mk_ptr (event_mask m)).

Lemma bits_16_mono a b : a <= b -> BITS_TO_BYTES_16 a <= BITS_TO_BYTES_16 b.
Proof. intros. unfold BITS_TO_BYTES_16. apply Z.div_le_mono; lia. Qed.
Lemma bits_16_nonneg a : 0 <= a -> 0 <= BITS_TO_BYTES_16 a.
Proof. intros. unfold BITS_TO_BYTES_16. apply Z.div_pos; lia. Qed.

Lemma drop_splice_0 b src : zlen src <= zlen b -> drop (length src) (splice b 0 src) = drop (length src) b.
Proof.
  intros. unfold splice. change (Z.to_nat 0) with 0%nat. rewrite take_0. cbn [app].
  rewrite drop_app_length. f_equal. unfold zlen. lia.
Qed.

(** [diag_cmd_update_event_mask] stores the given bits, grows the event
    table when more bits than before are set, and keeps every bit behind the
    given ones when the table did not grow; the table stays well formed, so a
    later [diag_cmd_get_event_mask] stays inside it. *)
Lemma diag_cmd_update_event_mask_correct m n mask h :
  event_wf m -> alloc_ok h -> 0 <= n < 2 ^ 16 -> bytes_ok mask ->
  BITS_TO_BYTES_16 n <= zlen mask ->
  exists k m', diag_cmd_update_event_mask n mask h m = Done (0, steps k h, m') /\
    event_wf m' /\ diag_get_event_mask_status m' = DIAG_CTRL_MASK_VALID /\
    event_max_num_bits m' = Z.max n (event_max_num_bits m) /\
    slice (event_bits m') 0 (BITS_TO_BYTES_16 n) = slice mask 0 (BITS_TO_BYTES_16 n) /\
    (n <= event_max_num_bits m ->
     drop (Z.to_nat (BITS_TO_BYTES_16 n)) (event_bits m') = drop (Z.to_nat (BITS_TO_BYTES_16 n)) (event_bits m)).
Proof.
  intros ((b & Eb & Hlb & Hok) & Hmax & Hfit) Hh Hn Hmask Hlen.
  pose proof (bits_16_nonneg n ltac:(lia)) as Hnn.
  assert (zlen (slice mask 0 (BITS_TO_BYTES_16 n)) = BITS_TO_BYTES_16 n) as Hs by (apply zlen_slice; lia).
  unfold diag_cmd_update_event_mask. mrun.
  destruct (Z.ltb_spec (event_max_num_bits m) n).
  - rewrite Eb. cbn [deref]. mrun.
    destruct (realloc_ok b (BITS_TO_BYTES_16 n) h m Hh Hok Hnn) as (b' & -> & Hok' & Hl' & _).
    cbn [negb Z.eqb mk_ptr with_ptr with_event with_len with_bits event_mask].
    rewrite memcpy_ok by lia. exists 1%nat. eexists. split; [done|]. cbn.
    rewrite splice_full by lia. split; [|split; [done|split; [lia|split; [|lia]]]].
    + split; [|split; cbn; lia]. eexists; split; [done|]. split; [done|]. auto with diag.
    + unfold event_bits. cbn. by rewrite slice_0_all.
  - cbn [negb Z.eqb]. pose proof (bits_16_mono n (event_max_num_bits m)).
    rewrite Eb, memcpy_ok by lia. exists 0%nat. eexists. split; [by destruct h|]. cbn.
    split; [|split; [done|split; [lia|split; [|intros _]]]].
    + split; [|split; cbn; lia]. eexists; split; [done|]. split; [|auto with diag].
      cbn. rewrite zlen_splice; lia.
    + unfold event_bits. cbn. apply slice_splice; lia.
    + unfold event_bits. rewrite Eb. cbn.
      replace (Z.to_nat (BITS_TO_BYTES_16 n)) with (length (slice mask 0 (BITS_TO_BYTES_16 n)))
        by (unfold zlen in Hs; lia).
      apply drop_splice_0. lia.
Qed.

(** [diag_cmd_get_event_mask] returns the stored bits when no more are
    asked for than the table has, and 1 otherwise; it changes nothing. *)
Lemma diag_cmd_get_event_mask_correct m n h :
  event_wf m -> alloc_ok h -> 0 <= n < 2 ^ 16 ->
  exists k, diag_cmd_get_event_mask n h m =
    Done (if decide (n <= event_max_num_bits m)
          then (0, Some (slice (event_bits m) 0 (BITS_TO_BYTES_16 n))) else (1, None), steps k h, m).
Proof.
  intros ((b & Eb & Hlb & Hok) & Hmax & Hfit) Hh Hn.
  unfold diag_cmd_get_event_mask. mrun. destruct (Z.ltb_spec (event_max_num_bits m) n).
  - exists 0%nat. rewrite decide_False by lia. by destruct h.
  - exists 1%nat. rewrite decide_True by lia.
    pose proof (bits_16_nonneg n ltac:(lia)). pose proof (bits_16_mono n (event_max_num_bits m)).
    destruct (malloc_ok (BITS_TO_BYTES_16 n) h m Hh) as (d & -> & _ & Hl).
    rewrite Eb. cbn [deref]. mrun. rewrite memcpy_ok, splice_full by (rewrite ?zlen_slice; lia).
    unfold event_bits. by rewrite Eb.
Qed.
