(* ===== verification/MaskTables.v ===== *)
(** * Mask tables: what the message-mask operations and the initialisation of
    [router/masks.c] guarantee

    The definitions are those of [Masks].  The well-formedness of the three
    kinds of table is established by [diag_masks_init]; the message-mask
    operations are functional on requests that stay inside a table entry; a
    request that reaches behind one leaves a buffer that later operations
    overrun. *)

From S2P Require Import Prelude Util Masks CircBuf Hdlc.

(** ** Well-formed message tables *)

Definition msg_item_wf (k : nat) (i : msg_item) : Prop :=
  Some (mi_ssid_first i) = ssid_first_arr !! k /\
  Some (mi_ssid_last i) = ssid_last_arr !! k /\
  mi_ssid_last_tools i = mi_ssid_last i /\
  mi_range i = MAX_SSID_PER_RANGE /\ mi_range_tools i = MAX_SSID_PER_RANGE /\
  buffer_ok (mi_ptr i) (MAX_SSID_PER_RANGE * 4).

Definition msg_items_wf (items : list msg_item) : Prop :=
  length items = MSG_MASK_TBL_CNT /\ forall k i, items !! k = Some i -> msg_item_wf k i.

Definition msg_wf (m : masks) : Prop :=
  exists items, mk_ptr (msg_mask m) = Some items /\ msg_items_wf items.
Definition bt_wf (m : masks) : Prop :=
  exists items, mk_ptr (msg_bt_mask m) = Some items /\ msg_items_wf items.

(** The abstract state: the words of each entry, as bytes. *)
Definition msg_words (m : masks) (k : nat) : option bytes :=
  items ← mk_ptr (msg_mask m);
  it ← items !! k;
  mi_ptr it.

(** A request that stays inside entry [k]. *)
Definition in_entry (k : nat) (r : ssid_range) : Prop :=
  exists first last, ssid_first_arr !! k = Some first /\ ssid_last_arr !! k = Some last /\
    first <= r.1 /\ r.1 <= r.2 /\ r.2 <= last.

(** ** Entry selection

    Both searches are decided by the firsts and lasts alone. *)

Fixpoint window_index (k : nat) (first : Z) (firsts : list Z) : option nat :=
  match firsts with
  | [] => None
  | f :: rest =>
      if (first <? f) || (u32 (f + MAX_SSID_PER_RANGE) <? first) ||
         match rest with [] => false | nxt :: _ => nxt <=? first end
      then window_index (S k) first rest else Some k
  end.

Lemma msg_lookup_window_index k first items :
  msg_lookup_window k first items =
  (k' ← window_index k first (mi_ssid_first <$> items);
   it ← items !! (k' - k)%nat; Some (k', it)).
Proof.
  revert k. induction items as [|i items IH]; intros k; [done|].
  cbn [msg_lookup_window fmap list_fmap window_index].
  replace (match items with [] => false | nxt :: _ => mi_ssid_first nxt <=? first end)
    with (match mi_ssid_first <$> items with [] => false | nxt :: _ => nxt <=? first end)
    by (by destruct items).
  case_match; [|cbn; by rewrite Nat.sub_diag].
  fold (list_fmap _ _ mi_ssid_first items). change (list_fmap msg_item Z mi_ssid_first items) with (mi_ssid_first <$> items).
  rewrite IH. destruct (window_index (S k) first (mi_ssid_first <$> items)) as [k'|] eqn:E; [|done].
  cbn [mbind option_bind].
  assert (S k <= k')%nat as Hk.
  { clear -E. revert k E. generalize (mi_ssid_first <$> items). intros l. induction l as [|f l IH]; intros k; [done|].
    cbn [window_index]. case_match; [|intros [= <-]; lia]. intros E%IH. lia. }
  replace (k' - k)%nat with (S (k' - S k)) by lia. done.
Qed.

(** The tables are small: check every id of every entry. *)
Definition entry_ids (k : nat) : list Z :=
  match ssid_first_arr !! k, ssid_last_arr !! k with
  | Some first, Some last => (fun i => first + Z.of_nat i) <$> seq 0 (Z.to_nat (last - first + 1))
  | _, _ => []
  end.

Definition selects (k : nat) (id : Z) : bool :=
  bool_decide (window_index 0 id ssid_first_arr = Some k) &&
  bool_decide (fst <$> list_find (fun p : Z * Z => p.1 <= id <= p.2) (zip ssid_first_arr ssid_last_arr) = Some k).

Lemma tables_select : forallb (fun k => forallb (selects k) (entry_ids k)) (seq 0 25) = true.
Proof. by vm_compute. Qed.

Definition entry_small (k : nat) : bool :=
  match ssid_first_arr !! k, ssid_last_arr !! k with
  | Some first, Some last => (0 <=? first) && (first <=? last) && (last <? first + 121) && (last <? 2 ^ 16)
  | _, _ => false
  end.

Lemma tables_small : forallb entry_small (seq 0 25) = true.
Proof. by vm_compute. Qed.

Lemma entry_bounds k first last :
  ssid_first_arr !! k = Some first -> ssid_last_arr !! k = Some last ->
  0 <= first <= last /\ last < first + 121 /\ last < 2 ^ 16 /\ (k < 25)%nat.
Proof.
  intros Hf Hl. assert (k < 25)%nat as Hk by (apply lookup_lt_Some in Hf; done).
  pose proof (proj1 (forallb_forall _ _) tables_small k ltac:(apply in_seq; lia)) as H.
  unfold entry_small in H. rewrite Hf, Hl in H. rewrite !andb_true_iff in H. lia.
Qed.

Lemma entry_selects k r : in_entry k r -> selects k (r.1) = true.
Proof.
  intros (first & last & Hf & Hl & H1 & H2 & H3).
  destruct (entry_bounds k first last Hf Hl) as (Hr & _ & _ & Hk).
  pose proof (proj1 (forallb_forall _ _) tables_select k ltac:(apply in_seq; lia)) as H.
  apply (proj1 (forallb_forall _ _) H). unfold entry_ids. rewrite Hf, Hl.
  apply list_elem_of_In, list_elem_of_fmap. exists (Z.to_nat (r.1 - first)). split; [lia|].
  apply elem_of_seq. lia.
Qed.

Lemma wf_firsts items : msg_items_wf items -> mi_ssid_first <$> items = ssid_first_arr.
Proof.
  intros [Hlen Hwf]. apply list_eq. intros k. rewrite list_lookup_fmap.
  destruct (items !! k) as [i|] eqn:E.
  - destruct (Hwf _ _ E) as (H & _). by rewrite <- H.
  - cbn. symmetry. apply lookup_ge_None. apply lookup_ge_None in E. rewrite Hlen in E. exact E.
Qed.

Lemma wf_bounds items :
  msg_items_wf items ->
  (fun i => (mi_ssid_first i, mi_ssid_last_tools i)) <$> items = zip ssid_first_arr ssid_last_arr.
Proof.
  intros [Hlen Hwf]. apply list_eq. intros k. rewrite list_lookup_fmap, lookup_zip_with.
  destruct (items !! k) as [i|] eqn:E.
  - destruct (Hwf _ _ E) as (H1 & H2 & H3 & _). by rewrite <- H1, <- H2, <- H3.
  - apply lookup_ge_None in E. rewrite Hlen in E.
    by rewrite (proj2 (lookup_ge_None ssid_first_arr k)).
Qed.

Lemma msg_lookups items k r :
  msg_items_wf items -> in_entry k r ->
  exists it, items !! k = Some it /\ msg_item_wf k it /\
    msg_lookup_window 0 (r.1) items = Some (k, it) /\
    list_find (fun i => mi_ssid_first i <= r.1 <= mi_ssid_last_tools i) items = Some (k, it).
Proof.
  intros Hi Hr. pose proof (entry_selects k r Hr) as Hs. unfold selects in Hs.
  apply andb_true_iff in Hs as [Hw%bool_decide_eq_true Hf%bool_decide_eq_true].
  destruct Hr as (first & last & E1 & E2 & _).
  destruct (entry_bounds _ _ _ E1 E2) as (_ & _ & _ & Hk).
  destruct (lookup_lt_is_Some_2 items k) as [it Hit].
  { destruct Hi as [-> _]. exact Hk. }
  exists it. split; [done|]. split; [by apply Hi|]. split.
  - rewrite msg_lookup_window_index, wf_firsts, Hw by done. cbn [mbind option_bind].
    rewrite Nat.sub_0_r. setoid_rewrite Hit. done.
  - destruct (list_find _ _) as [[k' p]|] eqn:E; cbn in Hf; [injection Hf as ->|done].
    apply list_find_Some in E as (Ek & Hp & Hlt). rewrite <- (wf_bounds items Hi) in Ek, Hlt.
    rewrite list_lookup_fmap, Hit in Ek. injection Ek as <-. apply list_find_Some.
    split; [done|]. split; [exact Hp|]. intros j y Hj Hjk.
    apply (Hlt j (mi_ssid_first y, mi_ssid_last_tools y)); [|done]. by rewrite list_lookup_fmap, Hj.
Qed.

(** ** The operations on a request inside an entry *)

Definition range_words (r : ssid_range) : Z := r.2 - r.1 + 1.
Definition range_offset (k : nat) (r : ssid_range) : Z := r.1 - default 0 (ssid_first_arr !! k).

Lemma msg_words_eq m items k :
  mk_ptr (msg_mask m) = Some items -> msg_words m k = it ← items !! k; mi_ptr it.
Proof. intros E. unfold msg_words. by rewrite E. Qed.

Lemma msg_items_wf_insert items k i :
  msg_items_wf items -> msg_item_wf k i -> msg_items_wf (<[k := i]> items).
Proof.
  intros [Hl Hwf] Hi. split; [by rewrite length_insert|].
  intros j y. rewrite list_lookup_insert_Some. intros [(<- & <- & _)|[_ Hy]]; auto.
Qed.

Lemma in_entry_fits k r :
  in_entry k r ->
  0 <= range_offset k r /\ 0 < range_words r /\ range_offset k r + range_words r <= 121 /\
  0 <= r.1 < 2 ^ 16 /\ 0 <= r.2 < 2 ^ 16.
Proof.
  intros (first & last & E1 & E2 & H1 & H2 & H3).
  destruct (entry_bounds _ _ _ E1 E2) as (? & ? & ? & _).
  unfold range_offset, range_words. rewrite E1. cbn. lia.
Qed.

(** [diag_cmd_set_msg_mask] on a request inside a table entry replaces
    exactly the words of that request in the entry, keeps every other word of
    every entry and the well-formedness of the table, and marks it valid. *)
Lemma diag_cmd_set_msg_mask_refines m k r mask h p :
  msg_wf m -> in_entry k r -> bytes_ok mask -> 4 * range_words r <= zlen mask ->
  msg_words m k = Some p ->
  exists m', diag_cmd_set_msg_mask r mask h m = Done (0, h, m') /\ msg_wf m' /\
    diag_get_msg_mask_status m' = DIAG_CTRL_MASK_VALID /\
    msg_words m' k =
      Some (splice p (4 * range_offset k r) (slice mask 0 (4 * range_words r))) /\
    (forall k', k' <> k -> msg_words m' k' = msg_words m k') /\
    log_mask m' = log_mask m /\ msg_bt_mask m' = msg_bt_mask m /\ event_mask m' = event_mask m.
Proof.
  intros (items & E & Hi) Hr Hmask Hlen Hp.
  destruct (msg_lookups items k r Hi Hr) as (it & Hit & (H1 & H2 & H3 & H4 & H5 & (b & Hb & Hbl & Hbok)) & Hw & _).
  destruct (in_entry_fits k r Hr) as (Ho & Hn & Hfit & Hr1 & Hr2).
  rewrite (msg_words_eq m items k E), Hit in Hp. cbn in Hp. rewrite Hb in Hp. injection Hp as ->.
  assert (mi_ssid_first it = r.1 - range_offset k r) as Hfirst.
  { unfold range_offset. rewrite <- H1. cbn. lia. }
  assert (r.2 <= mi_ssid_last it) as Hlast.
  { destruct Hr as (? & last & _ & E2 & _ & _ & ?). rewrite E2 in H2. injection H2 as ->. done. }
  unfold range_words, MAX_SSID_PER_RANGE in *.
  unfold diag_cmd_set_msg_mask. mrun. rewrite E. cbn [deref]. mrun. rewrite Hw.
  rewrite (u32_id (r.2 - r.1 + 1)) by lia. unfold MAX_SSID_PER_RANGE.
  destruct (Z.ltb_spec 200 (r.2 - r.1 + 1)); [lia|]. rewrite H3.
  destruct (Z.ltb_spec (mi_ssid_last it) (r.2)); [lia|]. unfold msg_store. mrun.
  replace (r.1 - mi_ssid_first it) with (range_offset k r) by lia.
  rewrite (u32_id (range_offset k r)), (u32_id (range_offset k r + _)) by lia.
  destruct (Z.ltb_spec (mi_range_tools it) (range_offset k r + (r.2 - r.1 + 1))); [lia|].
  rewrite Hb. rewrite memcpy_ok by lia. eexists; split; [done|].
  rewrite (Z.mul_comm _ 4). set (p' := splice p _ _).
  assert (zlen p' = 800 /\ bytes_ok p') as [Hl' Hok'].
  { subst p'. split; [|by auto with diag]. rewrite zlen_splice; [done|lia|].
    rewrite zlen_slice; lia. }
  set (it' := MsgItem _ _ _ _ _ (Some p')).
  assert (msg_items_wf (<[k := it']> items)) as Hi'.
  { apply msg_items_wf_insert; [done|]. unfold msg_item_wf. split_and!; try done. by exists p'. }
  match goal with |- msg_wf ?m1 /\ _ => set (m' := m1) end.
  assert (mk_ptr (msg_mask m') = Some (<[k := it']> items)) as E'.
  { subst m'. cbn. rewrite E. cbn. by rewrite list_insert_insert_eq. }
  split; [by eexists|]. split; [done|]. split; [|split; [|done]].
  - rewrite (msg_words_eq m' _ k E'), list_lookup_insert_eq; [done|].
    by apply lookup_lt_Some in Hit.
  - intros k' Hne. rewrite (msg_words_eq m' _ k' E'), (msg_words_eq m _ k' E).
    by rewrite list_lookup_insert_ne by done.
Qed.

Lemma diag_cmd_get_msg_mask_ok m k r h p :
  msg_wf m -> in_entry k r -> alloc_ok h -> msg_words m k = Some p ->
  exists first last,
    ssid_first_arr !! k = Some first /\ ssid_last_arr !! k = Some last /\ zlen p = 800 /\
    diag_cmd_get_msg_mask r h m = Done ((0, (first, last), Some p), tick h, m).
Proof.
  intros (items & E & Hi) Hr Hh Hp.
  destruct (msg_lookups items k r Hi Hr) as (it & Hit & (H1 & H2 & H3 & H4 & H5 & (b & Hb & Hbl & Hbok)) & _ & Hf).
  destruct (entry_bounds k _ _ (eq_sym H1) (eq_sym H2)) as (? & ? & ? & _).
  rewrite (msg_words_eq m items k E), Hit in Hp. cbn in Hp. rewrite Hb in Hp. injection Hp as ->.
  exists (mi_ssid_first it), (mi_ssid_last it). split; [done|]. split; [done|]. split; [done|].
  unfold diag_cmd_get_msg_mask. mrun. rewrite E. cbn [deref]. mrun. rewrite Hf.
  unfold MAX_SSID_PER_RANGE in *. rewrite H4.
  rewrite (u32_id (200 * 4)), (u16_id (mi_ssid_first it)), (u16_id (mi_ssid_last it)) by lia.
  destruct (malloc_ok (200 * 4) h m Hh) as (d & -> & _ & Hl). rewrite Hb. cbn [deref]. mrun.
  rewrite memcpy_ok, slice_0_all, splice_full by lia. done.
Qed.

(** [diag_cmd_get_msg_mask] on an id of a table entry returns that entry's
    bounds and a copy of its words (all [MAX_SSID_PER_RANGE] of them) and
    changes nothing. *)
Lemma diag_cmd_get_msg_mask_correct m k r h p :
  msg_wf m -> in_entry k r -> alloc_ok h -> msg_words m k = Some p ->
  exists h' first last, alloc_ok h' /\
    ssid_first_arr !! k = Some first /\ ssid_last_arr !! k = Some last /\
    diag_cmd_get_msg_mask r h m = Done ((0, (first, last), Some p), h', m).
Proof.
  intros Hm Hr Hh Hp. destruct (diag_cmd_get_msg_mask_ok m k r h p Hm Hr Hh Hp) as (f & l & H1 & H2 & _ & E).
  by exists (tick h), f, l.
Qed.

(** [diag_cmd_set_all_msg_mask] fills every entry with the low byte. *)
Lemma set_all_entries_ok {T} mask k items h (s : T) :
  (forall j i, items !! j = Some i -> msg_item_wf (k + j) i) ->
  set_all_entries mask items h s = Done ((fun i =>
    MsgItem (mi_ssid_first i) (mi_ssid_last i) (mi_ssid_last_tools i) (mi_range i)
      (mi_range_tools i) (Some (replicate 800 (u8 mask)))) <$> items, h, s).
Proof.
  revert k. induction items as [|i items IH]; intros k Hwf; [done|].
  cbn [set_all_entries]. mrun.
  destruct (Hwf 0%nat i eq_refl) as (_ & _ & _ & _ & Hr & (p & Hp & Hl & _)).
  unfold MAX_SSID_PER_RANGE in *. replace (mi_range_tools i * 4) with 800 by lia.
  rewrite Hp, memset_ok, splice_full by zlia.
  rewrite (IH (S k)%nat); [done|].
  intros j y Hy. specialize (Hwf (S j) y Hy). by replace (S k + j)%nat with (k + S j)%nat by lia.
Qed.

(** [diag_cmd_set_all_msg_mask] sets every word of every entry to four
    copies of the low byte of the mask: to all ones for 0xFFFFFFFF and to zero
    for 0, and to 0x78787878, say, for 0x12345678. *)
Lemma diag_cmd_set_all_msg_mask_fills m mask h :
  msg_wf m ->
  exists m', diag_cmd_set_all_msg_mask mask h m = Done (tt, h, m') /\ msg_wf m' /\
    diag_get_msg_mask_status m' =
      (if mask =? 0 then DIAG_CTRL_MASK_ALL_DISABLED else DIAG_CTRL_MASK_ALL_ENABLED) /\
    forall k, (k < MSG_MASK_TBL_CNT)%nat -> msg_words m' k = Some (replicate 800 (u8 mask)).
Proof.
  intros (items & E & Hlen & Hi). unfold diag_cmd_set_all_msg_mask. mrun. cbn [msg_mask with_msg with_status mk_ptr].
  rewrite E. cbn [deref]. mrun. rewrite (set_all_entries_ok mask 0) by exact Hi.
  set (items' := _ <$> items). eexists; split; [done|].
  assert (msg_items_wf items') as Hi'.
  { split; [by subst items'; rewrite length_fmap|]. intros k i. subst items'.
    rewrite list_lookup_fmap_Some. intros (y & -> & Hy). destruct (Hi _ _ Hy) as (H1 & H2 & H3 & H4 & H5 & _).
    unfold msg_item_wf. split_and!; try done. eexists; split; [done|]. split; [done|]. apply bytes_ok_replicate, u8_is_byte. }
  split; [by exists items'|]. split; [done|]. intros k Hk.
  erewrite msg_words_eq by done. subst items'. rewrite list_lookup_fmap.
  destruct (lookup_lt_is_Some_2 items k) as [it ->]; [by rewrite Hlen|done].
Qed.

(** ** Initialisation *)

(** What an initialiser promises whatever the allocator does: it returns,
    with a success its result satisfies [P], and it succeeds when no
    allocation fails. *)
Definition inits {T A} (f : heap -> T -> outcome (Z * A * heap * T)) (P : A -> Prop) : Prop :=
  forall h s, exists err a n, f h s = Done ((err, a), steps n h, s) /\
    (err = 0 -> P a) /\ (alloc_ok h -> err = 0).

Lemma create_entry_inits {T} k :
  (k < 25)%nat -> inits (T := T) (diag_create_msg_mask_table_entry (Z.of_nat k)) (msg_item_wf k).
Proof.
  intros Hk h s. unfold diag_create_msg_mask_table_entry, NUM_OF_MASK_RANGES.
  destruct (Z.ltb_spec 25 (Z.of_nat k)); [lia|]. rewrite Nat2Z.id.
  destruct (lookup_lt_is_Some_2 ssid_first_arr k Hk) as [first Hf].
  destruct (lookup_lt_is_Some_2 ssid_last_arr k Hk) as [last Hl].
  destruct (entry_bounds k first last Hf Hl) as (? & ? & ? & _).
  mrun. rewrite Hf. cbn [deref]. mrun. rewrite Hl. cbn [deref]. mrun.
  rewrite u32_id by lia. unfold MAX_SSID_PER_RANGE.
  destruct (Z.ltb_spec (last - first + 1) 200); [|lia]. change (0 <? 200) with true. cbn match.
  unfold malloc. destruct (h_oracle h (h_calls h)) as [junk|] eqn:Eo; cbn [fmap option_fmap option_map];
    do 2 eexists; exists 1%nat; (split; [reflexivity|split]); try done.
  - intros _. unfold msg_item_wf. cbn. rewrite Hf, Hl. split_and!; try done. eexists; split; [done|].
    split; [done|]. by apply bytes_ok_replicate.
  - intros Hh. destruct (Hh (h_calls h)). congruence.
Qed.

Lemma create_msg_entries_inits {T} k items :
  (k + length items <= 25)%nat -> inits (T := T) (create_msg_entries (Z.of_nat k) items)
    (fun items' => length items' = length items /\ forall j i, items' !! j = Some i -> msg_item_wf (k + j) i).
Proof.
  revert k. induction items as [|x items IH]; intros k Hk h s; cbn [length] in Hk.
  { exists 0, [], 0%nat. split; [by destruct h|done]. }
  destruct (create_entry_inits k ltac:(lia) h s) as (err & it & n & E & Hit & Ha).
  cbn [create_msg_entries]. mrun. rewrite E. destruct (Z.eqb_spec err 0) as [->|Hne]; cbn [negb].
  2:{ exists err, (it :: items), n. split; [done|]. split; [done|]. intros Hh. by destruct Hne; apply Ha. }
  destruct (IH (S k) ltac:(lia) (steps n h) s) as (err' & its & n' & E' & Hits & Ha').
  replace (Z.of_nat k + 1) with (Z.of_nat (S k)) by lia. rewrite E', steps_steps.
  exists err', (it :: its), (n' + n)%nat. split; [done|]. split; [|intros Hh; by apply Ha'].
  intros He. destruct (Hits He) as [Hl Hwf]. split; [cbn; by rewrite Hl|].
  intros [|j] i; cbn [lookup list_lookup].
  - intros [= <-]. rewrite Nat.add_0_r. by apply Hit.
  - intros Hj. replace (k + S j)%nat with (S k + j)%nat by lia. by apply Hwf.
Qed.

Lemma log_code_ok k :
  (k < 16)%nat -> exists code, log_code_last_tbl !! k = Some code /\
    0 <= LOG_GET_ITEM_NUM code <= MAX_ITEMS_ALLOWED.
Proof.
  intros Hk. destruct (lookup_lt_is_Some_2 log_code_last_tbl k Hk) as [code Hc]. exists code.
  split; [done|]. unfold LOG_GET_ITEM_NUM, MAX_ITEMS_ALLOWED.
  change 0x0FFF with (Z.ones 12). rewrite Z.land_ones by lia.
  change (Z.ones 12) with 4095. pose proof (Z.mod_pos_bound code (2 ^ 12) eq_refl). lia.
Qed.

Lemma create_log_entries_inits {T} k items :
  (k + length items <= 16)%nat -> inits (T := T) (create_log_entries (Z.of_nat k) items)
    (fun items' => length items' = length items /\ forall j i, items' !! j = Some i -> log_item_wf (k + j) i).
Proof.
  revert k. induction items as [|x items IH]; intros k Hk h s; cbn [length] in Hk.
  { exists 0, [], 0%nat. split; [by destruct h|done]. }
  destruct (log_code_ok k ltac:(lia)) as (code & Hc & Hn). pose proof (bits_bytes_small _ Hn).
  cbn [create_log_entries]. mrun. rewrite Nat2Z.id, Hc. cbn [deref]. mrun.
  unfold MAX_ITEMS_PER_EQUIP_ID in *.
  destruct (Z.ltb_spec 512 (BITS_TO_BYTES (LOG_GET_ITEM_NUM code))); [lia|].
  unfold malloc. destruct (h_oracle h (h_calls h)) as [junk|] eqn:Eo; cbn [fmap option_fmap option_map].
  2:{ do 2 eexists. exists 1%nat. split; [reflexivity|]. split; [done|]. intros Hh.
      destruct (Hh (h_calls h)). congruence. }
  destruct (IH (S k) ltac:(lia) (tick h) s) as (err & its & n & E & Hits & Ha).
  replace (Z.of_nat k + 1) with (Z.of_nat (S k)) by lia. rewrite E.
  do 2 eexists. exists (n + 1)%nat. split; [by rewrite <- steps_steps|]. split; [|intros Hh; by apply Ha].
  intros He. destruct (Hits He) as [Hl Hwf]. split; [cbn; by rewrite Hl|].
  intros [|j] i; cbn [lookup list_lookup].
  - intros [= <-]. rewrite Nat.add_0_r. unfold log_item_wf. cbn. split_and!; try done; try lia.
    eexists; split; [done|]. split; [done|]. by apply bytes_ok_replicate.
  - intros Hj. replace (k + S j)%nat with (S k + j)%nat by lia. by apply Hwf.
Qed.

Lemma diag_mask_init_inits {T A} (zero : A) n u info :
  0 < n -> 0 <= u ->
  inits (T := T) (diag_mask_init zero n u info) (eq (MaskInfo (Some zero) n DIAG_CTRL_MASK_INVALID)).
Proof.
  intros Hn Hu h s. unfold diag_mask_init.
  destruct (Z.ltb_spec n 0); [lia|]. destruct (Z.ltb_spec u 0); [lia|]. cbn [orb].
  destruct (Z.ltb_spec 0 n); [|lia]. mrun. unfold malloc.
  destruct (h_oracle h (h_calls h)) as [junk|] eqn:Eo; do 2 eexists; exists 1%nat;
    (split; [reflexivity|split]); try done.
  intros Hh. destruct (Hh (h_calls h)). congruence.
Qed.

(** Every table in order. *)
Definition masks_wf (m : masks) : Prop := msg_wf m /\ bt_wf m /\ log_wf m /\ event_wf m.

(** The same promise of an initialiser of one of the tables. *)
Definition inits_table (f : M masks Z) (P : masks -> masks -> Prop) : Prop :=
  forall h m, exists r n m', f h m = Done (r, steps n h, m') /\ (r = 0 -> P m m') /\ (alloc_ok h -> r = 0).

(** A table's object, then its entries. *)
Ltac init_object :=
  let r := fresh "r" in let info := fresh "info" in let n := fresh "n" in
  let Hr := fresh "Hr" in let Hinfo := fresh "Hinfo" in let Ha := fresh "Ha" in
  match goal with |- context [diag_mask_init ?z ?len ?u ?i ?h ?s] =>
    destruct (diag_mask_init_inits (T := masks) z len u i ltac:(done) ltac:(done) h s)
      as (r & info & n & -> & Hinfo & Ha) end;
  destruct (Z.eqb_spec r 0) as [->|Hr]; cbn [negb];
    [rewrite <- (Hinfo eq_refl)
    |do 3 eexists; (split; [reflexivity|]); (split; [done|]); intros Hh; by destruct Hr; apply Ha].

Ltac init_entries L :=
  mrun; cbn [with_msg with_bt with_log msg_mask msg_bt_mask log_mask mk_ptr deref]; mrun;
  let its := fresh "its" in let E := fresh "E" in let Hits := fresh "Hits" in let Ha := fresh "Ha" in
  match goal with |- context [_ 0 (replicate _ ?x) ?h ?s] =>
    destruct (L h s) as (? & its & ? & E & Hits & Ha) end;
  change (Z.of_nat 0) with 0 in E; rewrite E, steps_steps;
  do 3 eexists; (split; [reflexivity|]); (split; [|intros Hh; by apply Ha]);
  let He := fresh "He" in let Hl := fresh "Hl" in let Hwf := fresh "Hwf" in
  intros He; destruct (Hits He) as [Hl Hwf]; split; [|done];
  exists its; (split; [done|]); (split; [by rewrite Hl, length_replicate|done]).

Lemma diag_msg_mask_init_inits :
  inits_table diag_msg_mask_init (fun m m' => msg_wf m' /\ mk_status (msg_mask m') = DIAG_CTRL_MASK_INVALID).
Proof.
  intros h m. unfold diag_msg_mask_init. mrun. init_object. unfold diag_create_msg_mask_table.
  init_entries (create_msg_entries_inits (T := masks) 0 (replicate MSG_MASK_TBL_CNT msg_item_zero) ltac:(by rewrite length_replicate)).
Qed.

Lemma diag_build_time_mask_init_inits :
  inits_table diag_build_time_mask_init (fun m m' => bt_wf m' /\ msg_mask m' = msg_mask m).
Proof.
  intros h m. unfold diag_build_time_mask_init. mrun. init_object. unfold diag_create_build_time_mask.
  init_entries (create_msg_entries_inits (T := masks) 0 (replicate MSG_MASK_TBL_CNT msg_item_zero) ltac:(by rewrite length_replicate)).
Qed.

Lemma diag_log_mask_init_inits :
  inits_table diag_log_mask_init (fun m m' => log_wf m' /\ mk_status (log_mask m') = DIAG_CTRL_MASK_INVALID /\
    msg_mask m' = msg_mask m /\ msg_bt_mask m' = msg_bt_mask m).
Proof.
  intros h m. unfold diag_log_mask_init. mrun. init_object. unfold diag_create_log_mask_table.
  init_entries (create_log_entries_inits (T := masks) 0 (replicate MAX_EQUIP_ID log_item_zero) ltac:(by rewrite length_replicate)).
Qed.

Lemma diag_event_mask_init_inits :
  inits_table diag_event_mask_init (fun m m' => event_wf m' /\ mk_status (event_mask m') = DIAG_CTRL_MASK_INVALID /\
    msg_mask m' = msg_mask m /\ msg_bt_mask m' = msg_bt_mask m /\ log_mask m' = log_mask m).
Proof.
  intros h m. unfold diag_event_mask_init. mrun.
  match goal with |- context [diag_mask_init ?z ?n ?u ?i ?h ?s] =>
    destruct (diag_mask_init_inits (T := masks) z n u i ltac:(done) ltac:(done) h s)
      as (r & info & k & -> & Hinfo & Ha) end.
  do 3 eexists. split; [reflexivity|]. split; [|exact Ha]. intros He. rewrite <- (Hinfo He).
  split; [|done]. split; [|by vm_compute]. eexists; split; [done|]. split; [done|]. by apply bytes_ok_replicate.
Qed.

(** No table may be followed. *)
Definition masks_released (m : masks) : Prop :=
  mk_ptr (msg_mask m) = None /\ mk_ptr (msg_bt_mask m) = None /\
  mk_ptr (log_mask m) = None /\ mk_ptr (event_mask m) = None.

(** The tables as the initialisation leaves them. *)
Definition masks_initial (m : masks) : Prop :=
  masks_wf m /\ diag_get_msg_mask_status m = DIAG_CTRL_MASK_INVALID /\
  diag_get_log_mask_status m = DIAG_CTRL_MASK_INVALID /\ diag_get_event_mask_status m = DIAG_CTRL_MASK_INVALID.

Lemma masks_initial_intro m :
  msg_wf m -> bt_wf m -> log_wf m -> event_wf m -> mk_status (msg_mask m) = DIAG_CTRL_MASK_INVALID ->
  mk_status (log_mask m) = DIAG_CTRL_MASK_INVALID -> mk_status (event_mask m) = DIAG_CTRL_MASK_INVALID ->
  masks_initial m.
Proof. by unfold masks_initial, masks_wf. Qed.

(** The four initialisers are tried in sequence. *)
Ltac init_next L h m P :=
  let r := fresh "r" in let n := fresh "n" in let m' := fresh "m" in let Hr := fresh "Hr" in
  let E := fresh "E" in let Ha := fresh "Ha" in
  destruct (L h m) as (r & n & m' & E & P & Ha); rewrite E; clear E; rewrite ?steps_steps;
  destruct (Z.eqb_spec r 0) as [->|Hr]; cbn [negb];
    [specialize (P eq_refl)
    |do 3 eexists; (split; [reflexivity|]); (split; [by right|]); intros Hh; by destruct Hr; apply Ha].

Lemma diag_masks_init_returns m h :
  exists r n m', diag_masks_init h m = Done (r, steps n h, m') /\
    (r = 0 /\ masks_initial m' \/ r = - ENOMEM /\ masks_released m') /\
    (alloc_ok h -> r = 0).
Proof.
  unfold diag_masks_init. mrun.
  init_next diag_msg_mask_init_inits h m P1.
  match goal with |- context [diag_build_time_mask_init ?h ?m] => init_next diag_build_time_mask_init_inits h m P2 end.
  match goal with |- context [diag_log_mask_init ?h ?m] => init_next diag_log_mask_init_inits h m P3 end.
  match goal with |- context [diag_event_mask_init ?h ?m] => init_next diag_event_mask_init_inits h m P4 end.
  destruct P1 as [Wm Sm], P2 as [Wb Em2], P3 as (Wl & Sl & Em3 & Eb3), P4 as (We & Se & Em4 & Eb4 & El4).
  do 3 eexists. split; [reflexivity|]. split; [left; split; [done|]|done].
  apply masks_initial_intro; unfold msg_wf, bt_wf, log_wf in *; rewrite ?Em4, ?Em3, ?Em2, ?Eb4, ?Eb3, ?El4; done.
Qed.

(** C32 [diag_masks_init] never touches memory it does not own, whatever the
    allocator does.  It returns 0 with every table well formed (the compiled-in
    message ranges with 200 words each, the compiled-in log item counts with
    512 bytes each, an event buffer that holds all 2879 events) and no mask
    valid yet, or [-ENOMEM] with all four tables released; and it returns 0
    when no allocation fails. *)
Theorem diag_masks_init_correct m h :
  exists r n m', diag_masks_init h m = Done (r, steps n h, m') /\
    (r = 0 /\ masks_initial m' \/ r = - ENOMEM /\ masks_released m') /\
    (alloc_ok h -> r = 0).
Proof. apply diag_masks_init_returns. Qed.

(** ** Concrete tables *)

Definition masks_ready : masks :=
  match diag_masks_init never_fails masks_zero with Done (_, _, m) => m | _ => masks_zero end.

Lemma masks_ready_wf : masks_wf masks_ready.
Proof.
  unfold masks_ready. destruct (diag_masks_init_returns masks_zero never_fails) as (r & n & m & -> & H & Hr).
  specialize (Hr ltac:(intros k; by eexists)) as ->. by destruct H as [(_ & H & _)|[? _]].
Qed.

(** ** A request that reaches behind an entry

    [diag_cmd_set_msg_mask] reallocates the entry's buffer to the words up to
    the request's last id, fewer than [range], the size [diag_cmd_get_msg_mask]
    copies, and than [MAX_SSID_PER_RANGE], the size it goes back to for a
    request it truncates. *)

(** The entry of the ids [first] to [last] after such a request: its buffer
    holds [n] words only. *)
Record shrunk (m : masks) (k : nat) (first last n : Z) : Prop := {
  shrunk_entry : exists items it p, mk_ptr (msg_mask m) = Some items /\ items !! k = Some it /\
    mi_ptr it = Some p /\ zlen p = 4 * n /\ mi_ssid_first it = first /\ mi_range it = MAX_SSID_PER_RANGE /\
    msg_lookup_window 0 first items = Some (k, it) /\
    forall id, first <= id <= last -> list_find (fun i => mi_ssid_first i <= id <= mi_ssid_last_tools i) items = Some (k, it);
  shrunk_size : 0 < n < MAX_SSID_PER_RANGE }.

Lemma memcpy_ub {S} p off src n h (s : S) :
  zlen p < off + n -> memcpy (Some p) off src n h s = UB.
Proof.
  intros Hp. unfold memcpy, deref. mrun. unfold mem_read. destruct (in_object src 0 n) eqn:E; [|done].
  rewrite mem_write_ub; [done|]. unfold in_object in E. rewrite zlen_slice; lia.
Qed.

Lemma shrunk_get m k first last n r h :
  shrunk m k first last n -> first <= r.1 <= last -> alloc_ok h -> diag_cmd_get_msg_mask r h m = UB.
Proof.
  intros [(items & it & p & E & _ & Hp & Hz & _ & Hr & _ & Hf) Hn] Hin Hh. unfold MAX_SSID_PER_RANGE in *.
  unfold diag_cmd_get_msg_mask. mrun. rewrite E. cbn [deref]. mrun. rewrite (Hf _ Hin), Hr, (u32_id (200 * 4)) by lia.
  destruct (malloc_ok (200 * 4) h m Hh) as (d & -> & _ & Hl). rewrite Hp. cbn [deref]. mrun.
  unfold memcpy, deref. mrun. by rewrite mem_read_ub by lia.
Qed.

Lemma shrunk_set m k first last n mask h :
  shrunk m k first last n -> 0 <= first < 2 ^ 16 ->
  diag_cmd_set_msg_mask (first, first + MAX_SSID_PER_RANGE) mask h m = UB.
Proof.
  intros [(items & it & p & E & _ & Hp & Hz & Hfirst & _ & Hw & _) Hn] Hb. unfold MAX_SSID_PER_RANGE in *.
  unfold diag_cmd_set_msg_mask. mrun. rewrite E. cbn [deref]. mrun. cbn [fst snd]. rewrite Hw.
  unfold MAX_SSID_PER_RANGE. rewrite (u32_id (first + 200 - first + 1)) by lia.
  destruct (Z.ltb_spec 200 (first + 200 - first + 1)); [|lia].
  rewrite Hfirst, (u32_id (first + 200)), Z.ltb_irrefl by lia. unfold msg_store. mrun.
  rewrite Z.sub_diag. change (200 <? u32 (u32 0 + 200)) with false. cbn match.
  rewrite Hp, memcpy_ub by (change (u32 0) with 0; lia). done.
Qed.

(** An entry that grew at its end is selected for the ids it had. *)
Lemma grown_lookups items k it it' r :
  msg_items_wf items -> items !! k = Some it -> in_entry k r ->
  mi_ssid_first it' = mi_ssid_first it -> mi_ssid_last it <= mi_ssid_last_tools it' ->
  msg_lookup_window 0 (r.1) (<[k := it']> items) = Some (k, it') /\
  list_find (fun i => mi_ssid_first i <= r.1 <= mi_ssid_last_tools i) (<[k := it']> items) = Some (k, it').
Proof.
  intros Hi Hit Hr E1 E2. pose proof (entry_selects k r Hr) as Hs. unfold selects in Hs.
  apply andb_true_iff in Hs as [Hw%bool_decide_eq_true _].
  destruct (msg_lookups items k r Hi Hr) as (it0 & Hit0 & Hwf & _ & Hf). rewrite Hit in Hit0. injection Hit0 as <-.
  pose proof (lookup_lt_Some _ _ _ Hit) as Hk. split.
  - assert (mi_ssid_first <$> <[k := it']> items = ssid_first_arr) as Hfs.
    { rewrite list_fmap_insert, E1, <- (wf_firsts items Hi). apply list_insert_id. by rewrite list_lookup_fmap, Hit. }
    rewrite msg_lookup_window_index, Hfs, Hw.
    cbn [mbind option_bind]. by rewrite Nat.sub_0_r, list_lookup_insert_eq by done.
  - apply list_find_Some in Hf as (_ & [Hf1 Hf2] & Hlt). apply list_find_Some.
    split; [by apply list_lookup_insert_eq|]. destruct Hwf as (_ & _ & H3 & _). split; [lia|].
    intros j y Hj Hjk. apply (Hlt j y); [|done]. by rewrite list_lookup_insert_ne in Hj by lia.
Qed.

(** The shrinking request itself. *)
Lemma set_shrinks m k first last r mask h :
  msg_wf m -> ssid_first_arr !! k = Some first -> ssid_last_arr !! k = Some last ->
  first <= r.1 <= last -> last < r.2 < first + MAX_SSID_PER_RANGE - 1 ->
  alloc_ok h -> 4 * range_words r <= zlen mask ->
  exists m', diag_cmd_set_msg_mask r mask h m = Done (0, tick h, m') /\ shrunk m' k first last (r.2 - first + 1) /\
    diag_get_msg_mask_status m' = DIAG_CTRL_MASK_VALID /\
    (exists p, msg_words m' k = Some p /\ zlen p = 4 * (r.2 - first + 1) /\
      slice p (4 * range_offset k r) (4 * range_words r) = slice mask 0 (4 * range_words r)) /\
    (forall k', k' <> k -> msg_words m' k' = msg_words m k').
Proof.
  intros (items & E & Hi) Ef El H1 H2 Hh Hlen. destruct (entry_bounds k first last Ef El) as (? & ? & ? & _).
  assert (forall a, first <= a <= last -> in_entry k (a, a)) as Hin
    by (intros a Ha; exists first, last; cbn; repeat split; (done || lia)).
  destruct (msg_lookups items k (r.1, r.1) Hi (Hin _ H1))
    as (it & Hit & (E1 & E2 & E3 & E4 & E5 & (b & Hb & Hbl & Hbok)) & Hw & Hf).
  rewrite Ef in E1. injection E1 as E1. rewrite El in E2. injection E2 as E2. cbn [fst snd] in Hw, Hf.
  unfold range_words, MAX_SSID_PER_RANGE in *.
  unfold diag_cmd_set_msg_mask. mrun. rewrite E. cbn [deref]. mrun. rewrite Hw. unfold MAX_SSID_PER_RANGE.
  rewrite (u32_id (r.2 - r.1 + 1)) by lia. destruct (Z.ltb_spec 200 (r.2 - r.1 + 1)); [lia|].
  rewrite E3, E2, E1. destruct (Z.ltb_spec last (r.2)); [|lia]. unfold msg_store. mrun.
  destruct (Z.eqb_spec (r.2 - r.1 + 1) 200); [lia|]. cbn [negb]. rewrite (u32_id (r.2 - first + 1)) by lia.
  rewrite Hb. cbn [deref]. mrun. match goal with |- context [realloc _ _ h ?m1] =>
    destruct (realloc_ok b ((r.2 - first + 1) * 4) h m1 Hh Hbok ltac:(lia)) as (b' & -> & _ & Hz & _) end.
  replace (range_offset k r) with (r.1 - first) by (unfold range_offset; by rewrite Ef).
  rewrite (u32_id (r.1 - first)), (u32_id (r.1 - first + (r.2 - r.1 + 1))) by lia.
  destruct (Z.ltb_spec (r.2 - first + 1) (r.1 - first + (r.2 - r.1 + 1))); [lia|].
  rewrite memcpy_ok by lia. rewrite (Z.mul_comm _ 4).
  set (p := splice b' _ _). assert (zlen p = 4 * (r.2 - first + 1)) as Hzp
    by (subst p; rewrite zlen_splice by (rewrite ?zlen_slice; lia); lia).
  assert (slice p (4 * (r.1 - first)) (4 * (r.2 - r.1 + 1)) = slice mask 0 (4 * (r.2 - r.1 + 1))) as Hsp.
  { subst p. apply slice_splice; rewrite ?zlen_slice; lia. }
  eexists; split; [done|]. set (it' := MsgItem _ _ _ _ _ (Some p)).
  match goal with |- shrunk ?m1 _ _ _ _ /\ _ => set (m' := m1) end.
  assert (mk_ptr (msg_mask m') = Some (<[k := it']> items)) as E'.
  { subst m'. cbn. rewrite E. cbn. by rewrite !list_insert_insert_eq. }
  pose proof (lookup_lt_Some _ _ _ Hit) as Hk.
  split; [|split; [done|split]].
  - split; [|unfold MAX_SSID_PER_RANGE; lia]. exists (<[k := it']> items), it', p.
    split_and!; try done; [by apply list_lookup_insert_eq| |].
    + apply (grown_lookups items k it it' (first, first)); try done; [apply Hin; lia|cbn; lia].
    + intros a Ha. apply (grown_lookups items k it it' (a, a)); try done; [by apply Hin|cbn; lia].
  - exists p. split; [|by split]. rewrite (msg_words_eq m' _ k E'). by rewrite list_lookup_insert_eq.
  - intros k' Hne. rewrite (msg_words_eq m' _ k' E'), (msg_words_eq m _ k' E).
    by rewrite list_lookup_insert_ne by done.
Qed.

(** C40 A request for message ids that starts in a table entry and ends behind
    it, less than [MAX_SSID_PER_RANGE] ids from the entry's first, is accepted
    and leaves the table unsafe: the entry's buffer holds just the words up to
    the request's last id from then on, with the request's words in it and all
    other entries as before.  Every later read of the entry that gets memory
    for the copy leaves that buffer, and so does storing the words of the
    request of [MAX_SSID_PER_RANGE] + 1 ids from the entry's first id, whatever
    its words are. *)
Theorem diag_cmd_set_msg_mask_shrinks m k first last r mask h :
  msg_wf m -> ssid_first_arr !! k = Some first -> ssid_last_arr !! k = Some last ->
  first <= r.1 <= last -> last < r.2 < first + MAX_SSID_PER_RANGE - 1 ->
  alloc_ok h -> 4 * range_words r <= zlen mask ->
  exists m', diag_cmd_set_msg_mask r mask h m = Done (0, tick h, m') /\
    diag_get_msg_mask_status m' = DIAG_CTRL_MASK_VALID /\
    (exists p, msg_words m' k = Some p /\ zlen p = 4 * (r.2 - first + 1) /\
      slice p (4 * range_offset k r) (4 * range_words r) = slice mask 0 (4 * range_words r)) /\
    (forall k', k' <> k -> msg_words m' k' = msg_words m k') /\
    (forall r' h', first <= r'.1 <= last -> alloc_ok h' -> diag_cmd_get_msg_mask r' h' m' = UB) /\
    (forall mask' h', diag_cmd_set_msg_mask (first, first + MAX_SSID_PER_RANGE) mask' h' m' = UB).
Proof.
  intros Hm Ef El H1 H2 Hh Hlen. destruct (entry_bounds k first last Ef El) as (? & ? & ? & _).
  destruct (set_shrinks m k first last r mask h Hm Ef El H1 H2 Hh Hlen) as (m' & E & Hs & Hst & Hp & Ho).
  exists m'. split_and!; try done.
  - intros r' h'. by apply (shrunk_get m' k first last (r.2 - first + 1)).
  - intros mask' h'. apply (shrunk_set m' k first last (r.2 - first + 1)); [done|lia].
Qed.

(** ** The theorems at concrete inputs *)

Lemma never_fails_alloc_ok : alloc_ok never_fails.
Proof. intros k. by eexists. Qed.

Lemma in_entry_0 : in_entry 0 (3, 5).
Proof. exists 0, 120. repeat split; cbn; lia. Qed.

Definition words_ready : bytes := replicate 800 255.

Lemma words_ready_eq : msg_words masks_ready 0 = Some words_ready.
Proof. by vm_compute. Qed.

Lemma diag_cmd_set_log_mask_refines_witness :
  exists r m', diag_cmd_set_log_mask 1 12 [0xff; 0x0f] 0 never_fails masks_ready = Done (r, never_fails, m') /\
    log_abs m' 1 = Some (12, [0xff; 0x0f]).
Proof.
  destruct (diag_cmd_set_log_mask_refines masks_ready 1 12 [0xff; 0x0f] 0 never_fails
    (proj1 (proj2 (proj2 masks_ready_wf))) ltac:(lia)
    ltac:(by repeat constructor) ltac:(by apply Z.leb_le)) as (r & m' & H & _ & _ & _ & E & _).
  exists r, m'. split; [exact H|exact E].
Defined.

Lemma diag_cmd_get_log_mask_refines_witness :
  exists h', diag_cmd_get_log_mask 2 never_fails masks_ready = Done ((0, 0, Some [], 0), h', masks_ready).
Proof.
  destruct (diag_cmd_get_log_mask_refines masks_ready 2 never_fails
    (proj1 (proj2 (proj2 masks_ready_wf))) never_fails_alloc_ok) as (h' & _ & E).
  exists h'. rewrite E. by vm_compute.
Defined.

Lemma diag_cmd_disable_log_clears_witness :
  exists m', diag_cmd_disable_log never_fails masks_ready = Done (tt, never_fails, m') /\
    log_abs m' 4 = Some (0x910, replicate 290 0).
Proof.
  destruct (diag_cmd_disable_log_clears masks_ready never_fails
    (proj1 (proj2 (proj2 masks_ready_wf)))) as (m' & E & _ & _ & H).
  exists m'. split; [exact E|]. rewrite H. by vm_compute.
Defined.

Lemma diag_cmd_update_event_mask_correct_witness :
  exists h' m', diag_cmd_update_event_mask 12 [0xff; 0x0f] never_fails masks_ready = Done (0, h', m') /\
    slice (event_bits m') 0 2 = [0xff; 0x0f].
Proof.
  destruct (diag_cmd_update_event_mask_correct masks_ready 12 [0xff; 0x0f] never_fails
    (proj2 (proj2 (proj2 masks_ready_wf))) never_fails_alloc_ok ltac:(lia)
    ltac:(by repeat constructor) ltac:(by apply Z.leb_le)) as (k & m' & E & _ & _ & _ & H & _).
  exists (steps k never_fails), m'. split; [exact E|exact H].
Defined.

Lemma diag_cmd_get_event_mask_correct_witness :
  exists h', diag_cmd_get_event_mask 12 never_fails masks_ready = Done ((0, Some [0; 0]), h', masks_ready).
Proof.
  destruct (diag_cmd_get_event_mask_correct masks_ready 12 never_fails
    (proj2 (proj2 (proj2 masks_ready_wf))) never_fails_alloc_ok ltac:(lia)) as (k & E).
  exists (steps k never_fails). rewrite E. by vm_compute.
Defined.

Lemma diag_cmd_set_msg_mask_refines_witness :
  exists m', diag_cmd_set_msg_mask (3, 5) [1;0;0;0; 2;0;0;0; 3;0;0;0] never_fails masks_ready =
      Done (0, never_fails, m') /\
    msg_words m' 0 = Some (splice words_ready 12 [1;0;0;0; 2;0;0;0; 3;0;0;0]).
Proof.
  destruct (diag_cmd_set_msg_mask_refines masks_ready 0 (3, 5) [1;0;0;0; 2;0;0;0; 3;0;0;0] never_fails
    words_ready (proj1 masks_ready_wf) in_entry_0 ltac:(by repeat constructor) ltac:(by apply Z.leb_le)
    words_ready_eq) as (m' & E & _ & _ & H & _).
  exists m'. split; [exact E|exact H].
Defined.

Lemma diag_cmd_get_msg_mask_correct_witness :
  exists h', diag_cmd_get_msg_mask (3, 5) never_fails masks_ready =
    Done ((0, (0, 120), Some words_ready), h', masks_ready).
Proof.
  destruct (diag_cmd_get_msg_mask_correct masks_ready 0 (3, 5) never_fails words_ready
    (proj1 masks_ready_wf) in_entry_0 never_fails_alloc_ok words_ready_eq)
    as (h' & first & last & _ & H1 & H2 & E).
  cbn in H1, H2. injection H1 as <-. injection H2 as <-. exists h'. exact E.
Defined.

Lemma diag_cmd_set_all_msg_mask_fills_witness :
  exists m', diag_cmd_set_all_msg_mask 0x12345678 never_fails masks_ready = Done (tt, never_fails, m') /\
    msg_words m' 24 = Some (replicate 800 0x78).
Proof.
  destruct (diag_cmd_set_all_msg_mask_fills masks_ready 0x12345678 never_fails (proj1 masks_ready_wf))
    as (m' & E & _ & _ & H).
  exists m'. split; [exact E|]. apply (H 24%nat). by apply Nat.ltb_lt.
Defined.

(** Ids 0 to 129 of the first entry (0 to 120), then a read of id 0 and a
    request for ids 0 to 200. *)
Lemma diag_cmd_set_msg_mask_shrinks_witness :
  exists m', diag_cmd_set_msg_mask (0, 129) (replicate 520 1) never_fails masks_ready = Done (0, tick never_fails, m') /\
    diag_cmd_get_msg_mask (0, 0) never_fails m' = UB /\
    diag_cmd_set_msg_mask (0, 200) (replicate 804 1) never_fails m' = UB.
Proof.
  destruct (diag_cmd_set_msg_mask_shrinks masks_ready 0 0 120 (0, 129) (replicate 520 1) never_fails
    (proj1 masks_ready_wf) eq_refl eq_refl ltac:(by split; apply Z.leb_le) ltac:(by split; apply Z.ltb_lt)
    never_fails_alloc_ok ltac:(by apply Z.leb_le)) as (m' & E & _ & _ & _ & Hget & Hset).
  exists m'. split; [exact E|]. split.
  - apply (Hget (0, 0) never_fails); [split; by apply Z.leb_le|exact never_fails_alloc_ok].
  - exact (Hset (replicate 804 1) never_fails).
Defined.
