(* ===== verification/Queue.v ===== *)
(** * Queue: [router/mbuf.c], the queue functions of [router/diag.c] and
    [router/router.c], and the flow counters of [router/watch.c]

    Outgoing packets are message buffers on queues, one queue for each
    channel.  A queue is the list the links of [ListHead] stand for; [list_add]
    appends to it ([ListHead.list_add_appends]). *)

From S2P Require Import Prelude CircBuf Hdlc.

(** ** Data *)

(** [struct mbuf]; the node is the buffer's place in its queue, [mb_flow] the
    flow it counts against. *)
Record mbuf := Mbuf { mb_size : Z; mb_offset : Z; mb_flow : option nat; mb_data : bytes }.

(** [sizeof(struct mbuf)]: two node pointers, two sizes, a pointer. *)
Definition sizeof_mbuf : Z := 40.

(** The queues of the program: a client's [outq], a peripheral's [cmdq],
    [cntlq] and [dataq], an USB handle's [outq]. *)
Inductive queue_ref : Type :=
| QClient (client : nat)
| QCmd (perif : nat)
| QCntl (perif : nat)
| QData (perif : nat)
| QUsb (handle : nat).

#[export] Instance queue_ref_eq_dec : EqDecision queue_ref.
Proof. solve_decision. Defined.

#[export] Instance queue_ref_countable : Countable queue_ref.
Proof.
  refine (inj_countable'
    (fun q => match q with
              | QClient n => inl n | QCmd n => inr (inl n) | QCntl n => inr (inr (inl n))
              | QData n => inr (inr (inr (inl n))) | QUsb n => inr (inr (inr (inr n))) end)
    (fun s => match s with
              | inl n => QClient n | inr (inl n) => QCmd n | inr (inr (inl n)) => QCntl n
              | inr (inr (inr (inl n))) => QData n | inr (inr (inr (inr n))) => QUsb n end) _).
  by intros [].
Defined.

Record qstate := QState {
  q_lists : gmap queue_ref (list mbuf);   (* absent: empty *)
  q_flows : list Z }.                     (* [struct watch_flow]: packets *)

Definition queue_of (s : qstate) (q : queue_ref) : list mbuf := default [] (q_lists s !! q).

Definition set_queue (q : queue_ref) (l : list mbuf) (s : qstate) : qstate :=
  QState (<[q := l]> (q_lists s)) (q_flows s).

(** ** Flow counters *)

Definition FLOW_WATERMARK : Z := 10.

(** [watch_flow_new]: the new flow, or null. *)
Definition watch_flow_new : M qstate (option nat) :=
  p ← calloc 4;
  match p with
  | None => mret None
  | Some _ =>
      s ← get;
      _ ← put (QState (q_lists s) (q_flows s ++ [0]));
      mret (Some (length (q_flows s)))
  end.

Definition flow_upd (f : Z -> Z) (flow : nat) : M qstate unit :=
  s ← get;
  match q_flows s !! flow with
  | None => fail_ub
  | Some n => put (QState (q_lists s) (<[flow := f n]> (q_flows s)))
  end.

Definition watch_flow_inc (flow : option nat) : M qstate unit :=
  match flow with None => mret tt | Some f => flow_upd (fun n => n + 1) f end.

Definition watch_flow_dec (flow : option nat) : M qstate unit :=
  match flow with None => mret tt | Some f => flow_upd (fun n => if n =? 0 then n else n - 1) f end.

Definition watch_flow_blocked (flow : option nat) : M qstate bool :=
  match flow with
  | None => mret false
  | Some f =>
      s ← get;
      match q_flows s !! f with
      | None => fail_ub
      | Some n => mret (FLOW_WATERMARK <? n)
      end
  end.

(** ** Message buffers *)

Definition mbuf_alloc (size : Z) : M qstate (option mbuf) :=
  p ← malloc (u64 (sizeof_mbuf + size));
  match p with
  | None => mret None
  | Some p => mret (Some (Mbuf size 0 None (drop (Z.to_nat sizeof_mbuf) p)))
  end.

(** The result: the offset in [data] the returned pointer points to, [None]
    for null, and the buffer. *)
Definition mbuf_put (b : mbuf) (size : Z) : option Z * mbuf :=
  if mb_size b <? u64 (mb_offset b + size) then (None, b)
  else (Some (mb_offset b), Mbuf (mb_size b) (u64 (mb_offset b + size)) (mb_flow b) (mb_data b)).

Definition mb_write (b : mbuf) (off : Z) (src : bytes) : outcome mbuf :=
  d ← mem_write (mb_data b) off src; Done (Mbuf (mb_size b) (mb_offset b) (mb_flow b) d).

Definition list_add_tail (q : queue_ref) (b : mbuf) : M qstate unit :=
  modify (fun s => set_queue q (queue_of s q ++ [b]) s).

(** ** Pushing

    [msg] is the object from the message's first byte on, [msglen] the length
    passed along. *)

Definition queue_push_flow (q : queue_ref) (msg : bytes) (msglen : Z) (flow : option nat)
    : M qstate unit :=
  b ← mbuf_alloc msglen;
  match b with
  | None => fail_ub    (* [mbuf_put] follows the null pointer *)
  | Some b =>
      match mbuf_put b msglen with
      | (None, _) => fail_ub
      | (Some off, b) =>
          d ← lift (mem_read msg 0 msglen);
          b ← lift (mb_write b off d);
          let b := Mbuf (mb_size b) (mb_offset b) flow (mb_data b) in
          _ ← watch_flow_inc flow;
          list_add_tail q b
      end
  end.

Definition queue_push (q : queue_ref) (msg : bytes) (msglen : Z) : M qstate unit :=
  queue_push_flow q msg msglen None.

Definition NHDLC_CONTROL_CHAR : Z := 0x7E.
Definition sizeof_pkt_frame : Z := 4.

(** [struct diag_pkt_frame]: start, version, length. *)
Definition pkt_frame_header (msglen : Z) : bytes := [NHDLC_CONTROL_CHAR; 1] ++ le 2 msglen.

Definition queue_push_nhdlc_flow (q : queue_ref) (msg : bytes) (msglen : Z) (flow : option nat)
    : M qstate unit :=
  let len := u64 (msglen + sizeof_pkt_frame + 1) in
  b ← mbuf_alloc len;
  match b with
  | None => mret tt
  | Some b =>
      match mbuf_put b len with
      | (None, _) => mret tt
      | (Some ptr, b) =>
          b ← lift (mb_write b ptr (pkt_frame_header msglen));
          let off := sizeof_pkt_frame in
          d ← lift (mem_read msg 0 msglen);
          b ← lift (mb_write b (ptr + off) d);
          let off := off + msglen in
          b ← lift (mb_write b (ptr + off) [NHDLC_CONTROL_CHAR]);
          let off := off + 1 in
          let b := Mbuf (mb_size b) off flow (mb_data b) in
          _ ← watch_flow_inc flow;
          list_add_tail q b
      end
  end.

(** [err(1, ...)] when the encoder's allocation fails. *)
Definition hdlc_enqueue_flow (q : queue_ref) (msg : bytes) (msglen : Z) (flow : option nat)
    : M qstate Z :=
  src ← lift (mem_read msg 0 msglen);
  outbuf ← hdlc_encode src;
  match outbuf with
  | None => exit1
  | Some outbuf =>
      _ ← queue_push_flow q outbuf (zlen outbuf) flow;
      mret 0
  end.

Definition hdlc_enqueue (q : queue_ref) (msg : bytes) (msglen : Z) : M qstate Z :=
  hdlc_enqueue_flow q msg msglen None.

(** The receiving check of a non-HDLC frame, as [diag_cmd_recv]
    ([router/peripheral-rpmsg.c]) and [qrtr_cmd_recv] and [qrtr_data_recv]
    ([router/peripheral-qrtr.c]) make it on [n] received bytes at the start of
    the object [buf]: the payload's length when the frame is taken. *)
Definition non_hdlc_check (buf : bytes) (n : Z) : outcome (option Z) :=
  start ← rd 1 buf 0;
  if negb (start =? 0x7e) then Done None else
  version ← rd 1 buf 1;
  if negb (version =? 1) then Done None else
  length ← rd 2 buf 2;
  if u64 n <? sizeof_pkt_frame + length + 1 then Done None else
  last ← rd 1 buf (sizeof_pkt_frame + length);
  if negb (last =? 0x7e) then Done None else Done (Some length).

(** ** What a push does *)

(** A packet as it waits in a queue: filled to its size. *)
Definition packet (flow : option nat) (data : bytes) : mbuf :=
  Mbuf (zlen data) (zlen data) flow data.

Definition bump (flow : option nat) (s : qstate) : qstate :=
  match flow with
  | None => s
  | Some f => QState (q_lists s) (alter (fun n => n + 1) f (q_flows s))
  end.

Definition enqueue (q : queue_ref) (flow : option nat) (data : bytes) (s : qstate) : qstate :=
  set_queue q (queue_of s q ++ [packet flow data]) (bump flow s).

Definition flow_ok (flow : option nat) (s : qstate) : Prop :=
  match flow with None => True | Some f => is_Some (q_flows s !! f) end.

(** The payloads waiting in a queue. *)
Definition payloads (s : qstate) (q : queue_ref) : list bytes := mb_data <$> queue_of s q.

Lemma queue_of_set q q' l s : queue_of (set_queue q l s) q' = if decide (q = q') then l else queue_of s q'.
Proof.
  unfold queue_of, set_queue. cbn. case_decide as E.
  - subst. by rewrite lookup_insert_eq.
  - by rewrite lookup_insert_ne.
Qed.

Lemma queue_of_bump flow s q : queue_of (bump flow s) q = queue_of s q.
Proof. by destruct flow. Qed.

Lemma queue_of_enqueue q flow d s q' :
  queue_of (enqueue q flow d s) q' = if decide (q = q') then queue_of s q ++ [packet flow d] else queue_of s q'.
Proof. unfold enqueue. rewrite queue_of_set. case_decide; [done|]. apply queue_of_bump. Qed.

Lemma flows_enqueue q flow d s : q_flows (enqueue q flow d s) = q_flows (bump flow s).
Proof. done. Qed.

Lemma flow_ok_enqueue q flow flow' d s : flow_ok flow s -> flow_ok flow (enqueue q flow' d s).
Proof.
  destruct flow as [f|]; [|done]. cbn. destruct flow' as [f'|]; cbn; [|done].
  intros H. apply lookup_lt_is_Some. rewrite length_alter. by apply lookup_lt_is_Some.
Qed.

Lemma flow_inc_ok flow h s : flow_ok flow s -> watch_flow_inc flow h s = Done (tt, h, bump flow s).
Proof.
  destruct flow as [f|]; [|done]. intros [n E]. cbn in *. unfold flow_upd. mrun. rewrite E.
  do 4 f_equal. apply list_eq. intros i. destruct (decide (i = f)) as [->|].
  - by rewrite list_lookup_insert_eq, list_lookup_alter_eq, E by (by apply lookup_lt_Some in E).
  - by rewrite list_lookup_insert_ne, list_lookup_alter_ne.
Qed.

Lemma mbuf_alloc_ok size h s :
  alloc_ok h -> 0 <= size < 2 ^ 63 ->
  exists junk, mbuf_alloc size h s = Done (Some (Mbuf size 0 None junk), tick h, s) /\
    zlen junk = size /\ bytes_ok junk.
Proof.
  intros Hh Hs. unfold mbuf_alloc, sizeof_mbuf. mrun. rewrite u64_id by lia.
  destruct (malloc_ok (40 + size) h s Hh) as (b & -> & Hok & Hl). eexists. split; [done|].
  split; [|by auto with diag]. rewrite zlen_drop, Hl; lia.
Qed.

Lemma mbuf_put_ok size flow d :
  0 <= size < 2 ^ 63 -> mbuf_put (Mbuf size 0 flow d) size = (Some 0, Mbuf size size flow d).
Proof.
  intros. unfold mbuf_put. cbn [mb_size mb_offset mb_flow mb_data].
  rewrite u64_id by lia. change (0 + size) with size.
  destruct (Z.ltb_spec size size); [lia|done].
Qed.

Lemma queue_push_flow_ok q msg len flow h s :
  alloc_ok h -> 0 <= len <= zlen msg -> len < 2 ^ 63 -> flow_ok flow s ->
  queue_push_flow q msg len flow h s = Done (tt, tick h, enqueue q flow (slice msg 0 len) s).
Proof.
  intros Hh Hl Hlen Hf. unfold queue_push_flow. mrun.
  destruct (mbuf_alloc_ok len h s Hh ltac:(lia)) as (junk & -> & Hj & _).
  rewrite mbuf_put_ok by lia. rewrite mem_read_ok by lia.
  pose proof (zlen_slice msg 0 len ltac:(lia) ltac:(lia) ltac:(lia)) as Hs.
  unfold mb_write. mrun. cbn [mb_data]. rewrite mem_write_ok, splice_full by lia.
  rewrite flow_inc_ok by done. unfold list_add_tail. mrun. unfold enqueue, packet.
  rewrite Hs, queue_of_bump. done.
Qed.

Definition nhdlc_frame (msg : bytes) : bytes := pkt_frame_header (zlen msg) ++ msg ++ [NHDLC_CONTROL_CHAR].

Lemma splice_app_junk a junk src :
  zlen src <= zlen junk -> splice (a ++ junk) (zlen a) src = (a ++ src) ++ drop (length src) junk.
Proof.
  intros. unfold splice. pose proof (zlen_nonneg a). pose proof (zlen_nonneg src).
  rewrite take_app_le, take_ge by (unfold zlen; lia). rewrite drop_app_ge by (unfold zlen in *; lia).
  rewrite <- app_assoc. do 2 f_equal. f_equal. unfold zlen; lia.
Qed.

Lemma nhdlc_push_ok q msg len flow h s :
  alloc_ok h -> 0 <= len <= zlen msg -> len < 2 ^ 62 -> flow_ok flow s ->
  queue_push_nhdlc_flow q msg len flow h s =
    Done (tt, tick h, enqueue q flow (nhdlc_frame (slice msg 0 len)) s).
Proof.
  intros Hh Hl Hlen Hf. unfold queue_push_nhdlc_flow, sizeof_pkt_frame. mrun. rewrite u64_id by lia.
  destruct (mbuf_alloc_ok (len + 4 + 1) h s Hh ltac:(lia)) as (junk & -> & Hj & _).
  rewrite mbuf_put_ok by lia. set (d := slice msg 0 len).
  assert (zlen d = len) as Hd by (apply zlen_slice; lia).
  assert (zlen (pkt_frame_header len) = 4) as Hh4 by done.
  unfold mb_write. mrun. cbn [mb_data mb_size mb_offset mb_flow].
  rewrite mem_write_ok by (rewrite ?Hh4; lia).
  replace (splice junk 0 (pkt_frame_header len)) with (pkt_frame_header len ++ drop 4 junk) by done.
  remember (pkt_frame_header len) as hd eqn:Ehd. rewrite mem_read_ok by lia. fold d.
  cbn [mb_data mb_size mb_offset mb_flow].
  rewrite mem_write_ok by (rewrite ?zlen_app, ?zlen_drop; lia).
  replace (0 + 4) with (zlen hd) by lia.
  rewrite splice_app_junk by (rewrite zlen_drop; lia). cbn [mb_data].
  change (zlen [NHDLC_CONTROL_CHAR]) with 1 in *.
  rewrite mem_write_ok by (rewrite ?zlen_app, ?zlen_drop; unfold zlen in *; cbn [length]; lia).
  replace (0 + (4 + len)) with (zlen (hd ++ d)) by (rewrite zlen_app; lia).
  rewrite splice_app_junk by (rewrite !zlen_drop; unfold zlen in *; cbn [length]; lia).
  rewrite (drop_ge (drop (length d) _))
    by (rewrite !length_drop; unfold zlen in *; cbn [length]; lia).
  rewrite flow_inc_ok by done. unfold list_add_tail. mrun. cbn [mb_data mb_size].
  unfold enqueue. rewrite queue_of_bump. do 5 f_equal. unfold packet, nhdlc_frame.
  rewrite Hd, <- Ehd, app_nil_r, <- app_assoc.
  rewrite !zlen_app, Hh4, Hd. change (zlen [NHDLC_CONTROL_CHAR]) with 1. f_equal; lia.
Qed.

Lemma hdlc_enqueue_flow_ok q msg len flow h s :
  alloc_ok h -> bytes_ok (slice msg 0 len) -> 0 <= len <= zlen msg -> len < 2 ^ 61 -> flow_ok flow s ->
  hdlc_enqueue_flow q msg len flow h s =
    Done (0, steps 2 h, enqueue q flow (hdlc_frame (slice msg 0 len)) s).
Proof.
  intros Hh Hok Hl Hlen Hf. unfold hdlc_enqueue_flow. mrun. rewrite mem_read_ok by lia.
  rewrite hdlc_encode_ok by done.
  destruct (hdlc_frame_bounds (slice msg 0 len) Hok) as [Hb Hz].
  rewrite zlen_slice in Hz by lia.
  rewrite queue_push_flow_ok by (done || lia || by auto with diag).
  rewrite slice_0_all by done. done.
Qed.

(** ** Properties *)

(** Pushing a message of [len] bytes appends one packet holding exactly
    those bytes (plain, HDLC framed, or non-HDLC framed) to the queue, leaves
    every other queue alone, and charges the packet to the flow it is pushed
    with. *)
Lemma queue_push_appends q msg len flow h s :
  alloc_ok h -> bytes_ok msg -> 0 <= len <= zlen msg -> len < 2 ^ 61 -> flow_ok flow s ->
  let body := slice msg 0 len in
  queue_push_flow q msg len flow h s = Done (tt, tick h, enqueue q flow body s) /\
  queue_push_nhdlc_flow q msg len flow h s = Done (tt, tick h, enqueue q flow (nhdlc_frame body) s) /\
  hdlc_enqueue_flow q msg len flow h s = Done (0, steps 2 h, enqueue q flow (hdlc_frame body) s) /\
  forall data q', payloads (enqueue q flow data s) q' =
    if decide (q = q') then payloads s q ++ [data] else payloads s q'.
Proof.
  intros Hh Hok Hl Hlen Hf body. split; [apply queue_push_flow_ok; (done || lia)|].
  split; [apply nhdlc_push_ok; (done || lia)|]. split; [apply hdlc_enqueue_flow_ok; auto with diag|].
  intros data q'. unfold payloads. rewrite queue_of_enqueue. case_decide; [|done]. by rewrite fmap_app.
Qed.

Lemma rd_byte b rest : is_byte b -> rd 1 (b :: rest) 0 = Done b.
Proof.
  intros Hb. unfold rd. rewrite mem_read_ok by (pose proof (zlen_nonneg rest); zlia).
  cbn [mbind outcome_bind]. f_equal. change (b + 256 * 0 = b). lia.
Qed.

Lemma rd_at n a b off k : k = zlen a + off -> 0 <= off -> rd n (a ++ b) k = rd n b off.
Proof. intros -> ?. by apply rd_skip. Qed.

Lemma rd_le_small n z rest : 0 <= z < 256 ^ Z.of_nat n -> rd n (le n z ++ rest) 0 = Done z.
Proof. intros. rewrite rd_le. by rewrite Z.mod_small. Qed.

Lemma zlen_nhdlc_frame msg : zlen (nhdlc_frame msg) = zlen msg + 5.
Proof. unfold nhdlc_frame, pkt_frame_header. rewrite !zlen_app, zlen_le, !zlen_cons, zlen_nil. lia. Qed.

Lemma nhdlc_frame_fields msg tl :
  nhdlc_frame msg ++ tl = NHDLC_CONTROL_CHAR :: 1 :: le 2 (zlen msg) ++ msg ++ NHDLC_CONTROL_CHAR :: tl.
Proof. unfold nhdlc_frame, pkt_frame_header. by rewrite <- !app_assoc. Qed.

(** Reading the fields of a frame, whatever follows it. *)
Lemma nhdlc_frame_reads msg rest :
  zlen msg < 2 ^ 16 ->
  let B := nhdlc_frame msg ++ rest in
  rd 1 B 0 = Done 0x7e /\ rd 1 B 1 = Done 1 /\ rd 2 B 2 = Done (zlen msg) /\ rd 1 B (4 + zlen msg) = Done 0x7e.
Proof.
  intros Hm. cbv zeta. pose proof (zlen_nonneg msg) as H0. rewrite nhdlc_frame_fields. split_and!.
  - by apply rd_byte.
  - change (?a :: ?b :: ?l) with ([a] ++ (b :: l)). rewrite (rd_at 1 _ _ 0) by done. by apply rd_byte.
  - change (?a :: ?b :: ?l) with ([a; b] ++ l). rewrite (rd_at 2 _ _ 0) by done. apply rd_le_small. lia.
  - change (?a :: ?b :: ?l) with ([a; b] ++ l).
    rewrite (rd_at 1 _ _ (2 + zlen msg)) by (change (zlen [NHDLC_CONTROL_CHAR; 1]) with 2; lia).
    rewrite (rd_at 1 _ _ (zlen msg)) by (rewrite ?zlen_le; lia).
    rewrite (rd_at 1 _ _ 0) by lia. by apply rd_byte.
Qed.

Lemma nhdlc_frame_checks msg rest n :
  zlen msg < 2 ^ 16 -> 0 <= n < 2 ^ 63 ->
  slice (nhdlc_frame msg ++ rest) sizeof_pkt_frame (zlen msg) = msg /\
  non_hdlc_check (nhdlc_frame msg ++ rest) n =
    Done (if zlen (nhdlc_frame msg) <=? n then Some (zlen msg) else None).
Proof.
  intros Hm Hn. pose proof (zlen_nonneg msg) as H0. rewrite zlen_nhdlc_frame. split.
  - rewrite nhdlc_frame_fields. change (?a :: ?b :: ?l) with ([a; b] ++ l). rewrite app_assoc.
    unfold sizeof_pkt_frame. rewrite slice_app_r by done. by apply slice_app_exact.
  - destruct (nhdlc_frame_reads msg rest Hm) as (R0 & R1 & R2 & R3). set (B := nhdlc_frame msg ++ rest) in *.
    unfold non_hdlc_check, sizeof_pkt_frame. rewrite R0. cbn [mbind outcome_bind negb Z.eqb Pos.eqb].
    rewrite R1. cbn [mbind outcome_bind negb Z.eqb Pos.eqb]. rewrite R2.
    cbn [mbind outcome_bind]. rewrite u64_id by lia.
    destruct (Z.ltb_spec n (4 + zlen msg + 1)), (Z.leb_spec (zlen msg + 5) n); try lia; [done|].
    rewrite R3. done.
Qed.

(** Round trip of the non-HDLC framing: the packet that
    [queue_push_nhdlc_flow] queues for a message of less than 64 KiB is
    accepted by the receivers' check once all of it has arrived, whatever
    follows it, with the message behind the header; while it is truncated it is
    rejected. *)
Lemma nhdlc_roundtrip q msg len flow h s rest n :
  alloc_ok h -> 0 <= len <= zlen msg -> len < 2 ^ 16 -> flow_ok flow s -> 0 <= n < 2 ^ 63 ->
  exists s' p, queue_push_nhdlc_flow q msg len flow h s = Done (tt, tick h, s') /\
    payloads s' q = payloads s q ++ [p] /\ zlen p = len + 5 /\
    slice (p ++ rest) sizeof_pkt_frame len = slice msg 0 len /\
    non_hdlc_check (p ++ rest) n = Done (if zlen p <=? n then Some len else None).
Proof.
  intros Hh Hl Hlen Hf Hn. pose proof (zlen_slice msg 0 len ltac:(lia) ltac:(lia) ltac:(lia)) as Hs.
  eexists _, (nhdlc_frame (slice msg 0 len)). split; [apply nhdlc_push_ok; (done || lia)|].
  split; [|split; [rewrite zlen_nhdlc_frame; lia|]].
  - unfold payloads. rewrite queue_of_enqueue, decide_True by done. by rewrite fmap_app.
  - destruct (nhdlc_frame_checks (slice msg 0 len) rest n ltac:(lia) Hn) as [E1 E2].
    rewrite Hs in E1, E2. done.
Qed.

Lemma rd_done n b off : 0 <= off -> off + Z.of_nat n <= zlen b ->
  exists z, rd n b off = Done z /\ (bytes_ok b -> 0 <= z < 256 ^ Z.of_nat n).
Proof.
  intros. unfold rd. rewrite mem_read_ok by lia. eexists. split; [done|]. intros Hok.
  pose proof (le_dec_range (slice b off (Z.of_nat n)) ltac:(auto with diag)) as Hr.
  by rewrite zlen_slice in Hr by lia.
Qed.

(** The receivers' check of a non-HDLC frame is safe on arbitrary received
    bytes: it reads nothing beyond the receive buffer, and a payload it
    accepts, with its closing flag, lies inside the received bytes. *)
Lemma non_hdlc_check_safe buf n :
  bytes_ok buf -> 0 <= n <= zlen buf -> 4 <= zlen buf < 2 ^ 63 ->
  exists r, non_hdlc_check buf n = Done r /\
    forall len, r = Some len -> 0 <= len < 2 ^ 16 /\ sizeof_pkt_frame + len + 1 <= n.
Proof.
  intros Hok Hn Hb. unfold non_hdlc_check, sizeof_pkt_frame.
  destruct (rd_done 1 buf 0 ltac:(lia) ltac:(lia)) as (z0 & -> & _). cbn [mbind outcome_bind].
  destruct (negb (z0 =? 126)); [by eexists|].
  destruct (rd_done 1 buf 1 ltac:(lia) ltac:(lia)) as (z1 & -> & _). cbn [mbind outcome_bind].
  destruct (negb (z1 =? 1)); [by eexists|].
  destruct (rd_done 2 buf 2 ltac:(lia) ltac:(lia)) as (z2 & -> & Hz2). cbn [mbind outcome_bind].
  specialize (Hz2 Hok). rewrite u64_id by lia. destruct (Z.ltb_spec n (4 + z2 + 1)); [by eexists|].
  destruct (rd_done 1 buf (4 + z2) ltac:(lia) ltac:(lia)) as (z3 & -> & _). cbn [mbind outcome_bind].
  destruct (negb (z3 =? 126)); [by eexists|]. eexists; split; [done|]. intros len [= <-]. lia.
Qed.

Definition qempty : qstate := QState ∅ [0].

Lemma queue_push_appends_witness :
  queue_push_nhdlc_flow (QClient 0) [1; 2; 3; 4] 3 (Some 0%nat) never_fails qempty =
    Done (tt, tick never_fails,
      enqueue (QClient 0) (Some 0%nat) [0x7e; 1; 3; 0; 1; 2; 3; 0x7e] qempty).
Proof.
  destruct (queue_push_appends (QClient 0) [1; 2; 3; 4] 3 (Some 0%nat) never_fails qempty) as (_ & H & _).
  - intros k. by eexists.
  - by repeat constructor.
  - split; by apply Z.leb_le.
  - by apply Z.ltb_lt.
  - by eexists.
  - exact H.
Defined.

Lemma nhdlc_roundtrip_witness :
  exists s' p, queue_push_nhdlc_flow (QCmd 0) [10; 11; 12; 13] 3 None never_fails qempty =
      Done (tt, tick never_fails, s') /\
    payloads s' (QCmd 0) = [p] /\ non_hdlc_check (p ++ [99]) 9 = Done (Some 3).
Proof.
  destruct (nhdlc_roundtrip (QCmd 0) [10; 11; 12; 13] 3 None never_fails qempty [99] 9)
    as (s' & p & E & Ep & Hl & _ & Hc).
  - intros k. by eexists.
  - split; by apply Z.leb_le.
  - lia.
  - done.
  - lia.
  - exists s', p. split; [exact E|]. split; [exact Ep|]. rewrite Hl in Hc. exact Hc.
Defined.

Lemma non_hdlc_check_safe_witness :
  exists r, non_hdlc_check [0x7e; 1; 200; 0; 10; 11] 6 = Done r /\
    forall len, r = Some len -> 0 <= len < 2 ^ 16 /\ sizeof_pkt_frame + len + 1 <= 6.
Proof.
  apply (non_hdlc_check_safe [0x7e; 1; 200; 0; 10; 11] 6); [by repeat constructor | |];
    change (zlen [0x7e; 1; 200; 0; 10; 11]) with 6; lia.
Defined.
