(* ===== verification/Watch.v ===== *)
(** * Watch: the registration side of [router/watch.c] and [router/watch.h]

    The lists of read watches, asynchronous-I/O watches, quit watches and
    timers, and the operations that other components call on them.  A callback
    with its [data] argument is a value of [watch_cb] or [timer_cb]; the event
    loop that runs them is in [EventLoop].  A watch has an identity, [wa_id]:
    the loop keeps pointers to watches across callbacks that may free them. *)

From S2P Require Import Prelude Queue.

(** ** Data *)

(** The callbacks handed to [watch_add_readfd] and [watch_add_readq], with the
    object they are registered on. *)
Inductive watch_cb : Type :=
| CbDmRecv (client : nat)
| CbUnixListen
| CbRpmsgCntlRecv (perif : nat)
| CbRpmsgDataRecv (perif : nat)
| CbRpmsgCmdRecv (perif : nat)
| CbUdevUpdate
| CbQrtrCntlRecv (perif : nat)
| CbQrtrCmdRecv (perif : nat)
| CbQrtrDataRecv (perif : nat)
| CbEp0Recv (handle : nat)
| CbFfsRecv (handle : nat)
| CbFreeWriteAio.

#[export] Instance watch_cb_eq_dec : EqDecision watch_cb.
Proof. solve_decision. Defined.

Inductive timer_cb : Type :=
| TmHdlcReset (client : nat)
| TmPeripheralOpen (perif : nat).

#[export] Instance timer_cb_eq_dec : EqDecision timer_cb.
Proof. solve_decision. Defined.

(** [struct watch]; the fields not set by a registration are zero. *)
Record watch := Watch {
  wa_id : nat; wa_fd : Z; wa_cb : watch_cb; wa_queue : option queue_ref;
  wa_pending_aio : option mbuf; wa_is_write : bool; wa_flow : option nat }.

(** [struct timeval] in microseconds. *)
Record timer := Timer { tm_cb : timer_cb; tm_interval : Z; tm_repeat : bool; tm_tick : Z }.

Record wstate := WState {
  ws_timers : list timer;
  ws_read : list watch;
  ws_aio : list watch;
  ws_quit : list watch;
  ws_do_quit : bool;
  ws_now : Z;          (* what [gettimeofday] returns *)
  ws_fresh : nat }.    (* the identity of the next watch *)

Definition with_timers f s := WState (f (ws_timers s)) (ws_read s) (ws_aio s) (ws_quit s) (ws_do_quit s) (ws_now s) (ws_fresh s).
Definition with_read f s := WState (ws_timers s) (f (ws_read s)) (ws_aio s) (ws_quit s) (ws_do_quit s) (ws_now s) (ws_fresh s).
Definition with_aio f s := WState (ws_timers s) (ws_read s) (f (ws_aio s)) (ws_quit s) (ws_do_quit s) (ws_now s) (ws_fresh s).
Definition with_quit f s := WState (ws_timers s) (ws_read s) (ws_aio s) (f (ws_quit s)) (ws_do_quit s) (ws_now s) (ws_fresh s).

(** ** Registration *)

(** [calloc(1, size)] that ends the program when it fails. *)
Definition calloc_or_die {S} (size : Z) : M S unit :=
  p ← calloc size; match p with None => exit1 | Some _ => mret tt end.

Definition sizeof_watch : Z := 144.
Definition sizeof_timer : Z := 56.

(** A new [struct watch]. *)
Definition new_watch : M wstate nat :=
  _ ← calloc_or_die sizeof_watch;
  s ← get;
  _ ← put (WState (ws_timers s) (ws_read s) (ws_aio s) (ws_quit s) (ws_do_quit s) (ws_now s) (S (ws_fresh s)));
  mret (ws_fresh s).

Definition watch_add_readfd (fd : Z) (cb : watch_cb) (flow : option nat) : M wstate Z :=
  id ← new_watch;
  _ ← modify (with_read (fun l => l ++ [Watch id fd cb None None false flow]));
  mret 0.

Definition watch_add_readq (fd : Z) (queue : queue_ref) (cb : watch_cb) : M wstate Z :=
  id ← new_watch;
  _ ← modify (with_aio (fun l => l ++ [Watch id fd cb (Some queue) None false None]));
  mret 0.

Definition watch_add_writeq (fd : Z) (queue : queue_ref) : M wstate Z :=
  id ← new_watch;
  _ ← modify (with_aio (fun l => l ++ [Watch id fd CbFreeWriteAio (Some queue) None true None]));
  mret 0.

Definition not_fd (fd : Z) (w : watch) : Prop := wa_fd w <> fd.

Definition watch_remove_fd (fd : Z) : M wstate unit :=
  _ ← modify (with_read (filter (not_fd fd)));
  modify (with_aio (filter (not_fd fd))).

Definition watch_remove_writeq (fd : Z) : M wstate unit :=
  modify (with_aio (filter (not_fd fd))).

Definition watch_add_quit (cb : watch_cb) : M wstate Z :=
  id ← new_watch;
  _ ← modify (with_quit (fun l => l ++ [Watch id 0 cb None None false None]));
  mret 0.

Definition watch_quit : M wstate unit :=
  modify (fun s => WState (ws_timers s) (ws_read s) (ws_aio s) (ws_quit s) true (ws_now s) (ws_fresh s)).

(** [watch_set_timer]: the interval, in milliseconds, after now. *)
Definition watch_set_timer (now : Z) (t : timer) : timer :=
  Timer (tm_cb t) (tm_interval t) (tm_repeat t)
    (now + (tm_interval t / 1000 * 1000000 + tm_interval t mod 1000 * 1000)).

Definition watch_add_timer (cb : timer_cb) (interval : Z) (repeat : bool) : M wstate Z :=
  _ ← calloc_or_die sizeof_timer;
  s ← get;
  _ ← modify (with_timers (fun l => l ++ [watch_set_timer (ws_now s) (Timer cb interval repeat 0)]));
  mret 0.

(** [watch_get_next_timer]: the loop keeps the first of the earliest. *)
Fixpoint next_timer_loop (i : nat) (sel : nat * Z) (l : list timer) : nat * Z :=
  match l with
  | [] => sel
  | t :: l => next_timer_loop (S i) (if tm_tick t <? sel.2 then (i, tm_tick t) else sel) l
  end.

Definition watch_get_next_timer (l : list timer) : option nat :=
  match l with
  | [] => None
  | t :: _ => Some (next_timer_loop 0 (0%nat, tm_tick t) l).1
  end.

(** [watch_free_timer] *)
Definition watch_free_timer (k : nat) : M wstate unit := modify (with_timers (delete k)).

(** ** Properties *)

Lemma calloc_or_die_ok {T} n h (s : T) : alloc_ok h -> calloc_or_die n h s = Done (tt, tick h, s).
Proof. intros Hh. unfold calloc_or_die, calloc. mrun. by destruct (Hh (h_calls h)) as [junk ->]. Qed.

Lemma next_timer_loop_spec i sel l :
  let r := next_timer_loop i sel l in
  r.2 <= sel.2 /\ (forall t, t ∈ l -> r.2 <= tm_tick t) /\
  ((r = sel /\ forall t, t ∈ l -> sel.2 <= tm_tick t) \/
   exists k t, l !! k = Some t /\ r = ((i + k)%nat, tm_tick t) /\ tm_tick t < sel.2 /\
     forall j t', (j < k)%nat -> l !! j = Some t' -> tm_tick t < tm_tick t').
Proof.
  revert i sel. induction l as [|t l IH]; intros i sel; cbn [next_timer_loop].
  - split; [lia|]. split; [by intros ? ?%elem_of_nil|]. left. split; [done|]. by intros ? ?%elem_of_nil.
  - destruct (Z.ltb_spec (tm_tick t) (sel.2)) as [Hlt|Hge].
    + destruct (IH (S i) (i, tm_tick t)) as (H1 & H2 & H3). cbn [snd] in *.
      split; [lia|]. split; [intros t' [->|H]%elem_of_cons; auto|]. right.
      destruct H3 as [[-> H3]|(k & t' & Hk & -> & Ht & Hj)].
      * exists 0%nat, t. rewrite Nat.add_0_r. split; [done|]. split; [done|]. split; [done|]. intros; lia.
      * exists (S k), t'. replace (i + S k)%nat with (S i + k)%nat by lia.
        split; [done|]. split; [done|]. split; [lia|].
        intros [|j] t'' Hjk; cbn [lookup list_lookup]; [intros [= <-]; done|].
        apply Hj. lia.
    + destruct (IH (S i) sel) as (H1 & H2 & H3).
      split; [done|]. split; [intros t' [->|H]%elem_of_cons; [lia|auto]|].
      destruct H3 as [[-> H3]|(k & t' & Hk & -> & Ht & Hj)].
      * left. split; [done|]. intros t' [->|H]%elem_of_cons; auto.
      * right. exists (S k), t'. replace (i + S k)%nat with (S i + k)%nat by lia.
        split; [done|]. split; [done|]. split; [lia|].
        intros [|j] t'' Hjk; cbn [lookup list_lookup]; [intros [= <-]; lia|].
        apply Hj. lia.
Qed.

(** [watch_get_next_timer] selects the timer that expires first, and among
    those that expire together the one registered first; it finds one exactly
    when a timer is registered. *)
Lemma watch_get_next_timer_earliest l :
  match watch_get_next_timer l with
  | None => l = []
  | Some k => exists t, l !! k = Some t /\
      (forall t', t' ∈ l -> tm_tick t <= tm_tick t') /\
      (forall j t', (j < k)%nat -> l !! j = Some t' -> tm_tick t < tm_tick t')
  end.
Proof.
  destruct l as [|t l]; [done|]. cbn [watch_get_next_timer].
  destruct (next_timer_loop_spec 0 (0%nat, tm_tick t) (t :: l)) as (_ & H2 & H3).
  destruct H3 as [[E H3]|(k & t' & Hk & E & _ & Hj)].
  - rewrite E. exists t. split; [done|]. split; [exact H3|]. cbn. intros; lia.
  - rewrite E in *. exists t'. split; [done|]. split; [exact H2|exact Hj].
Qed.

(** After [watch_remove_fd] no read watch and no asynchronous watch of the
    descriptor is left, and every watch of any other descriptor is kept, in
    order. *)
Lemma watch_remove_fd_removes fd h s :
  exists s', watch_remove_fd fd h s = Done (tt, h, s') /\
    (forall w, w ∈ ws_read s' <-> w ∈ ws_read s /\ wa_fd w <> fd) /\
    (forall w, w ∈ ws_aio s' <-> w ∈ ws_aio s /\ wa_fd w <> fd) /\
    (forall fd', fd' <> fd ->
      filter (fun w => wa_fd w = fd') (ws_read s') = filter (fun w => wa_fd w = fd') (ws_read s) /\
      filter (fun w => wa_fd w = fd') (ws_aio s') = filter (fun w => wa_fd w = fd') (ws_aio s)) /\
    ws_timers s' = ws_timers s /\ ws_quit s' = ws_quit s.
Proof.
  eexists. split; [done|]. cbn. split; [|split; [|split; [|done]]].
  - intros w. rewrite list_elem_of_filter. unfold not_fd. tauto.
  - intros w. rewrite list_elem_of_filter. unfold not_fd. tauto.
  - intros fd' Hne. rewrite !list_filter_filter.
    split; apply list_filter_iff; intros w; unfold not_fd; split; [tauto| |tauto|]; intros ->; done.
Qed.
