(* ===== verification/World.v ===== *)
(** * World: the data of [router/diag.h], [router/dm.c] and
    [router/diag_cntl.h], and the state of the whole program

    The global variables of the program, one record for each component.  A
    pointer to an object is the object's index; following an index that is not
    there is a use after free or a null dereference.  Each component's record
    is reached through a [Lens], so that an operation of one component run
    inside the program ([zoom]) changes that component only. *)

From S2P Require Import Prelude CircBuf Hdlc Masks Queue Watch.

Definition ENOENT : Z := 2.
Definition EMSGSIZE : Z := 90.
Definition ENETRESET : Z := 102.

Definition BIT (x : Z) : Z := Z.shiftl 1 x.
Definition DIAG_FEATURE_FEATURE_MASK_SUPPORT : Z := BIT 0.
Definition DIAG_FEATURE_DIAG_MASTER_SETS_COMMON_MASK : Z := BIT 1.
Definition DIAG_FEATURE_REQ_RSP_SUPPORT : Z := BIT 4.
Definition DIAG_FEATURE_APPS_HDLC_ENCODE : Z := BIT 6.
Definition DIAG_FEATURE_SOCKETS_ENABLED : Z := BIT 13.
Definition DIAG_FEATURE_DIAG_ID : Z := BIT 15.
Definition DIAG_FEATURE_DIAG_ID_FEATURE_MASK : Z := BIT 19.

Definition DIAG_CMD_SUBSYS_DISPATCH : Z := 75.
Definition DIAG_CMD_SUBSYS_DISPATCH_V2 : Z := 128.

(** ** Diagnostic monitors: [struct diag_client] of [router/dm.c]

    [recv_decoder] and [fd] are never used by the code and are left out. *)

Definition DIAG_ENCODE_RAW : Z := 1.
Definition DIAG_ENCODE_HDLC : Z := 2.
Definition DIAG_ENCODE_NHDLC : Z := 3.

Record diag_client := DiagClient {
  dm_name : string; dm_in_fd : Z; dm_out_fd : Z;
  dm_encode_type : Z; dm_encode_hdlc_reset : bool; dm_enabled : bool;
  dm_recv_buf : circ_buf }.

(** [diag_clients] in list order (clients are never removed, so a client's
    position is its identity), and the static [bad_cmd_counter] of
    [diag_start_hdlc_recovery]. *)
Record dmstate := DmState { dm_clients : list diag_client; dm_bad_cmd_counter : Z }.

(** ** Peripherals: [struct peripheral]

    The two implementations of its [send] and [close] pointers. *)

Inductive transport : Type := Rpmsg | Qrtr.

Record peripheral := Peripheral {
  pf_name : option string; pf_features : Z;
  pf_cntl_fd : Z; pf_cntl_open : bool; pf_data_fd : Z; pf_data_open : bool;
  pf_cmd_fd : Z; pf_dci_cmd_fd : Z;
  pf_flow : option nat; pf_diag_id : Z; pf_sockets : bool;
  pf_recv_buf : circ_buf; pf_recv_decoder : hdlc_decoder;
  pf_transport : transport }.

(** The live objects, the list [peripherals] and the next object. *)
Record pfstate := PfState { pf_objs : gmap nat peripheral; pf_list : list nat; pf_fresh : nat }.

(** ** Commands: [struct diag_cmd] and the handlers its [cb] points to *)

Inductive handler : Type :=
| HLoggingConfiguration | HExtendedMessageConfiguration
| HEventGetMask | HEventSetMask | HEventReportControl
| HDiagVersion | HDiagVersionNo | HExtendedBuildId
| HKeepAlive | HDiagId | HHdlcDisableCmd.

#[export] Instance handler_eq_dec : EqDecision handler.
Proof. solve_decision. Defined.

Record diag_cmd := DiagCmd {
  dc_first : Z; dc_last : Z; dc_peripheral : option nat; dc_cb : option handler }.

Record cmdstate := CmdState {
  diag_cmds : list diag_cmd; common_cmds : list diag_cmd; fallback_cmds : list diag_cmd }.

(** ** Diag ids: [struct diag_id_tbl_t]

    [di_info] is the object from [diagid_info] on: the id, the name's length,
    the name. *)
Record diag_id_tbl := DiagIdTbl { di_info_len : Z; di_info : bytes }.

(** [diag_ids] and the static [diag_id] of [diag_cntl_process_diag_id]. *)
Record idstate := IdState { diag_ids : list diag_id_tbl; id_last : Z }.

Definition DIAG_ID_APPS : Z := 1.

(** ** Devices

    [struct devnode] of [router/peripheral-rpmsg.c] and [struct usb_handle] of
    [router/usb.c]. *)

Record devnode := Devnode {
  dn_devnode : option string; dn_name : option string; dn_rproc : option string }.

Record usb_handle := UsbHandle { uh_ep0 : Z; uh_bulk_out : Z; uh_bulk_in : Z; uh_dm : nat }.

Record devstate := DevState { devnodes : list devnode; usb_handles : list usb_handle }.

(** ** The environment

    What the system answers: for each descriptor, what the coming reads
    return (an errno or a chunk of bytes; then [EAGAIN]); the results of the
    coming calls that return an integer ([open], [connect], [io_submit], ...;
    then -1); the senders of the coming datagrams; and the devices the udev
    monitor reports, each with what libudev says about it ([ud_parents] is the
    "rpmsg_name" attribute of its parents, the nearest first).  [e_aio] is what
    the kernel accepted of asynchronous I/O, in order: for which watch, on
    which descriptor, in which direction and with which contents of the
    buffer. *)

Record udev_device := UdevDevice {
  ud_action : option string; ud_devnode : option string; ud_name : option string;
  ud_parents : list (option string) }.

Record iocb := Iocb { io_obj : nat; io_fd : Z; io_write : bool; io_data : bytes }.

Record env := Env {
  e_fds : gmap Z (list (Z + bytes)); e_results : list Z; e_senders : list (Z * Z);
  e_udev : list udev_device; e_aio : list iocb }.

(** ** The program *)

Record world := World {
  w_masks : masks; w_queues : qstate; w_watches : wstate; w_dm : dmstate;
  w_pf : pfstate; w_cmds : cmdstate; w_ids : idstate; w_dev : devstate; w_env : env }.

#[local] Obligation Tactic :=
  intros; repeat match goal with w : world |- _ => destruct w end; cbn in *; by subst.

#[export] Program Instance masks_lens : Lens world masks := {|
  view := w_masks;
  over f w := World (f (w_masks w)) (w_queues w) (w_watches w) (w_dm w) (w_pf w) (w_cmds w) (w_ids w) (w_dev w) (w_env w) |}.
#[export] Program Instance queues_lens : Lens world qstate := {|
  view := w_queues;
  over f w := World (w_masks w) (f (w_queues w)) (w_watches w) (w_dm w) (w_pf w) (w_cmds w) (w_ids w) (w_dev w) (w_env w) |}.
#[export] Program Instance watches_lens : Lens world wstate := {|
  view := w_watches;
  over f w := World (w_masks w) (w_queues w) (f (w_watches w)) (w_dm w) (w_pf w) (w_cmds w) (w_ids w) (w_dev w) (w_env w) |}.
#[export] Program Instance dm_lens : Lens world dmstate := {|
  view := w_dm;
  over f w := World (w_masks w) (w_queues w) (w_watches w) (f (w_dm w)) (w_pf w) (w_cmds w) (w_ids w) (w_dev w) (w_env w) |}.
#[export] Program Instance pf_lens : Lens world pfstate := {|
  view := w_pf;
  over f w := World (w_masks w) (w_queues w) (w_watches w) (w_dm w) (f (w_pf w)) (w_cmds w) (w_ids w) (w_dev w) (w_env w) |}.
#[export] Program Instance cmds_lens : Lens world cmdstate := {|
  view := w_cmds;
  over f w := World (w_masks w) (w_queues w) (w_watches w) (w_dm w) (w_pf w) (f (w_cmds w)) (w_ids w) (w_dev w) (w_env w) |}.
#[export] Program Instance ids_lens : Lens world idstate := {|
  view := w_ids;
  over f w := World (w_masks w) (w_queues w) (w_watches w) (w_dm w) (w_pf w) (w_cmds w) (f (w_ids w)) (w_dev w) (w_env w) |}.
#[export] Program Instance dev_lens : Lens world devstate := {|
  view := w_dev;
  over f w := World (w_masks w) (w_queues w) (w_watches w) (w_dm w) (w_pf w) (w_cmds w) (w_ids w) (f (w_dev w)) (w_env w) |}.
#[export] Program Instance env_lens : Lens world env := {|
  view := w_env;
  over f w := World (w_masks w) (w_queues w) (w_watches w) (w_dm w) (w_pf w) (w_cmds w) (w_ids w) (w_dev w) (f (w_env w)) |}.

(** The static storage at the start. *)
Definition world_zero : world :=
  World masks_zero (QState ∅ []) (WState [] [] [] [] false 0 0) (DmState [] 0) (PfState ∅ [] 0)
    (CmdState [] [] []) (IdState [] DIAG_ID_APPS) (DevState [] []) (Env ∅ [] [] [] []).

(** [read(2)] *)
Definition env_read (fd n : Z) : M env (Z + bytes) := fun h e =>
  let '(r, f) := fd_read (default [] (e_fds e !! fd)) n in
  Done (r, h, Env (<[fd := f]> (e_fds e)) (e_results e) (e_senders e) (e_udev e) (e_aio e)).

Definition sys_read (fd n : Z) : M world (Z + bytes) := zoom (env_read fd n).

(** A call that returns an integer. *)
Definition env_call : M env Z := fun h e =>
  match e_results e with
  | [] => Done (-1, h, e)
  | r :: rs => Done (r, h, Env (e_fds e) rs (e_senders e) (e_udev e) (e_aio e))
  end.

Definition sys_call : M world Z := zoom env_call.

(** [recvfrom(2)]: the data and its sender. *)
Definition env_sender : M env (Z * Z) := fun h e =>
  match e_senders e with
  | [] => Done ((0, 0), h, e)
  | a :: l => Done (a, h, Env (e_fds e) (e_results e) l (e_udev e) (e_aio e))
  end.

Definition sys_recvfrom (fd n : Z) : M world ((Z + bytes) * (Z * Z)) :=
  r ← sys_read fd n; a ← zoom env_sender; mret (r, a).

(** [udev_monitor_receive_device] *)
Definition env_device : M env (option udev_device) := fun h e =>
  match e_udev e with
  | [] => Done (None, h, e)
  | d :: l => Done (Some d, h, Env (e_fds e) (e_results e) (e_senders e) l (e_aio e))
  end.

(** [strdup]: the copy, or null. *)
Definition strdup {S} (s : string) : M S (option string) :=
  p ← malloc (Z.of_nat (String.length s) + 1);
  match p with None => mret None | Some _ => mret (Some s) end.

(** Following a client or peripheral pointer, and writing back. *)
Definition get_client (c : nat) : M world diag_client :=
  w ← get; deref (dm_clients (w_dm w) !! c).

Definition upd_client (c : nat) (f : diag_client -> diag_client) : M world unit :=
  modify (over (fun s => DmState (alter f c (dm_clients s)) (dm_bad_cmd_counter s))).

Definition get_perif (p : nat) : M world peripheral :=
  w ← get; deref (pf_objs (w_pf w) !! p).

Definition upd_perif (p : nat) (f : peripheral -> peripheral) : M world unit :=
  modify (over (fun s => PfState (alter f p (pf_objs s)) (pf_list s) (pf_fresh s))).

(** Looping over a list, stopping at nothing. *)
Fixpoint for_each {S A} (f : A -> M S unit) (l : list A) : M S unit :=
  match l with
  | [] => mret tt
  | a :: l => _ ← f a; for_each f l
  end.

(** ** Lemmas *)

Lemma for_each_app {S A} (f : A -> M S unit) l k h (s : S) :
  for_each f (l ++ k) h s = (_ ← for_each f l; for_each f k) h s.
Proof.
  revert h s. induction l as [|a l IH]; intros h s; [done|]. cbn. mrun.
  destruct (f a h s) as [[[[] h1] s1]| | |]; [|done..]. rewrite IH. done.
Qed.

(** Rule of the invariant: what every round keeps, the loop keeps. *)
Lemma for_each_inv {S A} (P : heap -> S -> Prop) (f : A -> M S unit) l h s :
  (forall a h s, a ∈ l -> P h s -> exists h' s', f a h s = Done (tt, h', s') /\ P h' s') ->
  P h s -> exists h' s', for_each f l h s = Done (tt, h', s') /\ P h' s'.
Proof.
  revert h s. induction l as [|a l IH]; intros h s Hf Hs; [by do 2 eexists|].
  destruct (Hf a h s ltac:(apply list_elem_of_here) Hs) as (h1 & s1 & E & Hs1).
  destruct (IH h1 s1) as (h2 & s2 & E2 & Hs2); [|done|].
  { intros b h' s' Hb. apply Hf. by apply list_elem_of_further. }
  exists h2, s2. cbn. mrun. by rewrite E, E2.
Qed.

Definition with_queues (q : qstate) (w : world) : world := over (fun _ => q) w.

Lemma zoom_push q msg len h (w : world) :
  alloc_ok h -> 0 <= len <= zlen msg -> len < 2 ^ 63 ->
  zoom (queue_push q msg len) h w =
    Done (tt, tick h, with_queues (enqueue q None (slice msg 0 len) (w_queues w)) w).
Proof.
  intros. erewrite zoom_done; [done|]. apply queue_push_flow_ok; (done || lia).
Qed.

Lemma payloads_enqueue q flow d s q' :
  payloads (enqueue q flow d s) q' = payloads s q' ++ (if decide (q = q') then [d] else []).
Proof.
  unfold payloads. rewrite queue_of_enqueue. case_decide; [subst; by rewrite fmap_app|by rewrite app_nil_r].
Qed.

Lemma get_perif_ok p perif h w :
  pf_objs (w_pf w) !! p = Some perif -> get_perif p h w = Done (perif, h, w).
Proof. intros E. unfold get_perif. mrun. by rewrite E. Qed.

Lemma get_client_ok c dm h w :
  dm_clients (w_dm w) !! c = Some dm -> get_client c h w = Done (dm, h, w).
Proof. intros E. unfold get_client. mrun. by rewrite E. Qed.

(** ** Termination of the shared operations *)

Lemma terminates_deref {S A} (p : option A) : terminates (deref p : M S A).
Proof. by destruct p. Qed.
Lemma terminates_memset {S} p b n : terminates (@memset S p b n).
Proof. unfold memset. term. apply terminates_deref. Qed.
Lemma terminates_memcpy {S} p off src n : terminates (@memcpy S p off src n).
Proof. unfold memcpy. term. apply terminates_deref. Qed.
#[export] Hint Resolve @terminates_deref @terminates_memset @terminates_memcpy : term.

Lemma terminates_for_each {S A} (f : A -> M S unit) l : (forall a, terminates (f a)) -> terminates (for_each f l).
Proof. intros Hf. induction l as [|a l IH]; cbn [for_each]; term. Qed.

Lemma terminates_get_perif p : terminates (get_perif p).
Proof. unfold get_perif. term. Qed.
Lemma terminates_get_client c : terminates (get_client c).
Proof. unfold get_client. term. Qed.
Lemma terminates_upd_perif p f : terminates (upd_perif p f).
Proof. done. Qed.
Lemma terminates_upd_client c f : terminates (upd_client c f).
Proof. done. Qed.
#[export] Hint Resolve terminates_for_each terminates_get_perif terminates_get_client
  terminates_upd_perif terminates_upd_client : term.

Lemma terminates_mb_write b off src : mb_write b off src <> Spin.
Proof. unfold mb_write, mem_write. by case_match. Qed.
#[export] Hint Resolve terminates_mb_write : term.

Lemma terminates_flow_inc flow : terminates (watch_flow_inc flow).
Proof. unfold watch_flow_inc, flow_upd. term. Qed.
#[export] Hint Resolve terminates_flow_inc : term.

Lemma terminates_push q msg len flow : terminates (queue_push_flow q msg len flow).
Proof. unfold queue_push_flow, mbuf_alloc, list_add_tail. term. Qed.
Lemma terminates_push_nhdlc q msg len flow : terminates (queue_push_nhdlc_flow q msg len flow).
Proof. unfold queue_push_nhdlc_flow, mbuf_alloc, list_add_tail. term. Qed.
#[export] Hint Resolve terminates_push terminates_push_nhdlc : term.
Lemma terminates_hdlc_enqueue q msg len flow : terminates (hdlc_enqueue_flow q msg len flow).
Proof. unfold hdlc_enqueue_flow, hdlc_encode. term. Qed.
#[export] Hint Resolve terminates_hdlc_enqueue : term.

Lemma terminates_masks_ops :
  (forall e, terminates (diag_cmd_get_log_mask e)) /\ (forall r, terminates (diag_cmd_get_msg_mask r)) /\
  (forall n, terminates (diag_cmd_get_event_mask n)).
Proof.
  unfold diag_cmd_get_log_mask, diag_cmd_get_msg_mask, diag_cmd_get_event_mask.
  split; [|split]; term.
Qed.
#[export] Hint Extern 1 (terminates (diag_cmd_get_log_mask _)) => apply (proj1 terminates_masks_ops) : term.
#[export] Hint Extern 1 (terminates (diag_cmd_get_msg_mask _)) => apply (proj1 (proj2 terminates_masks_ops)) : term.
#[export] Hint Extern 1 (terminates (diag_cmd_get_event_mask _)) => apply (proj2 (proj2 terminates_masks_ops)) : term.
