(* ===== verification/Dm.v ===== *)
(** * Dm: diagnostic monitors, the sending side of [router/dm.c]

    Adding a client, sending to one and to all, enabling, the encoding in use
    and the recovery to HDLC.  The receiving side dispatches commands and is in
    [DmRecv]. *)

From S2P Require Import Prelude CircBuf Hdlc Masks Queue Watch World.

(** ** Operations *)

Definition sizeof_diag_client : Z := 32864.

(** The result is the client: its position in [diag_clients]. *)
Definition dm_add (name : string) (in_fd out_fd : Z) (is_encoded : bool) : M world nat :=
  _ ← calloc_or_die sizeof_diag_client;
  _ ← malloc (Z.of_nat (String.length name) + 1);    (* [strdup] *)
  w ← get;
  let c := length (dm_clients (w_dm w)) in
  _ ← zoom (modify (set_queue (QClient c) []));
  _ ← (if 0 <=? in_fd then zoom (watch_add_readfd in_fd (CbDmRecv c) None) else mret 0);
  _ ← zoom (watch_add_writeq out_fd (QClient c));
  let dm := DiagClient name in_fd out_fd (if is_encoded then DIAG_ENCODE_HDLC else DIAG_ENCODE_RAW)
              false false circ_zero in
  _ ← modify (over (fun s => DmState (dm_clients s ++ [dm]) (dm_bad_cmd_counter s)));
  mret c.

Definition dm_send_flow (c : nat) (msg : bytes) (len : Z) (flow : option nat) : M world Z :=
  dm ← get_client c;
  if negb (dm_enabled dm) then mret 0 else
  let t := dm_encode_type dm in
  if t =? DIAG_ENCODE_RAW then
    _ ← zoom (queue_push_flow (QClient c) msg len flow); mret 0
  else if t =? DIAG_ENCODE_HDLC then
    _ ← zoom (hdlc_enqueue_flow (QClient c) msg len flow); mret 0
  else if t =? DIAG_ENCODE_NHDLC then
    _ ← zoom (queue_push_nhdlc_flow (QClient c) msg len flow); mret 0
  else mret (- EINVAL).

Definition dm_send (c : nat) (msg : bytes) (len : Z) : M world Z := dm_send_flow c msg len None.

Definition dm_broadcast (msg : bytes) (len : Z) (flow : option nat) : M world unit :=
  w ← get;
  for_each (fun c => _ ← dm_send_flow c msg len flow; mret tt)
    (seq 0 (length (dm_clients (w_dm w)))).

Definition dm_with_enabled (b : bool) (dm : diag_client) : diag_client :=
  DiagClient (dm_name dm) (dm_in_fd dm) (dm_out_fd dm) (dm_encode_type dm) (dm_encode_hdlc_reset dm)
    b (dm_recv_buf dm).
Definition dm_with_type (t : Z) (dm : diag_client) : diag_client :=
  DiagClient (dm_name dm) (dm_in_fd dm) (dm_out_fd dm) t (dm_encode_hdlc_reset dm)
    (dm_enabled dm) (dm_recv_buf dm).
Definition dm_with_reset (b : bool) (dm : diag_client) : diag_client :=
  DiagClient (dm_name dm) (dm_in_fd dm) (dm_out_fd dm) (dm_encode_type dm) b
    (dm_enabled dm) (dm_recv_buf dm).
Definition dm_with_buf (b : circ_buf) (dm : diag_client) : diag_client :=
  DiagClient (dm_name dm) (dm_in_fd dm) (dm_out_fd dm) (dm_encode_type dm) (dm_encode_hdlc_reset dm)
    (dm_enabled dm) b.

Definition dm_enable (c : nat) : M world unit := _ ← get_client c; upd_client c (dm_with_enabled true).
Definition dm_disable (c : nat) : M world unit := _ ← get_client c; upd_client c (dm_with_enabled false).

(** [set_encode_type]: every client that is not raw. *)
Definition retype (t : Z) (dm : diag_client) : diag_client :=
  if dm_encode_type dm =? DIAG_ENCODE_RAW then dm else dm_with_type t dm.

Definition set_encode_type (t : Z) : M world unit :=
  modify (over (fun s => DmState (retype t <$> dm_clients s) (dm_bad_cmd_counter s))).

(** The timer's callback. *)
Definition diag_hdlc_reset (c : nat) : M world unit :=
  _ ← set_encode_type DIAG_ENCODE_HDLC;
  _ ← get_client c;
  upd_client c (dm_with_reset false).

Definition DIAG_MAX_BAD_CMD : Z := 5.

Definition set_bad_cmd_counter (n : Z) : M world unit :=
  modify (over (fun s => DmState (dm_clients s) n)).

Definition diag_start_hdlc_recovery (c : nat) : M world Z :=
  dm ← get_client c;
  _ ← (if negb (dm_encode_hdlc_reset dm) then
         _ ← zoom (watch_add_timer (TmHdlcReset c) 200 false);
         upd_client c (dm_with_reset true)
       else mret tt);
  w ← get;
  let n := u32 (dm_bad_cmd_counter (w_dm w) + 1) in
  _ ← set_bad_cmd_counter n;
  _ ← (if DIAG_MAX_BAD_CMD <? n then
         _ ← set_bad_cmd_counter 0;
         upd_client c (dm_with_type DIAG_ENCODE_HDLC)
       else mret tt);
  mret 0.

(** ** Delivery

    The specification: a message reaches an enabled client as one packet in
    the client's encoding. *)

Definition encoded (t : Z) (msg : bytes) : bytes :=
  if t =? DIAG_ENCODE_HDLC then hdlc_frame msg
  else if t =? DIAG_ENCODE_NHDLC then nhdlc_frame msg else msg.

Definition type_ok (t : Z) : Prop :=
  t = DIAG_ENCODE_RAW \/ t = DIAG_ENCODE_HDLC \/ t = DIAG_ENCODE_NHDLC.

Definition client_ok (dm : diag_client) : Prop := type_ok (dm_encode_type dm).

(** What the program may do to a client once it is there: its name and its
    descriptors stay, and its encoding stays one of the three. *)
Definition dm_alike (dm dm' : diag_client) : Prop :=
  dm_name dm' = dm_name dm /\ dm_in_fd dm' = dm_in_fd dm /\ dm_out_fd dm' = dm_out_fd dm /\
  (client_ok dm -> client_ok dm').

Definition keeps_clients (f : dmstate -> dmstate) : Prop :=
  forall s, Forall2 dm_alike (dm_clients s) (dm_clients (f s)).

#[export] Instance dm_alike_preorder : PreOrder dm_alike.
Proof. split; [by intros ?|]. intros x y z (?&?&?&?) (?&?&?&?). split_and!; [congruence..|auto]. Qed.

Lemma keeps_clients_length f s : keeps_clients f -> length (dm_clients (f s)) = length (dm_clients s).
Proof. intros Hf. symmetry. apply (Forall2_length _ _ _ (Hf s)). Qed.

Definition deliver (dms : list diag_client) (flow : option nat) (msg : bytes) (s : qstate) (c : nat) : qstate :=
  match dms !! c with
  | Some dm => if dm_enabled dm then enqueue (QClient c) flow (encoded (dm_encode_type dm) msg) s else s
  | None => s
  end.

Lemma dm_send_flow_ok c dm msg len flow h w :
  dm_clients (w_dm w) !! c = Some dm -> client_ok dm -> flow_ok flow (w_queues w) ->
  alloc_ok h -> bytes_ok (slice msg 0 len) -> 0 <= len <= zlen msg -> len < 2 ^ 61 ->
  exists k, dm_send_flow c msg len flow h w =
    Done (0, steps k h, with_queues (deliver (dm_clients (w_dm w)) flow (slice msg 0 len) (w_queues w) c) w).
Proof.
  intros Hc Ht Hf Hh Hok Hl Hlen. unfold dm_send_flow, get_client, deliver. mrun. rewrite Hc. cbn [deref]. mrun.
  destruct (dm_enabled dm); cbn [negb].
  2:{ exists 0%nat. unfold steps. destruct h, w. done. }
  unfold encoded. destruct Ht as [->|[->| ->]]; cbn.
  - exists 1%nat. erewrite zoom_done by (apply queue_push_flow_ok; (done || lia)). done.
  - exists 2%nat. erewrite zoom_done by (by apply hdlc_enqueue_flow_ok). done.
  - exists 1%nat. erewrite zoom_done by (apply nhdlc_push_ok; (done || lia)). done.
Qed.

Lemma flow_ok_deliver dms flow flow' msg s c : flow_ok flow' s -> flow_ok flow' (deliver dms flow msg s c).
Proof. intros. unfold deliver. repeat case_match; auto using flow_ok_enqueue. Qed.

Lemma dm_broadcast_loop cs msg len flow h w :
  (forall c, c ∈ cs -> exists dm, dm_clients (w_dm w) !! c = Some dm /\ client_ok dm) ->
  flow_ok flow (w_queues w) ->
  alloc_ok h -> bytes_ok (slice msg 0 len) -> 0 <= len <= zlen msg -> len < 2 ^ 61 ->
  exists k, for_each (fun c => _ ← dm_send_flow c msg len flow; mret tt) cs h w =
    Done (tt, steps k h,
      with_queues (foldl (deliver (dm_clients (w_dm w)) flow (slice msg 0 len)) (w_queues w) cs) w).
Proof.
  revert h w. induction cs as [|c cs IH]; intros h w Hcs Hf Hh Hok Hl Hlen.
  { exists 0%nat. unfold steps. destruct h, w. done. }
  destruct (Hcs c ltac:(apply list_elem_of_here)) as (dm & Hc & Ht).
  destruct (dm_send_flow_ok c dm msg len flow h w) as [k E]; try done.
  set (w' := with_queues _ w) in E.
  destruct (IH (steps k h) w') as [k' E']; try done.
  { intros c' Hc'. apply Hcs. by apply list_elem_of_further. }
  { subst w'. cbn. by apply flow_ok_deliver. }
  exists (k' + k)%nat. cbn [for_each].
  erewrite bind_done by (erewrite bind_done by exact E; reflexivity). rewrite E'. cbn [foldl].
  unfold steps. cbn. rewrite Nat.add_assoc. done.
Qed.

Lemma dm_broadcast_ok msg len flow h w :
  (forall c dm, dm_clients (w_dm w) !! c = Some dm -> client_ok dm) ->
  flow_ok flow (w_queues w) ->
  alloc_ok h -> bytes_ok (slice msg 0 len) -> 0 <= len <= zlen msg -> len < 2 ^ 61 ->
  exists k, dm_broadcast msg len flow h w =
    Done (tt, steps k h,
      with_queues (foldl (deliver (dm_clients (w_dm w)) flow (slice msg 0 len)) (w_queues w)
                     (seq 0 (length (dm_clients (w_dm w))))) w).
Proof.
  intros Hw Hf Hh Hok Hl Hlen. unfold dm_broadcast. mrun. apply dm_broadcast_loop; try done.
  intros c Hc%elem_of_seq. destruct (lookup_lt_is_Some_2 (dm_clients (w_dm w)) c) as [dm E]; [lia|].
  exists dm. split; [done|]. by eapply Hw.
Qed.

Lemma payloads_deliver dms flow msg s c q :
  payloads (deliver dms flow msg s c) q =
  payloads s q ++ (if decide (q = QClient c) then
                     match dms !! c with
                     | Some dm => if dm_enabled dm then [encoded (dm_encode_type dm) msg] else []
                     | None => []
                     end else []).
Proof.
  unfold deliver, payloads. destruct (dms !! c) as [dm|]; [destruct (dm_enabled dm)|].
  - rewrite queue_of_enqueue. destruct (decide (QClient c = q)) as [<-|].
    + rewrite decide_True by done. by rewrite fmap_app.
    + rewrite decide_False by congruence. by rewrite app_nil_r.
  - case_decide; by rewrite app_nil_r.
  - case_decide; by rewrite app_nil_r.
Qed.

Lemma flow_ok_deliver_all dms flow flow' msg s l :
  flow_ok flow' s -> flow_ok flow' (foldl (deliver dms flow msg) s l).
Proof. revert s. induction l as [|c l IH]; intros s Hs; [done|]. apply IH. by apply flow_ok_deliver. Qed.

Lemma payloads_deliver_all dms flow msg n s q :
  payloads (foldl (deliver dms flow msg) s (seq 0 n)) q =
  payloads s q ++ match q with
                  | QClient c => if decide (c < n)%nat then
                      match dms !! c with
                      | Some dm => if dm_enabled dm then [encoded (dm_encode_type dm) msg] else []
                      | None => []
                      end else []
                  | _ => []
                  end.
Proof.
  induction n as [|n IH].
  { destruct q; by rewrite app_nil_r. }
  rewrite seq_S, foldl_app. cbn [foldl Nat.add]. rewrite payloads_deliver, IH, <- app_assoc. f_equal.
  destruct q as [c|c|c|c|c]; try (by rewrite decide_False by done).
  destruct (decide (c = n)) as [->|].
  - rewrite decide_False by lia. rewrite !decide_True by (done || lia). done.
  - rewrite (decide_False (P := QClient c = _)) by (intros [=]; lia). rewrite app_nil_r.
    destruct (decide (c < n)%nat), (decide (c < S n)%nat); try lia; done.
Qed.

(** ** The interface of a framing

    What the clients rely on: the message can be recovered from its frame.
    The three encodings implement it. *)

Class Framing (enc : bytes -> bytes) := {
  fr_fits : bytes -> Prop;
  fr_decode : bytes -> option bytes;
  fr_law msg : bytes_ok msg -> fr_fits msg -> fr_decode (enc msg) = Some msg }.

#[export] Program Instance raw_framing : Framing (fun msg => msg) :=
  {| fr_fits _ := True; fr_decode p := Some p |}.
Next Obligation. done. Qed.

(** A HDLC receiver: one frame and nothing behind it, whose frame check leaves
    the residue of CRC-CCITT-16. *)
Definition hdlc_receive (p : bytes) : option bytes :=
  match hdlc_scan [] 0 p with
  | Frame acc _ [] =>
      if crc_of 0xffff acc =? 0xf0b8 then Some (take (length acc - 2) acc) else None
  | _ => None
  end.

Lemma hdlc_receive_frame msg : bytes_ok msg -> hdlc_receive (hdlc_frame msg) = Some msg.
Proof.
  intros Hok. unfold hdlc_receive. pose proof (scan_frame msg [] Hok) as E. rewrite app_nil_r in E.
  rewrite E, frame_residue. cbn match. f_equal.
  rewrite length_app. change (length (hdlc_fcs_of msg)) with 2%nat.
  replace (length msg + 2 - 2)%nat with (length msg) by lia. apply take_app_length.
Qed.

#[export] Program Instance hdlc_framing : Framing hdlc_frame :=
  {| fr_fits _ := True; fr_decode := hdlc_receive |}.
Next Obligation. intros. by apply hdlc_receive_frame. Qed.

(** A non-HDLC receiver: the check of [diag_cmd_recv] on the packet. *)
Definition nhdlc_receive (p : bytes) : option bytes :=
  match non_hdlc_check p (zlen p) with
  | Done (Some len) => Some (slice p sizeof_pkt_frame len)
  | _ => None
  end.

#[export] Program Instance nhdlc_framing : Framing nhdlc_frame :=
  {| fr_fits msg := zlen msg < 2 ^ 16; fr_decode := nhdlc_receive |}.
Next Obligation.
  intros msg _ Hm. unfold nhdlc_receive. rewrite zlen_nhdlc_frame. pose proof (zlen_nonneg msg).
  destruct (nhdlc_frame_checks msg [] (zlen msg + 5)) as [E1 E2]; [done|cbn in Hm; lia|].
  rewrite app_nil_r in *. rewrite E2, zlen_nhdlc_frame. destruct (Z.leb_spec (zlen msg + 5) (zlen msg + 5)); [|lia].
  by rewrite E1.
Qed.

(** The receiver of a client, by the client's encoding. *)
Definition receive (t : Z) : bytes -> option bytes :=
  if t =? DIAG_ENCODE_HDLC then fr_decode (enc := hdlc_frame)
  else if t =? DIAG_ENCODE_NHDLC then fr_decode (enc := nhdlc_frame)
  else fr_decode (enc := fun msg => msg).

Lemma receive_encoded t msg : bytes_ok msg -> zlen msg < 2 ^ 16 -> receive t (encoded t msg) = Some msg.
Proof. intros. unfold receive, encoded. repeat case_match; [by apply (fr_law (enc := hdlc_frame))|by apply (fr_law (enc := nhdlc_frame))|done]. Qed.

(** ** Properties *)

(** C24 [dm_broadcast] hands the message to every enabled client: its queue
    grows by exactly one packet, from which a receiver of the client's
    encoding recovers the message; a disabled client and every queue of the
    peripherals are left alone, and so is every other component. *)
Theorem dm_broadcast_delivers msg len flow h w :
  (forall c dm, dm_clients (w_dm w) !! c = Some dm -> client_ok dm) ->
  flow_ok flow (w_queues w) ->
  alloc_ok h -> bytes_ok msg -> 0 <= len <= zlen msg -> len < 2 ^ 16 ->
  exists k q, dm_broadcast msg len flow h w = Done (tt, steps k h, with_queues q w) /\
    (forall c dm, dm_clients (w_dm w) !! c = Some dm ->
      if dm_enabled dm then
        exists p, payloads q (QClient c) = payloads (w_queues w) (QClient c) ++ [p] /\
          receive (dm_encode_type dm) p = Some (slice msg 0 len)
      else payloads q (QClient c) = payloads (w_queues w) (QClient c)) /\
    (forall r, (forall c, r <> QClient c) -> payloads q r = payloads (w_queues w) r).
Proof.
  intros Hw Hf Hh Hok Hl Hlen.
  destruct (dm_broadcast_ok msg len flow h w Hw Hf Hh ltac:(auto with diag) Hl ltac:(lia)) as [k E].
  exists k. eexists. split; [exact E|]. split.
  - intros c dm Hc. rewrite payloads_deliver_all, Hc.
    rewrite decide_True by (by eapply lookup_lt_Some).
    destruct (dm_enabled dm); [|by rewrite app_nil_r]. eexists. split; [done|].
    apply receive_encoded; [auto with diag|]. rewrite zlen_slice; lia.
  - intros r Hr. rewrite payloads_deliver_all. destruct r; try (by rewrite app_nil_r). by destruct (Hr client).
Qed.

(** One failure of the receiver. *)
Lemma hdlc_recovery_step c dm h w :
  alloc_ok h -> dm_clients (w_dm w) !! c = Some dm -> 0 <= dm_bad_cmd_counter (w_dm w) <= 5 ->
  let n := dm_bad_cmd_counter (w_dm w) in
  exists h' w', diag_start_hdlc_recovery c h w = Done (0, h', w') /\ alloc_ok h' /\
    dm_bad_cmd_counter (w_dm w') = (n + 1) mod 6 /\
    dm_clients (w_dm w') !! c =
      Some (dm_with_reset true (if n =? 5 then dm_with_type DIAG_ENCODE_HDLC dm else dm)) /\
    (forall c', c' <> c -> dm_clients (w_dm w') !! c' = dm_clients (w_dm w) !! c') /\
    ws_timers (w_watches w') = ws_timers (w_watches w) ++
      (if dm_encode_hdlc_reset dm then []
       else [Timer (TmHdlcReset c) 200 false (ws_now (w_watches w) + 200000)]).
Proof.
  intros Hh Hc Hn n. unfold diag_start_hdlc_recovery.
  erewrite bind_done by (by apply get_client_ok).
  assert (exists h1 w1, (if negb (dm_encode_hdlc_reset dm) then
         _ ← zoom (watch_add_timer (TmHdlcReset c) 200 false);
         upd_client c (dm_with_reset true)
       else mret tt) h w = Done (tt, h1, w1) /\ alloc_ok h1 /\
       dm_bad_cmd_counter (w_dm w1) = n /\
       dm_clients (w_dm w1) = alter (dm_with_reset true) c (dm_clients (w_dm w)) /\
       ws_timers (w_watches w1) = ws_timers (w_watches w) ++
      (if dm_encode_hdlc_reset dm then []
       else [Timer (TmHdlcReset c) 200 false (ws_now (w_watches w) + 200000)]))
    as (h1 & w1 & E1 & Hh1 & Hn1 & Hc1 & Ht1).
  { destruct (dm_encode_hdlc_reset dm) eqn:Er; cbn [negb].
    - exists h, w. rewrite app_nil_r. split; [done|]. split; [done|]. split; [done|]. split; [|done].
      apply list_eq. intros i. destruct (decide (i = c)) as [->|].
      + rewrite list_lookup_alter_eq, Hc. cbn. f_equal. unfold dm_with_reset. rewrite <- Er. by destruct dm.
      + by rewrite list_lookup_alter_ne.
    - destruct (Hh (h_calls h)) as [junk Ej].
      unfold watch_add_timer, calloc_or_die, zoom, upd_client. mrun. unfold calloc. rewrite Ej. cbn.
      do 2 eexists. split; [done|]. cbn. done. }
  erewrite bind_done by exact E1. unfold set_bad_cmd_counter, upd_client. mrun. rewrite Hn1, u32_id by lia. unfold DIAG_MAX_BAD_CMD.
  destruct (Z.ltb_spec 5 (n + 1)).
  - do 2 eexists. split; [done|]. split; [done|]. cbn. rewrite Hc1.
    replace n with 5 by lia. split; [done|]. split; [|split; [|done]].
    + rewrite !list_lookup_alter_eq, Hc. done.
    + intros c' Hne. by rewrite !list_lookup_alter_ne by done.
  - do 2 eexists. split; [done|]. split; [done|]. cbn. rewrite Hc1.
    destruct (Z.eqb_spec n 5); [lia|]. split; [by rewrite Z.mod_small by lia|]. split; [|split; [|done]].
    + rewrite list_lookup_alter_eq, Hc. done.
    + intros c' Hne. by rewrite list_lookup_alter_ne by done.
Qed.

(** The recovery counts failed packets of the clients: the [k]-th failure
    after a reset changes nothing but the counter while [k <= 5], the sixth
    puts the client back on HDLC and restarts the count, and a recovery timer
    of 200 ms is started once, by the first failure. *)
Lemma diag_start_hdlc_recovery_counts k c dm h w :
  alloc_ok h -> dm_clients (w_dm w) !! c = Some dm -> 0 <= dm_bad_cmd_counter (w_dm w) <= 5 ->
  let n := dm_bad_cmd_counter (w_dm w) in
  exists h' w', for_each (fun _ => _ ← diag_start_hdlc_recovery c; mret tt) (seq 0 (S k)) h w =
      Done (tt, h', w') /\ alloc_ok h' /\
    dm_bad_cmd_counter (w_dm w') = (n + Z.of_nat (S k)) mod 6 /\
    dm_clients (w_dm w') !! c =
      Some (dm_with_reset true
        (if 6 <=? n + Z.of_nat (S k) then dm_with_type DIAG_ENCODE_HDLC dm else dm)) /\
    (forall c', c' <> c -> dm_clients (w_dm w') !! c' = dm_clients (w_dm w) !! c') /\
    ws_timers (w_watches w') = ws_timers (w_watches w) ++
      (if dm_encode_hdlc_reset dm then []
       else [Timer (TmHdlcReset c) 200 false (ws_now (w_watches w) + 200000)]).
Proof.
  intros Hh Hc Hn n. induction k as [|k IH].
  - destruct (hdlc_recovery_step c dm h w Hh Hc Hn) as (h' & w' & E & H1 & H2 & H3 & H4).
    exists h', w'. cbn [seq for_each]. split; [mrun; by rewrite E|]. split; [done|]. split; [done|].
    split; [|done]. rewrite H3. fold n.
    destruct (Z.eqb_spec n 5), (Z.leb_spec 6 (n + Z.of_nat 1)); try lia; done.
  - destruct IH as (h1 & w1 & E1 & Hh1 & Hn1 & Hc1 & Hr1 & Ht1).
    pose proof (Z.mod_pos_bound (n + Z.of_nat (S k)) 6 ltac:(lia)) as Hb.
    destruct (hdlc_recovery_step c _ h1 w1 Hh1 Hc1 ltac:(lia)) as (h' & w' & E & H1 & H2 & H3 & H4 & H5).
    exists h', w'. rewrite seq_S, for_each_app. erewrite bind_done by exact E1.
    split; [cbn [for_each]; mrun; by rewrite E|]. split; [done|]. split; [|split; [|split]].
    + rewrite H2, Hn1. rewrite Zplus_mod_idemp_l. f_equal. lia.
    + rewrite H3, Hn1.
      destruct (Z.eqb_spec ((n + Z.of_nat (S k)) mod 6) 5), (Z.leb_spec 6 (n + Z.of_nat (S (S k)))),
        (Z.leb_spec 6 (n + Z.of_nat (S k))); try lia; try done.
      * rewrite Z.mod_small in * by lia. lia.
      * rewrite Z.mod_small in * by lia. lia.
    + intros c' Hne. rewrite H4, Hr1; done.
    + rewrite H5, Ht1. cbn. by rewrite app_nil_r.
Qed.
