(* ===== verification/Cntl.v ===== *)
(** * Cntl: the control channel, [router/diag_cntl.c] and [router/diag_cntl.h]

    Control packets from a peripheral: registration of commands, features,
    diag ids; and the control packets the router sends.  A received packet is
    given as the object that holds it ([buf]) and the number of bytes received
    ([n]): a field read behind the received bytes but inside the object is
    stale data, one outside is undefined. *)

From S2P Require Import Prelude Util CircBuf Hdlc Masks Queue Watch World.

Definition DIAG_CNTL_CMD_REGISTER : Z := 1.
Definition DIAG_CNTL_CMD_DIAG_MODE : Z := 3.
Definition DIAG_CNTL_CMD_FEATURE_MASK : Z := 8.
Definition DIAG_CNTL_CMD_LOG_MASK : Z := 9.
Definition DIAG_CNTL_CMD_EVENT_MASK : Z := 10.
Definition DIAG_CNTL_CMD_MSG_MASK : Z := 11.
Definition DIAG_CNTL_CMD_NUM_PRESETS : Z := 12.
Definition DIAG_CNTL_CMD_BUFFERING_TX_MODE : Z := 17.
Definition DIAG_CNTL_CMD_DEREGISTER : Z := 27.
Definition DIAG_CNTL_CMD_DIAG_ID : Z := 33.

Definition DIAG_ID_VERSION_1 : Z := 1.
Definition DIAG_ID_VERSION_2 : Z := 2.
Definition DIAG_ID_VERSION_3 : Z := 3.
Definition DIAG_MAX_RSP_SIZE : Z := 16 * 1024.

(** The packed structures, by the offsets of their fields. *)
Definition sizeof_cntl_hdr : Z := 8.       (* cmd, len *)
Definition sizeof_diag_cmd : Z := 40.
Definition sizeof_log_mask : Z := 19.      (* hdr, stream_id, status, equip_id, last_item, log_mask_size *)
Definition sizeof_msg_mask : Z := 19.      (* hdr, stream_id, status, msg_mode, range, msg_mask_len *)
Definition sizeof_event_mask : Z := 15.    (* hdr, stream_id, status, event_config, event_mask_len *)
Definition sizeof_feature : Z := 16.       (* hdr, mask_len, mask *)
Definition sizeof_diag_id : Z := 16.       (* hdr, version, diag_id *)
Definition sizeof_diag_id_v2 : Z := 28.    (* hdr, version, diag_id, feature_len, a pointer *)
Definition sizeof_diag_id_tbl : Z := 24.
Definition offsetof_diagid_info : Z := 17.

Definition cntl_hdr (cmd len : Z) : bytes := le 4 cmd ++ le 4 len.

(** ** Command registration *)

(** The key range of one registered range. *)
Definition cmd_key (cmd subsys id : Z) : Z :=
  let cmd := if (cmd =? 0xff) && negb (subsys =? 0xff) then DIAG_CMD_SUBSYS_DISPATCH else cmd in
  Z.lor (Z.lor (u32 (Z.shiftl cmd 24)) (u32 (Z.shiftl subsys 16))) id.

Definition with_cmds (f : list diag_cmd -> list diag_cmd) : M world unit :=
  modify (over (fun s => CmdState (f (diag_cmds s)) (common_cmds s) (fallback_cmds s))).

(** [for (i = 0; i < pkt->count_entries; i++)]: [n] rounds are left. *)
Fixpoint register_loop (n : nat) (i : Z) (p : nat) (buf : bytes) (hdr : Z) : M world Z :=
  match n with
  | O => mret 0
  | S n =>
      cmd ← lift (rd 2 buf (hdr + 12));
      subsys ← lift (rd 2 buf (hdr + 14));
      first ← lift (rd 2 buf (hdr + 20 + 8 * i));
      last ← lift (rd 2 buf (hdr + 20 + 8 * i + 2));
      dc ← malloc sizeof_diag_cmd;
      match dc with
      | None => mret (- ENOMEM)
      | Some _ =>
          _ ← with_cmds (fun l => l ++
                [DiagCmd (cmd_key cmd subsys first) (cmd_key cmd subsys last) (Some p) None]);
          register_loop n (i + 1) p buf hdr
      end
  end.

Definition diag_cntl_register (p : nat) (buf : bytes) (hdr len : Z) : M world Z :=
  count ← lift (rd 2 buf (hdr + 16));
  register_loop (Z.to_nat count) 0 p buf hdr.

Definition cmd_matches (p : nat) (first last : Z) (dc : diag_cmd) : Prop :=
  dc_peripheral dc = Some p /\ dc_first dc = first /\ dc_last dc = last.

#[export] Instance cmd_matches_dec p first last dc : Decision (cmd_matches p first last dc).
Proof. unfold cmd_matches. apply _. Defined.

Fixpoint deregister_loop (n : nat) (i : Z) (p : nat) (buf : bytes) (hdr : Z) : M world Z :=
  match n with
  | O => mret 0
  | S n =>
      cmd ← lift (rd 2 buf (hdr + 12));
      subsys ← lift (rd 2 buf (hdr + 14));
      first ← lift (rd 2 buf (hdr + 18 + 4 * i));
      last ← lift (rd 2 buf (hdr + 18 + 4 * i + 2));
      _ ← with_cmds (filter (fun dc =>
            ~ cmd_matches p (cmd_key cmd subsys first) (cmd_key cmd subsys last) dc));
      deregister_loop n (i + 1) p buf hdr
  end.

Definition diag_cntl_deregister (p : nat) (buf : bytes) (hdr len : Z) : M world Z :=
  count ← lift (rd 2 buf (hdr + 16));
  deregister_loop (Z.to_nat count) 0 p buf hdr.

Definition diag_cntl_close (p : nat) : M world unit :=
  with_cmds (filter (fun dc => dc_peripheral dc <> Some p)).

(** ** Sending masks *)

Definition write_at (obj : bytes) (off : Z) (src : bytes) : M world bytes := lift (mem_write obj off src).

(** The tail of the mask packets: [if (mask != NULL) memcpy(...)]. *)
Definition write_mask (pkt : bytes) (off : Z) (mask : option bytes) (n : Z) : M world bytes :=
  match mask with
  | None => mret pkt
  | Some mask => memcpy (Some pkt) off mask n
  end.

Definition diag_cntl_send_log_mask (p : nat) (equip_id : Z) : M world unit :=
  w ← get;
  let status := diag_get_log_mask_status (w_masks w) in
  perif ← get_perif p;
  if pf_cntl_fd perif =? -1 then mret tt else
  r ← (if status =? DIAG_CTRL_MASK_VALID then
         r ← zoom (diag_cmd_get_log_mask equip_id);
         let '(_, num_items, mask, mask_size) := r in mret (equip_id, num_items, mask, mask_size)
       else mret (0, 0, None, 0));
  let '(equip_id, num_items, mask, mask_size) := r in
  let len := sizeof_log_mask + mask_size in
  pkt ← stack len;
  pkt ← write_at pkt 0 (cntl_hdr DIAG_CNTL_CMD_LOG_MASK (len - sizeof_cntl_hdr) ++
          [1; u8 status; u8 equip_id] ++ le 4 num_items ++ le 4 mask_size);
  pkt ← write_mask pkt sizeof_log_mask mask mask_size;
  zoom (queue_push (QCntl p) pkt len).

(** [range] is what the pointer points to ([None]: null); the result is what
    it points to afterwards. *)
(** The caller's range afterwards, the packet's range, the number of words, and
    the words. *)
Definition msg_mask_items (status : Z) (range : option ssid_range)
    : M world (option ssid_range * option ssid_range * Z * option bytes) :=
  if status =? DIAG_CTRL_MASK_VALID then
    range ← deref range;
    r ← zoom (diag_cmd_get_msg_mask range);
    let '(_, range, mask) := r in
    mret (Some range, Some range, u32 (range.2 - range.1 + 1), mask)
  else if status =? DIAG_CTRL_MASK_ALL_DISABLED then
    mret (range, Some (0, 0), 0, None)
  else if status =? DIAG_CTRL_MASK_ALL_ENABLED then
    range ← deref range;
    r ← zoom (diag_cmd_get_msg_mask range);
    let '(_, range, mask) := r in
    mret (Some range, Some range, 1, mask)
  else mret (range, range, 0, None).

Definition diag_cntl_send_msg_mask (p : nat) (range : option ssid_range) : M world (option ssid_range) :=
  w ← get;
  let status := diag_get_msg_mask_status (w_masks w) in
  perif ← get_perif p;
  if pf_cntl_fd perif =? -1 then mret range else
  r ← msg_mask_items status range;
  let '(caller_range, range, num_items, mask) := r in
  let mask_size := u32 (num_items * 4) in
  let len := sizeof_msg_mask + mask_size in
  pkt ← stack len;
  range ← deref range;
  pkt ← write_at pkt 0 (cntl_hdr DIAG_CNTL_CMD_MSG_MASK (len - sizeof_cntl_hdr) ++
          [1; u8 status; 0] ++ ssid_range_bytes range ++ le 4 num_items);
  pkt ← write_mask pkt sizeof_msg_mask mask mask_size;
  _ ← zoom (queue_push (QCntl p) pkt len);
  mret caller_range.

Definition diag_cntl_send_masks (p : nat) : M world unit :=
  for_each (fun range => _ ← diag_cntl_send_msg_mask p (Some range); mret tt)
    (zip ssid_first_arr ssid_last_arr).

Definition diag_cntl_send_event_mask (p : nat) : M world unit :=
  w ← get;
  let status := diag_get_event_mask_status (w_masks w) in
  let event_config :=
    if (status =? DIAG_CTRL_MASK_ALL_ENABLED) || (status =? DIAG_CTRL_MASK_VALID) then 1 else 0 in
  perif ← get_perif p;
  if pf_cntl_fd perif =? -1 then mret tt else
  r ← (if status =? DIAG_CTRL_MASK_VALID then
         let bits := event_max_num_bits (w_masks w) in
         r ← zoom (diag_cmd_get_event_mask bits);
         let '(ret, mask) := r in
         mret (if ret =? 0 then u16 (BITS_TO_BYTES_16 bits) else 0, mask)
       else mret (0, None));
  let '(mask_size, mask) := r in
  let len := sizeof_event_mask + mask_size in
  pkt ← stack len;
  pkt ← write_at pkt 0 (cntl_hdr DIAG_CNTL_CMD_EVENT_MASK (len - sizeof_cntl_hdr) ++
          [1; u8 status; event_config] ++ le 4 mask_size);
  pkt ← write_mask pkt sizeof_event_mask mask mask_size;
  zoom (queue_push (QCntl p) pkt len).

(** ** Modes and features *)

Definition diag_cntl_set_diag_mode (p : nat) (real_time : bool) : M world unit :=
  perif ← get_perif p;
  let rt := if real_time then 1 else 0 in
  let body := le 4 rt ++ le 4 rt ++ le 4 0 ++ le 4 0 ++ le 4 0 ++ le 4 0 ++ le 4 0 ++ le 4 0 in
  if negb (pf_diag_id perif =? 0) then
    zoom (queue_push (QCntl p)
      (cntl_hdr DIAG_CNTL_CMD_DIAG_MODE 37 ++ le 4 2 ++ body ++ [u8 (pf_diag_id perif)]) 45)
  else
    zoom (queue_push (QCntl p) (cntl_hdr DIAG_CNTL_CMD_DIAG_MODE 36 ++ le 4 1 ++ body) 44).

Definition diag_cntl_set_buffering_mode (p : nat) (mode : Z) : M world unit :=
  perif ← get_perif p;
  if negb (pf_diag_id perif =? 0) then
    zoom (queue_push (QCntl p)
      (cntl_hdr DIAG_CNTL_CMD_BUFFERING_TX_MODE 7 ++ le 4 2 ++ [u8 (pf_diag_id perif); 0; u8 mode]) 15)
  else
    zoom (queue_push (QCntl p)
      (cntl_hdr DIAG_CNTL_CMD_BUFFERING_TX_MODE 6 ++ le 4 1 ++ [0; u8 mode]) 14).

(** The packet is two bytes longer than what is written of it. *)
Definition diag_cntl_send_feature_mask (p : nat) (mask : Z) : M world unit :=
  let len := sizeof_feature + 2 in
  perif ← get_perif p;
  if pf_cntl_fd perif =? -1 then mret tt else
  pkt ← stack len;
  pkt ← write_at pkt 0 (cntl_hdr DIAG_CNTL_CMD_FEATURE_MASK (len - sizeof_cntl_hdr) ++ le 4 4 ++ le 4 mask);
  _ ← zoom (queue_push (QCntl p) pkt len);
  _ ← diag_cntl_send_masks p;
  _ ← diag_cntl_set_diag_mode p true;
  diag_cntl_set_buffering_mode p 0.

Definition pf_with_features (f : Z) (p : peripheral) : peripheral :=
  Peripheral (pf_name p) f (pf_cntl_fd p) (pf_cntl_open p) (pf_data_fd p) (pf_data_open p)
    (pf_cmd_fd p) (pf_dci_cmd_fd p) (pf_flow p) (pf_diag_id p) (pf_sockets p) (pf_recv_buf p)
    (pf_recv_decoder p) (pf_transport p).

(** What this router supports, given the peripheral's channels. *)
Definition local_features (perif : peripheral) : Z :=
  let m := Z.lor DIAG_FEATURE_FEATURE_MASK_SUPPORT DIAG_FEATURE_DIAG_MASTER_SETS_COMMON_MASK in
  let m := if 0 <=? pf_cmd_fd perif then Z.lor m DIAG_FEATURE_REQ_RSP_SUPPORT else m in
  let m := Z.lor m DIAG_FEATURE_APPS_HDLC_ENCODE in
  let m := if pf_sockets perif then Z.lor m DIAG_FEATURE_SOCKETS_ENABLED else m in
  Z.lor (Z.lor m DIAG_FEATURE_DIAG_ID) DIAG_FEATURE_DIAG_ID_FEATURE_MASK.

Definition diag_cntl_feature_mask (p : nat) (buf : bytes) (hdr len : Z) : M world Z :=
  mask ← lift (rd 4 buf (hdr + 12));
  perif ← get_perif p;
  let features := Z.land mask (local_features perif) in
  _ ← upd_perif p (pf_with_features features);
  _ ← diag_cntl_send_feature_mask p features;
  mret 0.

(** ** Diag ids *)

(** A C string: the bytes up to the terminating zero. *)
Fixpoint cstring (l : bytes) : outcome bytes :=
  match l with
  | [] => UB
  | b :: l => if b =? 0 then Done [] else s ← cstring l; Done (b :: s)
  end.

(** [strncpy(dst, s, n)] writes exactly [n] bytes. *)
Definition strncpy (n : Z) (s : bytes) : bytes :=
  take (Z.to_nat n) s ++ replicate (Z.to_nat n - length s) 0.

(** [di_info] from [diagid_info] on: [diag_id], [process_name_len],
    [process_name]. *)
Definition register_diag_id (diag_id : Z) (process_name : bytes) (len : Z) : M idstate Z :=
  if (len =? 0) || (diag_id =? 0) then mret (- EINVAL) else
  obj ← malloc (sizeof_diag_id_tbl + len);
  match obj with
  | None => mret (- ENOMEM)
  | Some obj =>
      info ← lift (mem_write (drop (Z.to_nat offsetof_diagid_info) obj) 0
                ([diag_id; len] ++ strncpy (len - 1) process_name ++ [0]));
      _ ← modify (fun s => IdState (diag_ids s ++ [DiagIdTbl (u8 (2 + len)) info]) (id_last s));
      mret 0
  end.

Definition di_id (d : diag_id_tbl) : outcome Z := rd 1 (di_info d) 0.
Definition di_name (d : diag_id_tbl) : outcome bytes := cstring (drop 2 (di_info d)).

Fixpoint find_diag_id_loop (name : bytes) (l : list diag_id_tbl) : outcome (option Z) :=
  match l with
  | [] => Done None
  | d :: l =>
      s ← di_name d;
      if bool_decide (s = name) then id ← di_id d; Done (Some id) else find_diag_id_loop name l
  end.

Definition find_diag_id (name : bytes) : M idstate (option Z) :=
  s ← get; lift (find_diag_id_loop name (diag_ids s)).

Fixpoint diag_id_exists_loop (diag_id : Z) (l : list diag_id_tbl) : outcome bool :=
  match l with
  | [] => Done false
  | d :: l => id ← di_id d; if diag_id =? id then Done true else diag_id_exists_loop diag_id l
  end.

Definition diag_id_exists (diag_id : Z) : M idstate bool :=
  s ← get; lift (diag_id_exists_loop diag_id (diag_ids s)).

Definition set_id_last (n : Z) : M idstate unit := modify (fun s => IdState (diag_ids s) n).

(** The part of [diag_cntl_process_diag_id] that finds or allocates the id:
    [None] for the [-EINVAL] returns. *)
Definition assign_diag_id (version pkt_id : Z) (name : bytes) (name_len : Z) : M idstate (option Z) :=
  found ← find_diag_id name;
  match found with
  | Some id => mret (Some id)
  | None =>
      local ← (if DIAG_ID_VERSION_3 <=? version then mret pkt_id
               else s ← get; _ ← set_id_last (u32 (id_last s + 1)); mret (u32 (id_last s + 1)));
      dup ← diag_id_exists local;
      if (dup : bool) then mret None else
      err ← register_diag_id (u8 local) name name_len;
      if negb (err =? 0) then mret None else mret (Some local)
  end.

Definition diag_cntl_process_diag_id (p : nat) (buf : bytes) (hdr len : Z) : M world Z :=
  version ← lift (rd 4 buf (hdr + 8));
  perif ← get_perif p;
  let v2 := negb (Z.land (pf_features perif) DIAG_FEATURE_DIAG_ID_FEATURE_MASK =? 0) &&
            (DIAG_ID_VERSION_2 <=? version) in
  if len <? (if v2 then sizeof_diag_id_v2 else sizeof_diag_id) then mret (- EINVAL) else
  name_off ← (if v2 then feature_len ← lift (rd 4 buf (hdr + 16)); mret (hdr + 20 + feature_len)
              else mret (hdr + 16));
  name ← lift (cstring (drop (Z.to_nat name_off) buf));
  let name_len := u8 (zlen name + 1) in
  pkt_id ← lift (rd 4 buf (hdr + 12));
  r ← zoom (assign_diag_id version pkt_id name name_len);
  match r with
  | None => mret (- EINVAL)
  | Some id =>
      _ ← zoom (set_id_last id);
      if name_len =? 0 then fail_ub else
      let hdr_len := 4 + 4 + name_len in
      resp ← write_at (replicate (Z.to_nat DIAG_MAX_RSP_SIZE) 0) 0
        (cntl_hdr DIAG_CNTL_CMD_DIAG_ID hdr_len ++ le 4 DIAG_ID_VERSION_1 ++ le 4 id ++
         strncpy (name_len - 1) name ++ [0]);
      _ ← zoom (queue_push (QCntl p) resp (hdr_len + sizeof_cntl_hdr));
      mret 0
  end.

(** ** Receiving *)

Definition cntl_dispatch (p : nat) (buf : bytes) (offset n cmd : Z) : M world unit :=
  if cmd =? DIAG_CNTL_CMD_REGISTER then _ ← diag_cntl_register p buf offset n; mret tt
  else if cmd =? DIAG_CNTL_CMD_FEATURE_MASK then _ ← diag_cntl_feature_mask p buf offset n; mret tt
  else if cmd =? DIAG_CNTL_CMD_DIAG_ID then _ ← diag_cntl_process_diag_id p buf offset n; mret tt
  else if cmd =? DIAG_CNTL_CMD_NUM_PRESETS then mret tt
  else if cmd =? DIAG_CNTL_CMD_DEREGISTER then _ ← diag_cntl_deregister p buf offset n; mret tt
  else d ← lift (mem_read buf 0 n); _ ← lift (print_hex_dump d); mret tt.

Fixpoint cntl_recv_loop (fuel : nat) (p : nat) (buf : bytes) (offset n : Z) : M world unit :=
  match fuel with
  | O => lift Spin
  | S fuel =>
      if n <? offset + sizeof_cntl_hdr then mret tt else
      len ← lift (rd 4 buf (offset + 4));
      if n <? offset + sizeof_cntl_hdr + len then mret tt else
      cmd ← lift (rd 4 buf offset);
      _ ← cntl_dispatch p buf offset n cmd;
      cntl_recv_loop fuel p buf (offset + sizeof_cntl_hdr + len) n
  end.

(** Every round moves at least one header on. *)
Definition diag_cntl_recv (p : nat) (buf : bytes) (n : Z) : M world Z :=
  _ ← cntl_recv_loop (S (Z.to_nat (n / sizeof_cntl_hdr))) p buf 0 n; mret 0.

(** ** The command table

    The abstract content of a stream of control packets, and its serialization
    as a peripheral sends it. *)

Inductive cntl_pkt : Type :=
| PRegister (cmd subsys : Z) (ranges : list (Z * Z))
| PDeregister (cmd subsys : Z) (ranges : list (Z * Z))
| PNumPresets (num : Z).

Definition reg_range (r : Z * Z) : bytes := le 2 (r.1) ++ le 2 (r.2) ++ le 4 0.
Definition dereg_range (r : Z * Z) : bytes := le 2 (r.1) ++ le 2 (r.2).

Definition serialize (k : cntl_pkt) : bytes :=
  match k with
  | PRegister cmd subsys ranges =>
      cntl_hdr DIAG_CNTL_CMD_REGISTER (12 + 8 * zlen ranges) ++
      (le 4 1 ++ le 2 cmd ++ le 2 subsys ++ le 2 (zlen ranges) ++ le 2 0) ++ (ranges ≫= reg_range)
  | PDeregister cmd subsys ranges =>
      cntl_hdr DIAG_CNTL_CMD_DEREGISTER (10 + 4 * zlen ranges) ++
      (le 4 1 ++ le 2 cmd ++ le 2 subsys ++ le 2 (zlen ranges)) ++ (ranges ≫= dereg_range)
  | PNumPresets num => cntl_hdr DIAG_CNTL_CMD_NUM_PRESETS 1 ++ [num]
  end.

Definition u16_ok (z : Z) : Prop := 0 <= z < 2 ^ 16.
Definition range_ok (r : Z * Z) : Prop := u16_ok (r.1) /\ u16_ok (r.2).

Definition pkt_ok (k : cntl_pkt) : Prop :=
  match k with
  | PRegister cmd subsys ranges | PDeregister cmd subsys ranges =>
      u16_ok cmd /\ u16_ok subsys /\ zlen ranges < 2 ^ 16 /\ Forall range_ok ranges
  | PNumPresets num => is_byte num
  end.

(** What the packets mean for the list of commands. *)
Definition add_range (p : nat) (cmd subsys : Z) (l : list diag_cmd) (r : Z * Z) : list diag_cmd :=
  l ++ [DiagCmd (cmd_key cmd subsys (r.1)) (cmd_key cmd subsys (r.2)) (Some p) None].
Definition del_range (p : nat) (cmd subsys : Z) (l : list diag_cmd) (r : Z * Z) : list diag_cmd :=
  filter (fun dc => ~ cmd_matches p (cmd_key cmd subsys (r.1)) (cmd_key cmd subsys (r.2)) dc) l.

Definition apply_pkt (p : nat) (l : list diag_cmd) (k : cntl_pkt) : list diag_cmd :=
  match k with
  | PRegister cmd subsys ranges => foldl (add_range p cmd subsys) l ranges
  | PDeregister cmd subsys ranges => foldl (del_range p cmd subsys) l ranges
  | PNumPresets _ => l
  end.

Definition set_cmds (l : list diag_cmd) (w : world) : world :=
  over (fun s => CmdState l (common_cmds s) (fallback_cmds s)) w.

Lemma with_cmds_ok f h w : with_cmds f h w = Done (tt, h, set_cmds (f (diag_cmds (w_cmds w))) w).
Proof. done. Qed.

Lemma set_cmds_id w : set_cmds (diag_cmds (w_cmds w)) w = w.
Proof. destruct w as [? ? ? ? ? [] ? ?]. done. Qed.

Lemma set_cmds_twice l l' w : set_cmds l (set_cmds l' w) = set_cmds l w.
Proof. done. Qed.

Lemma diag_cmds_set l w : diag_cmds (w_cmds (set_cmds l w)) = l.
Proof. done. Qed.

(** Reading the [i]-th of equally long items behind a prefix. *)
Lemma item_split {A} (enc : A -> bytes) k (l : list A) i x :
  (forall x, zlen (enc x) = k) -> l !! i = Some x ->
  exists a b, (l ≫= enc) = a ++ enc x ++ b /\ zlen a = k * Z.of_nat i.
Proof.
  intros Hk. revert i. induction l as [|y l IH]; intros i; [done|].
  rewrite bind_cons. destruct i as [|i]; cbn [lookup list_lookup].
  - intros [= ->]. exists [], (l ≫= enc). split; [done|]. change (0 = k * 0). lia.
  - intros Hi. destruct (IH i Hi) as (a & b & E & Hl). exists (enc y ++ a), b. rewrite E, <- app_assoc.
    split; [done|]. rewrite zlen_app, Hk, Hl. lia.
Qed.

Lemma zlen_items {A} (enc : A -> bytes) k (l : list A) :
  (forall x, zlen (enc x) = k) -> zlen (l ≫= enc) = k * zlen l.
Proof.
  intros Hk. induction l as [|x l IH]; [change (0 = k * 0); lia|].
  rewrite bind_cons, zlen_app, Hk, IH, zlen_cons. lia.
Qed.

Lemma zlen_reg_range r : zlen (reg_range r) = 8.
Proof. done. Qed.
Lemma zlen_dereg_range r : zlen (dereg_range r) = 4.
Proof. done. Qed.

(** A 16-bit field in the middle of a buffer. *)
Lemma rd_field n pre z post off :
  off = zlen pre -> 0 <= z < 256 ^ Z.of_nat n -> rd n (pre ++ le n z ++ post) off = Done z.
Proof.
  intros -> Hz. replace (zlen pre) with (zlen pre + 0) by lia.
  rewrite rd_skip by (done || lia). by apply rd_le_small.
Qed.

(** The fields of a registration, as the loops read them. *)
Definition range_fields (buf : bytes) (hdr base stride cmd subsys : Z) (ranges : list (Z * Z)) : Prop :=
  rd 2 buf (hdr + 12) = Done cmd /\ rd 2 buf (hdr + 14) = Done subsys /\
  rd 2 buf (hdr + 16) = Done (zlen ranges) /\
  forall j r, ranges !! j = Some r ->
    rd 2 buf (hdr + base + stride * Z.of_nat j) = Done (r.1) /\
    rd 2 buf (hdr + base + stride * Z.of_nat j + 2) = Done (r.2).

Lemma register_loop_ok n i p buf hdr cmd subsys ranges h w :
  alloc_ok h -> range_fields buf hdr 20 8 cmd subsys ranges -> (i + n = length ranges)%nat ->
  register_loop n (Z.of_nat i) p buf hdr h w =
    Done (0, steps n h,
      set_cmds (foldl (add_range p cmd subsys) (diag_cmds (w_cmds w)) (drop i ranges)) w).
Proof.
  intros Hh (E1 & E2 & _ & Er). revert i h w Hh. induction n as [|n IH]; intros i h w Hh Hl.
  { rewrite drop_ge by lia. cbn [foldl]. rewrite set_cmds_id. by destruct h. }
  destruct (lookup_lt_is_Some_2 ranges i ltac:(lia)) as [r Hr].
  destruct (Er i r Hr) as [R1 R2]. cbn [register_loop]. mrun. rewrite E1, E2, R1, R2.
  destruct (malloc_ok sizeof_diag_cmd h w Hh) as (d & -> & _). rewrite with_cmds_ok.
  replace (Z.of_nat i + 1) with (Z.of_nat (S i)) by lia. rewrite IH by (done || lia).
  rewrite (drop_S _ _ _ Hr). cbn [foldl]. unfold steps, tick. cbn. do 3 f_equal. f_equal. lia.
Qed.

Lemma deregister_loop_ok n i p buf hdr cmd subsys ranges h w :
  range_fields buf hdr 18 4 cmd subsys ranges -> (i + n = length ranges)%nat ->
  deregister_loop n (Z.of_nat i) p buf hdr h w =
    Done (0, h, set_cmds (foldl (del_range p cmd subsys) (diag_cmds (w_cmds w)) (drop i ranges)) w).
Proof.
  intros (E1 & E2 & _ & Er). revert i w. induction n as [|n IH]; intros i w Hl.
  { rewrite drop_ge by lia. cbn [foldl]. by rewrite set_cmds_id. }
  destruct (lookup_lt_is_Some_2 ranges i ltac:(lia)) as [r Hr].
  destruct (Er i r Hr) as [R1 R2]. cbn [deregister_loop]. mrun. rewrite E1, E2, R1, R2, with_cmds_ok.
  replace (Z.of_nat i + 1) with (Z.of_nat (S i)) by lia. rewrite IH by lia.
  rewrite (drop_S _ _ _ Hr). done.
Qed.

(** A field of a packet behind the packets before it. *)
Lemma rd_in n pre a z b off :
  off = zlen pre + zlen a -> 0 <= z < 256 ^ Z.of_nat n -> rd n (pre ++ a ++ le n z ++ b) off = Done z.
Proof. intros. rewrite app_assoc. apply rd_field; [rewrite zlen_app; lia|done]. Qed.

Lemma rd_in_eq n l pre a z b off :
  l = pre ++ a ++ le n z ++ b -> off = zlen pre + zlen a -> 0 <= z < 256 ^ Z.of_nat n ->
  rd n l off = Done z.
Proof. intros ->. apply rd_in. Qed.

Lemma register_fields pre cmd subsys ranges post :
  pkt_ok (PRegister cmd subsys ranges) ->
  range_fields (pre ++ serialize (PRegister cmd subsys ranges) ++ post) (zlen pre) 20 8 cmd subsys ranges.
Proof.
  intros (Hc & Hs & Hn & Hr). unfold u16_ok in *. pose proof (zlen_nonneg ranges).
  cbn [serialize]. unfold cntl_hdr. rewrite <- !app_assoc. split; [|split; [|split]].
  - apply (rd_in 2 pre (le 4 _ ++ le 4 _ ++ le 4 1) cmd); [zlia|lia].
  - apply (rd_in 2 pre (le 4 _ ++ le 4 _ ++ le 4 1 ++ le 2 cmd) subsys); [zlia|lia].
  - apply (rd_in 2 pre (le 4 _ ++ le 4 _ ++ le 4 1 ++ le 2 cmd ++ le 2 subsys)); [zlia|lia].
  - intros j r Hj. destruct (item_split reg_range 8 ranges j r zlen_reg_range Hj) as (a & b & -> & Ha).
    destruct (proj1 (Forall_lookup _ _) Hr j r Hj) as [H1 H2]. unfold u16_ok in *.
    unfold reg_range. rewrite <- !app_assoc. split.
    + apply (rd_in 2 pre (le 4 _ ++ le 4 _ ++ le 4 1 ++ le 2 cmd ++ le 2 subsys ++ le 2 _ ++ le 2 0 ++ a) (r.1));
        [zlia|lia].
    + eapply (rd_in_eq 2 _ pre (le 4 _ ++ le 4 _ ++ le 4 1 ++ le 2 cmd ++ le 2 subsys ++ le 2 _ ++ le 2 0 ++ a ++ le 2 (r.1)));
        [rewrite <- !app_assoc; reflexivity|zlia|lia].
Qed.

Lemma deregister_fields pre cmd subsys ranges post :
  pkt_ok (PDeregister cmd subsys ranges) ->
  range_fields (pre ++ serialize (PDeregister cmd subsys ranges) ++ post) (zlen pre) 18 4 cmd subsys ranges.
Proof.
  intros (Hc & Hs & Hn & Hr). unfold u16_ok in *. pose proof (zlen_nonneg ranges).
  cbn [serialize]. unfold cntl_hdr. rewrite <- !app_assoc. split; [|split; [|split]].
  - apply (rd_in 2 pre (le 4 _ ++ le 4 _ ++ le 4 1) cmd); [zlia|lia].
  - apply (rd_in 2 pre (le 4 _ ++ le 4 _ ++ le 4 1 ++ le 2 cmd) subsys); [zlia|lia].
  - apply (rd_in 2 pre (le 4 _ ++ le 4 _ ++ le 4 1 ++ le 2 cmd ++ le 2 subsys)); [zlia|lia].
  - intros j r Hj. destruct (item_split dereg_range 4 ranges j r zlen_dereg_range Hj) as (a & b & -> & Ha).
    destruct (proj1 (Forall_lookup _ _) Hr j r Hj) as [H1 H2]. unfold u16_ok in *.
    unfold dereg_range. rewrite <- !app_assoc. split.
    + apply (rd_in 2 pre (le 4 _ ++ le 4 _ ++ le 4 1 ++ le 2 cmd ++ le 2 subsys ++ le 2 _ ++ a) (r.1));
        [zlia|lia].
    + eapply (rd_in_eq 2 _ pre (le 4 _ ++ le 4 _ ++ le 4 1 ++ le 2 cmd ++ le 2 subsys ++ le 2 _ ++ a ++ le 2 (r.1)));
        [rewrite <- !app_assoc; reflexivity|zlia|lia].
Qed.

Definition pkt_cmd (k : cntl_pkt) : Z :=
  match k with
  | PRegister _ _ _ => DIAG_CNTL_CMD_REGISTER
  | PDeregister _ _ _ => DIAG_CNTL_CMD_DEREGISTER
  | PNumPresets _ => DIAG_CNTL_CMD_NUM_PRESETS
  end.

Lemma serialize_hdr k :
  pkt_ok k -> exists body, serialize k = cntl_hdr (pkt_cmd k) (zlen body) ++ body /\ zlen body < 2 ^ 20.
Proof.
  destruct k as [cmd subsys ranges|cmd subsys ranges|num]; cbn [serialize pkt_cmd].
  - intros (_ & _ & Hn & _). pose proof (zlen_nonneg ranges).
    assert (zlen ((le 4 1 ++ le 2 cmd ++ le 2 subsys ++ le 2 (zlen ranges) ++ le 2 0) ++ (ranges ≫= reg_range))
      = 12 + 8 * zlen ranges) as E.
    { rewrite zlen_app, (zlen_items reg_range 8) by exact zlen_reg_range. by autorewrite with zlen. }
    eexists; split; [by rewrite E|]. rewrite E. lia.
  - intros (_ & _ & Hn & _). pose proof (zlen_nonneg ranges).
    assert (zlen ((le 4 1 ++ le 2 cmd ++ le 2 subsys ++ le 2 (zlen ranges)) ++ (ranges ≫= dereg_range))
      = 10 + 4 * zlen ranges) as E.
    { rewrite zlen_app, (zlen_items dereg_range 4) by exact zlen_dereg_range. by autorewrite with zlen. }
    eexists; split; [by rewrite E|]. rewrite E. lia.
  - intros _. by exists [num].
Qed.

Lemma hdr_reads pre cmd body post :
  0 <= cmd < 2 ^ 32 -> zlen body < 2 ^ 32 ->
  let buf := pre ++ (cntl_hdr cmd (zlen body) ++ body) ++ post in
  rd 4 buf (zlen pre) = Done cmd /\ rd 4 buf (zlen pre + 4) = Done (zlen body).
Proof.
  intros Hc Hb. cbv zeta. unfold cntl_hdr. rewrite <- !app_assoc. split.
  - apply rd_field; [done|lia].
  - apply (rd_in 4 pre (le 4 cmd)); [done|]. pose proof (zlen_nonneg body). lia.
Qed.

Lemma pkt_cmd_range k : 0 <= pkt_cmd k < 2 ^ 32.
Proof. by destruct k. Qed.

Lemma cntl_dispatch_ok p pre k post n h w :
  alloc_ok h -> pkt_ok k ->
  exists m, cntl_dispatch p (pre ++ serialize k ++ post) (zlen pre) n (pkt_cmd k) h w =
    Done (tt, steps m h, set_cmds (apply_pkt p (diag_cmds (w_cmds w)) k) w).
Proof.
  intros Hh Hk. destruct k as [cmd subsys ranges|cmd subsys ranges|num].
  - pose proof (register_fields pre cmd subsys ranges post Hk) as Hf. exists (length ranges).
    generalize dependent (pre ++ serialize (PRegister cmd subsys ranges) ++ post). intros buf Hf.
    change (cntl_dispatch p buf (zlen pre) n _ h w)
      with ((_ ← diag_cntl_register p buf (zlen pre) n; mret tt) h w).
    unfold diag_cntl_register. mrun. rewrite (proj1 (proj2 (proj2 Hf))).
    replace (Z.to_nat (zlen ranges)) with (length ranges) by (unfold zlen; lia).
    rewrite (register_loop_ok _ 0 _ _ _ _ _ _ _ _ Hh Hf) by lia. by rewrite drop_0.
  - pose proof (deregister_fields pre cmd subsys ranges post Hk) as Hf. exists 0%nat.
    generalize dependent (pre ++ serialize (PDeregister cmd subsys ranges) ++ post). intros buf Hf.
    change (cntl_dispatch p buf (zlen pre) n _ h w)
      with ((_ ← diag_cntl_deregister p buf (zlen pre) n; mret tt) h w).
    unfold diag_cntl_deregister. mrun. rewrite (proj1 (proj2 (proj2 Hf))).
    replace (Z.to_nat (zlen ranges)) with (length ranges) by (unfold zlen; lia).
    rewrite (deregister_loop_ok _ 0 _ _ _ _ _ _ _ _ Hf) by lia. rewrite drop_0. by destruct h.
  - exists 0%nat. change (apply_pkt p ?l _) with l. rewrite set_cmds_id. by destruct h.
Qed.

Lemma cntl_recv_loop_ok fuel p pre ks post n h w :
  alloc_ok h -> Forall pkt_ok ks -> (length ks < fuel)%nat ->
  n = zlen pre + zlen (ks ≫= serialize) ->
  exists m, cntl_recv_loop fuel p (pre ++ (ks ≫= serialize) ++ post) (zlen pre) n h w =
    Done (tt, steps m h, set_cmds (foldl (apply_pkt p) (diag_cmds (w_cmds w)) ks) w).
Proof.
  intros Hh Hks. revert fuel pre h w Hh. induction Hks as [|k ks Hk Hks IH]; intros fuel pre h w Hh Hf Hn.
  - destruct fuel as [|fuel]; [cbn in Hf; lia|]. exists 0%nat. cbn [cntl_recv_loop]. unfold sizeof_cntl_hdr.
    change (zlen ([] ≫= serialize)) with 0 in Hn.
    destruct (Z.ltb_spec n (zlen pre + 8)); [|lia]. cbn [foldl]. rewrite set_cmds_id. by destruct h.
  - destruct fuel as [|fuel]; [cbn in Hf; lia|]. cbn [cntl_recv_loop]. unfold sizeof_cntl_hdr.
    rewrite bind_cons in Hn |- *. rewrite zlen_app in Hn. rewrite <- app_assoc.
    destruct (serialize_hdr k Hk) as (body & Eb & Hb). pose proof (zlen_nonneg body).
    pose proof (zlen_nonneg (ks ≫= serialize)).
    destruct (hdr_reads pre (pkt_cmd k) body ((ks ≫= serialize) ++ post) (pkt_cmd_range k) ltac:(lia)) as [R1 R2].
    rewrite <- Eb in R1, R2.
    assert (zlen (serialize k) = 8 + zlen body) as Hz by (rewrite Eb, zlen_app; done).
    destruct (Z.ltb_spec n (zlen pre + 8)); [lia|].
    erewrite bind_done by (unfold lift; rewrite R2; reflexivity).
    destruct (Z.ltb_spec n (zlen pre + 8 + zlen body)); [lia|].
    erewrite bind_done by (unfold lift; rewrite R1; reflexivity).
    destruct (cntl_dispatch_ok p pre k ((ks ≫= serialize) ++ post) n h w Hh Hk) as [m E].
    erewrite bind_done by exact E.
    replace (zlen pre + 8 + zlen body) with (zlen (pre ++ serialize k)) by (rewrite zlen_app; lia).
    rewrite app_assoc.
    destruct (IH fuel (pre ++ serialize k) (steps m h)
      (set_cmds (apply_pkt p (diag_cmds (w_cmds w)) k) w)) as [m' E']; [done|cbn in Hf; lia|rewrite zlen_app; lia|].
    exists (m' + m)%nat. rewrite E', steps_steps. done.
Qed.

Lemma diag_cntl_recv_ok p ks post h w :
  alloc_ok h -> Forall pkt_ok ks ->
  exists m, diag_cntl_recv p ((ks ≫= serialize) ++ post) (zlen (ks ≫= serialize)) h w =
    Done (0, steps m h, set_cmds (foldl (apply_pkt p) (diag_cmds (w_cmds w)) ks) w).
Proof.
  intros Hh Hks. unfold diag_cntl_recv, sizeof_cntl_hdr.
  assert (8 * zlen ks <= zlen (ks ≫= serialize)) as Hn.
  { induction Hks as [|k ks Hk Hks IH]; [done|]. rewrite bind_cons, zlen_app, zlen_cons.
    destruct (serialize_hdr k Hk) as (body & -> & _). rewrite zlen_app. pose proof (zlen_nonneg body).
    change (zlen (cntl_hdr _ _)) with 8. lia. }
  destruct (cntl_recv_loop_ok (S (Z.to_nat (zlen (ks ≫= serialize) / 8))) p [] ks post
    (zlen (ks ≫= serialize)) h w Hh Hks) as [m E]; [|done|].
  { pose proof (Z.div_le_lower_bound (zlen (ks ≫= serialize)) 8 (zlen ks)) as Hd.
    unfold zlen in *. lia. }
  exists m. erewrite bind_done by exact E. done.
Qed.

Lemma apply_register p cmd subsys ranges l :
  foldl (add_range p cmd subsys) l ranges =
  l ++ ((fun r => DiagCmd (cmd_key cmd subsys (r.1)) (cmd_key cmd subsys (r.2)) (Some p) None) <$> ranges).
Proof.
  revert l. induction ranges as [|r ranges IH]; intros l; [by rewrite app_nil_r|].
  cbn [foldl fmap list_fmap]. rewrite IH. unfold add_range. by rewrite <- app_assoc.
Qed.

Lemma apply_deregister p cmd subsys ranges l dc :
  dc ∈ foldl (del_range p cmd subsys) l ranges <->
  dc ∈ l /\ forall r, r ∈ ranges -> ~ cmd_matches p (cmd_key cmd subsys (r.1)) (cmd_key cmd subsys (r.2)) dc.
Proof.
  revert l. induction ranges as [|r ranges IH]; intros l; cbn [foldl].
  - split; [intros; split; [done|]; by intros r ?%elem_of_nil|tauto].
  - rewrite IH. unfold del_range. rewrite list_elem_of_filter. split.
    + intros ((H1 & H2) & H3). split; [done|]. intros r' [->|Hr]%elem_of_cons; auto.
    + intros (H1 & H2). split; [split; [apply H2, list_elem_of_here|done]|].
      intros r' Hr. apply H2. by apply list_elem_of_further.
Qed.
