(* ===== verification/CntlProps.v ===== *)
(** * What the control channel guarantees

    Properties of the definitions of [Cntl]: deregistration and closing,
    termination on arbitrary input, the packets sent, and the diag ids. *)

From S2P Require Import Prelude Util CircBuf Hdlc Masks MaskTables Queue Watch World Cntl.

(** ** Commands *)

(** C19 [diag_cntl_recv] on a buffer holding a sequence of control packets
    (registrations, deregistrations, preset counts) behaves as the packets
    say, in order: every registered range is appended to the command table for
    this peripheral, every deregistered range removes exactly this
    peripheral's entries of those keys.  What follows the received bytes in
    the receive buffer is never read, and no other component changes. *)
Theorem diag_cntl_recv_refines p ks post h w :
  alloc_ok h -> Forall pkt_ok ks ->
  exists m, diag_cntl_recv p ((ks ≫= serialize) ++ post) (zlen (ks ≫= serialize)) h w =
    Done (0, steps m h, set_cmds (foldl (apply_pkt p) (diag_cmds (w_cmds w)) ks) w).
Proof. apply diag_cntl_recv_ok. Qed.

(** A peripheral that registers ranges and then deregisters them leaves
    none of those registrations behind: of the command table only entries
    present before remain, without this peripheral's entries of those keys;
    and [diag_cntl_close] removes every entry of the peripheral, keeping the
    others in order. *)
Lemma diag_cntl_deregister_undoes p cmd subsys ranges post h w :
  alloc_ok h -> pkt_ok (PRegister cmd subsys ranges) ->
  let ks := [PRegister cmd subsys ranges; PDeregister cmd subsys ranges] in
  exists m l, diag_cntl_recv p ((ks ≫= serialize) ++ post) (zlen (ks ≫= serialize)) h w =
      Done (0, steps m h, set_cmds l w) /\
    (forall dc, dc ∈ l <-> dc ∈ diag_cmds (w_cmds w) /\
      forall r, r ∈ ranges -> ~ cmd_matches p (cmd_key cmd subsys (r.1)) (cmd_key cmd subsys (r.2)) dc) /\
    diag_cntl_close p (steps m h) (set_cmds l w) = Done (tt, steps m h,
      set_cmds (filter (fun dc => dc_peripheral dc <> Some p) (diag_cmds (w_cmds w))) w).
Proof.
  intros Hh Hk ks. destruct (diag_cntl_recv_ok p ks post h w Hh) as [m E]; [by apply Forall_cons; split; [|apply Forall_cons; split; [exact Hk|constructor]]|].
  exists m. eexists. split; [exact E|]. cbn [foldl apply_pkt ks].
  rewrite apply_register. set (l0 := diag_cmds (w_cmds w)). split.
  - intros dc. rewrite apply_deregister, elem_of_app. split.
    + intros [[H1|H1] H2]; [done|]. exfalso. apply list_elem_of_fmap in H1 as (r & -> & Hr).
      by apply (H2 r Hr).
    + tauto.
  - unfold diag_cntl_close. rewrite with_cmds_ok. do 2 f_equal.
    rewrite set_cmds_twice, diag_cmds_set. f_equal.
    assert (forall l, filter (fun dc => dc_peripheral dc <> Some p) (foldl (del_range p cmd subsys) l ranges) =
      filter (fun dc => dc_peripheral dc <> Some p) l) as Hf.
    { clear. induction ranges as [|r ranges IH]; intros l; [done|]. cbn [foldl]. rewrite IH.
      unfold del_range. rewrite list_filter_filter. apply list_filter_iff. intros dc.
      unfold cmd_matches. tauto. }
    rewrite Hf, filter_app. rewrite <- (app_nil_r (filter _ l0)) at 2. f_equal.
    clear. induction ranges as [|r ranges IH]; [done|].
    cbn [fmap list_fmap]. by rewrite filter_cons_False by (cbn; tauto).
Qed.

(** ** Termination *)

Lemma terminates_register n i p buf hdr : terminates (register_loop n i p buf hdr).
Proof. revert i. induction n as [|n IH]; intros i; cbn [register_loop]; unfold with_cmds; term. Qed.
Lemma terminates_deregister n i p buf hdr : terminates (deregister_loop n i p buf hdr).
Proof. revert i. induction n as [|n IH]; intros i; cbn [deregister_loop]; unfold with_cmds; term. Qed.
#[export] Hint Resolve terminates_register terminates_deregister : term.

Lemma terminates_send_msg p range : terminates (diag_cntl_send_msg_mask p range).
Proof. unfold diag_cntl_send_msg_mask, msg_mask_items, write_at, write_mask, queue_push. term. Qed.
Lemma terminates_send_log p e : terminates (diag_cntl_send_log_mask p e).
Proof. unfold diag_cntl_send_log_mask, write_at, write_mask, queue_push. term. Qed.
Lemma terminates_send_event p : terminates (diag_cntl_send_event_mask p).
Proof. unfold diag_cntl_send_event_mask, write_at, write_mask, queue_push. term. Qed.
#[export] Hint Resolve terminates_send_msg terminates_send_log terminates_send_event : term.
Lemma terminates_feature p buf hdr len : terminates (diag_cntl_feature_mask p buf hdr len).
Proof.
  unfold diag_cntl_feature_mask, diag_cntl_send_feature_mask, diag_cntl_send_masks,
    diag_cntl_set_diag_mode, diag_cntl_set_buffering_mode, write_at, queue_push. term.
  apply terminates_for_each. term.
Qed.

Lemma cstring_no_spin l : cstring l <> Spin.
Proof. induction l as [|b l IH]; cbn; [done|]. case_match; [done|]. by destruct (cstring l). Qed.
Lemma find_diag_id_no_spin name l : find_diag_id_loop name l <> Spin.
Proof.
  induction l as [|d l IH]; cbn [find_diag_id_loop]; [done|]. unfold di_name, di_id.
  pose proof (cstring_no_spin (drop 2 (di_info d))). pose proof (rd_no_spin 1 (di_info d) 0).
  destruct (cstring _); cbn; [|done..]. case_match; [|done]. by destruct (rd 1 _ 0).
Qed.
Lemma diag_id_exists_no_spin id l : diag_id_exists_loop id l <> Spin.
Proof.
  induction l as [|d l IH]; cbn [diag_id_exists_loop]; [done|]. unfold di_id.
  pose proof (rd_no_spin 1 (di_info d) 0). destruct (rd 1 _ 0); cbn; [|done..]. by case_match.
Qed.
#[export] Hint Resolve cstring_no_spin find_diag_id_no_spin diag_id_exists_no_spin : term.

Lemma terminates_diag_id p buf hdr len : terminates (diag_cntl_process_diag_id p buf hdr len).
Proof.
  unfold diag_cntl_process_diag_id, assign_diag_id, find_diag_id, diag_id_exists, register_diag_id,
    set_id_last, write_at, queue_push. term.
Qed.
#[export] Hint Resolve terminates_feature terminates_diag_id : term.

Lemma terminates_dispatch p buf off n cmd : terminates (cntl_dispatch p buf off n cmd).
Proof. unfold cntl_dispatch, diag_cntl_register, diag_cntl_deregister. term. Qed.

Lemma terminates_recv_loop fuel p buf off n :
  bytes_ok buf -> 0 <= off -> n - off < 8 * Z.of_nat fuel -> (0 < fuel)%nat ->
  terminates (cntl_recv_loop fuel p buf off n).
Proof.
  intros Hok. revert off. induction fuel as [|fuel IH]; intros off Ho Hf H0; [lia|].
  cbn [cntl_recv_loop]. unfold sizeof_cntl_hdr. destruct (Z.ltb_spec n (off + 8)); [term|].
  intros h s. unfold lift at 1. mrun. unfold rd at 1, mem_read at 1.
  destruct (in_object buf (off + 4) (Z.of_nat 4)) eqn:Ei; [|done]. cbn [mbind outcome_bind].
  apply in_object_true in Ei.
  pose proof (le_dec_range (slice buf (off + 4) 4) ltac:(auto with diag)) as Hr.
  set (len := le_dec _) in *. change (Z.of_nat 4) with 4 in *. fold len.
  destruct (Z.ltb_spec n (off + 8 + len)); [done|].
  unfold rd, mem_read. destruct (in_object buf off (Z.of_nat 4)); [|done]. cbn [mbind outcome_bind].
  match goal with |- context [cntl_dispatch ?p ?b ?o ?n ?c ?h ?s] =>
    pose proof (terminates_dispatch p b o n c h s) as Ht; destruct (cntl_dispatch p b o n c h s) as [[[[] h'] s']| | |]
  end; [|done..].
  apply IH; lia.
Qed.

(** C29 [diag_cntl_recv] always ends: on any received bytes, whatever length
    fields they claim, the loop over the packets moves on by at least a header
    a round, and no handler loops for ever. *)
Theorem diag_cntl_recv_terminates p buf n h w :
  bytes_ok buf -> 0 <= n -> diag_cntl_recv p buf n h w <> Spin.
Proof.
  intros Hok Hn. unfold diag_cntl_recv, sizeof_cntl_hdr.
  apply terminates_bind; [|term]. apply terminates_recv_loop; [done|lia| |lia].
  pose proof (Z.div_mod n 8). pose proof (Z.mod_pos_bound n 8). pose proof (Z.div_pos n 8). lia.
Qed.

(** ** The packets sent *)

(** A control packet as the other side walks it: the header's length is the
    length of the body. *)
Definition cntl_packet (cmd : Z) (body : bytes) : bytes := cntl_hdr cmd (zlen body) ++ body.

Definition send_cntl (p : nat) (pkt : bytes) (w : world) : world :=
  with_queues (enqueue (QCntl p) None pkt (w_queues w)) w.

(** Filling a fresh object with a header and a body. *)
Lemma fill_pkt junk hdr src :
  zlen junk = zlen hdr + zlen src -> splice (splice junk 0 hdr) (zlen hdr) src = hdr ++ src.
Proof.
  intros Hl. pose proof (zlen_nonneg hdr). pose proof (zlen_nonneg src).
  replace (splice junk 0 hdr) with (hdr ++ drop (length hdr) junk).
  - rewrite splice_app_junk by (rewrite zlen_drop; unfold zlen in *; lia).
    rewrite (drop_ge (drop _ _)); [by rewrite app_nil_r|]. rewrite !length_drop. unfold zlen in *; lia.
  - unfold splice. change (Z.to_nat 0) with 0%nat. rewrite take_0. cbn [app]. do 2 f_equal.
    unfold zlen; lia.
Qed.

Lemma build_pkt {A} hdr mask n body (f : bytes -> M world A) h w :
  alloc_ok h -> 0 <= n ->
  match mask with Some m => n <= zlen m /\ body = slice m 0 n | None => n = 0 /\ body = [] end ->
  (pkt ← stack (zlen hdr + n); pkt ← write_at pkt 0 hdr; pkt ← write_mask pkt (zlen hdr) mask n; f pkt) h w =
  f (hdr ++ body) (tick h) w.
Proof.
  intros Hh Hn Hm.
  unfold write_at. destruct (stack_ok (zlen hdr + n) h w) as (junk & E & _ & Hj).
  pose proof (zlen_nonneg hdr). specialize (Hj ltac:(lia)).
  erewrite bind_done by exact E.
  erewrite bind_done by (unfold lift; rewrite mem_write_ok by lia; reflexivity).
  destruct mask as [m|]; destruct Hm as [Hm ->].
  - unfold write_mask. erewrite bind_done by (apply memcpy_ok; [lia|lia|rewrite zlen_splice; lia]).
    by rewrite fill_pkt by (rewrite zlen_slice; lia).
  - subst n. unfold write_mask. erewrite bind_done by reflexivity.
    rewrite app_nil_r. rewrite splice_full by lia. done.
Qed.

Lemma push_whole q pkt len h w :
  alloc_ok h -> len = zlen pkt -> zlen pkt < 2 ^ 63 ->
  zoom (queue_push q pkt len) h w =
    Done (tt, tick h, with_queues (enqueue q None pkt (w_queues w)) w).
Proof.
  intros Hh -> Hl. pose proof (zlen_nonneg pkt). rewrite zoom_push by (done || lia).
  by rewrite slice_0_all.
Qed.

Definition log_mask_packet (status equip_id n : Z) (bits : bytes) : bytes :=
  cntl_packet DIAG_CNTL_CMD_LOG_MASK
    ([1; u8 status; u8 equip_id] ++ le 4 n ++ le 4 (zlen bits) ++ bits).

Definition msg_mask_packet (status : Z) (range : ssid_range) (n : Z) (words : bytes) : bytes :=
  cntl_packet DIAG_CNTL_CMD_MSG_MASK ([1; u8 status; 0] ++ ssid_range_bytes range ++ le 4 n ++ words).

Definition event_mask_packet (status config : Z) (bits : bytes) : bytes :=
  cntl_packet DIAG_CNTL_CMD_EVENT_MASK ([1; u8 status; config] ++ le 4 (zlen bits) ++ bits).

Lemma zlen_log_bits m e n bits : log_wf m -> log_abs m e = Some (n, bits) -> zlen bits <= 512.
Proof.
  intros (items & E & Hwf). destruct (decide (0 <= e < 16)) as [He|He].
  - rewrite (log_abs_eq _ _ _ E Hwf He).
    destruct (log_lookup_some _ _ Hwf He) as (it & -> & _ & (_ & Hn & _ & _ & (p & Hp & Hl & _))).
    cbn. unfold log_view. rewrite Hp. cbn. intros [= <- <-].
    pose proof (bits_bytes_small _ Hn) as Hb. unfold MAX_ITEMS_PER_EQUIP_ID in *.
    rewrite zlen_slice; lia.
  - rewrite log_abs_none; [done|by eexists|done].
Qed.

Lemma send_log_mask_ok p perif e h w :
  alloc_ok h -> log_wf (w_masks w) ->
  pf_objs (w_pf w) !! p = Some perif -> pf_cntl_fd perif <> -1 ->
  let status := diag_get_log_mask_status (w_masks w) in
  let pkt :=
    if status =? DIAG_CTRL_MASK_VALID then
      match log_abs (w_masks w) e with
      | Some (n, bits) => log_mask_packet status e n bits
      | None => log_mask_packet status e 0 []
      end
    else log_mask_packet status 0 0 [] in
  exists k, diag_cntl_send_log_mask p e h w = Done (tt, steps k h, send_cntl p pkt w).
Proof.
  intros Hh Hm Hp Hfd status pkt. unfold diag_cntl_send_log_mask.
  erewrite bind_done by reflexivity. cbv zeta. fold status.
  erewrite bind_done by (by apply get_perif_ok). destruct (Z.eqb_spec (pf_cntl_fd perif) (-1)); [done|].
  assert (exists e' n mask size body h1,
    (if status =? DIAG_CTRL_MASK_VALID then
         r ← zoom (diag_cmd_get_log_mask e);
         let '(_, num_items, mask, mask_size) := r in mret (e, num_items, mask, mask_size)
       else mret (0, 0, None, 0)) h w = Done ((e', n, mask, size), h1, w) /\
    (exists k, h1 = steps k h) /\ size = zlen body /\ zlen body <= 512 /\
    pkt = log_mask_packet status e' n body /\
    match mask with Some m => size <= zlen m /\ body = slice m 0 size | None => size = 0 /\ body = [] end)
    as (e' & n' & mask & size & body & h1 & E & [k ->] & -> & Hb & -> & Hmask).
  { subst pkt. destruct (status =? DIAG_CTRL_MASK_VALID).
    - destruct (diag_cmd_get_log_mask_ok (w_masks w) e h Hm Hh) as (k & E).
      erewrite bind_done by (erewrite zoom_done by exact E; reflexivity).
      rewrite over_view by done.
      destruct (log_abs (w_masks w) e) as [[n' bits]|] eqn:Ea.
      + exists e, n', (Some bits), (zlen bits), bits, (steps k h). split; [done|]. split; [by eexists|].
        split; [done|]. split; [by eapply zlen_log_bits|]. split; [done|]. split; [lia|by rewrite slice_0_all].
      + exists e, 0, None, 0, [], (steps k h). split; [done|]. split; [by eexists|]. by split_and!.
    - exists 0, 0, None, 0, [], h. split; [done|]. split; [exists 0%nat; by destruct h|]. by split_and!. }
  pose proof (zlen_nonneg body).
  erewrite bind_done by exact E. cbv beta iota zeta. exists (2 + k)%nat. unfold sizeof_log_mask, sizeof_cntl_hdr.
  match goal with |- context [write_at _ 0 ?hd] => set (hdr := hd) end.
  assert (zlen hdr = 19) as Hhdr by done. rewrite <- Hhdr.
  rewrite (build_pkt hdr mask (zlen body) body) by done.
  rewrite push_whole; [|done|rewrite zlen_app; lia|rewrite zlen_app; lia].
  unfold send_cntl. do 3 f_equal. f_equal. unfold log_mask_packet, cntl_packet. subst hdr.
  replace (19 + zlen body - 8) with (zlen ([1; u8 status; u8 e'] ++ le 4 n' ++ le 4 (zlen body) ++ body))
    by zlia. by rewrite <- !app_assoc.
Qed.

(** While log masks are valid, [diag_cntl_send_log_mask] queues on the
    peripheral's control channel the packet with the item count and bits the
    table holds for the id (none for an unknown id); otherwise the packet that
    carries only the status.  It changes nothing else. *)
Lemma diag_cntl_send_log_mask_packet p perif e h w :
  alloc_ok h -> log_wf (w_masks w) ->
  pf_objs (w_pf w) !! p = Some perif -> pf_cntl_fd perif <> -1 ->
  let status := diag_get_log_mask_status (w_masks w) in
  let pkt :=
    if status =? DIAG_CTRL_MASK_VALID then
      match log_abs (w_masks w) e with
      | Some (n, bits) => log_mask_packet status e n bits
      | None => log_mask_packet status e 0 []
      end
    else log_mask_packet status 0 0 [] in
  exists k, diag_cntl_send_log_mask p e h w = Done (tt, steps k h, send_cntl p pkt w).
Proof. apply send_log_mask_ok. Qed.

(** The entry [k] as a range. *)
Definition entry_range (k : nat) : ssid_range := (default 0 (ssid_first_arr !! k), default 0 (ssid_last_arr !! k)).

(** What [diag_cntl_send_msg_mask] queues for a request of table entry [k],
    and what it leaves in [*range]. *)
Definition msg_mask_reply (status : Z) (k : nat) (words : bytes) (r : ssid_range) : bytes * ssid_range :=
  let entry := entry_range k in
  let n := entry.2 - entry.1 + 1 in
  if status =? DIAG_CTRL_MASK_VALID then (msg_mask_packet status entry n (slice words 0 (4 * n)), entry)
  else if status =? DIAG_CTRL_MASK_ALL_DISABLED then (msg_mask_packet status (0, 0) 0 [], r)
  else if status =? DIAG_CTRL_MASK_ALL_ENABLED then (msg_mask_packet status entry 1 (slice words 0 4), entry)
  else (msg_mask_packet status r 0 [], r).

(** The mask an answer carries: [size] bytes, those of [body]. *)
Definition mask_of (mask : option bytes) (size : Z) (body : bytes) : Prop :=
  match mask with Some m => size <= zlen m /\ body = slice m 0 size | None => size = 0 /\ body = [] end.

Lemma msg_mask_items_ok status k r words h w :
  alloc_ok h -> msg_wf (w_masks w) -> in_entry k r -> msg_words (w_masks w) k = Some words ->
  let reply := msg_mask_reply status k words r in
  exists r' n mask body j,
    msg_mask_items status (Some r) h w = Done ((Some (reply.2), Some r', n, mask), steps j h, w) /\
    u32 (n * 4) = zlen body /\ zlen body <= 800 /\ reply.1 = msg_mask_packet status r' n body /\
    mask_of mask (zlen body) body.
Proof.
  intros Hh Hm Hr Hw. cbv zeta. unfold msg_mask_items, msg_mask_reply, mask_of.
  destruct (diag_cmd_get_msg_mask_ok (w_masks w) k r h words Hm Hr Hh Hw) as (first & last & E1 & E2 & Hl & E).
  destruct (entry_bounds k first last E1 E2) as (Hb1 & Hb2 & Hb3 & _).
  unfold entry_range. rewrite E1, E2. cbn [default from_option id fst snd].
  destruct (status =? DIAG_CTRL_MASK_VALID); [|destruct (status =? DIAG_CTRL_MASK_ALL_DISABLED);
    [|destruct (status =? DIAG_CTRL_MASK_ALL_ENABLED)]].
  - erewrite bind_done by reflexivity.
    erewrite bind_done by (erewrite zoom_done by exact E; reflexivity). rewrite over_view by done.
    cbn [fst snd]. rewrite u32_id by lia.
    exists (first, last), (last - first + 1), (Some words), (slice words 0 (4 * (last - first + 1))), 1%nat.
    rewrite u32_id by lia. rewrite zlen_slice by lia. split_and!; try done; lia.
  - exists (0, 0), 0, None, [], 0%nat. destruct h. by split_and!.
  - erewrite bind_done by reflexivity.
    erewrite bind_done by (erewrite zoom_done by exact E; reflexivity). rewrite over_view by done.
    cbn [fst snd]. exists (first, last), 1, (Some words), (slice words 0 4), 1%nat.
    rewrite zlen_slice by lia. split_and!; try done; lia.
  - exists r, 0, None, [], 0%nat. destruct h. by split_and!.
Qed.

Lemma send_msg_mask_ok p perif k r words h w :
  alloc_ok h -> msg_wf (w_masks w) -> in_entry k r -> msg_words (w_masks w) k = Some words ->
  pf_objs (w_pf w) !! p = Some perif -> pf_cntl_fd perif <> -1 ->
  let reply := msg_mask_reply (diag_get_msg_mask_status (w_masks w)) k words r in
  exists j, diag_cntl_send_msg_mask p (Some r) h w =
    Done (Some (reply.2), steps j h, send_cntl p (reply.1) w).
Proof.
  intros Hh Hm Hr Hw Hp Hfd. cbv zeta. unfold diag_cntl_send_msg_mask.
  set (status := diag_get_msg_mask_status (w_masks w)). set (reply := msg_mask_reply status k words r).
  erewrite bind_done by reflexivity. cbv zeta. fold status.
  erewrite bind_done by (by apply get_perif_ok). destruct (Z.eqb_spec (pf_cntl_fd perif) (-1)); [done|].
  destruct (msg_mask_items_ok status k r words h w Hh Hm Hr Hw) as (r' & n' & mask & body & j & Er & Hs & Hs' & Hpkt & Hmask).
  fold reply in Er, Hpkt. rewrite Hpkt.
  erewrite bind_done by exact Er. cbv beta iota zeta. exists (2 + j)%nat. rewrite Hs.
  unfold sizeof_msg_mask, sizeof_cntl_hdr. pose proof (zlen_nonneg body).
  set (hdr := cntl_hdr DIAG_CNTL_CMD_MSG_MASK (19 + zlen body - 8) ++ [1; u8 status; 0] ++
                ssid_range_bytes r' ++ le 4 n').
  assert (zlen hdr = 19) as Hhdr by done.
  pose proof (build_pkt hdr mask (zlen body) body
    (fun pkt => _ ← zoom (queue_push (QCntl p) pkt (19 + zlen body)); mret (Some (reply.2)))
    (steps j h) w Hh ltac:(lia) Hmask) as Hbuild. rewrite Hhdr in Hbuild.
  transitivity ((pkt ← stack (19 + zlen body); pkt ← write_at pkt 0 hdr; pkt ← write_mask pkt 19 mask (zlen body);
    _ ← zoom (queue_push (QCntl p) pkt (19 + zlen body)); mret (Some (reply.2))) (steps j h) w); [reflexivity|].
  rewrite Hbuild. erewrite bind_done by (apply push_whole; [done|rewrite zlen_app; lia|rewrite zlen_app; lia]).
  unfold mret, M_ret, send_cntl. do 3 f_equal. f_equal. unfold msg_mask_packet, cntl_packet. subst hdr.
  replace (19 + zlen body - 8) with (zlen ([1; u8 status; 0] ++ ssid_range_bytes r' ++ le 4 n' ++ body))
    by (unfold ssid_range_bytes; zlia). by rewrite <- !app_assoc.
Qed.

(** For a request inside a table entry, [diag_cntl_send_msg_mask] queues
    the packet of the mask's state: valid, the entry's range with its words;
    all enabled, the entry's range with its first word; all disabled, an empty
    mask for range 0; not set, an empty mask for the range asked for.  The
    caller's range is overwritten with the entry's in the first two cases, and
    nothing else changes. *)
Lemma diag_cntl_send_msg_mask_packet p perif k r words h w :
  alloc_ok h -> msg_wf (w_masks w) -> in_entry k r -> msg_words (w_masks w) k = Some words ->
  pf_objs (w_pf w) !! p = Some perif -> pf_cntl_fd perif <> -1 ->
  let reply := msg_mask_reply (diag_get_msg_mask_status (w_masks w)) k words r in
  exists j, diag_cntl_send_msg_mask p (Some r) h w =
    Done (Some (reply.2), steps j h, send_cntl p (reply.1) w).
Proof. apply send_msg_mask_ok. Qed.

(** *** The feature handshake *)

Definition set_perif (p : nat) (perif : peripheral) : world -> world :=
  over (fun s => PfState (<[p := perif]> (pf_objs s)) (pf_list s) (pf_fresh s)).

Lemma upd_perif_ok p perif f h w :
  pf_objs (w_pf w) !! p = Some perif -> upd_perif p f h w = Done (tt, h, set_perif p (f perif) w).
Proof.
  intros Hp. unfold upd_perif, modify. do 2 f_equal. unfold set_perif, over. cbn. do 2 f_equal.
  apply map_eq. intros q. destruct (decide (q = p)) as [->|Hne].
  - by rewrite lookup_alter_eq, lookup_insert_eq, Hp.
  - by rewrite lookup_alter_ne, lookup_insert_ne by done.
Qed.

Definition push_cntls (p : nat) (pkts : list bytes) (w : world) : world :=
  with_queues (foldl (fun q pkt => enqueue (QCntl p) None pkt q) (w_queues w) pkts) w.

Definition is_cntl (cmd : Z) (pkt : bytes) : Prop := exists body, pkt = cntl_packet cmd body.

Lemma is_cntl_intro cmd len body : len = zlen body -> is_cntl cmd (cntl_hdr cmd len ++ body).
Proof. intros ->. by exists body. Qed.

Lemma push_cntls_app p a b w : push_cntls p b (push_cntls p a w) = push_cntls p (a ++ b) w.
Proof. unfold push_cntls. by rewrite foldl_app. Qed.

Lemma push_cntls_nil p w : push_cntls p [] w = w.
Proof. by destruct w. Qed.

Lemma payloads_push_cntls p pkts w q :
  payloads (w_queues (push_cntls p pkts w)) q =
  payloads (w_queues w) q ++ (if decide (QCntl p = q) then pkts else []).
Proof.
  unfold push_cntls. cbn. generalize (w_queues w). induction pkts as [|pkt pkts IH]; intros s; cbn [foldl].
  - by case_decide; rewrite app_nil_r.
  - rewrite IH, payloads_enqueue. case_decide; rewrite <- app_assoc; done.
Qed.

Lemma msg_words_some m k : msg_wf m -> (k < 25)%nat -> exists words, msg_words m k = Some words.
Proof.
  intros (items & E & Hl & Hi) Hk. destruct (lookup_lt_is_Some_2 items k) as [it Hit]; [by rewrite Hl|].
  destruct (Hi _ _ Hit) as (_ & _ & _ & _ & _ & (b & Hb & _)). exists b.
  by rewrite (msg_words_eq m items k E), Hit.
Qed.

(** The tables are walked entry by entry. *)
Lemma ssid_table_ranges : zip ssid_first_arr ssid_last_arr = entry_range <$> seq 0 25.
Proof. reflexivity. Qed.

Lemma entry_range_in k : (k < 25)%nat -> in_entry k (entry_range k).
Proof.
  intros Hk. destruct (lookup_lt_is_Some_2 ssid_first_arr k) as [f Hf]; [done|].
  destruct (lookup_lt_is_Some_2 ssid_last_arr k) as [l Hl]; [done|].
  destruct (entry_bounds k f l Hf Hl) as (? & ? & ? & ?).
  exists f, l. unfold entry_range. rewrite Hf, Hl. cbn. repeat split; (done || lia).
Qed.

(** The packet for entry [k], and the packets for the whole table. *)
Definition mask_packet (m : masks) (k : nat) : bytes :=
  (msg_mask_reply (diag_get_msg_mask_status m) k (default [] (msg_words m k)) (entry_range k)).1.

Definition mask_packets (m : masks) : list bytes := mask_packet m <$> seq 0 25.

Lemma mask_packets_length m : length (mask_packets m) = 25%nat.
Proof. unfold mask_packets. by rewrite length_fmap, length_seq. Qed.

Lemma mask_packets_cntl m : Forall (is_cntl DIAG_CNTL_CMD_MSG_MASK) (mask_packets m).
Proof.
  apply Forall_fmap, Forall_forall. intros k _. unfold compose, mask_packet, msg_mask_reply.
  repeat case_match; by eexists.
Qed.

Lemma send_entries_ok p perif m ks h w :
  alloc_ok h -> w_masks w = m -> msg_wf m -> pf_objs (w_pf w) !! p = Some perif -> pf_cntl_fd perif <> -1 ->
  Forall (fun k => k < 25)%nat ks ->
  exists j, for_each (fun r => _ ← diag_cntl_send_msg_mask p (Some r); mret tt) (entry_range <$> ks) h w =
    Done (tt, steps j h, push_cntls p (mask_packet m <$> ks) w).
Proof.
  intros Hh Hw Hm Hp Hfd Hks. revert h w Hh Hw Hp. induction Hks as [|k ks Hk _ IH]; intros h w Hh Hw Hp.
  { exists 0%nat. rewrite !fmap_nil, push_cntls_nil. by destruct h. }
  destruct (msg_words_some m k Hm Hk) as [words Hwords].
  destruct (send_msg_mask_ok p perif k (entry_range k) words h w Hh) as [j E];
    [by rewrite Hw|by apply entry_range_in|by rewrite Hw|done|done|].
  assert ((msg_mask_reply (diag_get_msg_mask_status (w_masks w)) k words (entry_range k)).1 = mask_packet m k) as Ek
    by (unfold mask_packet; by rewrite Hw, Hwords).
  rewrite Ek in E. destruct (IH (steps j h) (push_cntls p [mask_packet m k] w)) as (j' & E'); [auto with diag|done|done|].
  exists (j' + j)%nat. rewrite !fmap_cons. cbn [for_each].
  erewrite bind_done by (erewrite bind_done by exact E; reflexivity).
  change (send_cntl p (mask_packet m k) w) with (push_cntls p [mask_packet m k] w).
  by rewrite E', push_cntls_app, steps_steps.
Qed.

(** [diag_cntl_send_masks] queues the packets of the table, in its order. *)
Lemma send_masks_ok p perif h w :
  alloc_ok h -> msg_wf (w_masks w) -> pf_objs (w_pf w) !! p = Some perif -> pf_cntl_fd perif <> -1 ->
  exists j, diag_cntl_send_masks p h w = Done (tt, steps j h, push_cntls p (mask_packets (w_masks w)) w).
Proof.
  intros Hh Hm Hp Hfd. unfold diag_cntl_send_masks. rewrite ssid_table_ranges.
  eapply send_entries_ok; try done. apply Forall_forall. intros k Hk%elem_of_seq. lia.
Qed.

(** The packets of the handshake.  The feature packet ends in two bytes the
    router never wrote; a peripheral with a diag id gets version 2 of the mode
    and the buffering packet, which carry it. *)
Definition feature_packet (features : Z) (junk : bytes) : bytes :=
  cntl_packet DIAG_CNTL_CMD_FEATURE_MASK (le 4 4 ++ le 4 features ++ junk).

Definition mode_packet (diag_id : Z) (real_time : bool) : bytes :=
  let rt := if real_time then 1 else 0 in
  let body := le 4 rt ++ le 4 rt ++ replicate 24 0 in
  cntl_packet DIAG_CNTL_CMD_DIAG_MODE
    (if diag_id =? 0 then le 4 1 ++ body else le 4 2 ++ body ++ [u8 diag_id]).

Definition buffering_packet (diag_id mode : Z) : bytes :=
  cntl_packet DIAG_CNTL_CMD_BUFFERING_TX_MODE
    (if diag_id =? 0 then le 4 1 ++ [0; u8 mode] else le 4 2 ++ [u8 diag_id; 0; u8 mode]).

Definition handshake (perif : peripheral) (m : masks) (features : Z) (junk : bytes) : list bytes :=
  [feature_packet features junk] ++ mask_packets m ++
  [mode_packet (pf_diag_id perif) true; buffering_packet (pf_diag_id perif) 0].

Lemma set_diag_mode_ok p perif rt h w :
  alloc_ok h -> pf_objs (w_pf w) !! p = Some perif ->
  diag_cntl_set_diag_mode p rt h w = Done (tt, tick h, push_cntls p [mode_packet (pf_diag_id perif) rt] w).
Proof.
  intros Hh Hp. unfold diag_cntl_set_diag_mode, mode_packet. erewrite bind_done by (by apply get_perif_ok).
  destruct (pf_diag_id perif =? 0); cbn [negb]; by apply push_whole.
Qed.

Lemma set_buffering_mode_ok p perif mode h w :
  alloc_ok h -> pf_objs (w_pf w) !! p = Some perif ->
  diag_cntl_set_buffering_mode p mode h w = Done (tt, tick h, push_cntls p [buffering_packet (pf_diag_id perif) mode] w).
Proof.
  intros Hh Hp. unfold diag_cntl_set_buffering_mode, buffering_packet. erewrite bind_done by (by apply get_perif_ok).
  destruct (pf_diag_id perif =? 0); cbn [negb]; by apply push_whole.
Qed.

Lemma send_feature_mask_ok p perif f h w :
  alloc_ok h -> msg_wf (w_masks w) -> pf_objs (w_pf w) !! p = Some perif -> pf_cntl_fd perif <> -1 ->
  exists j junk, zlen junk = 2 /\
    diag_cntl_send_feature_mask p f h w =
      Done (tt, steps j h, push_cntls p (handshake perif (w_masks w) f junk) w).
Proof.
  intros Hh Hm Hp Hfd. unfold diag_cntl_send_feature_mask. erewrite bind_done by (by apply get_perif_ok).
  destruct (Z.eqb_spec (pf_cntl_fd perif) (-1)); [done|].
  change (sizeof_feature + 2) with 18. change (18 - sizeof_cntl_hdr) with 10.
  destruct (stack_ok 18 h w) as (obj & E & _ & Hl). specialize (Hl ltac:(lia)).
  erewrite bind_done by exact E. unfold write_at.
  set (hdr := cntl_hdr _ 10 ++ le 4 4 ++ le 4 f). assert (zlen hdr = 16) as Hhdr by done.
  erewrite bind_done by (unfold lift; rewrite mem_write_ok by lia; reflexivity).
  assert (splice obj 0 hdr = hdr ++ drop 16 obj) as -> by done.
  assert (zlen (drop 16 obj) = 2) as Hj by (rewrite zlen_drop; lia).
  erewrite bind_done by (apply push_whole; [done|rewrite zlen_app; lia|rewrite zlen_app; lia]).
  change (send_cntl p (hdr ++ drop 16 obj) w) with (push_cntls p [hdr ++ drop 16 obj] w).
  assert (hdr ++ drop 16 obj = feature_packet f (drop 16 obj)) as ->.
  { unfold feature_packet, cntl_packet. rewrite !zlen_app, Hj. done. }
  destruct (send_masks_ok p perif (tick (tick h)) (push_cntls p [feature_packet f (drop 16 obj)] w)) as (j & E2); try done.
  erewrite bind_done by exact E2. rewrite push_cntls_app.
  erewrite bind_done by (apply set_diag_mode_ok; [auto with diag|exact Hp]). rewrite push_cntls_app.
  erewrite set_buffering_mode_ok; [|auto with diag|exact Hp]. rewrite push_cntls_app.
  exists (4 + j)%nat, (drop 16 obj). split; [exact Hj|]. unfold handshake. rewrite <- !app_assoc. do 3 f_equal.
  unfold steps, tick. cbn. f_equal. lia.
Qed.

(** C34 A feature packet ends the negotiation: the peripheral's features become
    those both sides have (its mask and what the router offers it), and its
    control queue gets exactly the packets of [handshake], in this order: the
    router's feature packet, the mask packet of each of the 25 entries of the
    table (the entry's own range and words while masks are valid), the mode
    packet asking for real time and the buffering packet for mode 0, both in
    the version that fits the peripheral's diag id.  Only the last two bytes of
    the feature packet are not determined: the code sends two bytes more than
    it wrote.  Nothing else changes. *)
Theorem diag_cntl_feature_mask_handshake p perif buf hdr len mask h w :
  alloc_ok h -> msg_wf (w_masks w) -> pf_objs (w_pf w) !! p = Some perif -> pf_cntl_fd perif <> -1 ->
  rd 4 buf (hdr + 12) = Done mask ->
  let features := Z.land mask (local_features perif) in
  exists j w' junk, zlen junk = 2 /\
    diag_cntl_feature_mask p buf hdr len h w = Done (0, steps j h, w') /\
    w' = push_cntls p (handshake perif (w_masks w) features junk) (set_perif p (pf_with_features features perif) w) /\
    pf_objs (w_pf w') !! p = Some (pf_with_features features perif) /\
    payloads (w_queues w') (QCntl p) =
      payloads (w_queues w) (QCntl p) ++ handshake perif (w_masks w) features junk /\
    (forall q, q <> QCntl p -> payloads (w_queues w') q = payloads (w_queues w) q).
Proof.
  intros Hh Hm Hp Hfd Hmask features. unfold diag_cntl_feature_mask.
  erewrite bind_done by (unfold lift; rewrite Hmask; reflexivity).
  erewrite bind_done by (by apply get_perif_ok). fold features.
  erewrite bind_done by (by apply upd_perif_ok). set (w1 := set_perif _ _ w).
  assert (pf_objs (w_pf w1) !! p = Some (pf_with_features features perif)) as Hp1 by apply lookup_insert_eq.
  destruct (send_feature_mask_ok p _ features h w1 Hh Hm Hp1 Hfd) as (j & junk & Hj & E).
  exists j. eexists. exists junk. split; [exact Hj|].
  split; [erewrite bind_done by exact E; reflexivity|]. split; [reflexivity|]. split; [exact Hp1|].
  rewrite payloads_push_cntls, decide_True by done. split; [done|].
  intros q Hq. by rewrite payloads_push_cntls, decide_False, app_nil_r by congruence.
Qed.
