(* ===== verification/DiagIds.v ===== *)
(** * Diag ids: the id table of [router/diag_cntl.c]

    The table stands for a list of (id, process name); assigning an id refines
    an operation on that list.  The definitions are those of [Cntl]. *)

From S2P Require Import Prelude Util CircBuf Hdlc Masks MaskTables Queue Watch World Cntl CntlProps.

(** ** The list a table stands for *)

(** A process name: a C string that fits its length byte. *)
Definition name_ok (name : bytes) : Prop := Forall (fun b => 0 < b < 256) name /\ zlen name < 255.

Definition id_obj (id : Z) (name slack : bytes) : bytes := [id; zlen name + 1] ++ name ++ [0] ++ slack.

Definition entry_is (d : diag_id_tbl) (e : Z * bytes) : Prop :=
  is_byte (e.1) /\ name_ok (e.2) /\ di_info_len d = u8 (zlen (e.2) + 3) /\
  exists slack, di_info d = id_obj (e.1) (e.2) slack.

Definition ids_view (s : idstate) (v : list (Z * bytes)) : Prop := Forall2 entry_is (diag_ids s) v.

Definition assign_spec (version pkt_id : Z) (name : bytes) (v : list (Z * bytes)) (last : Z)
    : option Z * list (Z * bytes) * Z :=
  match list_find (fun e => e.2 = name) v with
  | Some (_, e) => (Some (e.1), v, last)
  | None =>
      let v3 := DIAG_ID_VERSION_3 <=? version in
      let local := if v3 then pkt_id else u32 (last + 1) in
      let last := if v3 then last else u32 (last + 1) in
      if existsb (fun e => local =? e.1) v || (u8 local =? 0) then (None, v, last)
      else (Some local, v ++ [(u8 local, name)], last)
  end.

(** ** The table operations implement it *)

Lemma cstring_name name rest : Forall (fun b => 0 < b < 256) name -> cstring (name ++ 0 :: rest) = Done name.
Proof.
  induction 1 as [|b name Hb Hn IH]; [done|]. cbn. destruct (Z.eqb_spec b 0); [lia|].
  change (name ++ 0 :: rest) with (name ++ 0 :: rest). by rewrite IH.
Qed.

Lemma entry_reads d e : entry_is d e -> di_id d = Done (e.1) /\ di_name d = Done (e.2).
Proof.
  intros (Hid & (Hn & _) & _ & (slack & Hi)). unfold di_id, di_name. rewrite Hi. unfold id_obj. split.
  - by apply rd_byte.
  - change (drop 2 ([e.1; zlen e.2 + 1] ++ e.2 ++ [0] ++ slack)) with (e.2 ++ 0 :: slack). by apply cstring_name.
Qed.

Lemma find_loop_ok name l v :
  Forall2 entry_is l v ->
  find_diag_id_loop name l = Done ((fun e => e.2.1) <$> list_find (fun e => e.2 = name) v).
Proof.
  induction 1 as [|d e l v Hd Hl IH]; [done|]. destruct (entry_reads d e Hd) as [E1 E2].
  cbn [find_diag_id_loop list_find]. rewrite E2. cbn [mbind outcome_bind].
  destruct (decide (e.2 = name)) as [Hn|Hn].
  - rewrite bool_decide_true by done. by rewrite E1.
  - rewrite bool_decide_false by done. rewrite IH.
    by destruct (list_find (fun e => e.2 = name) v) as [[]|].
Qed.

Lemma exists_loop_ok id l v :
  Forall2 entry_is l v -> diag_id_exists_loop id l = Done (existsb (fun e => id =? e.1) v).
Proof.
  induction 1 as [|d e l v Hd Hl IH]; [done|]. destruct (entry_reads d e Hd) as [E1 _].
  cbn [diag_id_exists_loop existsb]. rewrite E1. cbn [mbind outcome_bind].
  destruct (id =? e.1); [done|exact IH].
Qed.

Lemma strncpy_exact n s : n = zlen s -> strncpy n s = s.
Proof.
  intros ->. unfold strncpy, zlen. rewrite Nat2Z.id, Nat.sub_diag. rewrite firstn_all.
  change (replicate 0 0) with (@nil Z). by rewrite app_nil_r.
Qed.

Lemma register_ok id name h s v :
  alloc_ok h -> ids_view s v -> is_byte id -> id <> 0 -> name_ok name ->
  exists s', register_diag_id id name (u8 (zlen name + 1)) h s = Done (0, tick h, s') /\
    ids_view s' (v ++ [(id, name)]) /\ id_last s' = id_last s.
Proof.
  intros Hh Hv Hid Hid0 Hn. pose proof Hn as [_ Hl]. pose proof (zlen_nonneg name).
  unfold register_diag_id. rewrite u8_id by lia.
  destruct (Z.eqb_spec (zlen name + 1) 0); [lia|]. destruct (Z.eqb_spec id 0); [done|]. cbn [orb].
  destruct (malloc_ok (sizeof_diag_id_tbl + (zlen name + 1)) h s Hh) as (obj & E & _ & Ho).
  unfold sizeof_diag_id_tbl, offsetof_diagid_info in *. specialize (Ho ltac:(lia)).
  erewrite bind_done by exact E. cbv beta iota.
  rewrite strncpy_exact by lia. set (src := [id; zlen name + 1] ++ name ++ [0]).
  assert (zlen src = zlen name + 3) as Hs by (subst src; zlia).
  assert (zlen (drop (Z.to_nat 17) obj) = zlen name + 8) as Hd by (rewrite zlen_drop; lia).
  erewrite bind_done by (unfold lift; rewrite mem_write_ok by lia; reflexivity).
  eexists. split; [reflexivity|]. split; [|done].
  apply Forall2_app; [exact Hv|]. constructor; [|constructor]. split; [done|]. split; [done|].
  cbn [fst snd di_info_len di_info]. split; [f_equal; lia|].
  eexists. unfold splice, id_obj. change (Z.to_nat 0) with 0%nat. rewrite take_0. cbn [app].
  subst src. by rewrite <- !app_assoc.
Qed.

Lemma assign_ok version pkt_id name h s v :
  alloc_ok h -> ids_view s v -> name_ok name ->
  exists k s', assign_diag_id version pkt_id name (u8 (zlen name + 1)) h s =
      Done ((assign_spec version pkt_id name v (id_last s)).1.1, steps k h, s') /\
    ids_view s' (assign_spec version pkt_id name v (id_last s)).1.2 /\
    id_last s' = (assign_spec version pkt_id name v (id_last s)).2.
Proof.
  intros Hh Hv Hn. unfold assign_diag_id, assign_spec.
  erewrite bind_done by (unfold find_diag_id; mrun; rewrite (find_loop_ok name _ v Hv); reflexivity).
  destruct (list_find (fun e => e.2 = name) v) as [[i e]|]; cbn [fmap option_fmap option_map].
  { exists 0%nat, s. split; [by destruct h|]. done. }
  set (local := if DIAG_ID_VERSION_3 <=? version then pkt_id else u32 (id_last s + 1)).
  set (last := if DIAG_ID_VERSION_3 <=? version then id_last s else u32 (id_last s + 1)).
  set (s1 := IdState (diag_ids s) last).
  assert ((if DIAG_ID_VERSION_3 <=? version then mret pkt_id
     else s ← get; _ ← set_id_last (u32 (id_last s + 1)); mret (u32 (id_last s + 1))) h s
     = Done (local, h, s1)) as E1.
  { subst local s1 last. destruct (DIAG_ID_VERSION_3 <=? version); [by destruct s|done]. }
  erewrite bind_done by exact E1.
  erewrite bind_done by (unfold diag_id_exists; mrun; rewrite (exists_loop_ok local (diag_ids s1) v Hv); reflexivity).
  destruct (existsb (fun e => local =? e.1) v); cbn [orb].
  { exists 0%nat, s1. split; [by destruct h|]. done. }
  destruct (Z.eqb_spec (u8 local) 0) as [E0|E0].
  - exists 0%nat, s1. unfold register_diag_id. rewrite E0, orb_true_r. split; [by destruct h|]. done.
  - destruct (register_ok (u8 local) name h s1 v Hh Hv (u8_is_byte local) E0 Hn) as (s2 & E2 & Hv2 & Hl2).
    exists 1%nat, s2. erewrite bind_done by exact E2. split; [done|]. split; [done|]. by rewrite Hl2.
Qed.

(** ** Properties *)

(** Every process name once, every id once. *)
Definition ids_unique (v : list (Z * bytes)) : Prop := NoDup (v.*1) /\ NoDup (v.*2).

(** C35 Assigning a diag id works on the list of (id, name) pairs the table
    stands for: a known name gets its id again; a new name gets the id of the
    packet (from version 3 on) or the next one, unless that id is taken, in
    which case nothing is registered; the registered name is found again; and
    names and ids stay unique as long as the id fits a byte. *)
Theorem assign_diag_id_refines version pkt_id name h s v :
  alloc_ok h -> ids_view s v -> name_ok name ->
  let '(r, v', last') := assign_spec version pkt_id name v (id_last s) in
  exists k s', assign_diag_id version pkt_id name (u8 (zlen name + 1)) h s = Done (r, steps k h, s') /\
    ids_view s' v' /\ id_last s' = last' /\
    (forall id, r = Some id -> find_diag_id name h s' = Done (Some (u8 id), h, s') \/ (id, name) ∈ v) /\
    (ids_unique v -> (forall id, r = Some id -> is_byte id) -> ids_unique v').
Proof.
  intros Hh Hv Hn. destruct (assign_ok version pkt_id name h s v Hh Hv Hn) as (k & s' & E & Hv' & Hl).
  destruct (assign_spec version pkt_id name v (id_last s)) as [[r v'] last'] eqn:Es. cbn [fst snd] in *.
  exists k, s'. split; [exact E|]. split; [exact Hv'|]. split; [exact Hl|].
  unfold assign_spec in Es.
  destruct (list_find (fun e => e.2 = name) v) as [[i e]|] eqn:Ef.
  { injection Es as <- <- <-. split; [|done]. intros id [= <-]. right.
    apply list_find_Some in Ef as (He & <- & _). apply list_elem_of_lookup. exists i. by destruct e. }
  apply list_find_None in Ef. set (local := if DIAG_ID_VERSION_3 <=? version then _ else _) in Es.
  destruct (existsb (fun e => local =? e.1) v) eqn:Ex; cbn [orb] in Es; [by injection Es as <- <- <-|].
  destruct (u8 local =? 0); [by injection Es as <- <- <-|]. injection Es as <- <- <-. split.
  - intros id [= <-]. left. unfold find_diag_id. mrun. rewrite (find_loop_ok name _ _ Hv').
    assert (list_find (fun e : Z * bytes => e.2 = name) (v ++ [(u8 local, name)]) =
            Some (length v, (u8 local, name))) as ->; [|done].
    apply list_find_Some. split; [|split; [done|]].
    + rewrite lookup_app_r by lia. by rewrite Nat.sub_diag.
    + intros j y Hj Hlt. rewrite lookup_app_l in Hj by done.
      exact (proj1 (Forall_lookup _ _) Ef j y Hj).
  - intros [Hu1 Hu2] Hb. specialize (Hb local eq_refl). unfold is_byte in Hb. rewrite u8_id in * by lia.
    split; rewrite fmap_app; apply NoDup_app; (split; [done|split; [|apply NoDup_singleton]]);
      intros x Hx ->%list_elem_of_singleton; apply list_elem_of_fmap in Hx as (y & Hy1 & Hy).
    + assert (existsb (fun e => local =? e.1) v = true) as Ex'; [|congruence].
      apply existsb_exists. exists y. split; [by apply list_elem_of_In|]. cbn in Hy1. lia.
    + rewrite Forall_forall in Ef. by apply (Ef y Hy).
Qed.

(** The version-3 packets of a peripheral can break that: id 257 is not
    found in the table when 1 is there, but registered as its low byte, so that
    two processes share id 1. *)
Lemma diag_id_truncation_duplicates :
  let s0 := IdState [] DIAG_ID_APPS in
  exists h s, (_ ← assign_diag_id 3 1 [97] 2; assign_diag_id 3 257 [98] 2) never_fails s0 =
      Done (Some 257, h, s) /\
    ids_view s [(1, [97]); (1, [98])].
Proof.
  do 2 eexists. split; [by vm_compute|].
  assert (forall b, 0 < b < 256 -> name_ok [b]) as Hn.
  { intros b Hb. split; [by repeat constructor; lia|]. change (zlen [b]) with 1. lia. }
  constructor; [|constructor; [|constructor]]; (split; [done|]; split; [apply Hn; cbn; lia|]; split; [done|]);
    by eexists.
Qed.

Lemma assign_diag_id_refines_witness :
  exists k s', assign_diag_id 1 0 [109; 111] 3 never_fails (IdState [] 1) = Done (Some 2, steps k never_fails, s') /\
    ids_view s' [(2, [109; 111])].
Proof.
  destruct (assign_diag_id_refines 1 0 [109; 111] never_fails (IdState [] 1) []) as (k & s' & E & Hv & _).
  - intros k. by eexists.
  - constructor.
  - split; [by repeat constructor; apply Z.ltb_lt|by apply Z.ltb_lt].
  - exists k, s'. split; [exact E|exact Hv].
Defined.

(** C36 A diag-id packet of version 1: the peripheral gets back the id assigned
    to its process name, with the name, in one control packet; later packets
    count on from that id; an id that is taken gets no answer. *)
Theorem diag_cntl_process_diag_id_reply p perif buf hdr len name rest version v h w :
  alloc_ok h -> ids_view (w_ids w) v -> name_ok name ->
  pf_objs (w_pf w) !! p = Some perif -> version < DIAG_ID_VERSION_2 ->
  rd 4 buf (hdr + 8) = Done version -> sizeof_diag_id <= len -> 0 <= hdr ->
  drop (Z.to_nat (hdr + 16)) buf = name ++ 0 :: rest ->
  let r := assign_spec version 0 name v (id_last (w_ids w)) in
  exists k w', diag_cntl_process_diag_id p buf hdr len h w =
      Done (match r.1.1 with Some _ => 0 | None => - EINVAL end, steps k h, w') /\
    ids_view (w_ids w') (r.1.2) /\
    match r.1.1 with
    | Some id => id_last (w_ids w') = id /\
        w_queues w' = enqueue (QCntl p) None
          (cntl_packet DIAG_CNTL_CMD_DIAG_ID (le 4 DIAG_ID_VERSION_1 ++ le 4 id ++ name ++ [0])) (w_queues w)
    | None => id_last (w_ids w') = r.2 /\ w_queues w' = w_queues w
    end /\
    w_masks w' = w_masks w /\ w_cmds w' = w_cmds w /\ w_dm w' = w_dm w /\ w_pf w' = w_pf w.
Proof.
  intros Hh Hv Hn Hp Hver Ev Hlen Hhdr Hname. cbv zeta. unfold diag_cntl_process_diag_id.
  erewrite bind_done by (unfold lift; rewrite Ev; reflexivity).
  erewrite bind_done by (by apply get_perif_ok).
  destruct (Z.leb_spec DIAG_ID_VERSION_2 version); [lia|]. rewrite andb_false_r.
  destruct (Z.ltb_spec len sizeof_diag_id); [lia|].
  erewrite bind_done by reflexivity. rewrite Hname.
  pose proof Hn as [Hchars Hnl]. pose proof (zlen_nonneg name).
  erewrite bind_done by (unfold lift; rewrite cstring_name by done; reflexivity).
  assert (zlen (drop (Z.to_nat (hdr + 16)) buf) = zlen name + 1 + zlen rest) as Hb.
  { rewrite Hname, zlen_app, zlen_cons. lia. }
  pose proof (zlen_nonneg rest). rewrite zlen_drop in Hb.
  destruct (rd_done 4 buf (hdr + 12)) as (pkt_id & E12 & _); [lia|lia|].
  erewrite bind_done by (unfold lift; rewrite E12; reflexivity).
  assert (assign_spec version pkt_id name v (id_last (w_ids w)) =
          assign_spec version 0 name v (id_last (w_ids w))) as Hs.
  { unfold assign_spec, DIAG_ID_VERSION_3, DIAG_ID_VERSION_2 in *.
    by destruct (Z.leb_spec 3 version); [lia|]. }
  destruct (assign_ok version pkt_id name h (w_ids w) v Hh Hv Hn) as (k & s' & E & Hv' & Hl). rewrite Hs in *.
  set (r := assign_spec version 0 name v (id_last (w_ids w))) in *.
  erewrite bind_done by (erewrite zoom_done by exact E; reflexivity).
  destruct (r.1.1) as [id|].
  2:{ exists k. eexists. split; [reflexivity|]. cbn. done. }
  erewrite bind_done by reflexivity. rewrite u8_id by lia.
  destruct (Z.eqb_spec (zlen name + 1) 0); [lia|]. rewrite strncpy_exact by lia.
  set (pkt := cntl_hdr _ _ ++ _).
  assert (pkt = cntl_packet DIAG_CNTL_CMD_DIAG_ID (le 4 DIAG_ID_VERSION_1 ++ le 4 id ++ name ++ [0])) as Hpkt.
  { subst pkt. unfold cntl_packet. do 2 f_equal. zlia. }
  assert (zlen pkt = zlen name + 17) as Hz.
  { subst pkt. rewrite !zlen_app, !zlen_le. change (zlen (cntl_hdr _ _)) with 8. change (zlen [0]) with 1. lia. }
  unfold write_at. assert (zlen (replicate (Z.to_nat DIAG_MAX_RSP_SIZE) 0) = 16384) as Hr.
  { rewrite zlen_replicate. done. }
  erewrite bind_done by (unfold lift; rewrite mem_write_ok by lia; reflexivity).
  unfold sizeof_cntl_hdr.
  erewrite bind_done by (apply zoom_push; [done|rewrite zlen_splice; lia|lia]).
  rewrite <- Hpkt. exists (1 + k)%nat. eexists. split; [reflexivity|]. split; [exact Hv'|].
  split; [|split_and!; reflexivity]. split; [reflexivity|]. unfold with_queues. cbn [w_queues over queues_lens]. f_equal.
  replace (4 + 4 + (zlen name + 1) + 8) with (zlen pkt) by lia.
  apply slice_splice; lia.
Qed.
