(* ===== verification/Peripheral.v ===== *)
(** * Peripheral: [router/peripheral.c] and the data paths of
    [router/peripheral-rpmsg.c] and [router/peripheral-qrtr.c]

    Sending to a peripheral through its transport, broadcasting masks, the
    receive callbacks of the rpmsg channels, and closing. *)

From S2P Require Import Prelude CircBuf Hdlc Masks Queue Watch World Dm Cntl.

(** ** Sending *)

Definition has_feature (perif : peripheral) (f : Z) : bool := negb (Z.land (pf_features perif) f =? 0).

Definition perif_rpmsg_send (p : nat) (msg : bytes) (len : Z) : M world Z :=
  perif ← get_perif p;
  let queue := if has_feature perif DIAG_FEATURE_REQ_RSP_SUPPORT then QCmd p else QData p in
  if has_feature perif DIAG_FEATURE_APPS_HDLC_ENCODE then
    _ ← zoom (queue_push queue msg len); mret 0
  else
    _ ← zoom (hdlc_enqueue queue msg len); mret 0.

Definition qrtr_perif_send (p : nat) (msg : bytes) (len : Z) : M world Z :=
  perif ← get_perif p;
  if has_feature perif DIAG_FEATURE_APPS_HDLC_ENCODE then
    _ ← zoom (queue_push (QCmd p) msg len); mret 0
  else
    _ ← zoom (hdlc_enqueue (QCmd p) msg len); mret 0.

Definition peripheral_send (p : nat) (msg : bytes) (len : Z) : M world Z :=
  perif ← get_perif p;
  match pf_transport perif with
  | Rpmsg => perif_rpmsg_send p msg len
  | Qrtr => qrtr_perif_send p msg len
  end.

(** ** Broadcasting masks *)

Definition peripheral_broadcast_event_mask : M world unit :=
  w ← get; for_each diag_cntl_send_event_mask (pf_list (w_pf w)).

Definition peripheral_broadcast_log_mask (equip_id : Z) : M world unit :=
  w ← get; for_each (fun p => diag_cntl_send_log_mask p equip_id) (pf_list (w_pf w)).

(** All peripherals share the caller's range. *)
Fixpoint broadcast_msg_loop (ps : list nat) (range : option ssid_range) : M world (option ssid_range) :=
  match ps with
  | [] => mret range
  | p :: ps => range ← diag_cntl_send_msg_mask p range; broadcast_msg_loop ps range
  end.

Definition peripheral_broadcast_msg_mask (range : option ssid_range) : M world (option ssid_range) :=
  w ← get; broadcast_msg_loop (pf_list (w_pf w)) range.

(** ** Closing *)

Definition perif_rpmsg_close (p : nat) : M world unit :=
  perif ← get_perif p;
  _ ← diag_cntl_close p;
  _ ← zoom (watch_remove_fd (pf_data_fd perif));
  _ ← zoom (watch_remove_fd (pf_cntl_fd perif));
  _ ← zoom (watch_remove_fd (pf_cmd_fd perif));
  modify (over (fun s => PfState (delete p (pf_objs s)) (filter (fun q => q <> p) (pf_list s)) (pf_fresh s))).

Definition peripheral_close (p : nat) : M world unit :=
  perif ← get_perif p;
  match pf_transport perif with Rpmsg => perif_rpmsg_close p | Qrtr => mret tt end.

(** ** The rpmsg receive callbacks *)

(** The command channel: one non-HDLC frame.  After a failed read the check
    runs on the buffer as the stack left it, with -1 bytes received. *)
Definition diag_cmd_recv (p : nat) (fd : Z) : M world Z :=
  buf ← stack APPS_BUF_SIZE;
  r ← sys_read fd APPS_BUF_SIZE;
  rb ← match r with
       | inl errno =>
           _ ← (if negb (errno =? EAGAIN) then peripheral_close p else mret tt);
           mret (-1, buf)
       | inr d => b ← lift (mem_write buf 0 d); mret (zlen d, b)
       end;
  let '(len, buf) := rb : Z * bytes in
  ok ← lift (non_hdlc_check buf len);
  match ok with
  | None => mret 0
  | Some length =>
      _ ← dm_broadcast (drop (Z.to_nat sizeof_pkt_frame) buf) length None; mret 0
  end.

Definition pf_with_recv (b : circ_buf) (d : hdlc_decoder) (p : peripheral) : peripheral :=
  Peripheral (pf_name p) (pf_features p) (pf_cntl_fd p) (pf_cntl_open p) (pf_data_fd p) (pf_data_open p)
    (pf_cmd_fd p) (pf_dci_cmd_fd p) (pf_flow p) (pf_diag_id p) (pf_sockets p) b d (pf_transport p).

(** The inner loop: every complete frame in the ring. *)
Fixpoint drain_frames (fuel : nat) (p : nat) : M world unit :=
  match fuel with
  | O => lift Spin
  | S fuel =>
      perif ← get_perif p;
      r ← lift (hdlc_decode_one (pf_recv_decoder perif) (pf_recv_buf perif));
      let '(msg, d, b) := r in
      _ ← upd_perif p (pf_with_recv b d);
      match msg with
      | None => mret tt
      | Some msglen =>
          _ ← dm_broadcast (hd_raw_buf d) msglen (pf_flow perif);
          drain_frames fuel p
      end
  end.

(** [circ_read] on a descriptor of the environment. *)
Definition env_circ_read (fd : Z) (b : circ_buf) : M env (ssize * circ_buf) := fun h e =>
  match circ_read (default [] (e_fds e !! fd)) b with
  | Done (r, f, b) => Done ((r, b), h, Env (<[fd := f]> (e_fds e)) (e_results e) (e_senders e) (e_udev e) (e_aio e))
  | UB => UB
  | Exit => Exit
  | Spin => Spin
  end.

Definition sys_circ_read (fd : Z) (b : circ_buf) : M world (ssize * circ_buf) := zoom (env_circ_read fd b).

(** The outer loop returns only with an error of the read. *)
Fixpoint diag_data_recv_hdlc (fuel : nat) (p : nat) (fd : Z) : M world Z :=
  match fuel with
  | O => lift Spin
  | S fuel =>
      perif ← get_perif p;
      r ← sys_circ_read fd (pf_recv_buf perif);
      let '(r, b) := r in
      _ ← upd_perif p (pf_with_recv b (pf_recv_decoder perif));
      match r with
      | inl errno => mret (- errno)
      | inr _ =>
          _ ← drain_frames (Z.to_nat HDLC_BUF_SIZE) p;
          diag_data_recv_hdlc fuel p fd
      end
  end.

Fixpoint diag_data_recv_raw (fuel : nat) (p : nat) (fd : Z) (buf : bytes) : M world Z :=
  match fuel with
  | O => lift Spin
  | S fuel =>
      perif ← get_perif p;
      r ← sys_read fd 4096;
      match r with
      | inl errno => mret (- errno)
      | inr d =>
          buf ← lift (mem_write buf 0 d);
          _ ← dm_broadcast buf (zlen d) (pf_flow perif);
          diag_data_recv_raw fuel p fd buf
      end
  end.

(** [fuel] bounds the number of reads until the descriptor is drained. *)
Definition diag_data_recv (fuel : nat) (p : nat) (fd : Z) : M world Z :=
  perif ← get_perif p;
  n ← (if has_feature perif DIAG_FEATURE_APPS_HDLC_ENCODE
       then buf ← stack 4096; diag_data_recv_raw fuel p fd buf
       else diag_data_recv_hdlc fuel p fd);
  _ ← (if (n <? 0) && negb (n =? - EAGAIN) then peripheral_close p else mret tt);
  mret 0.

Definition rpmsg_perif_cntl_recv (p : nat) (fd : Z) : M world Z :=
  buf ← stack 4096;
  r ← sys_read fd 4096;
  match r with
  | inl errno =>
      _ ← (if negb (errno =? EAGAIN) then peripheral_close p else mret tt);
      mret 0
  | inr d =>
      buf ← lift (mem_write buf 0 d);
      diag_cntl_recv p buf (zlen d)
  end.
