(* ===== verification/AppCmds.v ===== *)
(** * AppCmds: the fallback handlers of [router/app_cmds.c]

    A handler gets the client, the object that holds the request from its
    first byte on, and the request's length. *)

From S2P Require Import Prelude CircBuf Hdlc Masks Queue Watch World Dm Cntl.

Definition DIAG_CMD_KEEP_ALIVE_SUBSYS : Z := 50.
Definition DIAG_CMD_KEEP_ALIVE_CMD : Z := 3.
Definition DIAG_CMD_DIAG_VERSION_ID : Z := 28.
Definition DIAG_PROTOCOL_VERSION_NUMBER : Z := 2.
Definition DIAG_CMD_EXTENDED_BUILD_ID : Z := 124.
Definition DIAG_CMD_DIAG_VERSION_NO : Z := 0.
Definition MOBILE_MODEL_NUMBER : Z := 0.
Definition MSM_REVISION_NUMBER : Z := 2.
Definition DIAG_CMD_DIAG_SUBSYS : Z := 18.
Definition DIAG_CMD_OP_HDLC_DISABLE : Z := 0x218.
Definition DIAG_CMD_DIAG_GET_DIAG_ID : Z := 0x222.

(** "OE" and "DB410C" *)
Definition MOBILE_SOFTWARE_REVISION : bytes := [79; 69].
Definition MOBILE_MODEL_STRING : bytes := [68; 66; 52; 49; 48; 67].

(** Sending a whole local response. *)
Definition dm_reply (c : nat) (resp : bytes) : M world Z := dm_send c resp (zlen resp).

Definition handle_diag_version (c : nat) (buf : bytes) (len : Z) : M world Z :=
  dm_reply c [DIAG_CMD_DIAG_VERSION_ID; DIAG_PROTOCOL_VERSION_NUMBER].

Definition handle_diag_version_no (c : nat) (buf : bytes) (len : Z) : M world Z :=
  dm_reply c (replicate 55 0).

Definition handle_extended_build_id (c : nat) (buf : bytes) (len : Z) : M world Z :=
  if negb (len =? 1) then mret (- EMSGSIZE) else
  dm_reply c ([DIAG_CMD_EXTENDED_BUILD_ID; DIAG_PROTOCOL_VERSION_NUMBER] ++ le 2 0 ++
    le 4 MSM_REVISION_NUMBER ++ le 4 MOBILE_MODEL_NUMBER ++
    (MOBILE_SOFTWARE_REVISION ++ [0]) ++ (MOBILE_MODEL_STRING ++ [0])).

Definition handle_keep_alive (c : nat) (buf : bytes) (len : Z) : M world Z :=
  dm_reply c ([DIAG_CMD_SUBSYS_DISPATCH; DIAG_CMD_KEEP_ALIVE_SUBSYS; DIAG_CMD_KEEP_ALIVE_CMD] ++
    replicate 13 0).

(** The loop over the id table: the response buffer, its length, the count. *)
Fixpoint diag_id_loop (l : list diag_id_tbl) (resp : bytes) (resp_len num : Z)
    : outcome (bytes * Z * Z) :=
  match l with
  | [] => Done (resp, resp_len, num)
  | d :: l =>
      if DIAG_MAX_RSP_SIZE <=? resp_len then Done (resp, resp_len, num) else
      info ← mem_read (di_info d) 0 (di_info_len d);
      resp ← mem_write resp resp_len info;
      diag_id_loop l resp (resp_len + di_info_len d) (num + 1)
  end.

Definition sizeof_diag_id_query : Z := 5.   (* cmd_code, subsys_id, subsys_cmd_code, version *)

Definition handle_diag_id (c : nat) (buf : bytes) (len : Z) : M world Z :=
  if len <? sizeof_diag_id_query then mret (- EMSGSIZE) else
  req ← lift (mem_read buf 0 sizeof_diag_id_query);
  resp ← lift (mem_write (replicate (Z.to_nat DIAG_MAX_RSP_SIZE) 0) 0 req);
  w ← get;
  r ← lift (diag_id_loop (diag_ids (w_ids w)) resp (sizeof_diag_id_query + 1) 0);
  let '(resp, resp_len, num) := r in
  resp ← lift (mem_write resp sizeof_diag_id_query [u8 num]);
  dm_send c resp resp_len.

Definition handle_hdlc_disable_cmd (c : nat) (buf : bytes) (len : Z) : M world Z :=
  if len <? 4 then mret (- EMSGSIZE) else
  req ← lift (mem_read buf 0 4);
  ret ← dm_reply c (req ++ [1; 0]);
  _ ← set_encode_type DIAG_ENCODE_NHDLC;
  mret ret.
