(* ===== verification/CommonCmds.v ===== *)
(** * CommonCmds: the mask commands of [router/common_cmds.c]

    The handlers run the table operations of [Masks], tell the peripherals and
    answer the client.  A response is built in memory that starts out as junk
    ([malloc]) or zero ([memset]), field by field. *)

From S2P Require Import Prelude Util CircBuf Hdlc Masks Queue Watch World Dm Cntl Peripheral AppCmds.

Definition DIAG_CMD_STATUS_SUCCESS : Z := 0.
Definition DIAG_CMD_STATUS_INVALID_EQUIPMENT_ID : Z := 1.
Definition DIAG_CMD_LOGGING_CONFIGURATION : Z := 0x73.
Definition DIAG_CMD_OP_LOG_DISABLE : Z := 0.
Definition DIAG_CMD_OP_GET_LOG_RANGE : Z := 1.
Definition DIAG_CMD_OP_SET_LOG_MASK : Z := 3.
Definition DIAG_CMD_OP_GET_LOG_MASK : Z := 4.
Definition DIAG_CMD_EXTENDED_MESSAGE_CONFIGURATION : Z := 0x7d.
Definition DIAG_CMD_OP_GET_SSID_RANGE : Z := 1.
Definition DIAG_CMD_OP_GET_BUILD_MASK : Z := 2.
Definition DIAG_CMD_OP_GET_MSG_MASK : Z := 3.
Definition DIAG_CMD_OP_SET_MSG_MASK : Z := 4.
Definition DIAG_CMD_OP_SET_ALL_MSG_MASK : Z := 5.
Definition DIAG_CMD_MSG_STATUS_UNSUCCESSFUL : Z := 0.
Definition DIAG_CMD_MSG_STATUS_SUCCESSFUL : Z := 1.
Definition DIAG_CMD_GET_MASK : Z := 0x81.
Definition DIAG_CMD_EVENT_ERROR_CODE_OK : Z := 0.
Definition DIAG_CMD_EVENT_ERROR_CODE_FAIL : Z := 1.
Definition DIAG_CMD_SET_MASK : Z := 0x82.
Definition DIAG_CMD_EVENT_REPORT_CONTROL : Z := 0x60.

(** A response of [n] bytes from [malloc]; the handler returns [-ENOMEM] when
    there is none. *)
Definition with_resp (n : Z) (f : bytes -> M world Z) : M world Z :=
  p ← malloc n;
  match p with None => mret (- ENOMEM) | Some p => f p end.

Definition field (n : nat) (buf : bytes) (off : Z) : M world Z := lift (rd n buf off).
Definition part (buf : bytes) (off n : Z) : M world bytes := lift (mem_read buf off n).

(** ** Logging configuration

    The request: cmd_code, three reserved bytes, operation.  Setting a log mask
    writes the capped item count back into the request, so the handler returns
    the request buffer too. *)

Definition log_header_size : Z := 8.
Definition log_mask_hdr_size : Z := 8.     (* [struct diag_log_cmd_mask]: equip_id, num_items *)

Definition log_disable (c : nat) (buf : bytes) (len : Z) : M world Z :=
  if negb (log_header_size =? len) then mret (- EMSGSIZE) else
  hdr ← part buf 0 log_header_size;
  _ ← zoom diag_cmd_disable_log;
  _ ← peripheral_broadcast_log_mask 0;
  _ ← dm_reply c (hdr ++ le 4 DIAG_CMD_STATUS_SUCCESS);
  mret 0.

Definition log_get_range (c : nat) (buf : bytes) (len : Z) : M world Z :=
  if negb (log_header_size =? len) then mret (- EMSGSIZE) else
  hdr ← part buf 0 log_header_size;
  ranges ← zoom (diag_cmd_get_log_range (Z.of_nat MAX_EQUIP_ID));
  _ ← dm_reply c (hdr ++ le 4 DIAG_CMD_STATUS_SUCCESS ++ (ranges ≫= le 4));
  mret 0.

Definition log_set_mask (c : nat) (buf : bytes) (len : Z) : M world (Z * bytes) :=
  num_items ← field 4 buf (log_header_size + 4);
  let mask_size := u32 (log_mask_hdr_size + BITS_TO_BYTES num_items) in
  if negb (log_header_size + mask_size =? len) then mret (- EMSGSIZE, buf) else
  let resp_size := u32 (20 + mask_size) in
  resp ← malloc resp_size;
  match resp with
  | None => mret (- ENOMEM, buf)
  | Some resp =>
      hdr ← part buf 0 log_header_size;
      resp ← write_at resp 0 hdr;
      equip_id ← field 4 buf log_header_size;
      r ← zoom (diag_cmd_set_log_mask (u8 equip_id) num_items (drop 16 buf) mask_size);
      let '(_, num_items, mask_size) := r in
      buf ← write_at buf (log_header_size + 4) (le 4 num_items);
      src ← part buf log_header_size mask_size;
      resp ← write_at resp 12 src;
      resp ← write_at resp 8 (le 4 DIAG_CMD_STATUS_SUCCESS);
      id ← field 4 resp 12;
      _ ← peripheral_broadcast_log_mask id;
      _ ← dm_send c resp resp_size;
      mret (0, buf)
  end.

Definition log_get_mask (c : nat) (buf : bytes) (len : Z) : M world Z :=
  if negb (log_header_size + 4 =? len) then mret (- EMSGSIZE) else
  equip_id ← field 4 buf log_header_size;
  r ← zoom (diag_cmd_get_log_mask equip_id);
  let '(ret, num_items, mask, mask_size) := r in
  let resp_size := u32 (20 + (if ret =? 0 then mask_size else 0)) in
  with_resp resp_size (fun resp =>
    hdr ← part buf 0 log_header_size;
    let status := if ret =? 0 then DIAG_CMD_STATUS_SUCCESS else DIAG_CMD_STATUS_INVALID_EQUIPMENT_ID in
    resp ← write_at resp 0 (hdr ++ le 4 status ++ le 4 equip_id ++ le 4 num_items);
    resp ← (if ret =? 0 then write_mask resp 20 mask mask_size else mret resp);
    _ ← peripheral_broadcast_log_mask equip_id;
    _ ← dm_send c resp resp_size;
    mret 0).

Definition keep_buf (buf : bytes) (m : M world Z) : M world (Z * bytes) := r ← m; mret (r, buf).

Definition handle_logging_configuration (c : nat) (buf : bytes) (len : Z) : M world (Z * bytes) :=
  operation ← field 4 buf 4;
  if operation =? DIAG_CMD_OP_LOG_DISABLE then keep_buf buf (log_disable c buf len)
  else if operation =? DIAG_CMD_OP_GET_LOG_RANGE then keep_buf buf (log_get_range c buf len)
  else if operation =? DIAG_CMD_OP_SET_LOG_MASK then log_set_mask c buf len
  else if operation =? DIAG_CMD_OP_GET_LOG_MASK then keep_buf buf (log_get_mask c buf len)
  else mret (- EINVAL, buf).

(** ** Extended message configuration

    The request: cmd_code, operation. *)

Definition msg_header_size : Z := 2.

(** A [struct diag_ssid_range_t] in the request. *)
Definition get_range (buf : bytes) (off : Z) : M world ssid_range :=
  first ← field 2 buf off; last ← field 2 buf (off + 2); mret (first, last).

Definition msg_get_ssid_range (c : nat) (buf : bytes) (len : Z) : M world Z :=
  if negb (msg_header_size =? len) then mret (- EMSGSIZE) else
  r ← zoom diag_cmd_get_ssid_range;
  let '(count, ranges) := r in
  let ranges_size := u32 (count * 4) in
  let resp_size := u32 (8 + ranges_size) in
  with_resp resp_size (fun resp =>
    hdr ← part buf 0 msg_header_size;
    resp ← write_at resp 0 hdr;
    resp ← write_at resp 4 (le 4 count);
    resp ← write_mask resp 8 ranges ranges_size;
    resp ← write_at resp 2 [DIAG_CMD_MSG_STATUS_SUCCESSFUL];
    _ ← dm_send c resp resp_size;
    mret 0).

Definition msg_get_build_mask (c : nat) (buf : bytes) (len : Z) : M world Z :=
  if negb (msg_header_size + 4 =? len) then mret (- EMSGSIZE) else
  range ← get_range buf msg_header_size;
  r ← zoom (diag_cmd_get_build_mask range);
  let '(ret, range, masks) := r in
  let cmd := [DIAG_CMD_EXTENDED_MESSAGE_CONFIGURATION; DIAG_CMD_OP_GET_BUILD_MASK] in
  resp ← (if ret =? 0 then
            let masks_size := MSG_RANGE_TO_SIZE (range.1) (range.2) in
            masks ← deref masks;
            words ← part masks 0 masks_size;
            mret (cmd ++ ssid_range_bytes range ++ [DIAG_CMD_MSG_STATUS_SUCCESSFUL; 0] ++ words)
          else mret (cmd ++ le 4 0 ++ [DIAG_CMD_MSG_STATUS_UNSUCCESSFUL; 0]));
  _ ← dm_reply c resp;
  mret 0.

Definition msg_get_msg_mask (c : nat) (buf : bytes) (len : Z) : M world Z :=
  if negb (msg_header_size + 4 =? len) then mret (- EMSGSIZE) else
  range ← get_range buf msg_header_size;
  r ← zoom (diag_cmd_get_msg_mask range);
  let '(ret, range, masks) := r in
  hdr ← part buf 0 msg_header_size;
  resp ← (if ret =? 0 then
            let masks_size := MSG_RANGE_TO_SIZE (range.1) (range.2) in
            masks ← deref masks;
            words ← part masks 0 masks_size;
            mret (hdr ++ [DIAG_CMD_MSG_STATUS_SUCCESSFUL; 0] ++ words)
          else mret (hdr ++ [DIAG_CMD_MSG_STATUS_UNSUCCESSFUL; 0]));
  _ ← dm_reply c resp;
  mret 0.

(** The range the broadcast leaves in the response is the last peripheral's. *)
Definition msg_set_msg_mask (c : nat) (buf : bytes) (len : Z) : M world Z :=
  range ← get_range buf msg_header_size;
  let masks_size := MSG_RANGE_TO_SIZE (range.1) (range.2) in
  if negb (8 + masks_size =? len) then mret (- EMSGSIZE) else
  ret ← zoom (diag_cmd_set_msg_mask range (drop 8 buf));
  with_resp (u32 (8 + (if ret =? 0 then masks_size else 0))) (fun resp =>
    hdr ← part buf 0 msg_header_size;
    rsvd ← field 2 buf 6;
    let status := if ret =? 0 then DIAG_CMD_MSG_STATUS_SUCCESSFUL else DIAG_CMD_MSG_STATUS_UNSUCCESSFUL in
    resp ← write_at resp 0 (hdr ++ ssid_range_bytes range ++ [status; u8 rsvd]);
    resp ← (if ret =? 0 then
              words ← part buf 8 masks_size;
              resp ← write_at resp 8 words;
              range ← peripheral_broadcast_msg_mask (Some range);
              range ← deref range;
              write_at resp msg_header_size (ssid_range_bytes range)
            else mret resp);
    _ ← dm_send c resp (u32 (8 + (if ret =? 0 then masks_size else 0)));
    mret 0).

Definition msg_set_all_msg_mask (c : nat) (buf : bytes) (len : Z) : M world Z :=
  if negb (7 =? len) then mret (- EMSGSIZE) else
  mask ← field 4 buf 3;
  _ ← zoom (diag_cmd_set_all_msg_mask mask);
  hdr ← part buf 0 msg_header_size;
  rsvd ← field 1 buf 2;
  _ ← peripheral_broadcast_msg_mask None;
  _ ← dm_reply c (hdr ++ [DIAG_CMD_MSG_STATUS_SUCCESSFUL; rsvd] ++ le 4 mask);
  mret 0.

Definition handle_extended_message_configuration (c : nat) (buf : bytes) (len : Z) : M world Z :=
  operation ← field 1 buf 1;
  if operation =? DIAG_CMD_OP_GET_SSID_RANGE then msg_get_ssid_range c buf len
  else if operation =? DIAG_CMD_OP_GET_BUILD_MASK then msg_get_build_mask c buf len
  else if operation =? DIAG_CMD_OP_GET_MSG_MASK then msg_get_msg_mask c buf len
  else if operation =? DIAG_CMD_OP_SET_MSG_MASK then msg_set_msg_mask c buf len
  else if operation =? DIAG_CMD_OP_SET_ALL_MSG_MASK then msg_set_all_msg_mask c buf len
  else mret (- EINVAL).

(** ** Events

    A response: cmd_code, error_code, reserved, num_bits, mask. *)

Definition handle_event_get_mask (c : nat) (buf : bytes) (len : Z) : M world Z :=
  w ← get;
  let num_bits := event_max_num_bits (w_masks w) in
  if negb (4 =? len) then mret (- EMSGSIZE) else
  r ← zoom (diag_cmd_get_event_mask num_bits);
  let '(ret, mask) := r in
  let mask_size := if ret =? 0 then u16 (BITS_TO_BYTES_16 num_bits) else 0 in
  with_resp (6 + mask_size) (fun resp =>
    cmd_code ← field 1 buf 0;
    reserved ← field 2 buf 2;
    resp ← write_at resp 0
      ([cmd_code; if ret =? 0 then DIAG_CMD_EVENT_ERROR_CODE_OK else DIAG_CMD_EVENT_ERROR_CODE_FAIL] ++
       le 2 reserved ++ le 2 (if ret =? 0 then num_bits else 0));
    resp ← (if ret =? 0 then write_mask resp 6 mask mask_size else mret resp);
    _ ← dm_send c resp (6 + mask_size);
    mret 0).

Definition handle_event_set_mask (c : nat) (buf : bytes) (len : Z) : M world Z :=
  num_bits ← field 2 buf 4;
  let mask_size := u16 (BITS_TO_BYTES_16 num_bits) in
  if negb (6 + mask_size =? len) then mret (- EMSGSIZE) else
  ret ← zoom (diag_cmd_update_event_mask num_bits (drop 6 buf));
  let resp_size := 6 + (if ret =? 0 then mask_size else 0) in
  with_resp resp_size (fun resp =>
    cmd_code ← field 1 buf 0;
    reserved ← field 2 buf 2;
    resp ← write_at resp 0
      ([cmd_code; if ret =? 0 then DIAG_CMD_EVENT_ERROR_CODE_OK else DIAG_CMD_EVENT_ERROR_CODE_FAIL] ++
       le 2 reserved ++ le 2 (if ret =? 0 then num_bits else 0));
    resp ← (if ret =? 0 then
              bits ← part buf 6 mask_size;
              resp ← write_at resp 6 bits;
              _ ← peripheral_broadcast_event_mask;
              mret resp
            else mret resp);
    _ ← dm_send c resp resp_size;
    mret 0).

Definition handle_event_report_control (c : nat) (buf : bytes) (len : Z) : M world Z :=
  if negb (2 =? len) then mret (- EMSGSIZE) else
  operation_switch ← field 1 buf 1;
  _ ← zoom (diag_cmd_toggle_events (negb (operation_switch =? 0)));
  _ ← peripheral_broadcast_event_mask;
  _ ← dm_reply c ([DIAG_CMD_EVENT_REPORT_CONTROL] ++ le 2 0);
  mret 0.
