(* ===== verification/Router.v ===== *)
(** * Router: command dispatch, [router/router.c], and the registration of the
    handlers

    A request is matched against the common commands, then every command a
    peripheral registered, then the fallbacks; a request nobody takes, or that
    its handler refuses, is answered with an error packet. *)

From S2P Require Import Prelude CircBuf Hdlc Masks Queue Watch World Dm Cntl Peripheral AppCmds CommonCmds.

Definition DIAG_CMD_RSP_BAD_COMMAND : Z := 0x13.
Definition DIAG_CMD_RSP_BAD_PARAMS : Z := 0x14.
Definition DIAG_CMD_RSP_BAD_LENGTH : Z := 0x15.

(** ** Dispatch *)

(** Calling a [cb]: the return value and the request buffer afterwards. *)
Definition run_handler (hd : handler) (c : nat) (buf : bytes) (len : Z) : M world (Z * bytes) :=
  match hd with
  | HLoggingConfiguration => handle_logging_configuration c buf len
  | HExtendedMessageConfiguration => keep_buf buf (handle_extended_message_configuration c buf len)
  | HEventGetMask => keep_buf buf (handle_event_get_mask c buf len)
  | HEventSetMask => keep_buf buf (handle_event_set_mask c buf len)
  | HEventReportControl => keep_buf buf (handle_event_report_control c buf len)
  | HDiagVersion => keep_buf buf (handle_diag_version c buf len)
  | HDiagVersionNo => keep_buf buf (handle_diag_version_no c buf len)
  | HExtendedBuildId => keep_buf buf (handle_extended_build_id c buf len)
  | HKeepAlive => keep_buf buf (handle_keep_alive c buf len)
  | HDiagId => keep_buf buf (handle_diag_id c buf len)
  | HHdlcDisableCmd => keep_buf buf (handle_hdlc_disable_cmd c buf len)
  end.

(** [dc->cb(...)]: a null pointer must not be called. *)
Definition call_cb (dc : diag_cmd) (c : nat) (buf : bytes) (len : Z) : M world (Z * bytes) :=
  hd ← deref (dc_cb dc); run_handler hd c buf len.

(** The key of a request: command, subsystem and subsystem command, or the
    command alone. *)
Definition request_key (buf : bytes) : outcome Z :=
  cmd ← rd 1 buf 0;
  if (cmd =? DIAG_CMD_SUBSYS_DISPATCH) || (cmd =? DIAG_CMD_SUBSYS_DISPATCH_V2) then
    subsys ← rd 1 buf 1;
    hi ← rd 1 buf 3;
    lo ← rd 1 buf 2;
    Done (Z.lor (Z.lor (Z.lor (u32 (Z.shiftl cmd 24)) (Z.shiftl subsys 16)) (Z.shiftl hi 8)) lo)
  else Done (Z.lor (Z.lor (Z.shiftl 0xff 24) (Z.shiftl 0xff 16)) cmd).

Definition key_in (key : Z) (dc : diag_cmd) : bool := (dc_first dc <=? key) && (key <=? dc_last dc).

(** The loop over [diag_cmds]: everybody who matches. *)
Fixpoint dispatch_all (key : Z) (cmds : list diag_cmd) (c : nat) (buf : bytes) (len handled : Z)
    : M world (Z * bytes) :=
  match cmds with
  | [] => mret (handled, buf)
  | dc :: cmds =>
      if negb (key_in key dc) then dispatch_all key cmds c buf len handled else
      buf ← match dc_cb dc with
            | Some hd => r ← run_handler hd c buf len; mret (r.2)
            | None => p ← deref (dc_peripheral dc); _ ← peripheral_send p buf len; mret buf
            end;
      dispatch_all key cmds c buf len (handled + 1)
  end.

Definition diag_cmd_dispatch (c : nat) (buf : bytes) (len : Z) : M world (Z * bytes) :=
  key ← lift (request_key buf);
  w ← get;
  match List.find (key_in key) (common_cmds (w_cmds w)) with
  | Some dc => call_cb dc c buf len
  | None =>
      r ← dispatch_all key (diag_cmds (w_cmds w)) c buf len 0;
      let '(handled, buf) := r in
      if negb (handled =? 0) then mret (0, buf) else
      w ← get;
      match List.find (key_in key) (fallback_cmds (w_cmds w)) with
      | Some dc => call_cb dc c buf len
      | None => mret (- ENOENT, buf)
      end
  end.

Definition diag_rsp_bad_command (c : nat) (msg : bytes) (len error_code : Z) : M world unit :=
  buf ← malloc (u64 (len + 1));
  match buf with
  | None => exit1
  | Some _ =>
      d ← part msg 0 len;
      _ ← dm_send c (u8 error_code :: d) (u64 (len + 1));
      mret tt
  end.

(** The error packet a handler's return value asks for. *)
Definition error_response (ret : Z) : option Z :=
  if ret =? - ENOENT then Some DIAG_CMD_RSP_BAD_COMMAND
  else if ret =? - EINVAL then Some DIAG_CMD_RSP_BAD_PARAMS
  else if ret =? - EMSGSIZE then Some DIAG_CMD_RSP_BAD_LENGTH
  else None.

(** The result is the request buffer as the handlers left it. *)
Definition diag_client_handle_command (c : nat) (buf : bytes) (len : Z) : M world bytes :=
  r ← diag_cmd_dispatch c buf len;
  let '(ret, buf) := r in
  _ ← match error_response ret with
      | Some code => diag_rsp_bad_command c buf len code
      | None => mret tt
      end;
  mret buf.

(** ** Registration *)

Definition plain_key (cmd : Z) : Z := Z.lor 0xffff0000 cmd.
Definition subsys_key (subsys cmd : Z) : Z :=
  Z.lor (Z.lor (Z.shiftl DIAG_CMD_SUBSYS_DISPATCH 24) (Z.shiftl (Z.land subsys 0xff) 16)) cmd.

Definition add_fallback (key : Z) (cb : handler) : M world unit :=
  _ ← calloc_or_die sizeof_diag_cmd;
  modify (over (fun s => CmdState (diag_cmds s) (common_cmds s)
                           (fallback_cmds s ++ [DiagCmd key key None (Some cb)]))).

Definition register_fallback_cmd (cmd : Z) (cb : handler) : M world unit :=
  add_fallback (plain_key cmd) cb.

Definition register_fallback_subsys_cmd (subsys cmd : Z) (cb : handler) : M world unit :=
  add_fallback (subsys_key subsys cmd) cb.

Definition register_common_cmd (cmd : Z) (cb : handler) : M world unit :=
  _ ← calloc_or_die sizeof_diag_cmd;
  modify (over (fun s => CmdState (diag_cmds s)
                           (common_cmds s ++ [DiagCmd (plain_key cmd) (plain_key cmd) None (Some cb)])
                           (fallback_cmds s))).

Definition register_app_cmds : M world unit :=
  _ ← register_fallback_cmd DIAG_CMD_DIAG_VERSION_ID HDiagVersion;
  _ ← register_fallback_cmd DIAG_CMD_DIAG_VERSION_NO HDiagVersionNo;
  _ ← register_fallback_cmd DIAG_CMD_EXTENDED_BUILD_ID HExtendedBuildId;
  _ ← register_fallback_subsys_cmd DIAG_CMD_KEEP_ALIVE_SUBSYS DIAG_CMD_KEEP_ALIVE_CMD HKeepAlive;
  _ ← register_fallback_subsys_cmd DIAG_CMD_DIAG_SUBSYS DIAG_CMD_DIAG_GET_DIAG_ID HDiagId;
  register_fallback_subsys_cmd DIAG_CMD_DIAG_SUBSYS DIAG_CMD_OP_HDLC_DISABLE HHdlcDisableCmd.

Definition register_common_cmds : M world unit :=
  _ ← register_common_cmd DIAG_CMD_LOGGING_CONFIGURATION HLoggingConfiguration;
  _ ← register_common_cmd DIAG_CMD_EXTENDED_MESSAGE_CONFIGURATION HExtendedMessageConfiguration;
  _ ← register_common_cmd DIAG_CMD_GET_MASK HEventGetMask;
  _ ← register_common_cmd DIAG_CMD_SET_MASK HEventSetMask;
  register_common_cmd DIAG_CMD_EVENT_REPORT_CONTROL HEventReportControl.
