(* ===== verification/DmRecv.v ===== *)
(** * DmRecv: diagnostic monitors, the receiving side of [router/dm.c]

    Decoding what a client sent and handing each request to the router. *)

From S2P Require Import Prelude CircBuf Hdlc Masks Queue Watch World Dm Cntl Peripheral AppCmds CommonCmds Router.

(** [dm_recv_hdlc]: the decoder is a local variable, so a frame that is not
    complete when the ring runs empty is lost. *)
Fixpoint dm_recv_hdlc_loop (fuel : nat) (c : nat) (d : hdlc_decoder) (buf : circ_buf)
    : M world (Z * circ_buf) :=
  match fuel with
  | O => lift Spin
  | S fuel =>
      r ← lift (hdlc_decode_one d buf);
      let '(msg, d, buf) := r in
      match msg with
      | None => mret (0, buf)
      | Some msglen =>
          raw_buf ← diag_client_handle_command c (hd_raw_buf d) msglen;
          dm_recv_hdlc_loop fuel c (HdlcDecoder raw_buf (hd_raw d) (hd_escape d)) buf
      end
  end.

Definition dm_recv_hdlc (c : nat) (buf : circ_buf) : M world (Z * circ_buf) :=
  dm_recv_hdlc_loop (Z.to_nat HDLC_BUF_SIZE) c decoder_zero buf.

Definition sizeof_dm_buf : Z := 4096.

(** [fuel] bounds the number of reads until the descriptor is drained. *)
Fixpoint dm_recv_raw_loop (fuel : nat) (c : nat) (buf : bytes) : M world Z :=
  match fuel with
  | O => lift Spin
  | S fuel =>
      dm ← get_client c;
      r ← sys_read (dm_in_fd dm) sizeof_dm_buf;
      match r with
      | inl errno => if errno =? EAGAIN then mret 0 else mret (- errno)
      | inr d =>
          if zlen d =? 0 then
            _ ← zoom (watch_remove_fd (dm_in_fd dm)); mret 0
          else
            buf ← lift (mem_write buf 0 d);
            buf ← diag_client_handle_command c buf (zlen d);
            dm_recv_raw_loop fuel c buf
      end
  end.

Definition dm_recv_raw (fuel : nat) (c : nat) : M world Z :=
  buf ← stack sizeof_dm_buf; dm_recv_raw_loop fuel c buf.

(** [dm_check_nhdlc_pkt]: [pkt] is the object the frame pointer points to. *)
Definition dm_check_nhdlc_pkt (pkt : bytes) : outcome Z :=
  start ← rd 1 pkt 0;
  if negb (start =? NHDLC_CONTROL_CHAR) then Done (- EINVAL) else
  length ← rd 2 pkt 2;
  last ← rd 1 pkt (sizeof_pkt_frame + length);
  if negb (last =? NHDLC_CONTROL_CHAR) then Done (- EINVAL) else Done 0.

(** The bytes of a [struct circ_buf]. *)
Definition circ_object (b : circ_buf) : bytes := cb_buf b ++ le 8 (cb_head b) ++ le 8 (cb_tail b).

Definition circ_of_object (o : bytes) : circ_buf :=
  CircBuf (take (Z.to_nat HDLC_BUF_SIZE) o)
    (le_dec (slice o HDLC_BUF_SIZE 8)) (le_dec (slice o (HDLC_BUF_SIZE + 8) 8)).

(** [dm_recv_nhdlc]: the frame pointer is the ring itself, so the packet is
    taken from the start of its array, wherever head and tail are. *)
Definition dm_recv_nhdlc (c : nat) (buf : circ_buf) : M world (Z * circ_buf) :=
  let pkt := circ_object buf in
  ret ← lift (dm_check_nhdlc_pkt pkt);
  _ ← (if negb (ret =? 0) then _ ← diag_start_hdlc_recovery c; mret tt else mret tt);
  length ← lift (rd 2 pkt 2);
  data ← diag_client_handle_command c (drop (Z.to_nat sizeof_pkt_frame) pkt) length;
  mret (ret, circ_of_object (take (Z.to_nat sizeof_pkt_frame) pkt ++ data)).

(** [dm_decode_data]: the result and the ring afterwards. *)
Definition dm_decode_data (c : nat) (buf : circ_buf) : M world (Z * circ_buf) :=
  dm ← get_client c;
  if dm_encode_type dm =? DIAG_ENCODE_HDLC then dm_recv_hdlc c buf
  else if dm_encode_type dm =? DIAG_ENCODE_NHDLC then dm_recv_nhdlc c buf
  else mret (- EINVAL, buf).

Definition dm_recv_encoded (c : nat) : M world Z :=
  dm ← get_client c;
  r ← sys_circ_read (dm_in_fd dm) (dm_recv_buf dm);
  let '(r, b) := r in
  _ ← upd_client c (dm_with_buf b);
  match r with
  | inl errno =>
      if negb (errno =? EAGAIN) then mret (- errno) else
      r ← dm_decode_data c b; _ ← upd_client c (dm_with_buf (r.2)); mret (r.1)
  | inr _ => r ← dm_decode_data c b; _ ← upd_client c (dm_with_buf (r.2)); mret (r.1)
  end.

Definition dm_recv (fuel : nat) (c : nat) : M world Z :=
  dm ← get_client c;
  if dm_encode_type dm =? DIAG_ENCODE_RAW then dm_recv_raw fuel c
  else if (dm_encode_type dm =? DIAG_ENCODE_HDLC) || (dm_encode_type dm =? DIAG_ENCODE_NHDLC) then
    dm_recv_encoded c
  else mret (- EINVAL).
