(* ===== verification/Devnode.v ===== *)
(** * Devnode: rpmsg channels coming and going, [router/peripheral-rpmsg.c]

    The table of device nodes udev reports, creating a peripheral for its
    primary channel and opening its channels a second later. *)

From S2P Require Import Prelude CircBuf Hdlc Masks Queue Watch World Cntl Peripheral.

#[local] Open Scope string_scope.
#[local] Open Scope list_scope.
#[local] Open Scope Z_scope.

Definition sizeof_devnode : Z := 40.
Definition sizeof_peripheral : Z := 32936.

(** [strcmp(a, b) == 0] on strings that may be null. *)
Definition streq (a b : option string) : outcome bool :=
  match a, b with
  | Some a, Some b => Done (String.eqb a b)
  | _, _ => UB
  end.

(** ** Device nodes *)

Fixpoint devnode_get_loop (path : option string) (i : nat) (l : list devnode) : outcome (option nat) :=
  match l with
  | [] => Done None
  | node :: l =>
      eq ← streq (dn_devnode node) path;
      if eq : bool then Done (Some i) else devnode_get_loop path (S i) l
  end.

(** The node's position in the list. *)
Definition devnode_get (path : option string) : M world (option nat) :=
  w ← get; lift (devnode_get_loop path 0 (devnodes (w_dev w))).

Fixpoint devnode_open_loop (rproc name : option string) (l : list devnode) : M world Z :=
  match l with
  | [] => mret (-1)
  | node :: l =>
      same_rproc ← lift (streq (dn_rproc node) rproc);
      same ← (if same_rproc : bool then lift (streq (dn_name node) name) else mret false);
      if same : bool then sys_call else devnode_open_loop rproc name l
  end.

Definition devnode_open (rproc name : option string) : M world Z :=
  w ← get; devnode_open_loop rproc name (devnodes (w_dev w)).

Definition set_devnodes (f : list devnode -> list devnode) : M world unit :=
  modify (over (fun s => DevState (f (devnodes s)) (usb_handles s))).

Definition devnode_add (devnode name rproc : string) : M world unit :=
  node ← devnode_get (Some devnode);
  match node with
  | Some _ => mret tt
  | None =>
      p ← malloc sizeof_devnode;
      _ ← deref p;    (* [memset] *)
      d ← strdup devnode;
      n ← strdup name;
      r ← strdup rproc;
      set_devnodes (fun l => l ++ [Devnode d n r])
  end.

Definition devnode_remove (devnode : string) : M world unit :=
  node ← devnode_get (Some devnode);
  match node with
  | None => mret tt
  | Some i => set_devnodes (delete i)
  end.

(** ** Opening the channels *)

Definition pf_with_fds (cntl data cmd : Z) (p : peripheral) : peripheral :=
  Peripheral (pf_name p) (pf_features p) cntl (pf_cntl_open p) data (pf_data_open p)
    cmd (pf_dci_cmd_fd p) (pf_flow p) (pf_diag_id p) (pf_sockets p) (pf_recv_buf p) (pf_recv_decoder p)
    (pf_transport p).

(** The second name is tried when there is no channel of the first. *)
Definition open_either (rproc : option string) (a b : string) : M world Z :=
  fd ← devnode_open rproc (Some a);
  if fd <? 0 then devnode_open rproc (Some b) else mret fd.

Definition peripheral_open (p : nat) : M world unit :=
  perif ← get_perif p;
  let rproc := pf_name perif in
  fd ← open_either rproc "DIAG" "APPS_RIVA_DATA";
  if fd <? 0 then mret tt else
  _ ← upd_perif p (fun q => pf_with_fds (pf_cntl_fd q) fd (pf_cmd_fd q) q);
  fd ← open_either rproc "DIAG_CNTL" "APPS_RIVA_CTRL";
  if fd <? 0 then upd_perif p (fun q => pf_with_fds (pf_cntl_fd q) (-1) (pf_cmd_fd q) q) else
  _ ← upd_perif p (fun q => pf_with_fds fd (pf_data_fd q) (pf_cmd_fd q) q);
  fd ← devnode_open rproc (Some "DIAG_CMD");
  _ ← (if 0 <=? fd then upd_perif p (fun q => pf_with_fds (pf_cntl_fd q) (pf_data_fd q) fd q) else mret tt);
  _ ← sys_call;    (* [fcntl]; a failure is only reported *)
  perif ← get_perif p;
  _ ← zoom (watch_add_writeq (pf_cntl_fd perif) (QCntl p));
  _ ← zoom (watch_add_writeq (pf_data_fd perif) (QData p));
  _ ← zoom (watch_add_readfd (pf_cntl_fd perif) (CbRpmsgCntlRecv p) None);
  _ ← zoom (watch_add_readfd (pf_data_fd perif) (CbRpmsgDataRecv p) (pf_flow perif));
  _ ← (if 0 <=? pf_cmd_fd perif then
         _ ← zoom (watch_add_readfd (pf_cmd_fd perif) (CbRpmsgCmdRecv p) None);
         _ ← zoom (watch_add_writeq (pf_cmd_fd perif) (QCmd p)); mret tt
       else mret tt);
  diag_cntl_send_masks p.

(** ** Creating a peripheral *)

Fixpoint named_loop (rproc : string) (l : list nat) : M world bool :=
  match l with
  | [] => mret false
  | p :: l =>
      perif ← get_perif p;
      eq ← lift (streq (pf_name perif) (Some rproc));
      if eq : bool then mret true else named_loop rproc l
  end.

(** A new object on the list, with empty queues. *)
Definition add_peripheral (perif : peripheral) : M world nat :=
  w ← get;
  let p := pf_fresh (w_pf w) in
  _ ← zoom (modify (set_queue (QCmd p) []));
  _ ← zoom (modify (set_queue (QCntl p) []));
  _ ← zoom (modify (set_queue (QData p) []));
  _ ← modify (over (fun s => PfState (<[p := perif]> (pf_objs s)) (pf_list s ++ [p]) (S p)));
  mret p.

Definition peripheral_create (rproc channel : string) : M world Z :=
  if negb (String.eqb channel "DIAG") && negb (String.eqb channel "APPS_RIVA_DATA") then mret 0 else
  w ← get;
  known ← named_loop rproc (pf_list (w_pf w));
  if known : bool then mret 0 else
  obj ← malloc sizeof_peripheral;
  _ ← deref obj;    (* [memset] *)
  flow ← zoom watch_flow_new;
  name ← strdup rproc;
  p ← add_peripheral (Peripheral name 0 (-1) false (-1) false (-1) 0 flow 0 false circ_zero decoder_zero Rpmsg);
  _ ← zoom (watch_add_timer (TmPeripheralOpen p) 1000 false);
  mret 0.

(** ** udev *)

(** [peripheral_udev_get_remoteproc]: the nearest parent with the attribute. *)
Fixpoint peripheral_udev_get_remoteproc (parents : list (option string)) : option string :=
  match parents with
  | [] => None
  | Some p :: _ => Some p
  | None :: parents => peripheral_udev_get_remoteproc parents
  end.

Definition udev_add (dev : udev_device) (devnode : string) : M world unit :=
  match ud_name dev, peripheral_udev_get_remoteproc (ud_parents dev) with
  | Some name, Some rproc =>
      _ ← devnode_add devnode name rproc; _ ← peripheral_create rproc name; mret tt
  | _, _ => mret tt
  end.

Definition peripheral_udev_update : M world Z :=
  dev ← zoom env_device;
  match dev with
  | None => mret 0
  | Some dev =>
      match ud_devnode dev with
      | None => mret 0
      | Some devnode =>
          add ← lift (streq (ud_action dev) (Some "add"));
          if add : bool then _ ← udev_add dev devnode; mret 0 else
          remove ← lift (streq (ud_action dev) (Some "remove"));
          if remove : bool then _ ← devnode_remove devnode; mret 0 else mret 0
      end
  end.

(** [devices] are the ones the enumeration finds, [udev] whether libudev could
    be initialised, [fd] the monitor's descriptor. *)
Definition peripheral_rpmsg_init (udev : bool) (devices : list udev_device) (fd : Z) : M world Z :=
  if negb udev then exit1 else
  _ ← for_each (fun dev =>
         match ud_devnode dev with
         | Some devnode => udev_add dev devnode
         | None => mret tt
         end) devices;
  _ ← zoom (watch_add_readfd fd CbUdevUpdate None);
  mret 0.
