(* ===== verification/Qrtr.v ===== *)
(** * Qrtr: peripherals behind QRTR sockets, [router/peripheral-qrtr.c]

    The receive callbacks of the control, command and data sockets and the set
    of peripherals created at the start. *)

From S2P Require Import Prelude CircBuf Hdlc Masks Queue Watch World Dm Cntl Peripheral Devnode.

(** libqrtr's [struct qrtr_packet]: [qp_data] is the offset, in the buffer
    handed to the decoder, the data pointer points to. *)
Inductive qrtr_type : Type :=
| QRTR_TYPE_DATA | QRTR_TYPE_BYE | QRTR_TYPE_NEW_SERVER | QRTR_TYPE_DEL_SERVER | QRTR_TYPE_DEL_CLIENT
| QRTR_TYPE_OTHER.

Record qrtr_packet := QrtrPacket {
  qp_type : qrtr_type; qp_node : Z; qp_port : Z; qp_data : Z; qp_data_len : Z }.

Definition pf_with_open (cntl data : bool) (p : peripheral) : peripheral :=
  Peripheral (pf_name p) (pf_features p) (pf_cntl_fd p) cntl (pf_data_fd p) data
    (pf_cmd_fd p) (pf_dci_cmd_fd p) (pf_flow p) (pf_diag_id p) (pf_sockets p) (pf_recv_buf p) (pf_recv_decoder p)
    (pf_transport p).

Section receive.
(** [qrtr_decode] of libqrtr, on the first [n] bytes of a buffer received from
    a sender: a negative errno or the packet. *)
Context (qrtr_decode : bytes -> Z -> Z * Z -> Z + qrtr_packet).

Definition qrtr_cntl_recv (p : nat) (fd : Z) : M world Z :=
  buf ← stack 4096;
  r ← sys_recvfrom fd 4096;
  let '(r, sq) := r : (Z + bytes) * (Z * Z) in
  match r with
  | inl errno => mret (- errno)
  | inr d =>
      buf ← lift (mem_write buf 0 d);
      match qrtr_decode buf (zlen d) sq with
      | inl ret => mret ret
      | inr pkt =>
          match qp_type pkt with
          | QRTR_TYPE_DATA =>
              perif ← get_perif p;
              _ ← (if negb (pf_cntl_open perif) then
                     _ ← sys_call;    (* [connect] *)
                     _ ← upd_perif p (fun q => pf_with_open true (pf_data_open q) q);
                     _ ← zoom (watch_add_writeq (pf_cntl_fd perif) (QCntl p)); mret tt
                   else mret tt);
              diag_cntl_recv p (drop (Z.to_nat (qp_data pkt)) buf) (qp_data_len pkt)
          | QRTR_TYPE_BYE =>
              perif ← get_perif p;
              _ ← zoom (watch_remove_writeq (pf_cntl_fd perif));
              _ ← upd_perif p (fun q => pf_with_open false (pf_data_open q) q);
              mret 0
          | _ => mret 0
          end
      end
  end.

(** A data packet of the command or data socket: one non-HDLC frame. *)
Definition qrtr_frame (buf : bytes) (pkt : qrtr_packet) (flow : option nat) : M world Z :=
  let frame := drop (Z.to_nat (qp_data pkt)) buf in
  ok ← lift (non_hdlc_check frame (qp_data_len pkt));
  match ok with
  | None => mret 0
  | Some length => _ ← dm_broadcast (drop (Z.to_nat sizeof_pkt_frame) frame) length flow; mret 0
  end.

(** The command socket receives into the array of [perif->recv_buf]. *)
Definition qrtr_cmd_recv (p : nat) (fd : Z) : M world Z :=
  perif ← get_perif p;
  r ← sys_recvfrom fd HDLC_BUF_SIZE;
  let '(r, sq) := r : (Z + bytes) * (Z * Z) in
  match r with
  | inl errno => mret (- errno)
  | inr d =>
      let rb := pf_recv_buf perif in
      buf ← lift (mem_write (cb_buf rb) 0 d);
      _ ← upd_perif p (pf_with_recv (CircBuf buf (cb_head rb) (cb_tail rb)) (pf_recv_decoder perif));
      match qrtr_decode buf (zlen d) sq with
      | inl ret => mret ret
      | inr pkt =>
          match qp_type pkt with
          | QRTR_TYPE_DATA => qrtr_frame buf pkt None
          | QRTR_TYPE_NEW_SERVER =>
              if (qp_node pkt =? 0) && (qp_port pkt =? 0) then mret 0 else
              ret ← sys_call;    (* [connect] *)
              if ret <? 0 then exit1 else
              _ ← zoom (watch_add_writeq (pf_cmd_fd perif) (QCmd p));
              mret 0
          | QRTR_TYPE_DEL_SERVER =>
              _ ← zoom (watch_remove_writeq (pf_cmd_fd perif)); mret 0
          | _ => mret 0
          end
      end
  end.

Definition qrtr_data_recv (p : nat) (fd : Z) : M world Z :=
  buf ← stack 4096;
  r ← sys_recvfrom fd 4096;
  let '(r, sq) := r : (Z + bytes) * (Z * Z) in
  match r with
  | inl errno => mret (- errno)
  | inr d =>
      buf ← lift (mem_write buf 0 d);
      match qrtr_decode buf (zlen d) sq with
      | inl ret => mret ret
      | inr pkt =>
          match qp_type pkt with
          | QRTR_TYPE_DATA =>
              perif ← get_perif p;
              _ ← (if negb (pf_data_open perif) then
                     _ ← sys_call;    (* [connect] *)
                     _ ← upd_perif p (fun q => pf_with_open (pf_cntl_open q) true q);
                     _ ← zoom (watch_add_writeq (pf_data_fd perif) (QData p)); mret tt
                   else mret tt);
              qrtr_frame buf pkt (pf_flow perif)
          | QRTR_TYPE_BYE =>
              perif ← get_perif p;
              _ ← zoom (watch_remove_writeq (pf_data_fd perif));
              _ ← upd_perif p (fun q => pf_with_open (pf_cntl_open q) false q);
              mret 0
          | _ => mret 0
          end
      end
  end.
End receive.

(** ** Initialisation *)

(** [qrtr_open]: a failure ends the program. *)
Definition qrtr_socket : M world Z := fd ← sys_call; if fd <? 0 then exit1 else mret fd.

Definition qrtr_perif_init_subsystem (name : string) : M world Z :=
  obj ← calloc sizeof_peripheral;
  flow ← zoom watch_flow_new;
  name ← strdup name;
  _ ← deref obj;
  cntl_fd ← qrtr_socket;
  data_fd ← qrtr_socket;
  cmd_fd ← qrtr_socket;
  dci_cmd_fd ← qrtr_socket;
  w ← get;
  let p := pf_fresh (w_pf w) in
  _ ← zoom (watch_add_readfd cntl_fd (CbQrtrCntlRecv p) None);
  _ ← zoom (watch_add_readfd cmd_fd (CbQrtrCmdRecv p) None);
  _ ← zoom (watch_add_readfd data_fd (CbQrtrDataRecv p) flow);
  _ ← add_peripheral (Peripheral name 0 cntl_fd false data_fd false cmd_fd dci_cmd_fd flow 0 true
                        circ_zero decoder_zero Qrtr);
  mret 0.

Definition peripheral_qrtr_init : M world Z :=
  _ ← for_each (fun name => _ ← qrtr_perif_init_subsystem name; mret tt)
    ["modem"; "lpass"; "wcnss"; "sensors"; "cdsp"; "wdsp"; "soccp"]%string;
  mret 0.
