(* ===== verification/Clients.v ===== *)
(** * Clients: where diagnostic monitors come from, [router/usb.c],
    [router/unix.c], [router/socket.c] and [router/uart.c]

    A system call that fails leaves its negated errno in the environment's
    list of results.  The calls that only configure a descriptor keep their
    place in the sequence; their arguments are not modelled here; the
    USB descriptor tables written to the control endpoint are in [UsbDesc]. *)

From S2P Require Import Prelude CircBuf Hdlc Masks Queue Watch World Dm Cntl Peripheral AppCmds CommonCmds Router DmRecv.

(** ** USB FunctionFS *)

Definition sizeof_usb_handle : Z := 40.

(** A step of [ffs_diag_init]: the result, or the error it stops with. *)
Definition ffs_step {A} (f : Z -> M world (Z + A)) : M world (Z + A) :=
  ret ← sys_call; if ret <? 0 then mret (inl ret) else f ret.

(** The descriptors of the endpoints: [ep0], [bulk_out], [bulk_in]. *)
Definition ffs_diag_init : M world (Z + (Z * Z * Z)) :=
  ffs_step (fun ffs_fd =>          (* [open] *)
  ffs_step (fun ep0 =>             (* [openat] *)
  ffs_step (fun _ =>               (* [write] of the descriptors *)
  ffs_step (fun _ =>               (* [write] of the strings *)
  ffs_step (fun bulk_out =>        (* [openat] *)
  ffs_step (fun bulk_in =>         (* [openat] *)
    mret (inr (ep0, bulk_out, bulk_in)))))))).

(** The completion of a read from the OUT endpoint: the buffer [b] is decoded
    and goes back to the queue. *)
Definition diag_ffs_recv (u : nat) (b : mbuf) : M world Z :=
  w ← get;
  ffs ← deref (usb_handles (w_dev w) !! u);
  d ← lift (mem_read (mb_data b) 0 (mb_offset b));
  buf ← lift (mem_write (cb_buf circ_zero) 0 d);
  _ ← dm_decode_data (uh_dm ffs) (CircBuf buf (mb_offset b) 0);
  _ ← zoom (list_add_tail (QUsb u) (Mbuf (mb_size b) 0 (mb_flow b) (mb_data b)));
  mret 0.

Inductive ffs_event : Type := FUNCTIONFS_ENABLE | FUNCTIONFS_DISABLE | FUNCTIONFS_OTHER.

Section ep0.
(** The kernel's [struct usb_functionfs_event]: its size and its type. *)
Context (sizeof_ffs_event : Z) (ffs_event_type : bytes -> ffs_event).

Definition ep0_recv (u : nat) (fd : Z) : M world Z :=
  event ← stack sizeof_ffs_event;
  r ← sys_read fd sizeof_ffs_event;
  match r with
  | inl _ => mret 0
  | inr d =>
      if zlen d <=? 0 then mret 0 else
      event ← lift (mem_write event 0 d);
      w ← get;
      ffs ← deref (usb_handles (w_dev w) !! u);
      match ffs_event_type event with
      | FUNCTIONFS_ENABLE =>
          _ ← zoom (watch_add_readq (uh_bulk_out ffs) (QUsb u) (CbFfsRecv u));
          _ ← dm_enable (uh_dm ffs); mret 0
      | FUNCTIONFS_DISABLE => _ ← dm_disable (uh_dm ffs); mret 0
      | FUNCTIONFS_OTHER => mret 0
      end
  end.
End ep0.

Definition diag_usb_open : M world Z :=
  _ ← calloc_or_die sizeof_usb_handle;
  b ← zoom (mbuf_alloc 16384);
  match b with
  | None => exit1
  | Some b =>
      r ← ffs_diag_init;
      match r with
      | inl _ => mret (-1)
      | inr (ep0, bulk_out, bulk_in) =>
          w ← get;
          let u := length (usb_handles (w_dev w)) in
          _ ← zoom (modify (set_queue (QUsb u) [b]));
          _ ← zoom (watch_add_readfd ep0 (CbEp0Recv u) None);
          dm ← dm_add "USB client" (-1) bulk_in true;
          _ ← modify (over (fun s => DevState (devnodes s) (usb_handles s ++ [UsbHandle ep0 bulk_out bulk_in dm])));
          mret 0
      end
  end.

(** ** UNIX sockets *)

Definition unix_listen : M world Z :=
  client ← sys_call;    (* [accept] *)
  if client <? 0 then mret 0 else
  ret ← sys_call;       (* [fcntl] *)
  if ret <? 0 then mret 0 else
  dm ← dm_add "UNIX" client client false;
  _ ← dm_enable dm;
  mret 0.

Definition diag_unix_open : M world Z :=
  fd ← sys_call;        (* [socket] *)
  if fd <? 0 then mret (-1) else
  ret ← sys_call;       (* [bind] *)
  if ret <? 0 then mret (-1) else
  ret ← sys_call;       (* [listen] *)
  if ret <? 0 then mret (-1) else
  _ ← zoom (watch_add_readfd fd CbUnixListen None);
  mret 0.

(** ** TCP and UART *)

(** Each call must succeed; the client is added on the first call's descriptor. *)
Fixpoint configure (n : nat) : M world Z :=
  match n with
  | O => mret 0
  | S n => ret ← sys_call; if ret <? 0 then mret ret else configure n
  end.

(** [gethostbyname], [connect], [fcntl] *)
Definition diag_sock_connect : M world Z :=
  fd ← sys_call;
  if fd <? 0 then mret fd else
  ret ← configure 3;
  if ret <? 0 then mret ret else
  dm ← dm_add "DIAG CLIENT" fd fd true;
  _ ← dm_enable dm;
  mret fd.

(** The speeds [check_baudrate] knows. *)
Definition baudrates : list Z := [9600; 19200; 38400; 115200].

Definition check_baudrate (baudrate : Z) : bool := bool_decide (baudrate ∈ baudrates).

(** [tcflush], [fcntl], [ioctl], [ioctl] *)
Definition diag_uart_open (baudrate : Z) : M world Z :=
  if negb (check_baudrate baudrate) then mret (- EINVAL) else
  fd ← sys_call;
  if fd <? 0 then mret fd else
  ret ← configure 4;
  if ret <? 0 then mret ret else
  dm ← dm_add "UART client" fd fd true;
  _ ← dm_enable dm;
  mret fd.
