(* ===== verification/UsbDesc.v ===== *)
(** * UsbDesc: the descriptor tables of [router/usb.c]

    The bytes [ffs_diag_init] writes to the control endpoint.  The constants
    and the packed structures they are made of are the kernel's
    ([<linux/usb/ch9.h>], [<linux/usb/functionfs.h>]): parameters here, with the
    layout laws the code relies on. *)

From S2P Require Import Prelude.

Definition USB_PROTOCOL_DIAG : Z := 0x30.

(** The members the initialisers set; the others are zero. *)
Record interface_fields := InterfaceFields {
  if_bLength : Z; if_bDescriptorType : Z; if_bNumEndpoints : Z; if_bInterfaceClass : Z;
  if_bInterfaceSubClass : Z; if_bInterfaceProtocol : Z; if_iInterface : Z }.

Record endpoint_fields := EndpointFields {
  ep_bLength : Z; ep_bDescriptorType : Z; ep_bEndpointAddress : Z; ep_bmAttributes : Z; ep_wMaxPacketSize : Z }.

(** The kernel's headers. *)
Class UsbHeaders := {
  FUNCTIONFS_DESCRIPTORS_MAGIC_V2 : Z; FUNCTIONFS_STRINGS_MAGIC : Z;
  FUNCTIONFS_HAS_FS_DESC : Z; FUNCTIONFS_HAS_HS_DESC : Z; FUNCTIONFS_HAS_SS_DESC : Z;
  USB_DT_INTERFACE : Z; USB_DT_ENDPOINT : Z; USB_DT_SS_ENDPOINT_COMP : Z;
  USB_CLASS_VENDOR_SPEC : Z; USB_SUBCLASS_VENDOR_SPEC : Z;
  USB_DIR_OUT : Z; USB_DIR_IN : Z; USB_ENDPOINT_XFER_BULK : Z;
  (* [struct usb_functionfs_descs_head_v2]: magic, length, flags *)
  descs_head : Z -> Z -> Z -> bytes;
  (* [struct usb_interface_descriptor] *)
  interface_descriptor : interface_fields -> bytes;
  (* [struct usb_endpoint_descriptor_no_audio] *)
  endpoint_descriptor : endpoint_fields -> bytes;
  (* [struct usb_ss_ep_comp_descriptor]: bLength, bDescriptorType *)
  ss_comp_descriptor : Z -> Z -> bytes;
  (* [struct usb_functionfs_strings_head]: magic, length, str_count, lang_count *)
  strings_head : Z -> Z -> Z -> Z -> bytes;
  (* [sizeof] of each *)
  sizeof_descs_head : Z; sizeof_interface : Z; sizeof_endpoint : Z; sizeof_ss_comp : Z; sizeof_strings_head : Z }.

(** The layouts: each structure has its size, the heads start with the magic
    number and the length, little endian, and each descriptor with its own
    length and its type. *)
Class UsbLayout `{UsbHeaders} : Prop := {
  descs_head_size m n f : zlen (descs_head m n f) = sizeof_descs_head;
  descs_head_length m n f : 0 <= n < 2 ^ 32 -> rd 4 (descs_head m n f) 4 = Done n;
  strings_head_size m n s l : zlen (strings_head m n s l) = sizeof_strings_head;
  strings_head_length m n s l : 0 <= n < 2 ^ 32 -> rd 4 (strings_head m n s l) 4 = Done n;
  interface_size f : zlen (interface_descriptor f) = sizeof_interface;
  interface_start f : is_byte (if_bLength f) -> is_byte (if_bDescriptorType f) ->
    take 2 (interface_descriptor f) = [if_bLength f; if_bDescriptorType f];
  endpoint_size f : zlen (endpoint_descriptor f) = sizeof_endpoint;
  endpoint_start f : is_byte (ep_bLength f) -> is_byte (ep_bDescriptorType f) ->
    take 2 (endpoint_descriptor f) = [ep_bLength f; ep_bDescriptorType f];
  ss_comp_size l t : zlen (ss_comp_descriptor l t) = sizeof_ss_comp;
  ss_comp_start l t : is_byte l -> is_byte t -> take 2 (ss_comp_descriptor l t) = [l; t];
  small_sizes : sizeof_descs_head <= 256 /\ sizeof_strings_head <= 256 /\
    is_byte sizeof_interface /\ is_byte sizeof_endpoint /\ is_byte sizeof_ss_comp;
  small_types : is_byte USB_DT_INTERFACE /\ is_byte USB_DT_ENDPOINT /\ is_byte USB_DT_SS_ENDPOINT_COMP }.

Section tables.
Context `{UsbHeaders}.

(** ** The tables *)

Definition intf : bytes := interface_descriptor (InterfaceFields sizeof_interface USB_DT_INTERFACE 2
  USB_CLASS_VENDOR_SPEC USB_SUBCLASS_VENDOR_SPEC USB_PROTOCOL_DIAG 1).

Definition source (wMaxPacketSize : Z) : bytes := endpoint_descriptor (EndpointFields sizeof_endpoint USB_DT_ENDPOINT
  (Z.lor 1 USB_DIR_OUT) USB_ENDPOINT_XFER_BULK wMaxPacketSize).

Definition sink (wMaxPacketSize : Z) : bytes := endpoint_descriptor (EndpointFields sizeof_endpoint USB_DT_ENDPOINT
  (Z.lor 2 USB_DIR_IN) USB_ENDPOINT_XFER_BULK wMaxPacketSize).

Definition comp : bytes := ss_comp_descriptor sizeof_ss_comp USB_DT_SS_ENDPOINT_COMP.

(** The descriptors of each speed. *)
Definition fs_descs : list bytes := [intf; source 64; sink 64].
Definition hs_descs : list bytes := [intf; source 512; sink 512].
Definition ss_descs : list bytes := [intf; source 1024; comp; sink 1024; comp].

Definition sizeof_descriptors : Z :=
  sizeof_descs_head + 12 + 2 * (sizeof_interface + 2 * sizeof_endpoint) +
  (sizeof_interface + 2 * sizeof_endpoint + 2 * sizeof_ss_comp).

Definition descriptors : bytes :=
  descs_head FUNCTIONFS_DESCRIPTORS_MAGIC_V2 sizeof_descriptors
    (Z.lor (Z.lor FUNCTIONFS_HAS_FS_DESC FUNCTIONFS_HAS_HS_DESC) FUNCTIONFS_HAS_SS_DESC) ++
  le 4 3 ++ le 4 3 ++ le 4 5 ++ concat fs_descs ++ concat hs_descs ++ concat ss_descs.

(** "Diag interface", with its zero *)
Definition STR_INTERFACE : bytes := [68; 105; 97; 103; 32; 105; 110; 116; 101; 114; 102; 97; 99; 101; 0].

Definition strings : bytes :=
  strings_head FUNCTIONFS_STRINGS_MAGIC (sizeof_strings_head + 2 + zlen STR_INTERFACE) 1 1 ++ le 2 0x0409 ++ STR_INTERFACE.

(** ** Reading the tables back

    As a reader of the format does: [n] descriptors, each as long as its first
    byte says. *)

Fixpoint walk (n : nat) (b : bytes) : option (list bytes * bytes) :=
  match n with
  | O => Some ([], b)
  | S n =>
      match b with
      | l :: _ =>
          if (1 <? l) && (l <=? zlen b) then
            '(ds, rest) ← walk n (drop (Z.to_nat l) b); Some (take (Z.to_nat l) b :: ds, rest)
          else None
      | [] => None
      end
  end.

(** The counts that follow the head, then the descriptors they announce. *)
Definition read_tables (b : bytes) : option (list bytes * list bytes * list bytes) :=
  match rd 4 b 0, rd 4 b 4, rd 4 b 8 with
  | Done nf, Done nh, Done ns =>
      '(fs, b) ← walk (Z.to_nat nf) (drop 12 b);
      '(hs, b) ← walk (Z.to_nat nh) b;
      '(ss, b) ← walk (Z.to_nat ns) b;
      match b with [] => Some (fs, hs, ss) | _ => None end
  | _, _, _ => None
  end.

(** ** Properties *)

Context `{!UsbLayout}.

Lemma length_zlen {A} (l : list A) : length l = Z.to_nat (zlen l).
Proof. unfold zlen. by rewrite Nat2Z.id. Qed.

Lemma rd_app_done n a b off v : rd n a off = Done v -> rd n (a ++ b) off = Done v.
Proof.
  unfold rd, mem_read. destruct (in_object a off (Z.of_nat n)) eqn:E; [|done]. apply in_object_true in E as (H1 & H2 & H3).
  rewrite (proj2 (in_object_true (a ++ b) off (Z.of_nat n))) by (rewrite zlen_app; pose proof (zlen_nonneg b); lia).
  by rewrite slice_app_l.
Qed.

(** A descriptor says how long it is. *)
Definition measured (d : bytes) : Prop := exists l, head d = Some l /\ zlen d = l /\ 1 < l.

Lemma measured_start d l t : take 2 d = [l; t] -> zlen d = l -> measured d.
Proof.
  intros E Hl. destruct d as [|a [|b d]]; try done. injection E as -> ->. exists l. split; [done|]. split; [done|].
  rewrite !zlen_cons in Hl. pose proof (zlen_nonneg d). lia.
Qed.

Lemma walk_concat ds rest : Forall measured ds -> walk (length ds) (concat ds ++ rest) = Some (ds, rest).
Proof.
  induction ds as [|d ds IH]; intros Hds; [done|]. apply Forall_cons in Hds as [(l & Hh & Hl & H1) Hds].
  cbn [concat length walk]. rewrite <- app_assoc. destruct d as [|l' d]; [done|]. injection Hh as ->.
  cbn [app]. rewrite (proj2 (Z.ltb_lt _ _)), (proj2 (Z.leb_le _ _)) by
    (rewrite ?zlen_cons, ?zlen_app in *; pose proof (zlen_nonneg (concat ds)); pose proof (zlen_nonneg rest); lia).
  cbn [andb]. change (l :: d ++ concat ds ++ rest) with ((l :: d) ++ (concat ds ++ rest)).
  assert (Z.to_nat l = length (l :: d)) as -> by (unfold zlen in Hl; lia).
  by rewrite drop_app_length, take_app_length, IH.
Qed.

Lemma all_measured : Forall measured fs_descs /\ Forall measured hs_descs /\ Forall measured ss_descs.
Proof.
  pose proof small_sizes as (_ & _ & Hi & He & Hc). pose proof small_types as (Ti & Te & Tc).
  assert (measured intf) by (eapply measured_start; [by apply interface_start|apply interface_size]).
  assert (forall n, measured (source n)) by (intros n; eapply measured_start; [by apply endpoint_start|apply endpoint_size]).
  assert (forall n, measured (sink n)) by (intros n; eapply measured_start; [by apply endpoint_start|apply endpoint_size]).
  assert (measured comp) by (eapply measured_start; [by apply ss_comp_start|apply ss_comp_size]).
  unfold fs_descs, hs_descs, ss_descs. auto 10.
Qed.

Lemma read_counts nf nh ns b fs hs ss :
  0 <= nf < 2 ^ 32 -> 0 <= nh < 2 ^ 32 -> 0 <= ns < 2 ^ 32 ->
  walk (Z.to_nat nf) b = Some fs -> walk (Z.to_nat nh) fs.2 = Some hs -> walk (Z.to_nat ns) hs.2 = Some ss -> ss.2 = [] ->
  read_tables (le 4 nf ++ le 4 nh ++ le 4 ns ++ b) = Some (fs.1, hs.1, ss.1).
Proof.
  intros Hf Hh Hs Ef Eh Es E0. unfold read_tables.
  assert (forall n, 0 <= n < 2 ^ 32 -> n mod 256 ^ Z.of_nat 4 = n) as Hm by (intros; apply Z.mod_small; done).
  rewrite (rd_le 4), (rd_skip 4 (le 4 nf) _ 0 4), (rd_le 4) by (rewrite ?zlen_le; done).
  rewrite (rd_skip 4 (le 4 nf) _ 4 4), (rd_skip 4 (le 4 nh) _ 0 4), (rd_le 4) by (rewrite ?zlen_le; done).
  rewrite !Hm by done. change (drop 12 (le 4 nf ++ le 4 nh ++ le 4 ns ++ b)) with b.
  rewrite Ef. cbn [mbind option_bind]. destruct fs as [fs b1]. cbn [fst snd] in *. rewrite Eh. cbn [mbind option_bind].
  destruct hs as [hs b2]. cbn [fst snd] in *. rewrite Es. cbn [mbind option_bind]. destruct ss as [ss b3].
  cbn [fst snd] in *. by subst.
Qed.

Lemma zlen_descriptors : zlen descriptors = sizeof_descriptors.
Proof.
  unfold descriptors, fs_descs, hs_descs, ss_descs, sizeof_descriptors, intf, source, sink, comp. cbn [concat].
  rewrite !zlen_app, descs_head_size, !interface_size, !endpoint_size, !ss_comp_size, !zlen_le. change (zlen (@nil Z)) with 0. lia.
Qed.

(** The tables written to the control endpoint are what their headers say:
    each header's length is the length of its table, and reading the
    descriptors by their counts and lengths yields exactly three, three and
    five of them, with nothing left over. *)
Lemma usb_tables_well_formed :
  rd 4 descriptors 4 = Done (zlen descriptors) /\
  read_tables (drop (Z.to_nat sizeof_descs_head) descriptors) = Some (fs_descs, hs_descs, ss_descs) /\
  rd 4 strings 4 = Done (zlen strings) /\
  drop (Z.to_nat sizeof_strings_head) strings = le 2 0x0409 ++ STR_INTERFACE.
Proof.
  destruct all_measured as (Hf & Hh & Hs). pose proof small_sizes as (Sd & Ss & Si & Se & Sc). unfold is_byte in *.
  assert (0 <= sizeof_descs_head) as Hd0 by (rewrite <- (descs_head_size 0 0 0); apply zlen_nonneg).
  assert (0 <= sizeof_strings_head) as Hs0 by (rewrite <- (strings_head_size 0 0 0 0); apply zlen_nonneg).
  assert (0 <= sizeof_descriptors < 2 ^ 32) as Hn by (unfold sizeof_descriptors; lia).
  assert (zlen STR_INTERFACE = 15) as El by done. split_and!.
  - rewrite zlen_descriptors. apply rd_app_done, descs_head_length, Hn.
  - unfold descriptors. rewrite drop_app_ge by (rewrite length_zlen, descs_head_size; lia).
    rewrite length_zlen, descs_head_size, Nat.sub_diag, drop_0.
    apply (read_counts 3 3 5 _ (fs_descs, concat hs_descs ++ concat ss_descs) (hs_descs, concat ss_descs) (ss_descs, [])); try done.
    + by apply (walk_concat fs_descs).
    + by apply (walk_concat hs_descs).
    + cbn [snd]. rewrite <- (app_nil_r (concat ss_descs)). by apply (walk_concat ss_descs).
  - unfold strings. rewrite !zlen_app, strings_head_size, zlen_le, El. 
    rewrite (rd_app_done _ _ _ _ (sizeof_strings_head + 2 + 15)); [f_equal; lia|]. apply strings_head_length. lia.
  - unfold strings. rewrite drop_app_ge by (rewrite length_zlen, strings_head_size; lia).
    by rewrite length_zlen, strings_head_size, Nat.sub_diag, drop_0.
Qed.
End tables.

(** ** The headers of Linux *)

Definition linux_headers : UsbHeaders := {|
  FUNCTIONFS_DESCRIPTORS_MAGIC_V2 := 3; FUNCTIONFS_STRINGS_MAGIC := 2;
  FUNCTIONFS_HAS_FS_DESC := 1; FUNCTIONFS_HAS_HS_DESC := 2; FUNCTIONFS_HAS_SS_DESC := 4;
  USB_DT_INTERFACE := 4; USB_DT_ENDPOINT := 5; USB_DT_SS_ENDPOINT_COMP := 0x30;
  USB_CLASS_VENDOR_SPEC := 0xff; USB_SUBCLASS_VENDOR_SPEC := 0xff;
  USB_DIR_OUT := 0; USB_DIR_IN := 0x80; USB_ENDPOINT_XFER_BULK := 2;
  descs_head m n f := le 4 m ++ le 4 n ++ le 4 f;
  interface_descriptor f := [u8 (if_bLength f); u8 (if_bDescriptorType f); 0; 0; u8 (if_bNumEndpoints f);
    u8 (if_bInterfaceClass f); u8 (if_bInterfaceSubClass f); u8 (if_bInterfaceProtocol f); u8 (if_iInterface f)];
  endpoint_descriptor f := [u8 (ep_bLength f); u8 (ep_bDescriptorType f); u8 (ep_bEndpointAddress f);
    u8 (ep_bmAttributes f)] ++ le 2 (ep_wMaxPacketSize f) ++ [0];
  ss_comp_descriptor l t := [u8 l; u8 t; 0; 0; 0; 0];
  strings_head m n s l := le 4 m ++ le 4 n ++ le 4 s ++ le 4 l;
  sizeof_descs_head := 12; sizeof_interface := 9; sizeof_endpoint := 7; sizeof_ss_comp := 6;
  sizeof_strings_head := 16 |}.

Lemma linux_layout : @UsbLayout linux_headers.
Proof.
  assert (forall n, 0 <= n < 2 ^ 32 -> n mod 256 ^ Z.of_nat 4 = n) as Hm by (intros; by apply Z.mod_small).
  assert (forall m n b, 0 <= n < 2 ^ 32 -> rd 4 (le 4 m ++ le 4 n ++ b) 4 = Done n) as Hr.
  { intros m n b Hn. by rewrite (rd_skip 4 (le 4 m) _ 0 4), rd_le, Hm by (rewrite ?zlen_le; done). }
  split; intros; try done; try (by apply Hr);
    try (unfold is_byte in *; cbn in *; by rewrite !u8_id by lia); unfold is_byte; cbn; lia.
Qed.

Lemma usb_tables_well_formed_witness :
  rd 4 (@descriptors linux_headers) 4 = Done 105 /\
  (prod_map (prod_map length length) length <$>
     read_tables (drop 12 (@descriptors linux_headers))) = Some (3%nat, 3%nat, 5%nat) /\
  rd 4 (@strings linux_headers) 4 = Done 33.
Proof.
  destruct (@usb_tables_well_formed linux_headers linux_layout) as (H1 & H2 & H3 & _).
  split; [exact H1|]. split; [|exact H3].
  change (drop 12 (@descriptors linux_headers)) with (drop (Z.to_nat (@sizeof_descs_head linux_headers)) (@descriptors linux_headers)).
  rewrite H2. reflexivity.
Defined.
