(* ===== verification/EventLoop.v ===== *)
(** * EventLoop: [watch_run] of [router/watch.c], and [main]

    Submitting asynchronous I/O, its completions, timers and the read
    callbacks.  A pointer to a watch is the watch's identity; a watch is live
    while it is on its list, because the operations that take it off free it.
    What [select], [gettimeofday] and [io_getevents] say in a round is a
    [round]. *)

From S2P Require Import Prelude CircBuf Hdlc Masks Queue Watch World Dm Cntl Peripheral AppCmds CommonCmds Router DmRecv Devnode Qrtr Clients.

(** ** Watches on their lists *)

Definition find_watch (id : nat) (l : list watch) : option watch :=
  List.find (fun w => bool_decide (wa_id w = id)) l.

(** The watch that follows on the list; [None] is the list's head. *)
Fixpoint next_watch (id : nat) (l : list watch) : outcome (option nat) :=
  match l with
  | [] => UB
  | w :: l => if bool_decide (wa_id w = id) then Done (wa_id <$> head l) else next_watch id l
  end.

Definition wa_with_pending (b : option mbuf) (w : watch) : watch :=
  Watch (wa_id w) (wa_fd w) (wa_cb w) (wa_queue w) b (wa_is_write w) (wa_flow w).

Definition set_pending (id : nat) (b : option mbuf) : M world unit :=
  modify (over (with_aio (fmap (fun w => if bool_decide (wa_id w = id) then wa_with_pending b w else w)))).

Definition get_aio (id : nat) : M world watch :=
  w ← get; deref (find_watch id (ws_aio (w_watches w))).

Definition get_read (id : nat) : M world watch :=
  w ← get; deref (find_watch id (ws_read (w_watches w))).

(** ** Asynchronous I/O *)

(** The whole buffer is written, or filled. *)
Definition aio_accept (id : nat) (w : watch) (data : bytes) : M world unit :=
  modify (over (fun e => Env (e_fds e) (e_results e) (e_senders e) (e_udev e)
                           (e_aio e ++ [Iocb id (wa_fd w) (wa_is_write w) data]))).

Definition watch_submit_aio (id : nat) : M world unit :=
  w ← get_aio id;
  match wa_pending_aio w with
  | Some _ => exit1    (* [assert] *)
  | None =>
      q ← deref (wa_queue w);
      s ← get;
      match queue_of (w_queues s) q with
      | [] => mret tt
      | b :: rest =>
          data ← lift (mem_read (mb_data b) 0 (mb_size b));
          ret ← sys_call;    (* [io_submit] *)
          if ret =? 1 then
            _ ← aio_accept id w data;
            _ ← zoom (modify (set_queue q rest));
            set_pending id (Some b)
          else mret tt
      end
  end.

(** [struct io_event]: [ev_obj] is the watch that holds the control block. *)
Record io_event := IoEvent { ev_obj : nat; ev_res : Z }.

Definition watch_free_write_aio (b : mbuf) : M world Z :=
  _ ← zoom (watch_flow_dec (mb_flow b)); mret 0.

(** [w->aio_complete(b, w->data)] *)
Definition aio_complete (cb : watch_cb) (b : mbuf) : M world Z :=
  match cb with
  | CbFreeWriteAio => watch_free_write_aio b
  | CbFfsRecv u => diag_ffs_recv u b
  | _ => fail_ub
  end.

Definition mb_with_offset (n : Z) (b : mbuf) : mbuf := Mbuf (mb_size b) n (mb_flow b) (mb_data b).

(** One event for one watch. *)
Definition aio_event (id : nat) (ev : io_event) : M world unit :=
  obj ← get_aio (ev_obj ev);
  w ← get_aio id;
  if negb (wa_fd obj =? wa_fd w) then mret tt else
  match wa_pending_aio w with
  | None => exit1    (* [assert] *)
  | Some b =>
      if ev_res ev =? - EAGAIN then mret tt else
      let b := if negb (wa_is_write w) && (0 <=? ev_res ev) then mb_with_offset (ev_res ev) b else b in
      _ ← aio_complete (wa_cb w) b;
      set_pending id None
  end.

Fixpoint aio_loop (fuel : nat) (item next : option nat) (evs : list io_event) : M world unit :=
  match item, fuel with
  | None, _ => mret tt
  | Some _, O => lift Spin
  | Some id, S fuel =>
      _ ← for_each (aio_event id) evs;
      w ← get;
      next' ← match next with
              | Some id' => lift (next_watch id' (ws_aio (w_watches w)))
              | None => mret None
              end;
      aio_loop fuel next next' evs
  end.

(** [evs] is what [io_getevents] returns; [None]: reading the eventfd failed.
    The callbacks add no asynchronous watches, so the list's length bounds the
    iterations. *)
Definition watch_handle_eventfd (evs : option (list io_event)) : M world unit :=
  match evs with
  | None => mret tt
  | Some evs =>
      w ← get;
      let l := ws_aio (w_watches w) in
      let item := wa_id <$> head l in
      next ← match item with Some id => lift (next_watch id l) | None => mret None end;
      aio_loop (S (length l)) item next evs
  end.

(** ** A round *)

Definition FD_SETSIZE : Z := 1024.

(** [rd_now] and [rd_woke]: the clock before and after [select]; [rd_select]:
    what it answers to the descriptors asked for and the timeout, an error or
    the descriptors that are ready; [rd_evfd]: whether the eventfd is. *)
Record round := Round {
  rd_now : Z; rd_woke : Z; rd_select : list Z -> option Z -> Z + list Z;
  rd_evfd : bool; rd_events : option (list io_event) }.

(** [select] finds these descriptors ready, whatever it is asked. *)
Definition select_gives (ready : list Z) : list Z -> option Z -> Z + list Z := fun _ _ => inr ready.

(** The descriptors asked for: [FD_SET] of those that are not blocked. *)
Fixpoint select_fds (l : list watch) : M world (list Z) :=
  match l with
  | [] => mret []
  | w :: l =>
      blocked ← zoom (watch_flow_blocked (wa_flow w));
      if blocked : bool then select_fds l else
      if (0 <=? wa_fd w) && (wa_fd w <? FD_SETSIZE) then
        fds ← select_fds l; mret (wa_fd w :: fds)
      else fail_ub
  end.

(** The loop that submits: a watch with something to do and nothing pending. *)
Definition submit_round : M world unit :=
  s ← get;
  for_each (fun id =>
    w ← get_aio id;
    q ← deref (wa_queue w);
    s ← get;
    match queue_of (w_queues s) q, wa_pending_aio w with
    | _ :: _, None => watch_submit_aio id
    | _, _ => mret tt
    end) (wa_id <$> ws_aio (w_watches s)).

Section callbacks.
(** libqrtr, the kernel's FunctionFS events, and the number of reads after
    which a descriptor is drained. *)
Context (qrtr_decode : bytes -> Z -> Z * Z -> Z + qrtr_packet).
Context (sizeof_ffs_event : Z) (ffs_event_type : bytes -> ffs_event).
Context (fuel : nat).

(** [w->cb(w->fd, w->data)] *)
Definition run_cb (cb : watch_cb) (fd : Z) : M world Z :=
  match cb with
  | CbDmRecv c => dm_recv fuel c
  | CbUnixListen => unix_listen
  | CbRpmsgCntlRecv p => rpmsg_perif_cntl_recv p fd
  | CbRpmsgDataRecv p => diag_data_recv fuel p fd
  | CbRpmsgCmdRecv p => diag_cmd_recv p fd
  | CbUdevUpdate => peripheral_udev_update
  | CbQrtrCntlRecv p => qrtr_cntl_recv qrtr_decode p fd
  | CbQrtrCmdRecv p => qrtr_cmd_recv qrtr_decode p fd
  | CbQrtrDataRecv p => qrtr_data_recv qrtr_decode p fd
  | CbEp0Recv u => ep0_recv sizeof_ffs_event ffs_event_type u fd
  | CbFfsRecv _ | CbFreeWriteAio => fail_ub
  end.

Definition run_timer (cb : timer_cb) : M world unit :=
  match cb with
  | TmHdlcReset c => diag_hdlc_reset c
  | TmPeripheralOpen p => peripheral_open p
  end.

(** [list_del] of a node: the watch must not have been freed. *)
Definition list_del_read (id : nat) : M world unit :=
  _ ← get_read id;
  modify (over (with_read (filter (fun w => wa_id w <> id)))).

Fixpoint read_loop (n : nat) (item next : option nat) (ready : list Z) : M world unit :=
  match item, n with
  | None, _ => mret tt
  | Some _, O => lift Spin
  | Some id, S n =>
      w ← get_read id;
      _ ← (if bool_decide (wa_fd w ∈ ready) then
             ret ← run_cb (wa_cb w) (wa_fd w);
             if ret <? 0 then list_del_read id else mret tt
           else mret tt);
      s ← get;
      next' ← match next with
              | Some id' => lift (next_watch id' (ws_read (w_watches s)))
              | None => mret None
              end;
      read_loop n next next' ready
  end.

(** Callbacks may add watches, and the loop visits those that were added
    before it reached the last one; [n] bounds the visits. *)
Definition read_round (n : nat) (ready : list Z) : M world unit :=
  s ← get;
  let l := ws_read (w_watches s) in
  let item := wa_id <$> head l in
  next ← match item with Some id => lift (next_watch id l) | None => mret None end;
  read_loop n item next ready.

Definition at_time (now : Z) : world -> world :=
  over (fun s => WState (ws_timers s) (ws_read s) (ws_aio s) (ws_quit s) (ws_do_quit s) now (ws_fresh s)).

Definition set_now (now : Z) : M world unit := modify (at_time now).

(** The timer that expired: its callback, then it is set again or freed. *)
Definition timer_round (k : nat) : M world unit :=
  s ← get;
  t ← deref (ws_timers (w_watches s) !! k);
  _ ← run_timer (tm_cb t);
  if tm_repeat t then
    modify (over (fun s => with_timers (alter (watch_set_timer (ws_now s)) k) s))
  else zoom (watch_free_timer k).

(** The time to the timer's tick, in microseconds; null without a timer. *)
Definition select_timeout (timer : option nat) (s : wstate) : M world (option Z) :=
  match timer with
  | Some k =>
      t ← deref (ws_timers s !! k);
      let tv := tm_tick t - ws_now s in
      mret (Some (if tv <? 0 then 0 else tv))
  | None => mret None
  end.

(** One round of [while (!do_watch_quit)]: whether the loop goes on. *)
Definition watch_round (n : nat) (r : round) : M world bool :=
  _ ← set_now (rd_now r);
  s ← get;
  fds ← select_fds (ws_read (w_watches s));
  _ ← submit_round;
  s ← get;
  let timer := watch_get_next_timer (ws_timers (w_watches s)) in
  timeout ← select_timeout timer (w_watches s);
  _ ← set_now (rd_woke r);
  match rd_select r fds timeout with
  | inl _ => mret false
  | inr ready =>
      let ready := filter (fun fd => fd ∈ fds) ready in
      _ ← (if (zlen ready =? 0) && negb (rd_evfd r) then
             match timer with Some k => timer_round k | None => mret tt end
           else mret tt);
      _ ← (if rd_evfd r then watch_handle_eventfd (rd_events r) else mret tt);
      _ ← read_round n ready;
      mret true
  end.

Fixpoint watch_loop (n : nat) (rs : list round) : M world unit :=
  s ← get;
  if ws_do_quit (w_watches s) then mret tt else
  match rs with
  | [] => mret tt
  | r :: rs =>
      go ← watch_round n r;
      if go : bool then watch_loop n rs else mret tt
  end.

(** [rs] are the rounds the system lets the program make. *)
Definition watch_run (n : nat) (rs : list round) : M world unit :=
  evfd ← sys_call;
  if evfd <? 0 then exit1 else
  ret ← sys_call;    (* [io_setup] *)
  if ret <? 0 then exit1 else
  _ ← watch_loop n rs;
  s ← get;
  for_each (fun w => _ ← run_cb (wa_cb w) (-1); mret tt) (ws_quit (w_watches s)).

(** ** [main]

    The command line's outcome: a host to connect to, a UART with its speed,
    or neither; and what libudev found. *)

Inductive monitor : Type := Host | Uart (baudrate : Z) | NoMonitor.

Definition peripheral_init (udev : bool) (devices : list udev_device) (udev_fd : Z) : M world Z :=
  _ ← peripheral_rpmsg_init udev devices udev_fd;
  _ ← peripheral_qrtr_init;
  mret 0.

Definition diag_start (m : monitor) (udev : bool) (devices : list udev_device) (udev_fd : Z) : M world unit :=
  ret ← match m with
        | Host => diag_sock_connect
        | Uart baudrate => diag_uart_open baudrate
        | NoMonitor => mret 0
        end;
  if ret <? 0 then exit1 else
  _ ← diag_usb_open;
  ret ← diag_unix_open;
  if ret <? 0 then exit1 else
  _ ← peripheral_init udev devices udev_fd;
  _ ← zoom diag_masks_init;
  _ ← register_app_cmds;
  register_common_cmds.

Definition main (m : monitor) (udev : bool) (devices : list udev_device) (udev_fd : Z)
    (n : nat) (rs : list round) : M world unit :=
  _ ← diag_start m udev devices udev_fd;
  watch_run n rs.
End callbacks.
