(* ===== verification/Cmdline.v ===== *)
(** * Cmdline: the command line, [main] of [router/diag.c]

    [getopt], [strtok] and [atoi] of the C library as [main] uses them, the
    loop over the options, and the whole of [main].  A string is the list of
    its characters, without the terminating zero. *)

From S2P Require Import Prelude CircBuf Hdlc Masks Queue Watch World Dm Cntl Peripheral AppCmds CommonCmds Router DmRecv Devnode Qrtr Clients EventLoop.

Definition DEFAULT_SOCKET_PORT : Z := 2500.
Definition DEFAULT_BAUD_RATE : Z := 115200.

(** ** The C library *)

(** The characters [main] names: '-', ':', '?', '@', 'h', 's', 'u'. *)
Definition ch_dash : Z := 45.
Definition ch_colon : Z := 58.
Definition ch_question : Z := 63.
Definition ch_at : Z := 64.
Definition ch_h : Z := 104.
Definition ch_s : Z := 115.
Definition ch_u : Z := 117.

(** [getopt] on the characters of one argument after its dash, for the option
    string "hs:u:": what it returns for each, with [optarg], and the option that
    still wants its argument. *)
Fixpoint getopt_cluster (s : bytes) : list (Z * bytes) * option Z :=
  match s with
  | [] => ([], None)
  | c :: s' =>
      if (c =? ch_s) || (c =? ch_u) then
        match s' with [] => ([], Some c) | _ => ([(c, s')], None) end
      else
        let '(l, last) := getopt_cluster s' in
        ((if c =? ch_h then ch_h else ch_question, []) :: l, last)
  end.

(** All the calls of [getopt] that return an option.  Arguments that are no
    options are passed over, and "--" ends the options. *)
Fixpoint getopt (args : list bytes) : list (Z * bytes) :=
  match args with
  | [] => []
  | a :: args =>
      match a with
      | c :: ((_ :: _) as s) =>
          if negb (c =? ch_dash) then getopt args
          else if bool_decide (s = [ch_dash]) then []
          else
            match getopt_cluster s with
            | (l, None) => l ++ getopt args
            | (l, Some c) =>
                match args with
                | [] => l ++ [(ch_question, [])]
                | optarg :: args => l ++ (c, optarg) :: getopt args
                end
            end
      | _ => getopt args
      end
  end.

(** [strspn] and [strcspn] as splits: the longest prefix of characters that are
    in [delim], or are not, and the rest. *)
Fixpoint skip_in (delim s : bytes) : bytes :=
  match s with
  | c :: s' => if bool_decide (c ∈ delim) then skip_in delim s' else s
  | [] => []
  end.

Fixpoint split_at (delim s : bytes) : bytes * bytes :=
  match s with
  | c :: s' => if bool_decide (c ∈ delim) then ([], s) else let '(t, r) := split_at delim s' in (c :: t, r)
  | [] => ([], [])
  end.

Definition isspace (c : Z) : bool := (c =? 32) || ((9 <=? c) && (c <=? 13)).
Definition isdigit (c : Z) : bool := (48 <=? c) && (c <=? 57).

Fixpoint skip_space (s : bytes) : bytes :=
  match s with c :: s' => if isspace c then skip_space s' else s | [] => [] end.

Fixpoint digits (acc : Z) (s : bytes) : Z :=
  match s with c :: s' => if isdigit c then digits (10 * acc + (c - 48)) s' else acc | [] => acc end.

(** [strtol] in base ten, saturating at the bounds of [long]. *)
Definition strtol (s : bytes) : Z :=
  let n := match skip_space s with
           | c :: s' => if c =? 45 then - digits 0 s' else if c =? 43 then digits 0 s' else digits 0 (c :: s')
           | [] => 0
           end in
  Z.max (- 2 ^ 63) (Z.min n (2 ^ 63 - 1)).

Definition s32 (z : Z) : Z := if u32 z <? 2 ^ 31 then u32 z else u32 z - 2 ^ 32.

Definition atoi (s : bytes) : Z := s32 (strtol s).

(** ** The options

    The variables of [main], and the place where [strtok] goes on. *)
Record options := Options {
  host_address : option bytes; host_port : Z; uartdev : option bytes; baudrate : Z;
  strtok_save : option bytes }.

Definition options_zero : options := Options None DEFAULT_SOCKET_PORT None DEFAULT_BAUD_RATE None.

(** A null string goes on where the last call stopped. *)
Definition strtok (s : option bytes) (delim : bytes) : M options (option bytes) :=
  o ← get;
  from ← deref (match s with Some s => Some s | None => strtok_save o end);
  let '(token, rest) := match skip_in delim from with
                        | [] => (None, [])
                        | s => let '(t, r) := split_at delim s in (Some t, tail r)
                        end in
  _ ← put (Options (host_address o) (host_port o) (uartdev o) (baudrate o) (Some rest));
  mret token.

Definition strdup_arg (s : bytes) : M options (option bytes) :=
  p ← malloc (zlen s + 1);
  match p with None => mret None | Some _ => mret (Some s) end.

Definition set_host (address : option bytes) : M options unit :=
  modify (fun o => Options address (host_port o) (uartdev o) (baudrate o) (strtok_save o)).
Definition set_port (port : Z) : M options unit :=
  modify (fun o => Options (host_address o) port (uartdev o) (baudrate o) (strtok_save o)).
Definition set_uart (dev : option bytes) : M options unit :=
  modify (fun o => Options (host_address o) (host_port o) dev (baudrate o) (strtok_save o)).
Definition set_baudrate (rate : Z) : M options unit :=
  modify (fun o => Options (host_address o) (host_port o) (uartdev o) rate (strtok_save o)).

Definition usage : M options unit := exit1.

(** One round of the loop. *)
Definition option_step (c : Z * bytes) : M options unit :=
  let '(c, optarg) := c in
  if c =? ch_s then
    s ← strdup_arg optarg;
    address ← strtok s [ch_colon];
    _ ← set_host address;
    token ← strtok None [];
    match token with Some t => set_port (atoi t) | None => mret tt end
  else if c =? ch_u then
    s ← strdup_arg optarg;
    dev ← strtok s [ch_at];
    _ ← set_uart dev;
    token ← strtok None [];
    match token with Some t => set_baudrate (atoi t) | None => mret tt end
  else usage.

Definition parse_options (args : list bytes) : M options unit := for_each option_step (getopt args).

(** The conversions of the arguments, [unsigned short] and [unsigned int]. *)
Definition sock_port (o : options) : Z := u16 (host_port o).

Definition monitor_of (o : options) : monitor :=
  match host_address o, uartdev o with
  | Some _, _ => Host
  | None, Some _ => Uart (u32 (baudrate o))
  | None, None => NoMonitor
  end.

(** [args] are the arguments after the program's name. *)
Section main.
Context (qrtr_decode : bytes -> Z -> Z * Z -> Z + qrtr_packet).
Context (sizeof_ffs_event : Z) (ffs_event_type : bytes -> ffs_event).
Context (fuel : nat).

Definition diag_main (args : list bytes) (udev : bool) (devices : list udev_device) (udev_fd : Z)
    (n : nat) (rs : list round) : M world unit := fun h w =>
  match parse_options args h options_zero with
  | Done (_, h, o) =>
      main qrtr_decode sizeof_ffs_event ffs_event_type fuel (monitor_of o) udev devices udev_fd n rs h w
  | UB => UB
  | Exit => Exit
  | Spin => Spin
  end.
End main.

Example getopt_cases :
  getopt [[ch_dash; ch_h; ch_s]; [1]; [2]; [ch_dash; ch_u; 3]; [ch_dash; ch_dash]; [ch_dash; ch_h]] =
    [(ch_h, []); (ch_s, [1]); (ch_u, [3])] /\
  getopt [[ch_dash; 9]; [ch_dash]; [ch_dash; ch_s]] = [(ch_question, []); (ch_question, [])].
Proof. by vm_compute. Qed.

(** ** Reading back a command line *)

(** A number in decimal; twenty digits hold every [long]. *)
Fixpoint decimal_loop (fuel : nat) (n : Z) : bytes :=
  match fuel with
  | O => []
  | S fuel => (if n <? 10 then [] else decimal_loop fuel (n / 10)) ++ [48 + n mod 10]
  end.

Definition decimal (n : Z) : bytes := decimal_loop 20 n.

Lemma digits_snoc acc s c : Forall (fun c => isdigit c = true) s ->
  digits acc (s ++ [c]) = if isdigit c then 10 * digits acc s + (c - 48) else digits acc s.
Proof.
  revert acc. induction s as [|d s IH]; intros acc; [done|]. intros [Hd Hs]%Forall_cons. cbn. rewrite Hd. by apply IH.
Qed.

Lemma isdigit_mod n : isdigit (48 + n mod 10) = true.
Proof. unfold isdigit. pose proof (Z.mod_pos_bound n 10). lia. Qed.

Lemma decimal_loop_digits fuel n : Forall (fun c => isdigit c = true) (decimal_loop fuel n).
Proof.
  revert n. induction fuel as [|fuel IH]; intros n; cbn [decimal_loop]; [done|]. apply Forall_app. split.
  - destruct (n <? 10); [done|apply IH].
  - apply Forall_singleton, isdigit_mod.
Qed.

Lemma digits_decimal_loop fuel n : 0 <= n < 10 ^ Z.of_nat fuel -> digits 0 (decimal_loop fuel n) = n.
Proof.
  revert n. induction fuel as [|fuel IH]; intros n Hn; cbn [decimal_loop]; [cbn in *; lia|].
  rewrite Nat2Z.inj_succ, Z.pow_succ_r in Hn by lia. rewrite digits_snoc, isdigit_mod.
  - destruct (Z.ltb_spec n 10); cbn [digits].
    + rewrite Z.mod_small by lia. lia.
    + rewrite IH; [pose proof (Z.div_mod n 10); lia|]. split; [apply Z.div_pos; lia|apply Z.div_lt_upper_bound; lia].
  - destruct (n <? 10); [done|apply decimal_loop_digits].
Qed.

Lemma atoi_decimal n : 0 <= n < 2 ^ 31 -> atoi (decimal n) = n.
Proof.
  intros Hn. unfold atoi, strtol.
  assert (digits 0 (decimal n) = n) as Hd by (apply digits_decimal_loop; cbn; lia).
  pose proof (decimal_loop_digits 20 n) as Hf. fold (decimal n) in Hf.
  assert (match skip_space (decimal n) with
          | c :: s' => if c =? 45 then - digits 0 s' else if c =? 43 then digits 0 s' else digits 0 (c :: s')
          | [] => 0 end = n) as ->.
  { destruct (decimal n) as [|c s]; [done|]. apply Forall_cons in Hf as [Hc _]. unfold isdigit in Hc.
    assert (isspace c = false) as Hs by (unfold isspace; lia). cbn [skip_space]. rewrite Hs.
    by rewrite (proj2 (Z.eqb_neq c 45)), (proj2 (Z.eqb_neq c 43)) by lia. }
  rewrite Z.min_l, Z.max_r by lia. unfold s32. rewrite u32_id by lia. destruct (Z.ltb_spec n (2 ^ 31)); lia.
Qed.

(** What a user can ask for: an address with or without a port, a device with
    or without a speed, in one argument or two, and words that are no options. *)
Inductive setting : Type :=
| SHost (attached : bool) (address : bytes) (port : option Z)
| SUart (attached : bool) (dev : bytes) (rate : option Z)
| SWord (word : bytes).

Definition value (delim : Z) (name : bytes) (n : option Z) : bytes :=
  name ++ match n with Some n => delim :: decimal n | None => [] end.

Definition option_args (attached : bool) (c : Z) (v : bytes) : list bytes :=
  if attached then [ch_dash :: c :: v] else [[ch_dash; c]; v].

Definition print (x : setting) : list bytes :=
  match x with
  | SHost attached address port => option_args attached ch_s (value ch_colon address port)
  | SUart attached dev rate => option_args attached ch_u (value ch_at dev rate)
  | SWord word => [word]
  end.

Definition number_ok (n : option Z) : Prop := match n with Some n => 0 <= n < 2 ^ 31 | None => True end.

Definition setting_ok (x : setting) : Prop :=
  match x with
  | SHost _ address port => address <> [] /\ ch_colon ∉ address /\ number_ok port
  | SUart _ dev rate => dev <> [] /\ ch_at ∉ dev /\ number_ok rate
  | SWord word => head word <> Some ch_dash
  end.

Definition apply_setting (o : options) (x : setting) : options :=
  match x with
  | SHost _ address port => Options (Some address) (default (host_port o) port) (uartdev o) (baudrate o) (Some [])
  | SUart _ dev rate => Options (host_address o) (host_port o) (Some dev) (default (baudrate o) rate) (Some [])
  | SWord _ => o
  end.

(** The options [getopt] finds. *)
Definition event (x : setting) : list (Z * bytes) :=
  match x with
  | SHost _ address port => [(ch_s, value ch_colon address port)]
  | SUart _ dev rate => [(ch_u, value ch_at dev rate)]
  | SWord _ => []
  end.

Lemma getopt_option attached c v args :
  c = ch_s \/ c = ch_u -> v <> [] -> getopt (option_args attached c v ++ args) = (c, v) :: getopt args.
Proof.
  intros Hc Hv. assert (c <> ch_dash) as Hd by (by destruct Hc as [->| ->]).
  destruct attached, v as [|d v]; try done; cbn [app option_args getopt];
    rewrite (bool_decide_eq_false_2 (_ :: _ = [ch_dash])) by congruence; by destruct Hc as [->| ->].
Qed.

Lemma value_nonempty delim name n : name <> [] -> value delim name n <> [].
Proof. unfold value. by destruct name. Qed.

Lemma getopt_print l : Forall setting_ok l -> getopt (l ≫= print) = l ≫= event.
Proof.
  induction l as [|x l IH]; intros Hok; [done|]. apply Forall_cons in Hok as [Hx Hl]. rewrite !bind_cons, <- IH by done.
  destruct x as [b s n|b s n|[|c [|d w]]]; cbn [print event setting_ok] in *; try done.
  - destruct Hx as (Hs & _ & _). apply getopt_option; [by left|by apply value_nonempty].
  - destruct Hx as (Hs & _ & _). apply getopt_option; [by right|by apply value_nonempty].
  - cbn in *. by destruct (Z.eqb_spec c ch_dash); [subst|].
Qed.

Lemma split_at_value delim name n : delim ∉ name ->
  split_at [delim] (value delim name n) = (name, match n with Some n => delim :: decimal n | None => [] end).
Proof.
  intros Hn. unfold value. induction name as [|c name IH]; cbn [app split_at].
  - destruct n; cbn; [|done]. rewrite bool_decide_eq_true_2; [done|]. apply list_elem_of_here.
  - apply not_elem_of_cons in Hn as [Hne Hn]. rewrite bool_decide_eq_false_2, IH; [done..|].
    by rewrite list_elem_of_singleton.
Qed.

Lemma skip_in_value delim name n : name <> [] -> delim ∉ name -> skip_in [delim] (value delim name n) = value delim name n.
Proof.
  intros H1 H2. destruct name as [|c name]; [done|]. cbn. rewrite bool_decide_eq_false_2; [done|].
  apply not_elem_of_cons in H2 as [? _]. by rewrite list_elem_of_singleton.
Qed.

Lemma split_at_nothing s : split_at [] s = (s, []).
Proof. induction s as [|c s IH]; [done|]. cbn. by rewrite IH. Qed.

(** [strtok] twice: the name, then the number. *)
Lemma strtok_name delim name n h o :
  name <> [] -> delim ∉ name ->
  strtok (Some (value delim name n)) [delim] h o =
    Done (Some name, h, Options (host_address o) (host_port o) (uartdev o) (baudrate o)
                          (Some (match n with Some n => decimal n | None => [] end))).
Proof.
  intros H1 H2. unfold strtok. mrun. cbn [deref]. mrun. rewrite skip_in_value by done.
  destruct (value delim name n) eqn:E; [by apply value_nonempty in E|]. rewrite <- E, split_at_value by done. by destruct n.
Qed.

Lemma strtok_number n h o :
  strtok_save o = Some (match n with Some n => decimal n | None => [] end) ->
  strtok None [] h o = Done (decimal <$> n, h, Options (host_address o) (host_port o) (uartdev o) (baudrate o) (Some [])).
Proof.
  intros E. unfold strtok. mrun. rewrite E. cbn [deref]. mrun. destruct n as [n|]; [|done].
  assert (exists c s, decimal n = c :: s) as (c & s & Ed).
  { destruct (decimal n) as [|c s] eqn:Ed; [|by do 2 eexists]. unfold decimal in Ed. cbn [decimal_loop] in Ed.
    by apply app_nil in Ed as [_ ?]. }
  cbn [fmap option_fmap option_map]. rewrite Ed. change (skip_in [] (c :: s)) with (c :: s).
  cbv beta iota. by rewrite split_at_nothing.
Qed.

Lemma option_steps_ok x h o :
  setting_ok x -> alloc_ok h ->
  exists k, for_each option_step (event x) h o = Done (tt, steps k h, apply_setting o x).
Proof.
  intros Hx Hh. destruct x as [b s n|b s n|w]; cbn [event for_each setting_ok] in *; [..|by exists 0%nat; destruct h].
  - destruct Hx as (H1 & H2 & H3). exists 1%nat. destruct (malloc_ok (zlen (value ch_colon s n) + 1) h o Hh) as (p & Ep & _).
    unfold option_step, strdup_arg. mrun. cbn [Z.eqb ch_s Pos.eqb]. mrun. rewrite Ep. mrun.
    rewrite strtok_name by done. mrun. cbn [set_host]. unfold set_host. mrun. rewrite (strtok_number n) by done.
    destruct n as [n|]; [|done]. cbn [fmap option_fmap option_map]. unfold set_port. mrun. by rewrite atoi_decimal.
  - destruct Hx as (H1 & H2 & H3). exists 1%nat. destruct (malloc_ok (zlen (value ch_at s n) + 1) h o Hh) as (p & Ep & _).
    unfold option_step, strdup_arg. mrun. cbn [Z.eqb ch_s ch_u Pos.eqb]. mrun. rewrite Ep. mrun.
    rewrite strtok_name by done. mrun. unfold set_uart. mrun. rewrite (strtok_number n) by done.
    destruct n as [n|]; [|done]. cbn [fmap option_fmap option_map]. unfold set_baudrate. mrun. by rewrite atoi_decimal.
Qed.

Lemma settings_ok l h o :
  Forall setting_ok l -> alloc_ok h ->
  exists k, for_each option_step (l ≫= event) h o = Done (tt, steps k h, foldl apply_setting o l).
Proof.
  revert h o. induction l as [|x l IH]; intros h o Hl Hh; [exists 0%nat; by destruct h|].
  apply Forall_cons in Hl as [Hx Hl]. destruct (option_steps_ok x h o Hx Hh) as [k E].
  destruct (IH (steps k h) (apply_setting o x) Hl ltac:(auto with diag)) as [k' E']. exists (k' + k)%nat.
  rewrite bind_cons, for_each_app. erewrite bind_done by exact E. cbn [foldl]. by rewrite E', steps_steps.
Qed.

(** C27 A command line is read back: whatever settings are printed, in one
    argument or two each and with other words between them, the loop over the
    options ends with the last address and device given, the last port and
    speed given with them, and the defaults where none was; an address takes
    precedence over a device. *)
Theorem parse_options_roundtrip l h :
  Forall setting_ok l -> alloc_ok h ->
  let o := foldl apply_setting options_zero l in
  exists k, parse_options (l ≫= print) h options_zero = Done (tt, steps k h, o) /\
    monitor_of o = match host_address o, uartdev o with
                   | Some _, _ => Host
                   | None, Some _ => Uart (baudrate o)
                   | None, None => NoMonitor
                   end.
Proof.
  intros Hl Hh o. destruct (settings_ok l h options_zero Hl Hh) as [k E]. exists k.
  unfold parse_options. rewrite getopt_print by done. split; [exact E|]. unfold monitor_of.
  assert (0 <= baudrate o < 2 ^ 31) as Hb; [|rewrite u32_id; [done|clearbody o; lia]].
  assert (0 <= baudrate options_zero < 2 ^ 31) as H0 by done. revert Hl H0. subst o. clear.
  generalize options_zero. induction l as [|x l IH]; intros o Hl H0; [done|]. apply Forall_cons in Hl as [Hx Hl].
  apply IH; [done|]. destruct x as [b s n|b s [n|]|w]; cbn in *; try done. by destruct Hx as (_ & _ & ?).
Qed.
