(* ===== verification/SendData.v ===== *)
(** * SendData: the command-line tool [tools/send_data.c]

    It sends its arguments as the bytes of one request to the router's UNIX
    socket and prints what comes back, until a packet starts with the code of
    the request.  The state is the system's: the results of its calls, the
    rounds of [select] and [read], what was written and what was printed. *)

From S2P Require Import Prelude CircBuf Hdlc Masks Queue Watch World Dm Cntl Peripheral AppCmds CommonCmds Router DmRecv Devnode Qrtr Clients EventLoop Cmdline.

(** [select]'s result and whether the descriptor is in the set afterwards, and
    what [read] gives: an errno, the end of the stream, or a packet. *)
Record tool_round := ToolRound { tr_select : Z; tr_isset : bool; tr_read : Z + bytes }.

Record tool := Tool { tl_results : list Z; tl_written : list bytes; tl_out : bytes }.

Definition tool_call : M tool Z := fun h t =>
  match tl_results t with
  | [] => Done (-1, h, t)
  | r :: rs => Done (r, h, Tool rs (tl_written t) (tl_out t))
  end.

Definition tool_write (msg : bytes) : M tool Z :=
  _ ← modify (fun t => Tool (tl_results t) (tl_written t ++ [msg]) (tl_out t)); tool_call.

Definition printf (s : bytes) : M tool unit :=
  modify (fun t => Tool (tl_results t) (tl_written t) (tl_out t ++ s)).

(** ["%d"] *)
Definition show_int (n : Z) : bytes := if n <? 0 then 45 :: decimal (- n) else decimal n.

Definition BUF_SIZE : Z := 8192.

(** "Diag response: Bad command", and a new line *)
Definition bad_command_text : bytes :=
  [68; 105; 97; 103; 32; 114; 101; 115; 112; 111; 110; 115; 101; 58; 32; 66; 97; 100; 32; 99; 111; 109; 109; 97; 110; 100; 10].

Section tool.
(** Whether [char] is signed: it is on x86, and is not on ARM. *)
Context (char_signed : bool).

Definition as_char (c : Z) : Z := if char_signed && (128 <=? c) then c - 256 else c.

(** The loop that prints: [i] bytes of [n] are done. *)
Fixpoint dump (i n : Z) (buf : bytes) : bytes :=
  match buf with
  | [] => []
  | c :: buf =>
      (if i =? 0 then [] else [32]) ++ show_int (as_char c) ++
      (if (i mod 16 =? 15) || (i =? n - 1) then [10] else []) ++ dump (i + 1) n buf
  end.

(** What [read] stores. *)
Definition read_at_most (d : bytes) : bytes := take (Z.to_nat BUF_SIZE) d.

(** A packet is looked at: whether it ends the loop, and the buffer. *)
Definition look_at (msg buf d : bytes) : M tool (bool * bytes) :=
  buf ← lift (mem_write buf 0 d);
  c ← lift (rd 1 buf 0);
  if as_char c =? DIAG_CMD_RSP_BAD_COMMAND then
    _ ← printf bad_command_text; mret (true, buf)
  else
    _ ← printf (dump 0 (zlen d) (slice buf 0 (zlen d)));
    code ← lift (rd 1 msg 0);
    mret (as_char c =? code, buf).

(** The loop of [main]: its exit code, [None] when it still waits after the
    given rounds. *)
Fixpoint wait_response (msg buf : bytes) (rs : list tool_round) : M tool (option Z) :=
  match rs with
  | [] => mret None
  | r :: rs =>
      if tr_select r =? 0 then exit1
      else if negb (tr_isset r) then wait_response msg buf rs
      else
        match tr_read r with
        | inl _ => exit1
        | inr d =>
            let d := read_at_most d in
            if zlen d =? 0 then exit1 else
            x ← look_at msg buf d;
            let '(last, buf) := x : bool * bytes in
            if last then mret (Some 0) else wait_response msg buf rs
        end
  end.

(** [msg[i - 1] = atoi(argv[i])] *)
Fixpoint fill (msg : bytes) (i : Z) (args : list bytes) : outcome bytes :=
  match args with
  | [] => Done msg
  | a :: args => msg ← mem_write msg i [u8 (atoi a)]; fill msg (i + 1) args
  end.

Definition send_data (args : list bytes) (rs : list tool_round) : M tool (option Z) :=
  msg ← calloc (Z.of_nat (length args));
  msg ← lift (fill (default [] msg) 0 args);
  fd ← tool_call;    (* [socket] *)
  if fd <? 0 then exit1 else
  ret ← tool_call;   (* [connect] *)
  if ret <? 0 then exit1 else
  n ← tool_write msg;
  if n <? 0 then exit1 else
  buf ← stack BUF_SIZE;
  wait_response msg buf rs.

(** ** Properties *)

Definition request (args : list bytes) : bytes := (fun a => u8 (atoi a)) <$> args.

Lemma write_next done m msg x : mem_write (done ++ m :: msg) (zlen done) [x] = Done ((done ++ [x]) ++ msg).
Proof.
  unfold mem_write. rewrite (proj2 (in_object_true _ _ _)) by (rewrite ?zlen_app, ?zlen_cons; zlia).
  unfold splice. rewrite <- app_assoc. unfold zlen at 1. rewrite Nat2Z.id, take_app_length. do 3 f_equal.
  replace (Z.to_nat (zlen done + zlen [x])) with (length done + 1)%nat by (unfold zlen; cbn; lia).
  rewrite drop_app_ge by lia. by replace (length done + 1 - length done)%nat with 1%nat by lia.
Qed.

Lemma fill_ok msg done args :
  zlen msg = Z.of_nat (length args) -> fill (done ++ msg) (zlen done) args = Done (done ++ request args).
Proof.
  revert msg done. induction args as [|a args IH]; intros msg done E.
  { destruct msg; [done|]. unfold zlen in E. cbn in E. lia. }
  destruct msg as [|m msg]; [unfold zlen in E; cbn in E; lia|]. cbn [fill]. rewrite write_next. cbn [mbind outcome_bind].
  unfold mbind, outcome_bind. replace (zlen done + 1) with (zlen (done ++ [u8 (atoi a)])) by (rewrite zlen_app; done).
  rewrite IH; [by rewrite <- app_assoc|]. unfold zlen in *. cbn in E. lia.
Qed.

(** A packet that arrives. *)
Definition arrives (d : bytes) : tool_round := ToolRound 1 true (inr d).

(** A packet of at most one read whose first byte is [c]. *)
Definition packet_of (c : Z) (d : bytes) : Prop := head d = Some c /\ zlen d <= BUF_SIZE.

Definition printed (d : bytes) : bytes := dump 0 (zlen d) d.

Lemma rd_first c s : rd 1 (c :: s) 0 = Done c.
Proof.
  unfold rd. rewrite mem_read_ok by (rewrite ?zlen_cons; pose proof (zlen_nonneg s); lia).
  change (Done (c + 256 * 0) = Done c). f_equal. lia.
Qed.

Lemma splice_first buf c d : splice buf 0 (c :: d) = c :: (d ++ drop (Z.to_nat (zlen (c :: d))) buf).
Proof. done. Qed.

Lemma read_at_most_small d : zlen d <= BUF_SIZE -> read_at_most d = d.
Proof. intros H. apply take_ge. unfold zlen, BUF_SIZE in *. lia. Qed.

Lemma look_at_ok code msg buf c d h t :
  zlen (c :: d) <= zlen buf ->
  look_at (code :: msg) buf (c :: d) h t =
    let bad := as_char c =? DIAG_CMD_RSP_BAD_COMMAND in
    Done ((bad || (as_char c =? code), splice buf 0 (c :: d)), h,
      Tool (tl_results t) (tl_written t) (tl_out t ++ if bad then bad_command_text else printed (c :: d))).
Proof.
  intros Hlen. unfold look_at.
  erewrite bind_done by (unfold lift; rewrite mem_write_ok by lia; reflexivity).
  erewrite bind_done by (unfold lift; rewrite splice_first, rd_first; reflexivity).
  destruct (as_char c =? DIAG_CMD_RSP_BAD_COMMAND); [done|]. rewrite slice_splice by lia. erewrite bind_done by done.
  by erewrite bind_done by (unfold lift; rewrite rd_first; reflexivity).
Qed.

Lemma wait_step msg buf d rs :
  wait_response msg buf (arrives d :: rs) =
    if zlen (read_at_most d) =? 0 then exit1 else
    x ← look_at msg buf (read_at_most d);
    let '(last, buf) := x : bool * bytes in
    if last then mret (Some 0) else wait_response msg buf rs.
Proof. done. Qed.

(** One packet: what is printed, and whether the loop ends. *)
Lemma wait_packet code msg buf d c rs h t :
  packet_of c d -> zlen buf = BUF_SIZE ->
  exists buf', zlen buf' = BUF_SIZE /\
  wait_response (code :: msg) buf (arrives d :: rs) h t =
    let bad := as_char c =? DIAG_CMD_RSP_BAD_COMMAND in
    let t' := Tool (tl_results t) (tl_written t) (tl_out t ++ if bad then bad_command_text else printed d) in
    if bad || (as_char c =? code) then Done (Some 0, h, t') else wait_response (code :: msg) buf' rs h t'.
Proof.
  intros [Hc Hlen] Hb. destruct d as [|c' d]; [done|]. injection Hc as ->.
  exists (splice buf 0 (c :: d)). split; [by rewrite zlen_splice by lia|].
  rewrite wait_step, read_at_most_small by done.
  rewrite (proj2 (Z.eqb_neq (zlen (c :: d)) 0)) by (rewrite zlen_cons; pose proof (zlen_nonneg d); lia).
  rewrite (bind_done _ _ _ _ _ _ _ (look_at_ok code msg buf c d h t ltac:(lia))). cbv zeta.
  by destruct (as_char c =? DIAG_CMD_RSP_BAD_COMMAND), (as_char c =? code).
Qed.

(** The packets before the answer: they start with another code. *)
Definition unrelated (code : Z) (d : bytes) : Prop :=
  exists c, packet_of c d /\ as_char c <> DIAG_CMD_RSP_BAD_COMMAND /\ as_char c <> code.

Lemma wait_unrelated code msg buf ds rs h t :
  Forall (unrelated code) ds -> zlen buf = BUF_SIZE ->
  exists buf', zlen buf' = BUF_SIZE /\
    wait_response (code :: msg) buf ((arrives <$> ds) ++ rs) h t =
      wait_response (code :: msg) buf' rs h (Tool (tl_results t) (tl_written t) (tl_out t ++ (ds ≫= printed))).
Proof.
  revert buf t. induction ds as [|d ds IH]; intros buf t Hds Hb.
  { exists buf. split; [done|]. cbn. rewrite app_nil_r. by destruct t. }
  apply Forall_cons in Hds as [(c & Hc & H1 & H2) Hds].
  destruct (wait_packet code msg buf d c ((arrives <$> ds) ++ rs) h t Hc Hb) as (buf1 & Hb1 & E1).
  destruct (IH buf1 (Tool (tl_results t) (tl_written t) (tl_out t ++ printed d)) Hds Hb1) as (buf2 & Hb2 & E2).
  exists buf2. split; [done|]. cbn [fmap list_fmap app]. rewrite E1. cbv zeta.
  rewrite (proj2 (Z.eqb_neq _ _) H1), (proj2 (Z.eqb_neq _ _) H2). cbn [orb]. rewrite E2. cbn [tl_results tl_written tl_out]. by rewrite bind_cons, <- app_assoc.
Qed.

(** Up to the loop. *)
Lemma send_data_starts args rs h fd ret n res :
  alloc_ok h -> 0 <= fd -> 0 <= ret -> 0 <= n ->
  exists buf h', zlen buf = BUF_SIZE /\
    send_data args rs h (Tool (fd :: ret :: n :: res) [] []) =
      wait_response (request args) buf rs h' (Tool res [request args] []).
Proof.
  intros Hh Hfd Hret Hn. set (k := Z.of_nat (length args)).
  destruct (stack_ok BUF_SIZE (tick h) (Tool res [request args] [])) as (buf & Eb & _ & Hb).
  exists buf, (tick (tick h)). split; [by apply Hb|]. unfold send_data.
  assert (fill (replicate (Z.to_nat k) 0) 0 args = Done (request args)) as Ef.
  { apply (fill_ok _ []). unfold zlen. rewrite length_replicate. subst k. lia. }
  set (t := Tool (fd :: ret :: n :: res) [] []).
  assert (calloc k h t = Done (Some (replicate (Z.to_nat k) 0), tick h, t)) as Ec.
  { unfold calloc. by destruct (Hh (h_calls h)) as [junk ->]. }
  rewrite (bind_done _ _ _ _ _ _ _ Ec). cbn [default from_option id].
  rewrite (bind_done _ _ _ _ (request args) (tick h) t) by (unfold lift; by rewrite Ef).
  rewrite (bind_done _ _ _ _ fd (tick h) (Tool (ret :: n :: res) [] [])) by done. rewrite (proj2 (Z.ltb_ge fd 0)) by lia.
  rewrite (bind_done _ _ _ _ ret (tick h) (Tool (n :: res) [] [])) by done. rewrite (proj2 (Z.ltb_ge ret 0)) by lia.
  rewrite (bind_done _ _ _ _ n (tick h) (Tool res [request args] [])) by done. rewrite (proj2 (Z.ltb_ge n 0)) by lia.
  by rewrite (bind_done _ _ _ _ _ _ _ Eb).
Qed.

(** C28 An exchange: with a connection, the tool writes its arguments as one
    request, prints every packet it reads, and ends with success at the first
    packet that starts with the request's code. *)
Theorem send_data_exchange a args ds r c rs h fd ret n res :
  alloc_ok h -> 0 <= fd -> 0 <= ret -> 0 <= n ->
  Forall (unrelated (u8 (atoi a))) ds -> packet_of c r -> as_char c = u8 (atoi a) ->
  as_char c <> DIAG_CMD_RSP_BAD_COMMAND ->
  exists h', send_data (a :: args) ((arrives <$> ds) ++ arrives r :: rs) h (Tool (fd :: ret :: n :: res) [] []) =
    Done (Some 0, h', Tool res [request (a :: args)] ((ds ++ [r]) ≫= printed)).
Proof.
  intros Hh Hfd Hret Hn Hds Hr Hc Hbad.
  destruct (send_data_starts (a :: args) ((arrives <$> ds) ++ arrives r :: rs) h fd ret n res Hh Hfd Hret Hn) as (buf & h' & Hb & E).
  assert (request (a :: args) = u8 (atoi a) :: request args) as Eq by done. rewrite Eq in *.
  exists h'. rewrite E. set (m := u8 (atoi a)) in *.
  destruct (wait_unrelated m (request args) buf ds (arrives r :: rs) h' (Tool res [m :: request args] []) Hds Hb)
    as (buf1 & Hb1 & E1). rewrite E1.
  destruct (wait_packet m (request args) buf1 r c rs h' (Tool res [m :: request args] (ds ≫= printed)) Hr Hb1)
    as (buf2 & _ & E2). cbn [tl_results tl_written tl_out app]. rewrite E2. cbv zeta.
  rewrite (proj2 (Z.eqb_neq _ _) Hbad), (proj2 (Z.eqb_eq _ _) Hc). cbn [orb tl_results tl_written tl_out].
  by rewrite bind_app, bind_cons, app_nil_r.
Qed.
End tool.

(** ** Codes above 127 *)

Definition round_ok (r : tool_round) : Prop := match tr_read r with inr d => bytes_ok d | inl _ => True end.

(** A signed character is never above 127. *)
Lemma as_char_signed c : is_byte c -> as_char true c < 128.
Proof. unfold is_byte, as_char. cbn. destruct (Z.leb_spec 128 c); lia. Qed.

Lemma look_at_inv char_signed code msg buf d h t last buf' h' t' :
  look_at char_signed (code :: msg) buf d h t = Done ((last, buf'), h', t') -> zlen d <> 0 ->
  exists c d', d = c :: d' /\
    (last = true -> as_char char_signed c = code \/ exists pre, tl_out t' = pre ++ bad_command_text).
Proof.
  intros E Hd. destruct d as [|c d]; [done|]. exists c, d. split; [done|]. intros ->. unfold look_at in E.
  apply bind_done_inv in E as (b & h1 & t1 & E1 & E). unfold lift, mem_write in E1.
  destruct (in_object _ _ _) eqn:Ei; [|done]. injection E1 as <- <- <-. apply in_object_true in Ei.
  rewrite (bind_done _ _ _ _ c h t) in E by (unfold lift; by rewrite splice_first, rd_first).
  destruct (as_char char_signed c =? DIAG_CMD_RSP_BAD_COMMAND).
  - injection E as _ _ <-. right. by exists (tl_out t).
  - left. erewrite bind_done in E by reflexivity.
    rewrite (bind_done _ _ _ _ code h _) in E by (unfold lift; by rewrite rd_first). injection E as E _ _. lia.
Qed.

Lemma wait_high code msg buf rs h t k h' t' :
  128 <= code -> Forall round_ok rs ->
  wait_response true (code :: msg) buf rs h t = Done (Some k, h', t') ->
  k = 0 /\ exists pre, tl_out t' = pre ++ bad_command_text.
Proof.
  intros Hcode. revert buf h t. induction rs as [|r rs IH]; intros buf h t Hrs E; [done|].
  apply Forall_cons in Hrs as [Hr Hrs]. cbn [wait_response] in E.
  destruct (tr_select r =? 0); [done|]. destruct (tr_isset r); cbn [negb] in E; [|by eapply IH].
  unfold round_ok in Hr. destruct (tr_read r) as [|d]; [done|]. cbv zeta in E.
  destruct (Z.eqb_spec (zlen (read_at_most d)) 0); [done|].
  apply bind_done_inv in E as ([last buf1] & h1 & t1 & E1 & E).
  apply look_at_inv in E1 as (c & d' & Ed & Hlast); [|done].
  destruct last; [|by eapply IH]. injection E as -> <- <-. split; [done|].
  destruct (Hlast eq_refl) as [Hc|Hc]; [|done]. assert (is_byte c) as Hb.
  { assert (bytes_ok (read_at_most d)) as Hok by (by apply Forall_take). rewrite Ed in Hok. by apply Forall_cons in Hok as [? _]. }
  pose proof (as_char_signed c Hb). lia.
Qed.

(** Where [char] is signed, a request whose code is 0x80 or more is never
    answered: the code of a packet is compared as a signed character with the
    unsigned code of the request, so no packet matches, and the tool ends with
    success only after a "bad command" packet. *)
Lemma send_data_high_code a args rs h t k h' t' :
  128 <= u8 (atoi a) -> Forall round_ok rs ->
  send_data true (a :: args) rs h t = Done (Some k, h', t') ->
  k = 0 /\ exists pre, tl_out t' = pre ++ bad_command_text.
Proof.
  intros Ha Hrs E. unfold send_data in E. apply bind_done_inv in E as (p & h1 & t1 & E1 & E).
  unfold calloc in E1. destruct (h_oracle h (h_calls h)) as [junk|]; injection E1 as <- <- <-.
  2:{ cbn [fmap option_fmap option_map default from_option] in E. by apply bind_done_inv in E as (? & ? & ? & ? & _). }
  set (n := Z.of_nat (length (a :: args))) in *.
  assert (fill (replicate (Z.to_nat n) 0) 0 (a :: args) = Done (request (a :: args))) as Ef.
  { apply (fill_ok _ []). unfold zlen. rewrite length_replicate. subst n. lia. }
  cbn [fmap option_fmap option_map default from_option id] in E.
  apply bind_done_inv in E as (msg & h2 & t2 & E2 & E). unfold lift in E2.
  change (fill _ 0 (a :: args)) with (fill (replicate (Z.to_nat n) 0) 0 (a :: args)) in E2. rewrite Ef in E2. injection E2 as <- <- <-.
  do 2 (apply bind_done_inv in E as (? & ? & ? & _ & E); destruct (_ <? 0); [done|]).
  apply bind_done_inv in E as (? & ? & ? & _ & E). destruct (_ <? 0); [done|].
  apply bind_done_inv in E as (buf & ? & ? & _ & E). by eapply wait_high.
Qed.
