(* ===== verification/RouterProps.v ===== *)
(** * What the router guarantees

    Properties of the definitions of [Router], [AppCmds] and [CommonCmds]:
    where a request goes, what the handlers answer, and what the mask commands
    do to the tables and the peripherals. *)

From S2P Require Import Prelude Util CircBuf Hdlc Masks MaskTables Queue Watch World Dm Cntl CntlProps Peripheral AppCmds CommonCmds Router.

(** ** Answering a client *)

(** The client gets [msg] as one packet in its encoding, if enabled. *)
Definition reply (c : nat) (msg : bytes) (w : world) : world :=
  with_queues (deliver (dm_clients (w_dm w)) None msg (w_queues w) c) w.

Definition live_client (c : nat) (w : world) : Prop :=
  exists dm, dm_clients (w_dm w) !! c = Some dm /\ client_ok dm.

Lemma dm_send_ok c msg len h w :
  live_client c w -> alloc_ok h -> bytes_ok msg -> 0 <= len <= zlen msg -> len < 2 ^ 61 ->
  exists k, dm_send c msg len h w = Done (0, steps k h, reply c (slice msg 0 len) w).
Proof. intros (dm & Hc & Hok) **. eapply dm_send_flow_ok; try done; auto with diag. Qed.

Lemma dm_reply_ok c msg h w :
  live_client c w -> alloc_ok h -> bytes_ok msg -> zlen msg < 2 ^ 61 ->
  exists k, dm_reply c msg h w = Done (0, steps k h, reply c msg w).
Proof.
  intros Hc Hh Hok Hl. pose proof (zlen_nonneg msg).
  destruct (dm_send_ok c msg (zlen msg) h w Hc Hh Hok ltac:(lia) Hl) as [k E].
  exists k. unfold dm_reply. by rewrite E, slice_0_all.
Qed.

Lemma payloads_reply c msg w q :
  payloads (w_queues (reply c msg w)) q = payloads (w_queues w) q ++
    (if decide (q = QClient c) then
       match dm_clients (w_dm w) !! c with
       | Some dm => if dm_enabled dm then [encoded (dm_encode_type dm) msg] else []
       | None => []
       end else []).
Proof. apply payloads_deliver. Qed.

(** ** Where a request goes *)

Inductive route : Type :=
| ToHandler (hd : option handler)
| ToPeripherals (ps : list (option nat))
| Nobody.

(** Common commands first, then all registrations, then the fallbacks. *)
Definition route_of (s : cmdstate) (key : Z) : route :=
  match List.find (key_in key) (common_cmds s) with
  | Some dc => ToHandler (dc_cb dc)
  | None =>
      match List.filter (key_in key) (diag_cmds s) with
      | dc :: dcs => ToPeripherals (dc_peripheral <$> dc :: dcs)
      | [] =>
          match List.find (key_in key) (fallback_cmds s) with
          | Some dc => ToHandler (dc_cb dc)
          | None => Nobody
          end
      end
  end.

(** A peripheral gets the request in its own format, on the channel it reads
    requests from. *)
Definition request_queue (perif : peripheral) (p : nat) : queue_ref :=
  match pf_transport perif with
  | Rpmsg => if has_feature perif DIAG_FEATURE_REQ_RSP_SUPPORT then QCmd p else QData p
  | Qrtr => QCmd p
  end.

Definition request_packet (perif : peripheral) (msg : bytes) : bytes :=
  if has_feature perif DIAG_FEATURE_APPS_HDLC_ENCODE then msg else hdlc_frame msg.

Definition forward (objs : gmap nat peripheral) (msg : bytes) (q : qstate) (p : option nat) : qstate :=
  match p ≫= (fun p => (fun perif => (p, perif)) <$> objs !! p) with
  | Some (p, perif) => enqueue (request_queue perif p) None (request_packet perif msg) q
  | None => q
  end.

Lemma peripheral_send_ok p perif msg len h w :
  pf_objs (w_pf w) !! p = Some perif -> alloc_ok h -> bytes_ok msg -> 0 <= len <= zlen msg -> len < 2 ^ 61 ->
  exists k, peripheral_send p msg len h w =
    Done (0, steps k h, with_queues (forward (pf_objs (w_pf w)) (slice msg 0 len) (w_queues w) (Some p)) w).
Proof.
  intros Hp Hh Hok Hl Hlen. unfold peripheral_send, forward. cbn [mbind option_bind]. rewrite Hp.
  cbn [fmap option_fmap option_map]. erewrite bind_done by (by apply get_perif_ok).
  unfold perif_rpmsg_send, qrtr_perif_send, request_queue, request_packet, hdlc_enqueue.
  destruct (pf_transport perif); (erewrite bind_done by (by apply get_perif_ok));
    destruct (has_feature perif DIAG_FEATURE_APPS_HDLC_ENCODE).
  - exists 1%nat. erewrite bind_done by (apply zoom_push; (done || lia)). done.
  - exists 2%nat. erewrite bind_done by (erewrite zoom_done by (apply hdlc_enqueue_flow_ok; try done; auto with diag); reflexivity). done.
  - exists 1%nat. erewrite bind_done by (apply zoom_push; (done || lia)). done.
  - exists 2%nat. erewrite bind_done by (erewrite zoom_done by (apply hdlc_enqueue_flow_ok; try done; auto with diag); reflexivity). done.
Qed.

(** Registrations as peripherals make them: no callback, a live peripheral. *)
Definition registered_ok (w : world) (dc : diag_cmd) : Prop :=
  dc_cb dc = None /\ exists p perif, dc_peripheral dc = Some p /\ pf_objs (w_pf w) !! p = Some perif.

Lemma dispatch_all_ok key cmds c msg len n h w :
  Forall (registered_ok w) cmds -> alloc_ok h -> bytes_ok msg -> 0 <= len <= zlen msg -> len < 2 ^ 61 ->
  exists k, dispatch_all key cmds c msg len n h w =
    Done ((n + zlen (List.filter (key_in key) cmds), msg), steps k h,
      with_queues (foldl (forward (pf_objs (w_pf w)) (slice msg 0 len)) (w_queues w)
                     (dc_peripheral <$> List.filter (key_in key) cmds)) w).
Proof.
  revert n h w. induction cmds as [|dc cmds IH]; intros n h w Hc Hh Hok Hl Hlen.
  { exists 0%nat. cbn. rewrite zlen_nil, Z.add_0_r. destruct h, w. done. }
  apply Forall_cons in Hc as [(Hcb & p & perif & Hp & Hobj) Hc].
  cbn [dispatch_all List.filter]. destruct (key_in key dc); cbn [negb]; [|by apply IH].
  rewrite Hcb, Hp. destruct (peripheral_send_ok p perif msg len h w Hobj Hh Hok Hl Hlen) as [k E].
  erewrite bind_done.
  2:{ erewrite bind_done by reflexivity. erewrite bind_done by exact E. reflexivity. }
  set (w' := with_queues _ w).
  destruct (IH (n + 1) (steps k h) w' Hc Hh Hok Hl Hlen) as [k' E'].
  exists (k' + k)%nat. rewrite E', zlen_cons, steps_steps.
  cbn [fmap list_fmap foldl]. rewrite Hp. subst w'.
  replace (n + 1 + zlen (List.filter (key_in key) cmds))
    with (n + (1 + zlen (List.filter (key_in key) cmds))) by lia. done.
Qed.

(** C3 Dispatch follows the routing specification: a request whose key a common
    command covers goes to that handler and nowhere else; otherwise every
    peripheral that registered the key gets it, once for each registration, in
    order, in the peripheral's format; otherwise the fallback handler gets it;
    and a request nobody covers changes nothing and returns [-ENOENT]. *)
Theorem diag_cmd_dispatch_routes c msg len key h w :
  alloc_ok h -> bytes_ok msg -> 0 <= len <= zlen msg -> len < 2 ^ 61 ->
  request_key msg = Done key -> Forall (registered_ok w) (diag_cmds (w_cmds w)) ->
  match route_of (w_cmds w) key with
  | ToHandler (Some hd) => exists k, diag_cmd_dispatch c msg len h w = run_handler hd c msg len (steps k h) w
  | ToHandler None => True
  | ToPeripherals ps => exists k, diag_cmd_dispatch c msg len h w =
      Done ((0, msg), steps k h,
        with_queues (foldl (forward (pf_objs (w_pf w)) (slice msg 0 len)) (w_queues w) ps) w)
  | Nobody => exists k, diag_cmd_dispatch c msg len h w = Done ((- ENOENT, msg), steps k h, w)
  end.
Proof.
  intros Hh Hok Hl Hlen Hkey Hreg. unfold route_of, diag_cmd_dispatch, call_cb.
  rewrite (bind_done _ _ _ _ key h w) by (unfold lift; by rewrite Hkey).
  rewrite (bind_done _ _ _ _ w h w) by done.
  destruct (List.find (key_in key) (common_cmds (w_cmds w))) as [dc|].
  { destruct (dc_cb dc) as [hd|]; [|done]. exists 0%nat. by destruct h. }
  destruct (dispatch_all_ok key (diag_cmds (w_cmds w)) c msg len 0 h w Hreg Hh Hok Hl Hlen) as [k E].
  rewrite (bind_done _ _ _ _ _ _ _ E).
  destruct (List.filter (key_in key) (diag_cmds (w_cmds w))) as [|dc dcs].
  - change (negb (0 + zlen [] =? 0)) with false. cbv beta iota. cbn [fmap list_fmap foldl].
    assert (with_queues (w_queues w) w = w) as -> by (by destruct w).
    rewrite (bind_done _ _ _ _ w (steps k h) w) by done.
    destruct (List.find (key_in key) (fallback_cmds (w_cmds w))) as [dc|]; [|by exists k].
    destruct (dc_cb dc) as [hd|]; [|done]. by exists k.
  - rewrite zlen_cons. pose proof (zlen_nonneg dcs).
    destruct (Z.eqb_spec (0 + (1 + zlen dcs)) 0); [lia|]. by exists k.
Qed.

(** C33 A request nobody takes, or that its handler refuses, is answered with
    exactly one packet, the error code (0x13 for an unknown command, 0x14 for
    bad parameters, 0x15 for a bad length) followed by the request; any other
    outcome adds nothing to what the handler did. *)
Theorem diag_client_handle_command_errors c msg msg' len ret h w h1 w1 :
  diag_cmd_dispatch c msg len h w = Done ((ret, msg'), h1, w1) ->
  alloc_ok h1 -> live_client c w1 -> bytes_ok msg' -> 0 <= len <= zlen msg' -> len < 2 ^ 60 ->
  exists k, diag_client_handle_command c msg len h w = Done (msg', steps k h1,
    match ret with
    | -2 => reply c (0x13 :: slice msg' 0 len) w1
    | -22 => reply c (0x14 :: slice msg' 0 len) w1
    | -90 => reply c (0x15 :: slice msg' 0 len) w1
    | _ => w1
    end).
Proof.
  intros E Hh Hc Hok Hl Hlen. unfold diag_client_handle_command.
  rewrite (bind_done _ _ _ _ _ _ _ E). cbv beta iota.
  assert (forall code, is_byte code -> exists k, diag_rsp_bad_command c msg' len code h1 w1 =
    Done (tt, steps k h1, reply c (code :: slice msg' 0 len) w1)) as Hbad.
  { intros code Hcode. unfold diag_rsp_bad_command.
    destruct (malloc_ok (u64 (len + 1)) h1 w1 Hh) as (b & Eb & _).
    erewrite bind_done by exact Eb. cbv beta iota.
    rewrite (bind_done _ _ _ _ (slice msg' 0 len) (tick h1) w1)
      by (unfold part, lift; by rewrite mem_read_ok by lia).
    rewrite u64_id by lia. rewrite u8_id by (unfold is_byte in Hcode; lia).
    assert (zlen (code :: slice msg' 0 len) = len + 1) as Hz by (rewrite zlen_cons, zlen_slice; lia).
    destruct (dm_send_ok c (code :: slice msg' 0 len) (len + 1) (tick h1) w1) as [k Ek]; try done; try lia.
    { apply bytes_ok_cons. auto with diag. }
    exists (k + 1)%nat. rewrite (bind_done _ _ _ _ _ _ _ Ek). rewrite slice_0_all by lia.
    change (tick h1) with (steps 1 h1). by rewrite steps_steps. }
  unfold error_response, ENOENT, EINVAL, EMSGSIZE.
  change (Z.opp 2) with (-2). change (Z.opp 22) with (-22). change (Z.opp 90) with (-90).
  destruct (Z.eqb_spec ret (-2)) as [->|]; [|destruct (Z.eqb_spec ret (-22)) as [->|];
    [|destruct (Z.eqb_spec ret (-90)) as [->|]]].
  - destruct (Hbad 0x13) as [k Ek]; [done|]. exists k. by rewrite (bind_done _ _ _ _ _ _ _ Ek).
  - destruct (Hbad 0x14) as [k Ek]; [done|]. exists k. by rewrite (bind_done _ _ _ _ _ _ _ Ek).
  - destruct (Hbad 0x15) as [k Ek]; [done|]. exists k. by rewrite (bind_done _ _ _ _ _ _ _ Ek).
  - exists 0%nat. rewrite (bind_done _ _ _ _ tt h1 w1) by done.
    replace (steps 0 h1) with h1 by (by destruct h1). unfold mret, M_ret. do 3 f_equal.
    repeat case_match; try done; lia.
Qed.

(** ** Registration *)

Definition common_entry (e : Z * handler) : diag_cmd :=
  DiagCmd (plain_key (e.1)) (plain_key (e.1)) None (Some (e.2)).

Definition common_table : list diag_cmd := common_entry <$>
  [(0x73, HLoggingConfiguration); (0x7d, HExtendedMessageConfiguration); (0x81, HEventGetMask);
   (0x82, HEventSetMask); (0x60, HEventReportControl)].

Definition fallback_table : list diag_cmd :=
  (common_entry <$> [(28, HDiagVersion); (0, HDiagVersionNo); (124, HExtendedBuildId)]) ++
  [DiagCmd 0x4b320003 0x4b320003 None (Some HKeepAlive);
   DiagCmd 0x4b120222 0x4b120222 None (Some HDiagId);
   DiagCmd 0x4b120218 0x4b120218 None (Some HHdlcDisableCmd)].

(** Requests and the handlers that own them. *)
Definition owned_requests : list (bytes * handler) :=
  [([0x73], HLoggingConfiguration); ([0x7d], HExtendedMessageConfiguration); ([0x81], HEventGetMask);
   ([0x82], HEventSetMask); ([0x60], HEventReportControl);
   ([28], HDiagVersion); ([0], HDiagVersionNo); ([124], HExtendedBuildId);
   ([75; 50; 3; 0], HKeepAlive); ([75; 18; 0x22; 0x02], HDiagId); ([75; 18; 0x18; 0x02], HHdlcDisableCmd)].

Definition owns (s : cmdstate) (rh : bytes * handler) : Prop :=
  exists key, request_key (rh.1) = Done key /\ route_of s key = ToHandler (Some (rh.2)).

Definition set_tables (s : cmdstate) (w : world) : world := over (fun _ => s) w.

Lemma add_fallback_ok key cb h d c f w :
  alloc_ok h -> add_fallback key cb h (set_tables (CmdState d c f) w) =
    Done (tt, tick h, set_tables (CmdState d c (f ++ [DiagCmd key key None (Some cb)])) w).
Proof. intros. unfold add_fallback. by erewrite bind_done by (by apply calloc_or_die_ok). Qed.

Lemma register_common_ok cmd cb h d c f w :
  alloc_ok h -> register_common_cmd cmd cb h (set_tables (CmdState d c f) w) =
    Done (tt, tick h, set_tables (CmdState d (c ++ [common_entry (cmd, cb)]) f) w).
Proof. intros. unfold register_common_cmd. by erewrite bind_done by (by apply calloc_or_die_ok). Qed.

(** The two registration functions fill empty tables with the eleven
    handlers, so that, while no peripheral has registered anything, each
    documented request reaches its own handler and no other. *)
Lemma register_cmds_tables h w :
  alloc_ok h -> common_cmds (w_cmds w) = [] -> fallback_cmds (w_cmds w) = [] -> diag_cmds (w_cmds w) = [] ->
  exists w', (_ ← register_app_cmds; register_common_cmds) h w = Done (tt, steps 11 h, w') /\
    w_cmds w' = CmdState [] common_table fallback_table /\
    Forall (owns (w_cmds w')) owned_requests /\
    w_masks w' = w_masks w /\ w_queues w' = w_queues w /\ w_dm w' = w_dm w /\ w_pf w' = w_pf w.
Proof.
  intros Hh Hc Hf Hd.
  assert (w = set_tables (CmdState [] [] []) w) as Ew.
  { destruct w as [? ? ? ? ? [] ? ? ?]. cbn in *. by subst. }
  exists (set_tables (CmdState [] common_table fallback_table) w). split.
  - rewrite Ew at 1.
    unfold register_app_cmds, register_common_cmds, register_fallback_cmd, register_fallback_subsys_cmd.
    rewrite bind_assoc. erewrite bind_done by (by apply add_fallback_ok).
    do 4 (rewrite bind_assoc; erewrite bind_done by (by apply add_fallback_ok)).
    erewrite bind_done by (by apply add_fallback_ok).
    do 4 (erewrite bind_done by (by apply register_common_ok)). by rewrite register_common_ok.
  - split; [done|]. split; [|done]. change (w_cmds (set_tables ?s w)) with s.
    repeat (apply Forall_cons; split); [..|by apply Forall_nil]; eexists; (split; reflexivity).
Qed.

(** ** The fallback handlers *)

Definition build_id_response : bytes :=
  [124; 2; 0; 0; 2; 0; 0; 0; 0; 0; 0; 0; 79; 69; 0; 68; 66; 52; 49; 48; 67; 0].

(** The identification commands answer with their fixed packets whatever the
    request holds (the build id only to a request of one byte); switching HDLC
    off answers in the old encoding and then moves every client that is not
    raw to the non-HDLC encoding. *)
Lemma app_cmds_replies c msg len h w :
  live_client c w -> alloc_ok h -> bytes_ok msg -> 4 <= len <= zlen msg ->
  (exists k, handle_diag_version c msg len h w = Done (0, steps k h, reply c [28; 2] w)) /\
  (exists k, handle_diag_version_no c msg len h w = Done (0, steps k h, reply c (replicate 55 0) w)) /\
  (exists k, handle_extended_build_id c msg 1 h w = Done (0, steps k h, reply c build_id_response w)) /\
  handle_extended_build_id c msg len h w = Done (- EMSGSIZE, h, w) /\
  (exists k, handle_keep_alive c msg len h w =
    Done (0, steps k h, reply c ([75; 50; 3] ++ replicate 13 0) w)) /\
  (exists k, handle_hdlc_disable_cmd c msg len h w = Done (0, steps k h,
    over (fun s => DmState (retype DIAG_ENCODE_NHDLC <$> dm_clients s) (dm_bad_cmd_counter s))
      (reply c (slice msg 0 4 ++ [1; 0]) w))).
Proof.
  intros Hc Hh Hok Hl.
  assert (forall r, bytes_ok r -> zlen r < 2 ^ 61 -> exists k, dm_reply c r h w = Done (0, steps k h, reply c r w))
    as H by (intros; by apply dm_reply_ok).
  split; [by apply H; [repeat constructor|]|].
  split; [apply H; [by apply bytes_ok_replicate|done]|].
  split; [by apply H; [repeat constructor|]|].
  split; [unfold handle_extended_build_id; by destruct (Z.eqb_spec len 1); [lia|]|].
  split; [apply H; [by repeat constructor|done]|].
  unfold handle_hdlc_disable_cmd. destruct (Z.ltb_spec len 4); [lia|].
  erewrite bind_done by (unfold lift; rewrite mem_read_ok by lia; reflexivity).
  destruct (H (slice msg 0 4 ++ [1; 0])) as [k E].
  { apply bytes_ok_app. split; [auto with diag|by repeat constructor]. }
  { rewrite zlen_app, zlen_slice by lia. done. }
  exists k. erewrite bind_done by exact E. done.
Qed.

(** ** Log masks, end to end *)

Definition log_packet_of (m : masks) (e : Z) : bytes :=
  let status := diag_get_log_mask_status m in
  if status =? DIAG_CTRL_MASK_VALID then
    match log_abs m e with
    | Some (n, bits) => log_mask_packet status e n bits
    | None => log_mask_packet status e 0 []
    end
  else log_mask_packet status 0 0 [].

(** Every peripheral in the list with a control channel gets the packet. *)
Definition broadcast (objs : gmap nat peripheral) (pkt : bytes) (q : qstate) (p : nat) : qstate :=
  match objs !! p with
  | Some perif => if pf_cntl_fd perif =? -1 then q else enqueue (QCntl p) None pkt q
  | None => q
  end.

Definition broadcast_all (pkt : bytes) (w : world) : world :=
  with_queues (foldl (broadcast (pf_objs (w_pf w)) pkt) (w_queues w) (pf_list (w_pf w))) w.

Definition pf_wf (w : world) : Prop := forall p, p ∈ pf_list (w_pf w) -> is_Some (pf_objs (w_pf w) !! p).

(** Sending each peripheral of a list the packet that the masks call for. *)
Lemma broadcast_each m pkt (send : nat -> M world unit) :
  (forall p perif h w, alloc_ok h -> w_masks w = m -> pf_objs (w_pf w) !! p = Some perif ->
    exists k, send p h w = Done (tt, steps k h, if pf_cntl_fd perif =? -1 then w else send_cntl p pkt w)) ->
  forall h w, alloc_ok h -> w_masks w = m -> pf_wf w ->
  exists k, for_each send (pf_list (w_pf w)) h w = Done (tt, steps k h, broadcast_all pkt w).
Proof.
  intros Hsend h w Hh Hm Hw. unfold broadcast_all. revert Hw. unfold pf_wf. generalize (pf_list (w_pf w)). intros ps.
  revert h w Hh Hm. induction ps as [|p ps IH]; intros h w Hh Hm Hps.
  { exists 0%nat. destruct h, w. done. }
  destruct (Hps p ltac:(apply list_elem_of_here)) as [perif Hp].
  destruct (Hsend p perif h w Hh Hm Hp) as [k E].
  assert ((if pf_cntl_fd perif =? -1 then w else send_cntl p pkt w) =
    with_queues (broadcast (pf_objs (w_pf w)) pkt (w_queues w) p) w) as Ew.
  { unfold broadcast. rewrite Hp. by destruct (_ =? _), w. }
  rewrite Ew in E. destruct (IH (steps k h) (with_queues (broadcast (pf_objs (w_pf w)) pkt (w_queues w) p) w))
    as [k' E']; [done|done|intros q Hq; apply Hps; by apply list_elem_of_further|].
  exists (k' + k)%nat. cbn [for_each]. erewrite bind_done by exact E. rewrite E', steps_steps. done.
Qed.

Lemma broadcast_log_ok e h w :
  alloc_ok h -> log_wf (w_masks w) -> pf_wf w ->
  exists k, peripheral_broadcast_log_mask e h w =
    Done (tt, steps k h, broadcast_all (log_packet_of (w_masks w) e) w).
Proof.
  intros Hh Hm Hw. unfold peripheral_broadcast_log_mask. rewrite (bind_done _ _ _ _ w h w) by done.
  apply (broadcast_each (w_masks w)); [|done..].
  intros p perif h1 w1 Hh1 Ew Hp. destruct (Z.eqb_spec (pf_cntl_fd perif) (-1)) as [E|E].
  - exists 0%nat. unfold diag_cntl_send_log_mask. rewrite (bind_done _ _ _ _ w1 h1 w1) by done. cbv zeta.
    erewrite bind_done by (by apply get_perif_ok). rewrite E. by destruct h1.
  - rewrite <- Ew in *. by apply (send_log_mask_ok p perif).
Qed.

Lemma log_abs_props m e n bits :
  log_wf m -> log_abs m e = Some (n, bits) ->
  bytes_ok bits /\ zlen bits = BITS_TO_BYTES n /\ zlen bits <= 512 /\ 0 <= n <= MAX_ITEMS_ALLOWED.
Proof.
  intros (items & E & Hwf). destruct (decide (0 <= e < 16)) as [He|He].
  - rewrite (log_abs_eq _ _ _ E Hwf He).
    destruct (log_lookup_some _ _ Hwf He) as (it & -> & _ & (_ & Hn & _ & _ & (p & Hp & Hl & Hok))).
    cbn. unfold log_view. rewrite Hp. cbn. intros [= <- <-].
    pose proof (bits_bytes_small _ Hn) as Hb. unfold MAX_ITEMS_PER_EQUIP_ID in *.
    split; [auto with diag|]. rewrite zlen_slice by lia. lia.
  - rewrite log_abs_none; [done|by eexists|done].
Qed.

(** What the client is told about the mask of [e], behind the header. *)
Definition log_get_answer (m : masks) (e : Z) : bytes :=
  match log_abs m e with
  | Some (n, bits) => le 4 DIAG_CMD_STATUS_SUCCESS ++ le 4 e ++ le 4 n ++ bits
  | None => le 4 DIAG_CMD_STATUS_INVALID_EQUIPMENT_ID ++ le 4 e ++ le 4 0
  end.

Lemma log_get_parts m e :
  log_wf m -> exists n mask size bits ret,
  match log_abs m e with Some (n, bits) => (0, n, Some bits, zlen bits) | None => (1, 0, None, 0) end = (ret, n, mask, size) /\
  log_get_answer m e = le 4 (if ret =? 0 then DIAG_CMD_STATUS_SUCCESS else DIAG_CMD_STATUS_INVALID_EQUIPMENT_ID)
    ++ le 4 e ++ le 4 n ++ bits /\ bytes_ok bits /\ zlen bits = size /\ size <= 512 /\
  (ret = 0 /\ mask = Some bits \/ ret = 1 /\ mask = None /\ bits = [] /\ size = 0).
Proof.
  intros Hm. unfold log_get_answer. destruct (log_abs m e) as [[n bits]|] eqn:Ea.
  - destruct (log_abs_props _ _ _ _ Hm Ea) as (H1 & H2 & H3 & H4).
    exists n, (Some bits), (zlen bits), bits, 0. split_and!; try done. by left.
  - exists 0, None, 0, [], 1. split_and!; try done; [constructor|]. by right.
Qed.

(** Asking for a log mask: for a known equipment id the client gets the
    request's header, success, the id, the item count and the bits the table
    holds; for an unknown id an error status and no bits.  Every peripheral
    with a control channel is sent the packet of that id, and the tables do
    not change. *)
Lemma log_get_mask_replies c msg e h w :
  live_client c w -> alloc_ok h -> bytes_ok msg -> 12 <= zlen msg -> log_wf (w_masks w) -> pf_wf w ->
  rd 4 msg 8 = Done e ->
  exists k, log_get_mask c msg 12 h w = Done (0, steps k h,
    reply c (slice msg 0 8 ++ log_get_answer (w_masks w) e) (broadcast_all (log_packet_of (w_masks w) e) w)).
Proof.
  intros Hc Hh Hok Hlen Hm Hpf He. set (resp := log_get_answer (w_masks w) e). unfold log_get_mask, log_header_size.
  destruct (Z.eqb_spec (8 + 4) 12); [|lia]. cbn [negb].
  erewrite bind_done by (unfold field, lift; rewrite He; reflexivity).
  destruct (diag_cmd_get_log_mask_ok (w_masks w) e h Hm Hh) as (k & E).
  erewrite bind_done by (erewrite zoom_done by exact E; reflexivity). rewrite over_view by done.
  set (pkt := log_packet_of (w_masks w) e).
  assert (bytes_ok (slice msg 0 8)) as Hok8 by auto with diag.
  assert (zlen (slice msg 0 8) = 8) as Hz8 by (apply zlen_slice; lia).
  destruct (log_get_parts (w_masks w) e Hm) as (n & mask & size & bits & ret & -> & Hresp & Hbok & Hbl & Hsize & Hmask).
  fold resp in Hresp.
  cbv beta iota. pose proof (zlen_nonneg bits).
  assert ((if ret =? 0 then size else 0) = size) as Hsz by (destruct Hmask as [[-> _]|(-> & _ & _ & ->)]; done).
  rewrite Hsz, u32_id by lia. unfold with_resp.
  set (src := slice msg 0 8 ++ le 4 (if ret =? 0 then DIAG_CMD_STATUS_SUCCESS else DIAG_CMD_STATUS_INVALID_EQUIPMENT_ID)
              ++ le 4 e ++ le 4 n).
  assert (zlen src = 20) as Hsrc by (subst src; rewrite zlen_app, Hz8; done).
  assert (src ++ bits = slice msg 0 8 ++ resp) as Hall by (rewrite Hresp; subst src; by rewrite <- !app_assoc).
  assert (bytes_ok (src ++ bits)) as Hallok.
  { rewrite Hall, Hresp, !bytes_ok_app. split_and!; auto with diag. }
  destruct (malloc_ok (20 + size) (steps k h) w Hh) as (p & Ep & _ & Hp). specialize (Hp ltac:(lia)).
  erewrite bind_done by exact Ep. cbv beta iota.
  erewrite bind_done by (unfold part, lift; rewrite mem_read_ok by lia; reflexivity). unfold write_at.
  cbv beta zeta. fold src.
  erewrite bind_done by (unfold lift; rewrite mem_write_ok by lia; reflexivity).
  assert ((if ret =? 0 then write_mask (splice p 0 src) 20 mask size else mret (splice p 0 src))
    (tick (steps k h)) w = Done (src ++ bits, tick (steps k h), w)) as Ew.
  { destruct Hmask as [[-> ->]|(-> & -> & -> & ->)].
    - cbn [Z.eqb]. unfold write_mask. rewrite memcpy_ok by (rewrite ?zlen_splice; lia).
      rewrite <- Hsrc, fill_pkt by (rewrite zlen_slice; lia). by rewrite slice_0_all.
    - change (1 =? 0) with false. cbv beta iota. rewrite splice_full by lia. by rewrite app_nil_r. }
  erewrite bind_done by exact Ew.
  destruct (broadcast_log_ok e (tick (steps k h)) w Hh Hm Hpf) as (k2 & E2).
  erewrite bind_done by exact E2.
  destruct (dm_send_ok c (src ++ bits) (20 + size) (steps k2 (tick (steps k h)))
    (broadcast_all pkt w)) as (k3 & E3); [exact Hc|exact Hh|done|rewrite zlen_app; lia|lia|].
  erewrite bind_done by exact E3. rewrite slice_0_all by (rewrite zlen_app; lia).
  exists (k3 + k2 + 1 + k)%nat. rewrite <- Hall. unfold mret, M_ret.
  change (tick (steps k h)) with (steps 1 (steps k h)). by rewrite !steps_steps.
Qed.

Lemma rd_slice n b off : rd n b off = (bs ← mem_read b off (Z.of_nat n); Done (le_dec bs)).
Proof. done. Qed.

Lemma rd_eq n b b' off :
  zlen b = zlen b' -> slice b off (Z.of_nat n) = slice b' off (Z.of_nat n) -> rd n b off = rd n b' off.
Proof. intros Hl Hs. unfold rd, mem_read, in_object. by rewrite Hl, Hs. Qed.

Lemma rd_from n a b off off' :
  0 <= off -> 0 <= off' -> off + Z.of_nat n <= zlen a -> off' + Z.of_nat n <= zlen b ->
  slice a off (Z.of_nat n) = slice b off' (Z.of_nat n) -> rd n a off = rd n b off'.
Proof. intros. unfold rd. rewrite !mem_read_ok by lia. by f_equal; f_equal. Qed.

Lemma slice_slice b off n off' n' :
  0 <= off -> 0 <= off' -> 0 <= n' -> off' + n' <= n ->
  slice (slice b off n) off' n' = slice b (off + off') n'.
Proof.
  intros. unfold slice. rewrite skipn_firstn_comm, take_take, drop_drop. f_equal; [lia|f_equal; lia].
Qed.

(** The answer to a set-log-mask request as it is put together in the memory
    [p]: the header, the equipment id and the bits (12 bytes in, over the
    status), the status. *)
Definition log_set_answer (p msg : bytes) (n' B : Z) : bytes :=
  splice (splice (splice p 0 (slice msg 0 8)) 12 (slice (splice msg 12 (le 4 n')) 8 B)) 8 (le 4 DIAG_CMD_STATUS_SUCCESS).

Lemma log_set_answer_ok p msg n' B e :
  bytes_ok p -> bytes_ok msg -> 4 <= B -> 12 + B <= zlen p -> 16 + B <= zlen msg -> rd 4 msg 8 = Done e ->
  let resp := log_set_answer p msg n' B in
  zlen resp = zlen p /\ bytes_ok resp /\ rd 4 resp 12 = Done e /\
  slice resp 0 12 = slice msg 0 8 ++ le 4 DIAG_CMD_STATUS_SUCCESS.
Proof.
  intros Hp Hmsg HB Hlp Hlm He. cbv zeta. unfold log_set_answer.
  assert (zlen (slice msg 0 8) = 8) as Hz8 by (apply zlen_slice; lia).
  assert (zlen (le 4 n') = 4) as Hz4 by apply zlen_le.
  assert (zlen (le 4 DIAG_CMD_STATUS_SUCCESS) = 4) as Hzs by done.
  set (msg1 := splice msg 12 (le 4 n')). assert (zlen msg1 = zlen msg) as Hzm by (unfold msg1; rewrite zlen_splice; lia).
  set (src := slice msg1 8 B). assert (zlen src = B) as Hsrc by (apply zlen_slice; lia).
  set (resp1 := splice p 0 (slice msg 0 8)). assert (zlen resp1 = zlen p) as Hz1 by (unfold resp1; rewrite zlen_splice; lia).
  set (resp2 := splice resp1 12 src). assert (zlen resp2 = zlen p) as Hz2 by (unfold resp2; rewrite zlen_splice; lia).
  set (resp := splice resp2 8 (le 4 DIAG_CMD_STATUS_SUCCESS)).
  assert (zlen resp = zlen p) as Hz by (unfold resp; rewrite zlen_splice; lia). split_and!; [done|..].
  - unfold resp, resp2, resp1, src, msg1. repeat apply bytes_ok_splice; auto with diag.
  - rewrite <- He. apply rd_from; try lia. change (Z.of_nat 4) with 4. unfold resp. rewrite slice_splice_ne by lia.
    unfold resp2. replace (slice (splice resp1 12 src) 12 4) with (slice (slice (splice resp1 12 src) 12 (zlen src)) 0 4)
      by (rewrite slice_slice by lia; done).
    rewrite slice_splice by lia. unfold src. rewrite slice_slice by lia. unfold msg1. by rewrite slice_splice_ne by lia.
  - rewrite <- (take_drop 8 (slice resp 0 12)). f_equal.
    + transitivity (slice resp 0 8); [unfold slice; change (Z.to_nat 0) with 0%nat; by rewrite !drop_0, take_take|].
      unfold resp. rewrite slice_splice_ne by lia. unfold resp2. rewrite slice_splice_ne by lia. apply slice_splice; lia.
    + transitivity (slice resp 8 4); [|apply slice_splice; lia].
      unfold slice. change (Z.to_nat 0) with 0%nat. rewrite drop_0, skipn_firstn_comm. done.
Qed.

(** The bytes of the items of a request and of the items that are kept. *)
Lemma capped_bits n :
  32 <= n < 2 ^ 31 ->
  0 <= BITS_TO_BYTES n < 2 ^ 30 /\ 4 <= BITS_TO_BYTES (Z.min n MAX_ITEMS_ALLOWED) <= BITS_TO_BYTES n.
Proof.
  intros Hn. unfold MAX_ITEMS_ALLOWED. rewrite !BITS_TO_BYTES_16_small by lia. unfold BITS_TO_BYTES_16. repeat split.
  - apply Z.div_pos; lia.
  - apply Z.div_lt_upper_bound; lia.
  - apply Z.div_le_lower_bound; lia.
  - apply Z.div_le_mono; lia.
Qed.

Lemma slice_drop (l : bytes) k n : slice (drop k l) 0 n = slice l (Z.of_nat k) n.
Proof. unfold slice. change (Z.to_nat 0) with 0%nat. by rewrite drop_0, Nat2Z.id. Qed.

(** Setting the log mask of a known equipment id from a request of at least
    32 items: the table then holds the first [min(n, 4095)] bits of the
    request for that id and what it held for every other, the mask is valid,
    every peripheral with a control channel is sent exactly those bits, the
    capped count is written back into the request, and the client gets an
    answer that starts with the request's header and success. *)
Lemma log_set_mask_effect c msg e n h w :
  live_client c w -> alloc_ok h -> bytes_ok msg -> log_wf (w_masks w) -> pf_wf w ->
  rd 4 msg 8 = Done e -> rd 4 msg 12 = Done n -> 0 <= e < 16 -> 32 <= n < 2 ^ 31 ->
  16 + BITS_TO_BYTES n <= zlen msg ->
  let n' := Z.min n MAX_ITEMS_ALLOWED in
  let bits := slice msg 16 (BITS_TO_BYTES n') in
  exists k m' resp,
    log_set_mask c msg (16 + BITS_TO_BYTES n) h w =
      Done ((0, splice msg 12 (le 4 n')), steps k h,
        reply c resp (broadcast_all (log_mask_packet DIAG_CTRL_MASK_VALID e n' bits) (over (fun _ => m') w))) /\
    log_wf m' /\ diag_get_log_mask_status m' = DIAG_CTRL_MASK_VALID /\ log_abs m' e = Some (n', bits) /\
    (forall e', e' <> e -> log_abs m' e' = log_abs (w_masks w) e') /\
    zlen resp = 28 + BITS_TO_BYTES n /\
    slice resp 0 12 = slice msg 0 8 ++ le 4 DIAG_CMD_STATUS_SUCCESS /\ rd 4 resp 12 = Done e.
Proof.
  intros Hc Hh Hok Hm Hpf He Hn Hek Hnr Hlen n' bits. unfold log_set_mask, log_header_size, log_mask_hdr_size.
  change (8 + 4) with 12. erewrite bind_done by (unfold field, lift; rewrite Hn; reflexivity). cbv zeta.
  destruct (capped_bits n Hnr) as [HB HB']. fold n' in HB'.
  rewrite (u32_id (8 + BITS_TO_BYTES n)), (u32_id (20 + _)) by lia.
  destruct (Z.eqb_spec (8 + (8 + BITS_TO_BYTES n)) (16 + BITS_TO_BYTES n)); [|lia]. cbn [negb].
  set (size := 20 + (8 + BITS_TO_BYTES n)).
  destruct (malloc_ok size h w Hh) as (p & Ep & Hpok & Hp). specialize (Hp ltac:(lia)).
  erewrite bind_done by exact Ep. cbv beta iota.
  erewrite bind_done by (unfold part, lift; rewrite mem_read_ok by lia; reflexivity).
  assert (zlen (slice msg 0 8) = 8) as Hz8 by (apply zlen_slice; lia). unfold write_at.
  erewrite bind_done by (unfold lift; rewrite mem_write_ok by lia; reflexivity).
  erewrite bind_done by (unfold field, lift; rewrite He; reflexivity). rewrite u8_id by lia.
  destruct (diag_cmd_set_log_mask_sound (w_masks w) e n (drop 16 msg) (8 + BITS_TO_BYTES n) (tick h))
    as (r & m' & E & Hm' & H); [done|lia|auto with diag| |].
  { rewrite zlen_drop. subst n'. lia. }
  rewrite decide_True in H by done. destruct H as (-> & Hst & Habs & Hother).
  assert (slice (drop 16 msg) 0 (BITS_TO_BYTES (Z.min n MAX_ITEMS_ALLOWED)) = bits) as Hbits by apply slice_drop.
  erewrite bind_done by (erewrite zoom_done by exact E; reflexivity). cbv beta iota. fold n'.
  set (w1 := over (fun _ => m') w).
  assert (zlen (splice p 0 (slice msg 0 8)) = size) as Hz1 by (rewrite zlen_splice; lia).
  assert (zlen (le 4 n') = 4) as Hz4 by apply zlen_le.
  assert (zlen (splice msg 12 (le 4 n')) = zlen msg) as Hzm by (rewrite zlen_splice; lia).
  erewrite bind_done by (unfold lift; rewrite mem_write_ok by lia; reflexivity).
  erewrite bind_done by (unfold part, lift; rewrite mem_read_ok by lia; reflexivity).
  erewrite bind_done by (unfold lift; rewrite mem_write_ok by (rewrite ?zlen_slice; lia); reflexivity).
  assert (zlen (splice (splice p 0 (slice msg 0 8)) 12 (slice (splice msg 12 (le 4 n')) 8 (BITS_TO_BYTES n'))) = size) as Hz2
    by (rewrite zlen_splice; rewrite ?zlen_slice; lia).
  erewrite bind_done by (unfold lift; rewrite mem_write_ok by (rewrite ?Hz2; lia || (change (zlen (le 4 _)) with 4; lia)); reflexivity).
  fold (log_set_answer p msg n' (BITS_TO_BYTES n')). set (resp := log_set_answer p msg n' (BITS_TO_BYTES n')).
  destruct (log_set_answer_ok p msg n' (BITS_TO_BYTES n') e) as (Hz & Hrok & Hid & Hhdr); try done; try lia. fold resp in Hz, Hrok, Hid, Hhdr.
  erewrite bind_done by (unfold field, lift; rewrite Hid; reflexivity).
  destruct (broadcast_log_ok e (tick h) w1 Hh Hm' Hpf) as (k2 & E2).
  assert (log_packet_of (w_masks w1) e = log_mask_packet DIAG_CTRL_MASK_VALID e n' bits) as Hpkt.
  { unfold log_packet_of. change (w_masks w1) with m'. rewrite Hst, Habs, Hbits. done. }
  rewrite Hpkt in E2. erewrite bind_done by exact E2. set (w2 := broadcast_all _ w1) in *.
  destruct (dm_send_ok c resp size (steps k2 (tick h)) w2) as (k3 & E3); [exact Hc|exact Hh|done|lia|lia|].
  erewrite bind_done by exact E3. rewrite slice_0_all by lia.
  exists (k3 + k2 + 1)%nat, m', resp. split.
  { unfold mret, M_ret. change (tick h) with (steps 1 h). by rewrite !steps_steps. }
  split; [done|]. split; [done|]. split; [by rewrite Habs, Hbits|]. split; [done|]. split; [lia|]. by split.
Qed.
