(* ===== verification/MaskRequests.v ===== *)
(** * MaskRequests: message and event masks, end to end

    From the request of a monitor to the tables, the packets for the
    peripherals and the answer. *)

From S2P Require Import Prelude Util CircBuf Hdlc Masks MaskTables Queue Watch World Dm Cntl CntlProps Peripheral AppCmds CommonCmds Router RouterProps.

(** ** Broadcasting a message mask *)

(** Some peripheral in the list has a control channel. *)
Definition reachable (objs : gmap nat peripheral) (p : nat) : bool :=
  match objs !! p with Some perif => negb (pf_cntl_fd perif =? -1) | None => false end.

Definition some_reachable (w : world) : bool := existsb (reachable (pf_objs (w_pf w))) (pf_list (w_pf w)).

(** The packet for a valid mask does not depend on which part of the entry is
    asked for. *)
Definition msg_packet_of (k : nat) (words : bytes) : bytes :=
  (msg_mask_reply DIAG_CTRL_MASK_VALID k words (entry_range k)).1.

Lemma in_entry_whole k r : in_entry k r -> in_entry k (entry_range k).
Proof.
  intros (first & last & E1 & E2 & H1 & H2 & H3). exists first, last. unfold entry_range. rewrite E1, E2. cbn.
  split_and!; (done || lia).
Qed.

Lemma broadcast_msg_ok k r words h w :
  alloc_ok h -> msg_wf (w_masks w) -> pf_wf w -> in_entry k r ->
  diag_get_msg_mask_status (w_masks w) = DIAG_CTRL_MASK_VALID -> msg_words (w_masks w) k = Some words ->
  exists j, peripheral_broadcast_msg_mask (Some r) h w =
    Done (Some (if some_reachable w then entry_range k else r), steps j h, broadcast_all (msg_packet_of k words) w).
Proof.
  intros Hh Hm Hw Hr Hst Hwords. unfold peripheral_broadcast_msg_mask, broadcast_all, some_reachable.
  rewrite (bind_done _ _ _ _ w h w) by done.
  assert (forall ps r h w, alloc_ok h -> msg_wf (w_masks w) -> (forall p, p ∈ ps -> is_Some (pf_objs (w_pf w) !! p)) ->
    in_entry k r -> diag_get_msg_mask_status (w_masks w) = DIAG_CTRL_MASK_VALID -> msg_words (w_masks w) k = Some words ->
    exists j, broadcast_msg_loop ps (Some r) h w =
      Done (Some (if existsb (reachable (pf_objs (w_pf w))) ps then entry_range k else r), steps j h,
        with_queues (foldl (broadcast (pf_objs (w_pf w)) (msg_packet_of k words)) (w_queues w) ps) w))
    as Hloop; [|by apply Hloop].
  clear. induction ps as [|p ps IH]; intros r h w Hh Hm Hps Hr Hst Hwords.
  { exists 0%nat. destruct h, w. done. }
  destruct (Hps p ltac:(apply list_elem_of_here)) as [perif Hp].
  assert (exists j, diag_cntl_send_msg_mask p (Some r) h w =
    Done (Some (if reachable (pf_objs (w_pf w)) p then entry_range k else r), steps j h,
      with_queues (broadcast (pf_objs (w_pf w)) (msg_packet_of k words) (w_queues w) p) w)) as [j E].
  { unfold broadcast, reachable. rewrite Hp. destruct (Z.eqb_spec (pf_cntl_fd perif) (-1)) as [E|E]; cbn [negb].
    - exists 0%nat. unfold diag_cntl_send_msg_mask. rewrite (bind_done _ _ _ _ w h w) by done. cbv zeta.
      erewrite bind_done by (by apply get_perif_ok). rewrite E. destruct h, w. done.
    - destruct (send_msg_mask_ok p perif k r words h w Hh Hm Hr Hwords Hp E) as [j Ej]. rewrite Hst in Ej. by exists j. }
  set (r' := if reachable _ p then entry_range k else r) in E.
  assert (in_entry k r') as Hr' by (unfold r'; destruct (reachable _ p); [by eapply in_entry_whole|done]).
  destruct (IH r' (steps j h) (with_queues (broadcast (pf_objs (w_pf w)) (msg_packet_of k words) (w_queues w) p) w))
    as [j' E']; try done; [intros q Hq; apply Hps; by apply list_elem_of_further|].
  exists (j' + j)%nat. cbn [broadcast_msg_loop]. erewrite bind_done by exact E. rewrite E', steps_steps.
  unfold r'. cbn [existsb]. change (w_pf (with_queues _ w)) with (w_pf w).
  by destruct (reachable _ p), (existsb _ ps).
Qed.

Lemma splice_middle a b b' c : zlen b' = zlen b -> splice (a ++ b ++ c) (zlen a) b' = a ++ b' ++ c.
Proof.
  intros E. unfold splice. rewrite E. replace (Z.to_nat (zlen a)) with (length a) by (unfold zlen; lia).
  replace (Z.to_nat (zlen a + zlen b)) with (length (a ++ b)) by (rewrite length_app; unfold zlen; lia).
  by rewrite take_app_length, (app_assoc a b c), drop_app_length.
Qed.

(** ** Setting message masks *)

(** The answer to a request for the ids of [r]: [range] is what it names. *)
Definition msg_set_answer (msg : bytes) (range : ssid_range) (rsvd : Z) (words : bytes) : bytes :=
  slice msg 0 2 ++ ssid_range_bytes range ++ [DIAG_CMD_MSG_STATUS_SUCCESSFUL; u8 rsvd] ++ words.

Lemma zlen_range_bytes x : zlen (ssid_range_bytes x) = 4.
Proof. done. Qed.

Lemma msg_set_answer_ok msg range rsvd words :
  bytes_ok msg -> 2 <= zlen msg -> bytes_ok words ->
  bytes_ok (msg_set_answer msg range rsvd words) /\ zlen (msg_set_answer msg range rsvd words) = 8 + zlen words.
Proof.
  intros Hm Hl Hw. unfold msg_set_answer. split.
  - unfold ssid_range_bytes. rewrite !bytes_ok_app. split_and!; auto with diag.
    constructor; [done|]. constructor; [apply u8_is_byte|constructor].
  - rewrite !zlen_app, zlen_range_bytes, zlen_slice by lia. change (zlen [_; _]) with 2. lia.
Qed.

(** The answer as the handler builds it: the range it starts with is replaced
    by the one the broadcast leaves. *)
Lemma msg_set_answer_built msg r range rsvd words b h h' w w' :
  zlen b = 8 + zlen words -> words = slice msg 8 (zlen words) -> 8 + zlen words <= zlen msg ->
  peripheral_broadcast_msg_mask (Some r) h w = Done (Some range, h', w') ->
  (words ← part msg 8 (zlen words);
   resp ← write_at (splice b 0 (slice msg 0 2 ++ ssid_range_bytes r ++ [DIAG_CMD_MSG_STATUS_SUCCESSFUL; u8 rsvd])) 8 words;
   range ← peripheral_broadcast_msg_mask (Some r);
   range ← deref range;
   write_at resp msg_header_size (ssid_range_bytes range)) h w = Done (msg_set_answer msg range rsvd words, h', w').
Proof.
  intros Hb Hwords Hlen E. pose proof (zlen_nonneg words).
  assert (zlen (slice msg 0 2) = 2) as Hz2 by (apply zlen_slice; lia).
  set (hdr := slice msg 0 2 ++ ssid_range_bytes r ++ [DIAG_CMD_MSG_STATUS_SUCCESSFUL; u8 rsvd]).
  assert (zlen hdr = 8) as Hhdr by (unfold hdr; rewrite zlen_app, Hz2; done). unfold write_at.
  erewrite bind_done by (unfold part, lift; rewrite mem_read_ok by lia; rewrite <- Hwords; reflexivity).
  erewrite bind_done by (unfold lift; rewrite mem_write_ok by (rewrite ?zlen_splice; lia); reflexivity).
  erewrite bind_done by exact E. erewrite bind_done by reflexivity.
  rewrite <- Hhdr, fill_pkt by lia. unfold hdr. rewrite <- !app_assoc.
  pose proof (splice_middle (slice msg 0 2) (ssid_range_bytes r) (ssid_range_bytes range)
    ([DIAG_CMD_MSG_STATUS_SUCCESSFUL; u8 rsvd] ++ words) eq_refl) as Hmid. rewrite Hz2 in Hmid.
  unfold lift, msg_header_size. by rewrite mem_write_ok, Hmid by (rewrite ?zlen_app, ?zlen_range_bytes, ?Hz2; zlia).
Qed.

(** Setting the message masks of ids inside a table entry: the entry then
    holds the words of the request for these ids and what it held for the
    others, the mask is valid, every peripheral with a control channel is sent
    the whole entry, and the client's answer holds the words it sent.  When a
    peripheral was told, the answer names the entry's ids and not those that
    were asked for, because the broadcast overwrites the range. *)
Lemma msg_set_msg_mask_effect c msg k r rsvd p h w :
  live_client c w -> alloc_ok h -> bytes_ok msg -> msg_wf (w_masks w) -> pf_wf w ->
  rd 2 msg 2 = Done (r.1) -> rd 2 msg 4 = Done (r.2) -> rd 2 msg 6 = Done rsvd -> in_entry k r ->
  8 + 4 * range_words r <= zlen msg -> msg_words (w_masks w) k = Some p ->
  let words := slice msg 8 (4 * range_words r) in
  let p' := splice p (4 * range_offset k r) words in
  exists j m',
    msg_set_msg_mask c msg (8 + 4 * range_words r) h w =
      Done (0, steps j h,
        reply c (msg_set_answer msg (if some_reachable w then entry_range k else r) rsvd words)
          (broadcast_all (msg_packet_of k p') (over (fun _ => m') w))) /\
    msg_wf m' /\ diag_get_msg_mask_status m' = DIAG_CTRL_MASK_VALID /\ msg_words m' k = Some p' /\
    (forall k', k' <> k -> msg_words m' k' = msg_words (w_masks w) k').
Proof.
  intros Hc Hh Hok Hm Hpf Hr1 Hr2 Hrs Hr Hlen Hp words p'.
  destruct (in_entry_fits k r Hr) as (Ho & Hn & Hfit & Hb1 & Hb2). unfold MAX_SSID_PER_RANGE in *.
  assert (zlen words = 4 * range_words r) as Hzw by (unfold words; rewrite zlen_slice; lia).
  assert (words = slice msg 8 (zlen words)) as Hwords by (by rewrite Hzw).
  assert (bytes_ok words) as Hwok by (unfold words; auto with diag).
  unfold msg_set_msg_mask, get_range. change msg_header_size with 2. change (2 + 2) with 4.
  erewrite bind_done by (erewrite bind_done by (unfold field, lift; rewrite Hr1; reflexivity);
    erewrite bind_done by (unfold field, lift; rewrite Hr2; reflexivity); reflexivity).
  rewrite <- (surjective_pairing r).
  assert (MSG_RANGE_TO_SIZE (r.1) (r.2) = 4 * range_words r) as Hsz.
  { unfold MSG_RANGE_TO_SIZE, range_words in *. rewrite u32_id; lia. }
  cbv zeta. rewrite Hsz, Z.eqb_refl. cbn [negb].
  destruct (diag_cmd_set_msg_mask_refines (w_masks w) k r (drop 8 msg) h p Hm Hr)
    as (m' & E & Hm' & Hst & Hw' & Hother & _); [auto with diag|rewrite zlen_drop; lia|done|].
  replace (slice (drop 8 msg) 0 (4 * range_words r)) with words in Hw' by done. fold p' in Hw'.
  erewrite bind_done by (erewrite zoom_done by exact E; reflexivity). change (0 =? 0) with true. cbv iota.
  set (w1 := over (fun _ => m') w). rewrite u32_id by lia. unfold with_resp.
  destruct (malloc_ok (8 + 4 * range_words r) h w1 Hh) as (b & Eb & _ & Hb). specialize (Hb ltac:(lia)).
  erewrite bind_done by exact Eb. cbv beta iota.
  assert (zlen (slice msg 0 2) = 2) as Hz2 by (apply zlen_slice; lia).
  erewrite bind_done by (unfold part, lift; rewrite mem_read_ok by lia; reflexivity).
  erewrite bind_done by (unfold field, lift; rewrite Hrs; reflexivity). cbv zeta.
  erewrite bind_done by (unfold write_at, lift; rewrite mem_write_ok by (rewrite ?zlen_app, ?Hz2, ?zlen_range_bytes; zlia); reflexivity).
  destruct (broadcast_msg_ok k r p' (tick h) w1 Hh Hm' Hpf Hr Hst Hw') as [j Ej].
  set (range := if some_reachable w1 then entry_range k else r) in Ej. clearbody words. rewrite <- Hzw in *.
  erewrite bind_done by (by apply msg_set_answer_built).
  destruct (msg_set_answer_ok msg range rsvd words Hok) as [Hrok Hresp]; [lia|done|].
  destruct (dm_send_ok c (msg_set_answer msg range rsvd words) (8 + zlen words) (steps j (tick h))
    (broadcast_all (msg_packet_of k p') w1)) as (j2 & E2); [exact Hc|exact Hh|done|lia|lia|].
  erewrite bind_done by exact E2. rewrite slice_0_all by lia.
  exists (j2 + j + 1)%nat, m'. split; [|done]. unfold mret, M_ret.
  change (tick h) with (steps 1 h). by rewrite !steps_steps.
Qed.

(** ** Setting the event mask *)

(** All the event bits there are. *)
Definition all_events (m : masks) : bytes := slice (event_bits m) 0 (BITS_TO_BYTES_16 (event_max_num_bits m)).

Lemma zlen_all_events m : event_wf m -> zlen (all_events m) = BITS_TO_BYTES_16 (event_max_num_bits m) /\
  0 <= BITS_TO_BYTES_16 (event_max_num_bits m) <= 8192.
Proof.
  intros ((b & Eb & Hl & _) & Hn & Hfit). pose proof (BITS_TO_BYTES_16_bound (event_max_num_bits m) 8192 ltac:(lia)).
  unfold all_events, event_bits. rewrite Eb. cbn. rewrite zlen_slice; lia.
Qed.

Lemma send_event_mask_ok p perif h w :
  alloc_ok h -> event_wf (w_masks w) -> diag_get_event_mask_status (w_masks w) = DIAG_CTRL_MASK_VALID ->
  pf_objs (w_pf w) !! p = Some perif ->
  exists j, diag_cntl_send_event_mask p h w = Done (tt, steps j h,
    if pf_cntl_fd perif =? -1 then w
    else send_cntl p (event_mask_packet DIAG_CTRL_MASK_VALID 1 (all_events (w_masks w))) w).
Proof.
  intros Hh Hm Hst Hp. unfold diag_cntl_send_event_mask. rewrite (bind_done _ _ _ _ w h w) by done. cbv zeta.
  erewrite bind_done by (by apply get_perif_ok). destruct (pf_cntl_fd perif =? -1); [exists 0%nat; by destruct h|].
  rewrite Hst. change (DIAG_CTRL_MASK_VALID =? DIAG_CTRL_MASK_VALID) with true. rewrite orb_true_r. cbv iota.
  destruct (zlen_all_events _ Hm) as [Hz Hb]. destruct Hm as ((b & Eb & Hl & Hbok) & Hn & Hfit).
  destruct (diag_cmd_get_event_mask_correct (w_masks w) (event_max_num_bits (w_masks w)) h) as [k E]; [by split; [exists b|]|done|done|].
  rewrite decide_True in E by lia. fold (all_events (w_masks w)) in E.
  erewrite bind_done.
  2:{ erewrite bind_done by (erewrite zoom_done by exact E; reflexivity). rewrite over_view by done. cbv beta iota.
      change (0 =? 0) with true. cbv iota. rewrite u16_id, <- Hz by lia. reflexivity. }
  set (bits := all_events (w_masks w)) in *. pose proof (zlen_nonneg bits). cbv beta iota. unfold sizeof_event_mask, sizeof_cntl_hdr.
  match goal with |- context [write_at _ 0 ?hd] => set (hdr := hd) end.
  assert (zlen hdr = 15) as Hhdr by done. exists (2 + k)%nat. rewrite <- Hhdr.
  rewrite (build_pkt hdr (Some bits) (zlen bits) bits) by (done || lia || (split; [lia|by rewrite slice_0_all])).
  rewrite push_whole; [|done|rewrite zlen_app; lia|rewrite zlen_app; lia].
  unfold send_cntl. do 3 f_equal. f_equal. unfold event_mask_packet, cntl_packet. subst hdr.
  replace (15 + zlen bits - 8) with (zlen ([1; u8 DIAG_CTRL_MASK_VALID; 1] ++ le 4 (zlen bits) ++ bits)) by zlia.
  by rewrite <- !app_assoc.
Qed.

Lemma broadcast_event_ok h w :
  alloc_ok h -> event_wf (w_masks w) -> diag_get_event_mask_status (w_masks w) = DIAG_CTRL_MASK_VALID -> pf_wf w ->
  exists j, peripheral_broadcast_event_mask h w =
    Done (tt, steps j h, broadcast_all (event_mask_packet DIAG_CTRL_MASK_VALID 1 (all_events (w_masks w))) w).
Proof.
  intros Hh Hm Hst Hw. unfold peripheral_broadcast_event_mask. rewrite (bind_done _ _ _ _ w h w) by done.
  apply (broadcast_each (w_masks w)); [|done..]. intros p perif h1 w1 Hh1 Ew Hp. rewrite <- Ew in *.
  by apply send_event_mask_ok.
Qed.

(** The answer: the command, success, what the request had reserved, and the
    bits that were set. *)
Definition event_set_answer (cmd rsvd n : Z) (bits : bytes) : bytes :=
  ([cmd; DIAG_CMD_EVENT_ERROR_CODE_OK] ++ le 2 rsvd ++ le 2 n) ++ bits.

(** Setting [n] event bits: the table then starts with the bits of the
    request, has room for as many as were ever set, keeps the bits behind the
    request's when there were more, and is valid; every peripheral with a
    control channel is sent all the bits, not only those of the request, and
    the client gets back what it set. *)
Lemma handle_event_set_mask_effect c msg cmd rsvd n h w :
  live_client c w -> alloc_ok h -> bytes_ok msg -> event_wf (w_masks w) -> pf_wf w ->
  rd 1 msg 0 = Done cmd -> rd 2 msg 2 = Done rsvd -> rd 2 msg 4 = Done n ->
  6 + BITS_TO_BYTES_16 n <= zlen msg ->
  let bits := slice msg 6 (BITS_TO_BYTES_16 n) in
  exists j m',
    handle_event_set_mask c msg (6 + BITS_TO_BYTES_16 n) h w =
      Done (0, steps j h, reply c (event_set_answer cmd rsvd n bits)
        (broadcast_all (event_mask_packet DIAG_CTRL_MASK_VALID 1 (all_events m')) (over (fun _ => m') w))) /\
    event_wf m' /\ diag_get_event_mask_status m' = DIAG_CTRL_MASK_VALID /\
    event_max_num_bits m' = Z.max n (event_max_num_bits (w_masks w)) /\
    slice (event_bits m') 0 (BITS_TO_BYTES_16 n) = bits /\
    (n <= event_max_num_bits (w_masks w) ->
     drop (Z.to_nat (BITS_TO_BYTES_16 n)) (event_bits m') = drop (Z.to_nat (BITS_TO_BYTES_16 n)) (event_bits (w_masks w))).
Proof.
  intros Hc Hh Hok Hm Hpf Hcmd Hrs Hn Hlen bits. unfold handle_event_set_mask.
  assert (0 <= n < 2 ^ 16) as Hnr by (by apply (rd_range 2 msg 4)).
  pose proof (BITS_TO_BYTES_16_bound n 8192 ltac:(lia)) as HB.
  assert (zlen bits = BITS_TO_BYTES_16 n) as Hz by (apply zlen_slice; lia).
  erewrite bind_done by (unfold field, lift; rewrite Hn; reflexivity). cbv zeta.
  rewrite u16_id by lia. rewrite Z.eqb_refl. cbn [negb].
  destruct (diag_cmd_update_event_mask_correct (w_masks w) n (drop 6 msg) h Hm Hh Hnr)
    as (k & m' & E & Hm' & Hst & Hmax & Hbits & Hrest); [auto with diag|rewrite zlen_drop; lia|].
  replace (slice (drop 6 msg) 0 (BITS_TO_BYTES_16 n)) with bits in Hbits by done.
  erewrite bind_done by (erewrite zoom_done by exact E; reflexivity). change (0 =? 0) with true. cbv iota.
  set (w1 := over (fun _ => m') w). unfold with_resp.
  destruct (malloc_ok (6 + BITS_TO_BYTES_16 n) (steps k h) w1 Hh) as (b & Eb & _ & Hb). specialize (Hb ltac:(lia)).
  erewrite bind_done by exact Eb. cbv beta iota.
  erewrite bind_done by (unfold field, lift; rewrite Hcmd; reflexivity).
  erewrite bind_done by (unfold field, lift; rewrite Hrs; reflexivity). unfold write_at.
  set (hdr := [cmd; DIAG_CMD_EVENT_ERROR_CODE_OK] ++ le 2 rsvd ++ le 2 n).
  assert (zlen hdr = 6) as Hhdr by done.
  erewrite bind_done by (unfold lift; rewrite mem_write_ok by lia; reflexivity).
  destruct (broadcast_event_ok (tick (steps k h)) w1 Hh Hm' Hst Hpf) as [j Ej].
  erewrite bind_done.
  2:{ erewrite bind_done by (unfold part, lift; rewrite mem_read_ok by lia; reflexivity). fold bits.
      erewrite bind_done by (unfold lift; rewrite mem_write_ok by (rewrite ?zlen_splice; lia); reflexivity).
      erewrite bind_done by exact Ej. rewrite <- Hhdr, fill_pkt by lia. reflexivity. }
  fold (event_set_answer cmd rsvd n bits).
  assert (bytes_ok (hdr ++ bits)) as Hrok.
  { unfold hdr, bits. rewrite !bytes_ok_app. split_and!; auto with diag.
    constructor; [by apply (rd_range 1 msg 0)|]. constructor; [done|constructor]. }
  destruct (dm_send_ok c (hdr ++ bits) (6 + BITS_TO_BYTES_16 n) (steps j (tick (steps k h)))
    (broadcast_all (event_mask_packet DIAG_CTRL_MASK_VALID 1 (all_events m')) w1)) as (j2 & E2);
    [exact Hc|exact Hh|done|rewrite zlen_app; lia|lia|].
  erewrite bind_done by exact E2. rewrite slice_0_all by (rewrite zlen_app; lia).
  exists (j2 + j + 1 + k)%nat, m'. split; [|by split_and!]. unfold mret, M_ret.
  change (tick (steps k h)) with (steps 1 (steps k h)). by rewrite !steps_steps.
Qed.
