(* ===== verification/MaskReadback.v ===== *)
(** * MaskReadback: what a monitor sets, a monitor reads back

    The requests that read the masks, and each of the three kinds of masks set
    and read in turn, by one client or by two. *)

From S2P Require Import Prelude Util CircBuf Hdlc Masks MaskTables Queue Watch World Dm Cntl CntlProps Peripheral AppCmds CommonCmds Router RouterProps MaskRequests.

(** ** Reading message masks

    The answer holds the words of the whole table entry, and not the range. *)

Definition msg_get_answer (msg : bytes) (k : nat) (p : bytes) : bytes :=
  slice msg 0 2 ++ [DIAG_CMD_MSG_STATUS_SUCCESSFUL; 0] ++ slice p 0 (4 * range_words (entry_range k)).

Lemma msg_words_bytes m k p : msg_wf m -> msg_words m k = Some p -> bytes_ok p.
Proof.
  intros (items & E & Hi) Hp. rewrite (msg_words_eq m items k E) in Hp.
  destruct (items !! k) as [it|] eqn:Hit; [|done]. cbn in Hp.
  destruct (proj2 Hi k it Hit) as (_ & _ & _ & _ & _ & (b & Hb & _ & Hbok)). rewrite Hb in Hp. by injection Hp as <-.
Qed.

Lemma msg_get_msg_mask_replies c msg k r p h w :
  live_client c w -> alloc_ok h -> bytes_ok msg -> 6 <= zlen msg -> msg_wf (w_masks w) ->
  rd 2 msg 2 = Done (r.1) -> rd 2 msg 4 = Done (r.2) -> in_entry k r -> msg_words (w_masks w) k = Some p ->
  exists j, msg_get_msg_mask c msg 6 h w = Done (0, steps j h, reply c (msg_get_answer msg k p) w).
Proof.
  intros Hc Hh Hok Hlen Hm Hr1 Hr2 Hr Hp. unfold msg_get_msg_mask, get_range. change msg_header_size with 2.
  destruct (Z.eqb_spec (2 + 4) 6); [|lia]. cbn [negb]. change (2 + 2) with 4.
  erewrite bind_done by (erewrite bind_done by (unfold field, lift; rewrite Hr1; reflexivity);
    erewrite bind_done by (unfold field, lift; rewrite Hr2; reflexivity); reflexivity).
  rewrite <- (surjective_pairing r).
  destruct (diag_cmd_get_msg_mask_ok (w_masks w) k r h p Hm Hr Hh Hp) as (first & last & Ef & El & Hpl & E).
  erewrite bind_done by (erewrite zoom_done by exact E; reflexivity). rewrite over_view by done. cbv beta iota. cbn [fst snd].
  assert (entry_range k = (first, last)) as Hrange by (unfold entry_range; by rewrite Ef, El).
  destruct (in_entry_fits k _ (in_entry_whole k r Hr)) as (_ & Hn & Hfit & _). rewrite Hrange in Hn, Hfit.
  assert (range_offset k (first, last) = 0) as Hoff by (unfold range_offset; rewrite Ef; cbn; lia).
  assert (MSG_RANGE_TO_SIZE first last = 4 * range_words (first, last)) as Hsz.
  { unfold MSG_RANGE_TO_SIZE, range_words in *. cbn [fst snd] in *. rewrite u32_id; lia. }
  pose proof (msg_words_bytes _ _ _ Hm Hp) as Hpok.
  erewrite bind_done by (unfold part, lift; rewrite mem_read_ok by lia; reflexivity).
  change (0 =? 0) with true. cbv iota zeta. rewrite Hsz, <- Hrange in *.
  erewrite bind_done.
  2:{ erewrite bind_done by reflexivity.
      erewrite bind_done by (unfold part, lift; rewrite mem_read_ok by lia; reflexivity). reflexivity. }
  fold (msg_get_answer msg k p).
  destruct (dm_reply_ok c (msg_get_answer msg k p) (tick h) w Hc Hh) as [j Ej].
  { unfold msg_get_answer. rewrite !bytes_ok_app. split_and!; auto with diag. constructor; [done|]. by constructor. }
  { unfold msg_get_answer. rewrite !zlen_app, !zlen_slice by lia. change (zlen [_; _]) with 2. lia. }
  erewrite bind_done by exact Ej. exists (j + 1)%nat. unfold mret, M_ret.
  change (tick h) with (steps 1 h). by rewrite steps_steps.
Qed.

(** ** Reading the event mask *)

Lemma handle_event_get_mask_replies c msg cmd rsvd h w :
  live_client c w -> alloc_ok h -> bytes_ok msg -> event_wf (w_masks w) ->
  rd 1 msg 0 = Done cmd -> rd 2 msg 2 = Done rsvd ->
  exists j, handle_event_get_mask c msg 4 h w = Done (0, steps j h,
    reply c (event_set_answer cmd rsvd (event_max_num_bits (w_masks w)) (all_events (w_masks w))) w).
Proof.
  intros Hc Hh Hok Hm Hcmd Hrs. unfold handle_event_get_mask. rewrite (bind_done _ _ _ _ w h w) by done. cbv zeta.
  destruct (Z.eqb_spec 4 4); [|lia]. cbn [negb]. set (n := event_max_num_bits (w_masks w)).
  destruct (zlen_all_events _ Hm) as [Hz HB]. fold n in Hz, HB. pose proof Hm as ((b & Eb & Hbl & Hbok) & Hn & Hfit).
  destruct (diag_cmd_get_event_mask_correct (w_masks w) n h Hm Hh Hn) as [k E]. rewrite decide_True in E by (unfold n; lia).
  change (slice (event_bits (w_masks w)) 0 (BITS_TO_BYTES_16 n)) with (all_events (w_masks w)) in E.
  erewrite bind_done by (erewrite zoom_done by exact E; reflexivity). rewrite over_view by done. cbv beta iota.
  change (0 =? 0) with true. cbv iota. rewrite u16_id, <- Hz by lia. set (bits := all_events (w_masks w)) in *.
  unfold with_resp. destruct (malloc_ok (6 + zlen bits) (steps k h) w Hh) as (p & Ep & _ & Hp). specialize (Hp ltac:(lia)).
  erewrite bind_done by exact Ep. cbv beta iota.
  erewrite bind_done by (unfold field, lift; rewrite Hcmd; reflexivity).
  erewrite bind_done by (unfold field, lift; rewrite Hrs; reflexivity). unfold write_at.
  set (hdr := [cmd; DIAG_CMD_EVENT_ERROR_CODE_OK] ++ le 2 rsvd ++ le 2 n). assert (zlen hdr = 6) as Hhdr by done.
  erewrite bind_done by (unfold lift; rewrite mem_write_ok by lia; reflexivity).
  assert (write_mask (splice p 0 hdr) 6 (Some bits) (zlen bits) (tick (steps k h)) w =
    Done (hdr ++ bits, tick (steps k h), w)) as Ew.
  { unfold write_mask. rewrite memcpy_ok by (rewrite ?zlen_splice; lia).
    rewrite slice_0_all by lia. rewrite <- Hhdr, fill_pkt by lia. done. }
  erewrite bind_done by exact Ew. fold (event_set_answer cmd rsvd n bits).
  assert (bytes_ok (event_set_answer cmd rsvd n bits)) as Hrok.
  { unfold event_set_answer. subst bits. unfold all_events, event_bits. rewrite !bytes_ok_app. split_and!; auto with diag.
    - constructor; [by apply (rd_range 1 msg 0)|]. constructor; [done|constructor].
    - rewrite Eb. cbn. auto with diag. }
  destruct (dm_send_ok c (event_set_answer cmd rsvd n bits) (6 + zlen bits) (tick (steps k h)) w) as (j & Ej);
    [exact Hc|exact Hh|exact Hrok|unfold event_set_answer; fold hdr; rewrite zlen_app; lia|lia|].
  erewrite bind_done by exact Ej. rewrite slice_0_all by (unfold event_set_answer; fold hdr; rewrite zlen_app; lia).
  exists (j + 1 + k)%nat. unfold mret, M_ret. change (tick (steps k h)) with (steps 1 (steps k h)). by rewrite !steps_steps.
Qed.

(** The bits after an update: those that were set, then what was behind. *)
Lemma all_events_after m m' n :
  event_wf m -> 0 <= n -> event_max_num_bits m' = Z.max n (event_max_num_bits m) ->
  (n <= event_max_num_bits m ->
   drop (Z.to_nat (BITS_TO_BYTES_16 n)) (event_bits m') = drop (Z.to_nat (BITS_TO_BYTES_16 n)) (event_bits m)) ->
  all_events m' = slice (event_bits m') 0 (BITS_TO_BYTES_16 n) ++ drop (Z.to_nat (BITS_TO_BYTES_16 n)) (all_events m).
Proof.
  intros Hm Hn Hmax Hrest. destruct (zlen_all_events m Hm) as [Hz HB]. unfold all_events at 1. rewrite Hmax.
  destruct (Z.le_ge_cases n (event_max_num_bits m)) as [Hle|Hle].
  - rewrite Z.max_r by done. pose proof (bits_16_mono _ _ Hle) as Hb. pose proof (bits_16_nonneg n Hn).
    unfold all_events, slice. change (Z.to_nat 0) with 0%nat. rewrite !drop_0.
    rewrite skipn_firstn_comm, <- Hrest, <- skipn_firstn_comm by done.
    rewrite <- (take_drop (Z.to_nat (BITS_TO_BYTES_16 n)) (take (Z.to_nat (BITS_TO_BYTES_16 (event_max_num_bits m))) (event_bits m'))) at 1.
    by rewrite take_take, Nat.min_l by lia.
  - rewrite Z.max_l by done. rewrite drop_ge, app_nil_r; [done|].
    pose proof (bits_16_mono _ _ Hle). unfold zlen in Hz. lia.
Qed.

(** ** Properties *)

(** C20 Setting a log mask and reading it back.  A request of at least 32 items
    for a known equipment id: the table then holds the first [min(n, 4095)]
    bits of the request for that id and what it held for every other, every
    peripheral with a control channel is sent exactly those bits, the capped
    count is written back into the request, and the answer starts with the
    request's header, success and the id.  Any client that then asks for the
    mask of that id is told success, the capped count and exactly those bits,
    and for another id what was there before; the peripherals are sent the
    mask asked for once more. *)
Theorem log_mask_round_trip c msg e n c' msg' e' h w :
  live_client c w -> live_client c' w -> alloc_ok h -> bytes_ok msg -> bytes_ok msg' -> log_wf (w_masks w) -> pf_wf w ->
  rd 4 msg 8 = Done e -> rd 4 msg 12 = Done n -> 0 <= e < 16 -> 32 <= n < 2 ^ 31 ->
  16 + BITS_TO_BYTES n <= zlen msg -> 12 <= zlen msg' -> rd 4 msg' 8 = Done e' ->
  let n' := Z.min n MAX_ITEMS_ALLOWED in
  let bits := slice msg 16 (BITS_TO_BYTES n') in
  let pkt := log_mask_packet DIAG_CTRL_MASK_VALID e n' bits in
  exists k m' resp k', let w1 := reply c resp (broadcast_all pkt (over (fun _ => m') w)) in
    log_set_mask c msg (16 + BITS_TO_BYTES n) h w = Done ((0, splice msg 12 (le 4 n')), steps k h, w1) /\
    zlen resp = 28 + BITS_TO_BYTES n /\
    slice resp 0 12 = slice msg 0 8 ++ le 4 DIAG_CMD_STATUS_SUCCESS /\ rd 4 resp 12 = Done e /\
    log_get_mask c' msg' 12 (steps k h) w1 = Done (0, steps k' (steps k h),
      reply c' (slice msg' 0 8 ++
          (if decide (e' = e) then le 4 DIAG_CMD_STATUS_SUCCESS ++ le 4 e ++ le 4 n' ++ bits
           else log_get_answer (w_masks w) e'))
        (broadcast_all (if decide (e' = e) then pkt else log_packet_of m' e') w1)).
Proof.
  intros Hc Hc' Hh Hok Hok' Hm Hpf He Hn Hek Hnr Hlen Hlen' He' n' bits pkt.
  destruct (log_set_mask_effect c msg e n h w) as (k & m' & resp & E & Hm' & Hst & Habs & Hother & Hz & Hhdr & Hid); try done.
  fold n' bits pkt in E, Habs. set (w1 := reply c resp (broadcast_all pkt (over (fun _ => m') w))) in *.
  destruct (log_get_mask_replies c' msg' e' (steps k h) w1) as [k' E']; try done.
  exists k, m', resp, k'. cbv zeta. fold w1. split; [done|]. split; [done|]. split; [done|]. split; [done|]. rewrite E'.
  change (w_masks w1) with m'. unfold log_packet_of, log_get_answer. rewrite Hst.
  destruct (decide (e' = e)) as [->|Hne]; [by rewrite Habs|]. by rewrite Hother.
Qed.

(** C21 Setting the message masks of ids inside a table entry and reading them
    back.  The entry then holds the words of the request for these ids and what
    it held for the others, every peripheral with a control channel is sent the
    whole entry, and the client's answer holds the words it sent; when a
    peripheral was told, the answer names the entry's ids and not those that
    were asked for, because the broadcast overwrites the range.  Any client
    that then asks for ids of the entry is given the words of the whole entry,
    and finds the ones that were set where their ids are. *)
Theorem msg_mask_round_trip c msg k r rsvd p c' msg' r' h w :
  live_client c w -> live_client c' w -> alloc_ok h -> bytes_ok msg -> bytes_ok msg' -> msg_wf (w_masks w) -> pf_wf w ->
  rd 2 msg 2 = Done (r.1) -> rd 2 msg 4 = Done (r.2) -> rd 2 msg 6 = Done rsvd -> in_entry k r ->
  8 + 4 * range_words r <= zlen msg -> msg_words (w_masks w) k = Some p ->
  6 <= zlen msg' -> rd 2 msg' 2 = Done (r'.1) -> rd 2 msg' 4 = Done (r'.2) -> in_entry k r' ->
  let words := slice msg 8 (4 * range_words r) in
  let p' := splice p (4 * range_offset k r) words in
  exists j m' j', let w1 := reply c (msg_set_answer msg (if some_reachable w then entry_range k else r) rsvd words)
          (broadcast_all (msg_packet_of k p') (over (fun _ => m') w)) in
    msg_set_msg_mask c msg (8 + 4 * range_words r) h w = Done (0, steps j h, w1) /\
    msg_wf m' /\ diag_get_msg_mask_status m' = DIAG_CTRL_MASK_VALID /\
    (forall k', k' <> k -> msg_words m' k' = msg_words (w_masks w) k') /\
    msg_get_msg_mask c' msg' 6 (steps j h) w1 =
      Done (0, steps j' (steps j h), reply c' (msg_get_answer msg' k p') w1) /\
    slice (msg_get_answer msg' k p') (4 + 4 * range_offset k r) (4 * range_words r) = words.
Proof.
  intros Hc Hc' Hh Hok Hok' Hm Hpf Hr1 Hr2 Hrs Hr Hlen Hp Hlen' Hr1' Hr2' Hr' words p'.
  destruct (msg_set_msg_mask_effect c msg k r rsvd p h w) as (j & m' & E & Hm' & Hst & Hp' & Hother); try done.
  fold words p' in E, Hp'.
  set (w1 := reply c (msg_set_answer msg (if some_reachable w then entry_range k else r) rsvd words) _) in E.
  destruct (msg_get_msg_mask_replies c' msg' k r' p' (steps j h) w1) as [j' E']; try done.
  exists j, m', j'. cbv zeta. fold w1. split; [done|]. split; [done|]. split; [done|]. split; [done|]. split; [done|].
  destruct (in_entry_fits k r Hr) as (Ho & Hn & Hfit & _).
  destruct (diag_cmd_get_msg_mask_ok (w_masks w) k r h p Hm Hr Hh Hp) as (first & last & Ef & El & Hpl & _).
  assert (zlen words = 4 * range_words r) as Hzw by (unfold words; rewrite zlen_slice; lia).
  assert (range_offset k r + range_words r <= range_words (entry_range k)) as Hin.
  { destruct Hr as (f & l & Ef' & El' & Hr). rewrite Ef in Ef'. injection Ef' as <-. rewrite El in El'. injection El' as <-.
    unfold range_offset, range_words, entry_range. rewrite Ef, El. cbn [default fst snd]. cbn. lia. }
  unfold msg_get_answer. rewrite app_assoc.
  assert (zlen (slice msg' 0 2 ++ [DIAG_CMD_MSG_STATUS_SUCCESSFUL; 0]) = 4) as H4.
  { rewrite zlen_app, zlen_slice by lia. done. }
  rewrite slice_app_r, H4, slice_slice by lia. unfold p'. rewrite <- Hzw.
  replace (0 + (4 + 4 * range_offset k r - 4)) with (4 * range_offset k r) by lia. apply slice_splice; lia.
Qed.

(** C22 Setting [n] event bits and reading them back.  The table then starts with
    the bits of the request, has room for as many as were ever set and keeps the
    bits behind the request's; every peripheral with a control channel is sent
    all the bits, and the client gets back what it set.  Any client that then
    asks for the event mask is told how many bits there are and gets those of
    the request followed by the ones that were there behind them. *)
Theorem event_mask_round_trip c msg cmd rsvd n c' msg' cmd' rsvd' h w :
  live_client c w -> live_client c' w -> alloc_ok h -> bytes_ok msg -> bytes_ok msg' -> event_wf (w_masks w) -> pf_wf w ->
  rd 1 msg 0 = Done cmd -> rd 2 msg 2 = Done rsvd -> rd 2 msg 4 = Done n ->
  6 + BITS_TO_BYTES_16 n <= zlen msg -> rd 1 msg' 0 = Done cmd' -> rd 2 msg' 2 = Done rsvd' ->
  let bits := slice msg 6 (BITS_TO_BYTES_16 n) in
  let all := bits ++ drop (Z.to_nat (BITS_TO_BYTES_16 n)) (all_events (w_masks w)) in
  exists j m' j', let w1 := reply c (event_set_answer cmd rsvd n bits)
        (broadcast_all (event_mask_packet DIAG_CTRL_MASK_VALID 1 all) (over (fun _ => m') w)) in
    handle_event_set_mask c msg (6 + BITS_TO_BYTES_16 n) h w = Done (0, steps j h, w1) /\
    event_wf m' /\ diag_get_event_mask_status m' = DIAG_CTRL_MASK_VALID /\
    handle_event_get_mask c' msg' 4 (steps j h) w1 = Done (0, steps j' (steps j h),
      reply c' (event_set_answer cmd' rsvd' (Z.max n (event_max_num_bits (w_masks w))) all) w1).
Proof.
  intros Hc Hc' Hh Hok Hok' Hm Hpf Hcmd Hrs Hn Hlen Hcmd' Hrs' bits all.
  destruct (handle_event_set_mask_effect c msg cmd rsvd n h w) as (j & m' & E & Hm' & Hst & Hmax & Hbits & Hrest); try done.
  fold bits in E, Hbits.
  assert (all_events m' = all) as Hall.
  { unfold all. rewrite <- Hbits. apply all_events_after; try done. by apply (rd_range 2 msg 4). }
  rewrite Hall in E. set (w1 := reply c (event_set_answer cmd rsvd n bits) _) in E.
  destruct (handle_event_get_mask_replies c' msg' cmd' rsvd' (steps j h) w1) as [j' E']; try done.
  exists j, m', j'. cbv zeta. fold w1. split; [done|]. split; [done|]. split; [done|]. rewrite E'.
  change (w_masks w1) with m'. by rewrite Hmax, Hall.
Qed.
