(* ===== verification/Hotplug.v ===== *)
(** * Hotplug: rpmsg channels that appear, are opened and go away

    What udev reports refines a table of channels and the set of names of the
    peripherals.  A peripheral is created for its primary channel and opened a
    second later: its channels are watched, and it is sent the message masks.
    Closing it undoes all of that. *)

From S2P Require Import Prelude CircBuf Hdlc Masks MaskTables Queue Watch World Dm Cntl CntlProps Peripheral Devnode.

(** ** The specification: channels by device node, peripherals by name *)

Record channel := Channel { ch_path : string; ch_name : string; ch_rproc : string }.

Record hotplug := Hotplug { hp_channels : list channel; hp_names : list string }.

(** The channels that make a peripheral. *)
Definition primary (name : string) : bool := String.eqb name "DIAG" || String.eqb name "APPS_RIVA_DATA".

Definition appears (c : channel) (s : hotplug) : hotplug :=
  Hotplug
    (if decide (ch_path c ∈ ch_path <$> hp_channels s) then hp_channels s else hp_channels s ++ [c])
    (hp_names s ++ (if primary (ch_name c) && bool_decide (ch_rproc c ∉ hp_names s) then [ch_rproc c] else [])).

Fixpoint without (path : string) (l : list channel) : list channel :=
  match l with
  | [] => []
  | c :: l => if decide (ch_path c = path) then l else c :: without path l
  end.

Definition disappears (path : string) (s : hotplug) : hotplug := Hotplug (without path (hp_channels s)) (hp_names s).

(** The channel a device stands for, when udev knows enough about it. *)
Definition channel_of (dev : udev_device) : option channel :=
  match ud_devnode dev, ud_name dev, peripheral_udev_get_remoteproc (ud_parents dev) with
  | Some path, Some name, Some rproc => Some (Channel path name rproc)
  | _, _, _ => None
  end.

Definition found (s : hotplug) (dev : udev_device) : hotplug :=
  match channel_of dev with Some c => appears c s | None => s end.

Definition hears (s : hotplug) (dev : udev_device) : hotplug :=
  match ud_devnode dev, ud_action dev with
  | Some path, Some "add"%string => found s dev
  | Some path, Some "remove"%string => disappears path s
  | _, _ => s
  end.

(** ** The program's state *)

Definition stored (c : channel) : devnode := Devnode (Some (ch_path c)) (Some (ch_name c)) (Some (ch_rproc c)).

Definition named (w : world) (p : nat) (r : string) : Prop :=
  exists perif, pf_objs (w_pf w) !! p = Some perif /\ pf_name perif = Some r.

Record hot (s : hotplug) (w : world) : Prop := {
  hot_nodes : devnodes (w_dev w) = stored <$> hp_channels s;
  hot_names : Forall2 (named w) (pf_list (w_pf w)) (hp_names s);
  hot_fresh p : is_Some (pf_objs (w_pf w) !! p) -> (p < pf_fresh (w_pf w))%nat }.

(** A peripheral before its channels are opened. *)
Definition blank (name : string) (flow : nat) : peripheral :=
  Peripheral (Some name) 0 (-1) false (-1) false (-1) 0 (Some flow) 0 false circ_zero decoder_zero Rpmsg.

Definition opening (now : Z) (p : nat) : timer := Timer (TmPeripheralOpen p) 1000 false (now + 1000000).

Definition queue_in (ps : list nat) (q : queue_ref) : Prop :=
  exists p, p ∈ ps /\ (q = QCmd p \/ q = QCntl p \/ q = QData p).

(** The peripherals [new] are created, and nothing else happens but in the
    table of channels and the environment. *)
Record grown (new : list string) (w w' : world) : Prop := {
  gr_objs p perif : pf_objs (w_pf w) !! p = Some perif -> pf_objs (w_pf w') !! p = Some perif;
  gr_list : pf_list (w_pf w') = pf_list (w_pf w) ++ seq (pf_fresh (w_pf w)) (length new);
  gr_fresh : pf_fresh (w_pf w') = (pf_fresh (w_pf w) + length new)%nat;
  gr_new i r : new !! i = Some r ->
    pf_objs (w_pf w') !! (pf_fresh (w_pf w) + i)%nat = Some (blank r (length (q_flows (w_queues w)) + i));
  gr_flows : q_flows (w_queues w') = q_flows (w_queues w) ++ replicate (length new) 0;
  gr_queues q : ~ queue_in (seq (pf_fresh (w_pf w)) (length new)) q -> queue_of (w_queues w') q = queue_of (w_queues w) q;
  gr_timers : ws_timers (w_watches w') = ws_timers (w_watches w) ++
    (opening (ws_now (w_watches w)) <$> seq (pf_fresh (w_pf w)) (length new));
  gr_watches : ws_read (w_watches w') = ws_read (w_watches w) /\ ws_aio (w_watches w') = ws_aio (w_watches w) /\
    ws_now (w_watches w') = ws_now (w_watches w);
  gr_rest : w_masks w' = w_masks w /\ w_dm w' = w_dm w /\ w_cmds w' = w_cmds w /\ w_ids w' = w_ids w }.

Lemma grown_same w w' :
  w_pf w' = w_pf w -> w_queues w' = w_queues w -> w_watches w' = w_watches w ->
  w_masks w' = w_masks w -> w_dm w' = w_dm w -> w_cmds w' = w_cmds w -> w_ids w' = w_ids w -> grown [] w w'.
Proof. intros Ep Eq Ew ????. split; rewrite ?Ep, ?Eq, ?Ew; cbn; rewrite ?app_nil_r, ?Nat.add_0_r; done. Qed.

Lemma grown_trans a b w0 w1 w2 : grown a w0 w1 -> grown b w1 w2 -> grown (a ++ b) w0 w2.
Proof.
  intros [A1 A2 A3 A4 A5 A6 A7 (A8 & A9 & A10) A11] [B1 B2 B3 B4 B5 B6 B7 (B8 & B9 & B10) B11].
  rewrite A2, A3 in B2. rewrite A3 in B3, B4, B6, B7. rewrite A5, length_app, length_replicate in B4.
  split; rewrite ?length_app.
  - intros p perif H. by apply B1, A1.
  - by rewrite B2, seq_app, app_assoc.
  - rewrite B3. lia.
  - intros i r [Hi|[Hl Hi]]%lookup_app_Some.
    + apply B1. by apply A4.
    + specialize (B4 _ _ Hi). replace (pf_fresh (w_pf w0) + i)%nat with (pf_fresh (w_pf w0) + length a + (i - length a))%nat by lia.
      rewrite B4. f_equal. f_equal. lia.
  - by rewrite B5, A5, replicate_add, app_assoc.
  - intros q Hq. rewrite B6, A6; [done|..]; intros (p & Hp & H); apply Hq; exists p; (split; [|done]);
      rewrite seq_app; apply elem_of_app; auto.
  - by rewrite B7, A7, seq_app, fmap_app, A10, app_assoc.
  - by rewrite B8, B9, B10.
  - destruct A11 as (-> & -> & -> & ->) in B11. done.
Qed.

(** ** The operations *)

Lemma devnode_get_loop_ok path i l :
  if decide (path ∈ ch_path <$> l)
  then exists j, devnode_get_loop (Some path) i (stored <$> l) = Done (Some (i + j)%nat) /\ delete j l = without path l
  else devnode_get_loop (Some path) i (stored <$> l) = Done None /\ without path l = l.
Proof.
  revert i. induction l as [|c l IH]; intros i; [by rewrite decide_False by apply not_elem_of_nil|].
  change (ch_path <$> c :: l) with (ch_path c :: (ch_path <$> l)).
  cbn [fmap list_fmap devnode_get_loop without streq stored dn_devnode mbind outcome_bind].
  destruct (String.eqb_spec (ch_path c) path) as [<-|Hne].
  - rewrite decide_True by apply list_elem_of_here. rewrite decide_True by done. exists 0%nat. by rewrite Nat.add_0_r.
  - specialize (IH (S i)). rewrite (decide_False (P := ch_path c = path)) by done. case_decide as Hin; case_decide as Hin'.
    + destruct IH as (j & E & Hj). exists (S j). rewrite E. split; [do 2 f_equal; lia|]. cbn. by rewrite <- Hj.
    + destruct Hin'. by apply list_elem_of_further.
    + destruct Hin. apply elem_of_cons in Hin' as [->|]; done.
    + destruct IH as [-> ->]. done.
Qed.

Lemma devnode_get_ok path s h w :
  hot s w ->
  if decide (path ∈ ch_path <$> hp_channels s)
  then exists j, devnode_get (Some path) h w = Done (Some j, h, w) /\ delete j (hp_channels s) = without path (hp_channels s)
  else devnode_get (Some path) h w = Done (None, h, w) /\ without path (hp_channels s) = hp_channels s.
Proof.
  intros Hw. pose proof (devnode_get_loop_ok path 0 (hp_channels s)) as H. unfold devnode_get. mrun. rewrite (hot_nodes _ _ Hw).
  case_decide; [destruct H as (j & -> & H); by exists j|by destruct H as [-> H]].
Qed.

(** The table of channels changes. *)
Lemma hot_channels s l w :
  hot s w -> hot (Hotplug l (hp_names s)) (over (fun d => DevState (stored <$> l) (usb_handles d)) w).
Proof. intros [H1 H2 H3]. by split. Qed.

Lemma strdup_ok {S} s h (st : S) : alloc_ok h -> strdup s h st = Done (Some s, tick h, st).
Proof.
  intros Hh. unfold strdup. destruct (malloc_ok (Z.of_nat (String.length s) + 1) h st Hh) as (b & E & _).
  by erewrite bind_done by exact E.
Qed.

Lemma devnode_add_ok path name rproc s h w :
  hot s w -> alloc_ok h ->
  exists k w', devnode_add path name rproc h w = Done (tt, steps k h, w') /\ grown [] w w' /\ w_env w' = w_env w /\
    hot (Hotplug (hp_channels (appears (Channel path name rproc) s)) (hp_names s)) w'.
Proof.
  intros Hw Hh. pose proof (devnode_get_ok path s h w Hw) as H. unfold devnode_add, appears. cbn [hp_channels ch_path].
  case_decide.
  - destruct H as (j & E & _). exists 0%nat, w. erewrite bind_done by exact E. split; [by destruct h|].
    split; [by apply grown_same|]. split; [done|]. by destruct s.
  - destruct H as [E _]. erewrite bind_done by exact E. destruct (malloc_ok sizeof_devnode h w Hh) as (b & Eb & _).
    erewrite bind_done by exact Eb. erewrite bind_done by done.
    erewrite !bind_done by (apply strdup_ok; auto with diag).
    exists 4%nat. eexists. split; [reflexivity|]. split; [by apply grown_same|]. split; [done|].
    pose proof (hot_channels s (hp_channels s ++ [Channel path name rproc]) w Hw) as H. rewrite fmap_app, <- (hot_nodes _ _ Hw) in H.
    exact H.
Qed.

Lemma devnode_remove_ok path s h w :
  hot s w -> exists w', devnode_remove path h w = Done (tt, h, w') /\ grown [] w w' /\ w_env w' = w_env w /\
    hot (disappears path s) w'.
Proof.
  intros Hw. pose proof (devnode_get_ok path s h w Hw) as H. unfold devnode_remove, disappears. case_decide.
  - destruct H as (j & E & Hj). erewrite bind_done by exact E. eexists. split; [reflexivity|].
    split; [by apply grown_same|]. split; [done|]. rewrite <- Hj.
    pose proof (hot_channels s (delete j (hp_channels s)) w Hw) as H. by rewrite list_fmap_delete, <- (hot_nodes _ _ Hw) in H.
  - destruct H as [E ->]. exists w. erewrite bind_done by exact E. split; [done|]. split; [by apply grown_same|].
    split; [done|]. by destruct s.
Qed.

Lemma named_loop_ok rproc ps names h w :
  Forall2 (named w) ps names -> named_loop rproc ps h w = Done (bool_decide (rproc ∈ names), h, w).
Proof.
  induction 1 as [|p r ps names (perif & Hp & Hr) _ IH]; [done|]. cbn [named_loop].
  erewrite bind_done by (by apply get_perif_ok). rewrite Hr. cbn [streq]. erewrite bind_done by done.
  destruct (String.eqb_spec r rproc) as [->|Hne].
  - rewrite bool_decide_eq_true_2 by apply list_elem_of_here. done.
  - rewrite IH. erewrite bool_decide_ext; [done|]. rewrite elem_of_cons. naive_solver.
Qed.

Lemma watch_flow_new_ok h s :
  alloc_ok h -> watch_flow_new h s = Done (Some (length (q_flows s)), tick h, QState (q_lists s) (q_flows s ++ [0])).
Proof. intros Hh. unfold watch_flow_new, calloc. mrun. destruct (Hh (h_calls h)) as [junk ->]. done. Qed.

Lemma watch_add_timer_ok cb n b h s :
  alloc_ok h -> watch_add_timer cb n b h s =
    Done (0, tick h, with_timers (fun l => l ++ [watch_set_timer (ws_now s) (Timer cb n b 0)]) s).
Proof. intros Hh. unfold watch_add_timer. by erewrite bind_done by (by apply calloc_or_die_ok). Qed.

Lemma named_kept ps names w w' :
  (forall p perif, pf_objs (w_pf w) !! p = Some perif -> pf_objs (w_pf w') !! p = Some perif) ->
  Forall2 (named w) ps names -> Forall2 (named w') ps names.
Proof. intros H Hn. eapply Forall2_impl; [exact Hn|]. intros p r (perif & Hp & Hr). exists perif. split; [by apply H|done]. Qed.

(** A new peripheral of a name that is not on the list. *)
Lemma create_ok rproc s h w :
  hot s w -> alloc_ok h ->
  exists k w',
    (obj ← malloc sizeof_peripheral; _ ← deref obj; flow ← zoom watch_flow_new; name ← strdup rproc;
     p ← add_peripheral (Peripheral name 0 (-1) false (-1) false (-1) 0 flow 0 false circ_zero decoder_zero Rpmsg);
     _ ← zoom (watch_add_timer (TmPeripheralOpen p) 1000 false); mret 0) h w = Done (0, steps k h, w') /\
    grown [rproc] w w' /\ w_env w' = w_env w /\ hot (Hotplug (hp_channels s) (hp_names s ++ [rproc])) w'.
Proof.
  intros [Hn Hnames Hfr] Hh. destruct (malloc_ok sizeof_peripheral h w Hh) as (b & Eb & _).
  erewrite bind_done by exact Eb. erewrite bind_done by done.
  erewrite bind_done by (apply zoom_done, watch_flow_new_ok; auto with diag).
  erewrite bind_done by (apply strdup_ok; auto with diag). set (p := pf_fresh (w_pf w)).
  assert (pf_objs (w_pf w) !! p = None) as Hp.
  { apply eq_None_not_Some. intros Hs%Hfr. unfold p in Hs. lia. }
  unfold add_peripheral. erewrite bind_done by reflexivity.
  erewrite bind_done by (apply zoom_done, watch_add_timer_ok; auto with diag).
  exists 4%nat. eexists. split; [reflexivity|]. split; [split|split; [done|split]].
  - intros q perif Hq. cbn. rewrite lookup_insert_ne; [done|]. intros E. fold p in E. congruence.
  - done.
  - cbn. lia.
  - intros [|i] r; [intros [= <-]|done]. rewrite !Nat.add_0_r. apply lookup_insert_eq.
  - done.
  - intros q Hq. cbn. fold p. unfold queue_of. cbn.
    assert (forall p', queue_in [p] p' -> p' <> q) as Hne by (by intros p' H ->).
    rewrite !lookup_insert_ne by (apply Hne; exists p; split; [apply list_elem_of_here|auto]). done.
  - done.
  - done.
  - done.
  - exact Hn.
  - cbn. fold p. apply Forall2_app.
    + eapply named_kept; [|exact Hnames]. intros q perif Hq. cbn. fold p. rewrite lookup_insert_ne by congruence. done.
    + constructor; [|constructor]. eexists. split; [apply lookup_insert_eq|done].
  - intros q. cbn. fold p. destruct (decide (q = p)) as [->|Hne]; [lia|]. rewrite lookup_insert_ne by done.
    intros Hq%Hfr. unfold p in *. lia.
Qed.

Lemma peripheral_create_ok rproc name s h w :
  hot s w -> alloc_ok h ->
  let new := if primary name && bool_decide (rproc ∉ hp_names s) then [rproc] else [] in
  exists k w', peripheral_create rproc name h w = Done (0, steps k h, w') /\ grown new w w' /\ w_env w' = w_env w /\
    hot (Hotplug (hp_channels s) (hp_names s ++ new)) w'.
Proof.
  intros Hw Hh. cbv zeta. unfold peripheral_create, primary. rewrite <- negb_orb.
  destruct (String.eqb name "DIAG" || String.eqb name "APPS_RIVA_DATA"); cbn [negb andb].
  - erewrite bind_done by done. erewrite bind_done by (by eapply named_loop_ok, (hot_names s w)).
    destruct (decide (rproc ∈ hp_names s)) as [Hin|Hin].
    + rewrite bool_decide_eq_true_2, bool_decide_eq_false_2 by tauto. exists 0%nat, w. rewrite app_nil_r.
      split; [by destruct h|]. split; [by apply grown_same|]. split; [done|]. by destruct s.
    + rewrite bool_decide_eq_false_2, bool_decide_eq_true_2 by tauto. by apply create_ok.
  - exists 0%nat, w. rewrite app_nil_r. split; [by destruct h|]. split; [by apply grown_same|].
    split; [done|]. by destruct s.
Qed.

Lemma hot_env e s w : hot s w -> hot s (over (fun _ : env => e) w).
Proof. intros [H1 H2 H3]. by split. Qed.

(** What an operation does to the program: the step of the specification, and
    creating a peripheral for each new name. *)
Definition refines (s s' : hotplug) (w w' : world) : Prop :=
  hot s' w' /\ exists new, hp_names s' = hp_names s ++ new /\ grown new w w'.

Lemma refines_same s s' w w' : hp_names s' = hp_names s -> hot s' w' -> grown [] w w' -> refines s s' w w'.
Proof. intros E Hw Hg. split; [done|]. exists []. by rewrite app_nil_r. Qed.

Lemma refines_trans s0 s1 s2 w0 w1 w2 : refines s0 s1 w0 w1 -> refines s1 s2 w1 w2 -> refines s0 s2 w0 w2.
Proof.
  intros [_ (a & Ea & Ha)] [Hw (b & Eb & Hb)]. split; [done|]. exists (a ++ b).
  split; [by rewrite Eb, Ea, app_assoc|by eapply grown_trans].
Qed.

Lemma udev_add_ok dev path s h w :
  hot s w -> alloc_ok h -> ud_devnode dev = Some path ->
  exists k w', udev_add dev path h w = Done (tt, steps k h, w') /\ refines s (found s dev) w w' /\ w_env w' = w_env w.
Proof.
  intros Hw Hh Hp. unfold udev_add, found, channel_of. rewrite Hp.
  destruct (ud_name dev) as [name|], (peripheral_udev_get_remoteproc (ud_parents dev)) as [rproc|];
    try (exists 0%nat, w; split; [by destruct h|]; split; [by apply refines_same; [|done|apply grown_same]|done]).
  destruct (devnode_add_ok path name rproc s h w Hw Hh) as (k1 & w1 & E1 & H1 & Ee1 & Hw1).
  destruct (peripheral_create_ok rproc name _ (steps k1 h) w1 Hw1) as (k2 & w2 & E2 & H2 & Ee2 & Hw2); [auto with diag|].
  exists (k2 + k1)%nat, w2. erewrite bind_done by exact E1. erewrite bind_done by exact E2. rewrite steps_steps.
  split; [done|]. split; [|by rewrite Ee2]. cbn [hp_names hp_channels] in *.
  eapply refines_trans; [eapply (refines_same s); [|exact Hw1|exact H1]; done|]. split; [exact Hw2|by eexists].
Qed.

Lemma streq_some a b : streq (Some a) (Some b) = Done (bool_decide (a = b)).
Proof.
  cbn. f_equal. destruct (String.eqb_spec a b); [by rewrite bool_decide_eq_true_2|by rewrite bool_decide_eq_false_2].
Qed.

(** A device that has a node is reported with an action. *)
Definition reported (dev : udev_device) : Prop := is_Some (ud_devnode dev) -> is_Some (ud_action dev).

Lemma hears_cases s dev path a :
  ud_devnode dev = Some path -> ud_action dev = Some a ->
  hears s dev = if decide (a = "add"%string) then found s dev
                else if decide (a = "remove"%string) then disappears path s else s.
Proof.
  intros Hp Ha. unfold hears. rewrite Hp, Ha. case_decide; [by subst|]. case_decide; [by subst|].
  repeat (case_match; try done); by subst.
Qed.

Lemma udev_update_ok dev rest s h w :
  hot s w -> alloc_ok h -> e_udev (w_env w) = dev :: rest -> reported dev ->
  exists k w', peripheral_udev_update h w = Done (0, steps k h, w') /\ refines s (hears s dev) w w' /\
    e_udev (w_env w') = rest.
Proof.
  intros Hw Hh He Hr. unfold peripheral_udev_update.
  set (w0 := over (fun e => Env (e_fds e) (e_results e) (e_senders e) rest (e_aio e)) w).
  assert (zoom env_device h w = Done (Some dev, h, w0)) as Ed.
  { unfold zoom, env_device. change (view w) with (w_env w). by rewrite He. }
  erewrite bind_done by exact Ed. cbv beta iota. assert (hot s w0) as Hw0 by by apply hot_env.
  assert (forall s' w', refines s s' w0 w' -> refines s s' w w') as Hback.
  { intros s' w'. apply refines_trans. by apply refines_same; [|done|apply grown_same]. }
  destruct (ud_devnode dev) as [path|] eqn:Hp.
  2: { exists 0%nat, w0. unfold hears. rewrite Hp. split; [by destruct h|]. split; [|done]. apply Hback.
       by apply refines_same; [|done|apply grown_same]. }
  destruct (Hr ltac:(by eexists)) as [a Ha]. rewrite Ha, !streq_some, (hears_cases s dev path a) by done.
  erewrite bind_done by done. case_decide as Hadd.
  { rewrite bool_decide_eq_true_2 by done. cbv beta iota. destruct (udev_add_ok dev path s h w0 Hw0 Hh Hp) as (k & w' & E & H & Ee).
    exists k, w'. erewrite bind_done by exact E. split; [done|]. split; [by apply Hback|by rewrite Ee]. }
  rewrite bool_decide_eq_false_2 by done. cbv beta iota. erewrite bind_done by done. case_decide as Hremove.
  { rewrite bool_decide_eq_true_2 by done. cbv beta iota. destruct (devnode_remove_ok path s h w0 Hw0) as (w' & E & H & Ee & Hw').
    exists 0%nat, w'. erewrite bind_done by exact E. split; [by destruct h|]. split; [|by rewrite Ee]. apply Hback.
    by apply refines_same. }
  rewrite bool_decide_eq_false_2 by done. cbv beta iota. exists 0%nat, w0. split; [by destruct h|]. split; [|done]. apply Hback.
  by apply refines_same; [|done|apply grown_same].
Qed.

(** A list of steps, one after the other; [P] holds of the devices to come. *)
Lemma refine_each (P : list udev_device -> world -> Prop) (f : udev_device -> M world unit)
    (step : hotplug -> udev_device -> hotplug) devs s h w :
  (forall dev l s h w, P (dev :: l) w -> hot s w -> alloc_ok h ->
    exists k w', f dev h w = Done (tt, steps k h, w') /\ refines s (step s dev) w w' /\ P l w') ->
  P devs w -> hot s w -> alloc_ok h ->
  exists k w', for_each f devs h w = Done (tt, steps k h, w') /\ refines s (foldl step s devs) w w' /\ P [] w'.
Proof.
  intros Hf. revert s h w. induction devs as [|dev devs IH]; intros s h w HP Hw Hh.
  { exists 0%nat, w. split; [by destruct h|]. split; [|done]. by apply refines_same; [|done|apply grown_same]. }
  destruct (Hf dev devs s h w HP Hw Hh) as (k1 & w1 & E1 & H1 & P1).
  destruct (IH _ (steps k1 h) w1 P1 (proj1 H1)) as (k2 & w2 & E2 & H2 & P2); [done|].
  exists (k2 + k1)%nat, w2. cbn [for_each foldl]. erewrite bind_done by exact E1. rewrite E2, steps_steps.
  split; [done|]. split; [|done]. by eapply refines_trans.
Qed.

(** Adding a watch. *)
Definition read_watch (fd : Z) (cb : watch_cb) (flow : option nat) (s : wstate) : wstate :=
  WState (ws_timers s) (ws_read s ++ [Watch (ws_fresh s) fd cb None None false flow]) (ws_aio s) (ws_quit s)
    (ws_do_quit s) (ws_now s) (S (ws_fresh s)).

Definition write_watch (fd : Z) (q : queue_ref) (s : wstate) : wstate :=
  WState (ws_timers s) (ws_read s) (ws_aio s ++ [Watch (ws_fresh s) fd CbFreeWriteAio (Some q) None true None])
    (ws_quit s) (ws_do_quit s) (ws_now s) (S (ws_fresh s)).

Lemma new_watch_ok h s :
  alloc_ok h -> new_watch h s = Done (ws_fresh s, tick h,
    WState (ws_timers s) (ws_read s) (ws_aio s) (ws_quit s) (ws_do_quit s) (ws_now s) (S (ws_fresh s))).
Proof. intros Hh. unfold new_watch. by erewrite bind_done by (by apply calloc_or_die_ok). Qed.

Lemma watch_add_readfd_ok fd cb flow h s :
  alloc_ok h -> watch_add_readfd fd cb flow h s = Done (0, tick h, read_watch fd cb flow s).
Proof. intros Hh. unfold watch_add_readfd. by erewrite bind_done by (by apply new_watch_ok). Qed.

Lemma watch_add_writeq_ok fd q h s : alloc_ok h -> watch_add_writeq fd q h s = Done (0, tick h, write_watch fd q s).
Proof. intros Hh. unfold watch_add_writeq. by erewrite bind_done by (by apply new_watch_ok). Qed.

(** The monitor is watched from the start on. *)
Definition monitored (fd : Z) : world -> world := over (read_watch fd CbUdevUpdate None).

(** ** Opening the channels *)

Definition with_results (rs : list Z) : world -> world :=
  over (fun e => Env (e_fds e) rs (e_senders e) (e_udev e) (e_aio e)).

Lemma sys_call_ok h w :
  sys_call h w = Done (hd (-1) (e_results (w_env w)), h, with_results (tl (e_results (w_env w))) w).
Proof.
  unfold sys_call, zoom, env_call. change (view w) with (w_env w). destruct w as [? ? ? ? ? ? ? ? []]. cbn.
  by destruct e_results.
Qed.

(** Opening a channel: the system is asked only when the table has it. *)
Definition has_channel (rproc name : string) (c : channel) : Prop := ch_rproc c = rproc /\ ch_name c = name.

Definition channel_open (rproc name : string) (l : list channel) (rs : list Z) : Z * list Z :=
  if decide (Exists (has_channel rproc name) l) then (hd (-1) rs, tl rs) else (-1, rs).

Definition either_open (rproc a b : string) (l : list channel) (rs : list Z) : Z * list Z :=
  let '(fd, rs) := channel_open rproc a l rs in if fd <? 0 then channel_open rproc b l rs else (fd, rs).

Lemma with_results_same w : with_results (e_results (w_env w)) w = w.
Proof. by destruct w as [? ? ? ? ? ? ? ? []]. Qed.

Lemma devnode_open_ok rproc name s h w :
  hot s w -> let '(fd, rs) := channel_open rproc name (hp_channels s) (e_results (w_env w)) in
  devnode_open (Some rproc) (Some name) h w = Done (fd, h, with_results rs w).
Proof.
  intros Hw. unfold devnode_open. erewrite bind_done by done. rewrite (hot_nodes _ _ Hw). clear Hw.
  unfold channel_open. generalize (hp_channels s) as l. induction l as [|c l IH].
  { rewrite decide_False by (by intros ?%Exists_nil). by rewrite with_results_same. }
  change (stored <$> c :: l) with (stored c :: (stored <$> l)). cbn [devnode_open_loop stored dn_rproc dn_name].
  rewrite !streq_some. erewrite bind_done by done.
  destruct (decide (has_channel rproc name c)) as [[<- <-]|Hno].
  - rewrite decide_True by (by apply Exists_cons_hd). rewrite !bool_decide_eq_true_2 by done. erewrite bind_done by done. apply sys_call_ok.
  - assert (Exists (has_channel rproc name) (c :: l) <-> Exists (has_channel rproc name) l) as Hiff.
    { rewrite Exists_cons. tauto. }
    rewrite (decide_ext _ _ _ _ Hiff). destruct (decide (ch_rproc c = rproc)) as [Hr|Hr].
    + rewrite bool_decide_eq_true_2 by done. rewrite bool_decide_eq_false_2 by (intros Hn; by destruct Hno).
      by erewrite bind_done by done.
    + rewrite bool_decide_eq_false_2 by done. by erewrite bind_done by done.
Qed.

Lemma open_either_ok rproc a b s h w :
  hot s w -> let '(fd, rs) := either_open rproc a b (hp_channels s) (e_results (w_env w)) in
  open_either (Some rproc) a b h w = Done (fd, h, with_results rs w).
Proof.
  intros Hw. unfold either_open, open_either. pose proof (devnode_open_ok rproc a s h w Hw) as E.
  destruct (channel_open _ _ _ _) as [fd rs]. destruct (fd <? 0) eqn:El.
  - assert (hot s (with_results rs w)) as Hw1 by by apply hot_env.
    pose proof (devnode_open_ok rproc b s h _ Hw1) as E2. cbn [with_results over env_lens w_env e_results] in E2.
    destruct (channel_open _ _ _ _) as [fd2 rs2]. erewrite bind_done by exact E. rewrite El. exact E2.
  - erewrite bind_done by exact E. by rewrite El.
Qed.

(** The watches of an open peripheral. *)
Definition watched (p : nat) (cntl data cmd : Z) (flow : option nat) (s : wstate) : wstate :=
  let s := write_watch data (QData p) (write_watch cntl (QCntl p) s) in
  let s := read_watch data (CbRpmsgDataRecv p) flow (read_watch cntl (CbRpmsgCntlRecv p) None s) in
  if 0 <=? cmd then write_watch cmd (QCmd p) (read_watch cmd (CbRpmsgCmdRecv p) None s) else s.

Lemma set_perif_at p perif w : pf_objs (w_pf (set_perif p perif w)) !! p = Some perif.
Proof. apply lookup_insert_eq. Qed.

(** A second change replaces the first. *)
Lemma upd_set_perif p a f rs h w :
  upd_perif p f h (with_results rs (set_perif p a w)) = Done (tt, h, set_perif p (f a) (with_results rs w)).
Proof.
  erewrite upd_perif_ok by apply set_perif_at. do 2 f_equal. unfold set_perif, with_results, over. cbn.
  by rewrite insert_insert_eq.
Qed.

Lemma hot_set_perif s p perif q w :
  hot s w -> pf_objs (w_pf w) !! p = Some perif -> pf_name q = pf_name perif -> hot s (set_perif p q w).
Proof.
  intros [H1 H2 H3] Hp Hn. split; [done|..].
  - eapply Forall2_impl; [exact H2|]. intros p' r (x & Hx & Hr). unfold named. cbn. destruct (decide (p' = p)) as [->|Hne].
    + exists q. rewrite lookup_insert_eq. split; [done|]. congruence.
    + exists x. by rewrite lookup_insert_ne.
  - intros p'. cbn. destruct (decide (p' = p)) as [->|Hne]; [intros _; apply H3; by eexists|].
    rewrite lookup_insert_ne by done. apply H3.
Qed.

(** The watches are added and the masks are sent. *)
Lemma connect_ok p perif h w :
  alloc_ok h -> msg_wf (w_masks w) -> pf_objs (w_pf w) !! p = Some perif -> 0 <= pf_cntl_fd perif ->
  exists k,
    (_ ← zoom (watch_add_writeq (pf_cntl_fd perif) (QCntl p));
     _ ← zoom (watch_add_writeq (pf_data_fd perif) (QData p));
     _ ← zoom (watch_add_readfd (pf_cntl_fd perif) (CbRpmsgCntlRecv p) None);
     _ ← zoom (watch_add_readfd (pf_data_fd perif) (CbRpmsgDataRecv p) (pf_flow perif));
     _ ← (if 0 <=? pf_cmd_fd perif then
            _ ← zoom (watch_add_readfd (pf_cmd_fd perif) (CbRpmsgCmdRecv p) None);
            _ ← zoom (watch_add_writeq (pf_cmd_fd perif) (QCmd p)); mret tt
          else mret tt);
     diag_cntl_send_masks p) h w =
      Done (tt, steps k h, push_cntls p (mask_packets (w_masks w))
        (over (watched p (pf_cntl_fd perif) (pf_data_fd perif) (pf_cmd_fd perif) (pf_flow perif)) w)).
Proof.
  intros Hh Hm Hp Hc.
  set (w1 := over (watched p (pf_cntl_fd perif) (pf_data_fd perif) (pf_cmd_fd perif) (pf_flow perif)) w).
  destruct (send_masks_ok p perif (steps (if 0 <=? pf_cmd_fd perif then 6 else 4) h) w1) as (j & E);
    [auto with diag|done|done|lia|].
  exists (j + (if (0 <=? pf_cmd_fd perif)%Z then 6 else 4))%nat. change (w_masks w) with (w_masks w1).
  rewrite <- steps_steps.
  erewrite bind_done by (apply zoom_done, watch_add_writeq_ok; auto with diag).
  erewrite bind_done by (apply zoom_done, watch_add_writeq_ok; auto with diag).
  erewrite bind_done by (apply zoom_done, watch_add_readfd_ok; auto with diag).
  erewrite bind_done by (apply zoom_done, watch_add_readfd_ok; auto with diag).
  rewrite <- E. subst w1. unfold watched. destruct (0 <=? pf_cmd_fd perif); [|reflexivity].
  erewrite bind_done by (erewrite bind_done by (apply zoom_done, watch_add_readfd_ok; auto with diag);
    erewrite bind_done by (apply zoom_done, watch_add_writeq_ok; auto with diag); reflexivity).
  reflexivity.
Qed.

(** ** Closing *)

Definition off_fds (fds : list Z) (x : watch) : Prop := wa_fd x ∉ fds.

Lemma filter_off fds fd (l : list watch) : filter (not_fd fd) (filter (off_fds fds) l) = filter (off_fds (fd :: fds)) l.
Proof.
  rewrite list_filter_filter. apply list_filter_iff. intros x. unfold off_fds, not_fd. rewrite not_elem_of_cons. tauto.
Qed.

Lemma filter_off_nil (l : list watch) : filter (off_fds []) l = l.
Proof. apply filter_all, Forall_forall. intros x _. apply not_elem_of_nil. Qed.

Lemma filter_snoc_on fds l x : wa_fd x ∈ fds -> filter (off_fds fds) (l ++ [x]) = filter (off_fds fds) l.
Proof. intros Hx. rewrite filter_app, filter_cons_False; [apply app_nil_r|]. unfold off_fds. tauto. Qed.

(** The peripheral's own watches are on its descriptors. *)
Lemma filter_watched p cntl data cmd flow s :
  let fds := [cmd; cntl; data] in let s' := watched p cntl data cmd flow s in
  filter (off_fds fds) (ws_read s') = filter (off_fds fds) (ws_read s) /\
  filter (off_fds fds) (ws_aio s') = filter (off_fds fds) (ws_aio s) /\ ws_timers s' = ws_timers s.
Proof.
  unfold watched. cbv zeta. destruct (0 <=? cmd); cbn [write_watch read_watch ws_read ws_aio ws_timers];
    rewrite !filter_snoc_on by (cbn [wa_fd]; rewrite !elem_of_cons; tauto); done.
Qed.

Definition closed (p : nat) (fds : list Z) : world -> world := fun w =>
  over (fun s => PfState (delete p (pf_objs s)) (filter (fun q => q <> p) (pf_list s)) (pf_fresh s))
    (over (fun s => with_aio (filter (off_fds fds)) (with_read (filter (off_fds fds)) s))
      (over (fun s => CmdState (filter (fun dc => dc_peripheral dc <> Some p) (diag_cmds s)) (common_cmds s) (fallback_cmds s)) w)).

Lemma peripheral_close_ok p perif h w :
  pf_objs (w_pf w) !! p = Some perif -> pf_transport perif = Rpmsg ->
  peripheral_close p h w = Done (tt, h, closed p [pf_cmd_fd perif; pf_cntl_fd perif; pf_data_fd perif] w).
Proof.
  intros Hp Hr. unfold peripheral_close. erewrite bind_done by (by apply get_perif_ok). rewrite Hr.
  unfold perif_rpmsg_close. erewrite bind_done by (by apply get_perif_ok).
  unfold diag_cntl_close. erewrite bind_done by reflexivity.
  do 3 (erewrite bind_done by reflexivity).
  unfold modify, closed. do 2 f_equal. cbn. unfold with_read, with_aio. cbn. by rewrite <- !filter_off, !filter_off_nil.
Qed.

(** ** Properties *)

(** C12 Hotplug: what [peripheral_rpmsg_init] finds and what
    [peripheral_udev_update] is told afterwards, device after device, refines
    the specification: a channel is added to the table unless its node is
    there already, and removed with its node; a peripheral is created, with
    descriptors still closed, empty queues, a flow of its own and a timer of a
    second that opens it, exactly for the first primary channel of each name
    that no peripheral on the list has.  Nothing else changes. *)
Theorem rpmsg_hotplug_refines devices devs fd rest s h w :
  hot s w -> alloc_ok h -> e_udev (w_env w) = devs ++ rest -> Forall reported devs ->
  exists k1 w1 k2 w2,
    peripheral_rpmsg_init true devices fd h w = Done (0, steps k1 h, monitored fd w1) /\
    refines s (foldl found s devices) w w1 /\
    for_each (fun _ => _ ← peripheral_udev_update; mret tt) devs (steps k1 h) (monitored fd w1) =
      Done (tt, steps k2 h, w2) /\
    refines (foldl found s devices) (foldl hears (foldl found s devices) devs) (monitored fd w1) w2 /\
    e_udev (w_env w2) = rest.
Proof.
  intros Hw Hh He Hr. unfold peripheral_rpmsg_init. cbn [negb].
  destruct (refine_each (fun _ w' => w_env w' = w_env w)
    (fun dev => match ud_devnode dev with Some path => udev_add dev path | None => mret tt end) found devices s h w)
    as (k1 & w1 & E1 & H1 & Ee1); try done.
  { intros dev l s0 h0 w0 Ee Hw0 Hh0. unfold found, channel_of. destruct (ud_devnode dev) as [path|] eqn:Hp.
    - destruct (udev_add_ok dev path s0 h0 w0 Hw0 Hh0 Hp) as (k & w' & E & H & Ee'). exists k, w'. rewrite Ee', Ee.
      unfold found, channel_of in H. by rewrite Hp in H.
    - exists 0%nat, w0. split; [by destruct h0|]. split; [|done]. by apply refines_same; [|done|apply grown_same]. }
  assert (hot (foldl found s devices) (monitored fd w1)) as Hm by (destruct H1 as [[] _]; by split).
  destruct (refine_each (fun l w' => e_udev (w_env w') = l ++ rest /\ Forall reported l)
    (fun _ => _ ← peripheral_udev_update; mret tt) hears devs (foldl found s devices) (steps (S k1) h) (monitored fd w1))
    as (k2 & w2 & E2 & H2 & He2 & _); try done.
  { intros dev l s0 h0 w0 [Ee [Hd Hl]%Forall_cons] Hw0 Hh0.
    destruct (udev_update_ok dev (l ++ rest) s0 h0 w0 Hw0 Hh0 Ee Hd) as (k & w' & E & H & Ee').
    exists k, w'. by erewrite bind_done by exact E. }
  { split; [|done]. change (w_env (monitored fd w1)) with (w_env w1). by rewrite Ee1. }
  exists (S k1), w1, (k2 + S k1)%nat, w2. erewrite bind_done by exact E1. rewrite <- steps_steps. split; [|by split_and!].
  erewrite bind_done by (apply zoom_done, watch_add_readfd_ok; auto with diag). done.
Qed.

(** C13 Opening is all or nothing: [peripheral_open] asks the system for the
    data, control and command channels the table has under the peripheral's
    name, each under the second name only when the first fails.  Without a data
    channel nothing changes; without a control channel nothing is watched and
    the data descriptor is forgotten; otherwise the descriptors are kept, each
    channel gets a read and a write watch, and the control queue gets the mask
    packets of the 25 entries of the message table. *)
Theorem peripheral_open_connects p perif r s h w :
  hot s w -> alloc_ok h -> msg_wf (w_masks w) ->
  pf_objs (w_pf w) !! p = Some perif -> pf_name perif = Some r ->
  let '(data, r1) := either_open r "DIAG" "APPS_RIVA_DATA" (hp_channels s) (e_results (w_env w)) in
  let '(cntl, r2) := either_open r "DIAG_CNTL" "APPS_RIVA_CTRL" (hp_channels s) r1 in
  let '(cmd, r3) := channel_open r "DIAG_CMD" (hp_channels s) r2 in
  if data <? 0 then peripheral_open p h w = Done (tt, h, with_results r1 w)
  else if cntl <? 0 then
    peripheral_open p h w =
      Done (tt, h, set_perif p (pf_with_fds (pf_cntl_fd perif) (-1) (pf_cmd_fd perif) perif) (with_results r2 w))
  else
    let cmd := if 0 <=? cmd then cmd else pf_cmd_fd perif in
    let msgs := mask_packets (w_masks w) in
    length msgs = 25%nat /\ Forall (is_cntl DIAG_CNTL_CMD_MSG_MASK) msgs /\
    exists k, peripheral_open p h w = Done (tt, steps k h,
        push_cntls p msgs (over (watched p cntl data cmd (pf_flow perif))
          (set_perif p (pf_with_fds cntl data cmd perif) (with_results (tl r3) w)))).
Proof.
  intros Hw Hh Hm Hp Hr. unfold peripheral_open.
  pose proof (open_either_ok r "DIAG" "APPS_RIVA_DATA" s h w Hw) as E1.
  destruct (either_open r "DIAG" _ _ _) as [data r1]. set (w1 := with_results r1 w) in E1.
  set (p1 := pf_with_fds (pf_cntl_fd perif) data (pf_cmd_fd perif) perif). set (w1' := set_perif p p1 w1).
  assert (hot s w1') as Hw1 by (by eapply hot_set_perif; [apply hot_env|..]).
  pose proof (open_either_ok r "DIAG_CNTL" "APPS_RIVA_CTRL" s h w1' Hw1) as E2.
  change (e_results (w_env w1')) with r1 in E2. destruct (either_open r "DIAG_CNTL" _ _ _) as [cntl r2].
  set (p2 := pf_with_fds cntl data (pf_cmd_fd perif) perif). set (w2 := set_perif p p2 (with_results r2 w)).
  assert (hot s w2) as Hw2 by (by eapply hot_set_perif; [apply hot_env|..]).
  pose proof (devnode_open_ok r "DIAG_CMD" s h w2 Hw2) as E3.
  change (e_results (w_env w2)) with r2 in E3. destruct (channel_open r "DIAG_CMD" _ _) as [cmd r3].
  erewrite bind_done by (by apply get_perif_ok). rewrite Hr.
  destruct (Z.ltb_spec data 0) as [Hd|Hd].
  { erewrite bind_done by exact E1. by rewrite (proj2 (Z.ltb_lt _ _) Hd). }
  erewrite bind_done by exact E1. rewrite (proj2 (Z.ltb_ge _ _) Hd).
  erewrite bind_done by (by apply upd_perif_ok). erewrite bind_done by exact E2.
  destruct (Z.ltb_spec cntl 0) as [Hc|Hc].
  { exact (upd_set_perif p p1 _ r2 h w). }
  erewrite bind_done by exact (upd_set_perif p p1 _ r2 h w). erewrite bind_done by exact E3.
  set (cmd' := if 0 <=? cmd then cmd else pf_cmd_fd perif). set (p3 := pf_with_fds cntl data cmd' perif).
  set (w3 := set_perif p p3 (with_results r3 w)).
  assert ((if 0 <=? cmd then upd_perif p (fun q => pf_with_fds (pf_cntl_fd q) (pf_data_fd q) cmd q) else mret tt) h
    (with_results r3 w2) = Done (tt, h, w3)) as E4.
  { unfold w3, p3, cmd'. destruct (0 <=? cmd); [exact (upd_set_perif p p2 _ r3 h w)|done]. }
  erewrite bind_done by exact E4. erewrite bind_done by apply sys_call_ok.
  erewrite bind_done by (apply get_perif_ok, set_perif_at).
  destruct (connect_ok p p3 h (with_results (tl r3) w3) Hh Hm (set_perif_at _ _ _) Hc) as (k & E5).
  split; [apply mask_packets_length|]. split; [apply mask_packets_cntl|]. by exists k.
Qed.

(** C14 Closing undoes opening: when [peripheral_close] ends a peripheral on
    rpmsg, the object is gone and off the list, the commands registered by it
    are dropped and the others kept in order, and no watch is left on its
    descriptors.  Of the watches of any state without a watch on them to which
    [peripheral_open] added its own, exactly those are taken off again. *)
Theorem peripheral_close_undoes_open p perif h w :
  pf_objs (w_pf w) !! p = Some perif -> pf_transport perif = Rpmsg ->
  let fds := [pf_cmd_fd perif; pf_cntl_fd perif; pf_data_fd perif] in
  exists w', peripheral_close p h w = Done (tt, h, w') /\
    pf_objs (w_pf w') = delete p (pf_objs (w_pf w)) /\ p ∉ pf_list (w_pf w') /\
    diag_cmds (w_cmds w') = filter (fun dc => dc_peripheral dc <> Some p) (diag_cmds (w_cmds w)) /\
    Forall (off_fds fds) (ws_read (w_watches w') ++ ws_aio (w_watches w')) /\
    (forall s, w_watches w = watched p (pf_cntl_fd perif) (pf_data_fd perif) (pf_cmd_fd perif) (pf_flow perif) s ->
      Forall (off_fds fds) (ws_read s ++ ws_aio s) ->
      ws_read (w_watches w') = ws_read s /\ ws_aio (w_watches w') = ws_aio s /\ ws_timers (w_watches w') = ws_timers s) /\
    w_queues w' = w_queues w /\ w_masks w' = w_masks w /\ w_dm w' = w_dm w /\ w_ids w' = w_ids w /\ w_dev w' = w_dev w.
Proof.
  intros Hp Hr fds. exists (closed p fds w). split; [by apply peripheral_close_ok|]. split; [done|].
  split; [cbn; rewrite list_elem_of_filter; tauto|]. split; [done|].
  split; [cbn; apply Forall_app; split; apply Forall_forall; intros x [Hx _]%list_elem_of_filter; exact Hx|].
  split; [|done]. intros s Es [Hsr Hsa]%Forall_app.
  change (w_watches (closed p fds w)) with (with_aio (filter (off_fds fds)) (with_read (filter (off_fds fds)) (w_watches w))).
  rewrite Es. cbn [with_aio with_read ws_read ws_aio ws_timers].
  destruct (filter_watched p (pf_cntl_fd perif) (pf_data_fd perif) (pf_cmd_fd perif) (pf_flow perif) s) as (H1 & H2 & H3).
  fold fds in H1, H2. by rewrite H1, H2, H3, !filter_all.
Qed.
