(* ===== verification/DataPath.v ===== *)
(** * DataPath: from a peripheral's data channel to the clients

    [diag_data_recv_hdlc] reads chunks of a byte stream into the peripheral's
    ring and broadcasts every frame it can decode.  Its specification knows no
    chunks: [hdlc_stream] cuts the whole stream into frames. *)

From S2P Require Import Prelude CircBuf Hdlc Masks Queue Watch World Dm Cntl Peripheral.

(** ** The frames of a byte stream

    The complete frames, and the partial one with its pending escape. *)

Fixpoint hdlc_stream (acc : bytes) (esc : Z) (s : bytes) : list bytes * bytes * Z :=
  match s with
  | [] => ([], acc, esc)
  | ch :: s =>
      if ch =? 0x7e then let '(fs, a, e) := hdlc_stream [] 0 s in (acc :: fs, a, e)
      else if ch =? 0x7d then hdlc_stream acc 0x20 s
      else hdlc_stream (acc ++ [Z.lxor ch esc]) 0 s
  end.

Lemma hdlc_stream_scan acc esc s :
  hdlc_stream acc esc s =
  match hdlc_scan acc esc s with
  | Pending a e => ([], a, e)
  | Frame a _ rest => let '(fs, a', e') := hdlc_stream [] 0 rest in (a :: fs, a', e')
  end.
Proof.
  revert acc esc. induction s as [|ch s IH]; intros acc esc; [done|]. cbn [hdlc_stream hdlc_scan].
  destruct (ch =? 0x7e); [done|]. destruct (ch =? 0x7d); apply IH.
Qed.

Lemma hdlc_stream_app acc esc s1 s2 :
  hdlc_stream acc esc (s1 ++ s2) =
  let '(fs1, a1, e1) := hdlc_stream acc esc s1 in
  let '(fs2, a2, e2) := hdlc_stream a1 e1 s2 in (fs1 ++ fs2, a2, e2).
Proof.
  revert acc esc. induction s1 as [|ch s1 IH]; intros acc esc; cbn [hdlc_stream app].
  - by destruct (hdlc_stream acc esc s2) as [[fs a] e].
  - destruct (ch =? 0x7e); [|by destruct (ch =? 0x7d)]. rewrite IH.
    destruct (hdlc_stream [] 0 s1) as [[fs1 a1] e1]. by destruct (hdlc_stream a1 e1 s2) as [[fs2 a2] e2].
Qed.

Lemma hdlc_scan_rest acc esc s :
  match hdlc_scan acc esc s with
  | Frame _ _ rest => exists pre, s = pre ++ rest /\ 1 <= zlen pre
  | Pending _ _ => True
  end.
Proof.
  revert acc esc. induction s as [|ch s IH]; intros acc esc; cbn [hdlc_scan]; [done|].
  destruct (ch =? 0x7e); [exists [ch]; done|].
  destruct (ch =? 0x7d); [specialize (IH acc 0x20)|specialize (IH (acc ++ [Z.lxor ch esc]) 0)];
    destruct (hdlc_scan _ _ s); try done; destruct IH as (pre & -> & H); exists (ch :: pre); split; (done || zlia).
Qed.

(** What is collected is the beginning of the next frame. *)
Lemma hdlc_stream_prefix acc esc s :
  match hdlc_stream acc esc s with
  | ([], a, _) => acc `prefix_of` a
  | (f :: _, _, _) => acc `prefix_of` f
  end.
Proof.
  revert acc esc. induction s as [|ch s IH]; intros acc esc; cbn [hdlc_stream]; [done|].
  destruct (ch =? 0x7e); [by destruct (hdlc_stream [] 0 s) as [[? ?] ?]|].
  destruct (ch =? 0x7d); [apply IH|]. specialize (IH (acc ++ [Z.lxor ch esc]) 0).
  destruct (hdlc_stream _ _ s) as [[[|f fs] a] e]; (etrans; [|exact IH]); by apply prefix_app_r.
Qed.

Lemma hdlc_stream_bytes acc esc s :
  bytes_ok acc -> is_byte esc -> bytes_ok s ->
  match hdlc_stream acc esc s with (fs, a, e) => Forall bytes_ok fs /\ bytes_ok a /\ is_byte e end.
Proof.
  intros Ha He Hs. revert acc esc Ha He. induction Hs as [|ch s Hch Hs IH]; intros acc esc Ha He; cbn [hdlc_stream].
  { by split_and!. }
  destruct (ch =? 0x7e).
  { specialize (IH [] 0 ltac:(constructor) ltac:(done)). destruct (hdlc_stream [] 0 s) as [[fs a] e].
    destruct IH as (? & ? & ?). split_and!; [by constructor|done..]. }
  destruct (ch =? 0x7d); [by apply IH|]. apply IH; [|done].
  apply bytes_ok_app. split; [done|]. constructor; [by apply lxor_byte|constructor].
Qed.

(** Every frame has its check sequence and fits the decoder's buffer, and so
    does the partial one. *)
Definition fits (r : list bytes * bytes * Z) : Prop :=
  Forall (fun f => 2 <= zlen f <= HDLC_BUF_SIZE) r.1.1 /\ zlen r.1.2 <= HDLC_BUF_SIZE.

(** Cutting the stream anywhere leaves two parts that fit. *)
Lemma fits_app acc esc s1 s2 :
  fits (hdlc_stream acc esc (s1 ++ s2)) ->
  match hdlc_stream acc esc s1 with
  | (fs, a, e) => fits (fs, a, e) /\ fits (hdlc_stream a e s2)
  end.
Proof.
  rewrite hdlc_stream_app. destruct (hdlc_stream acc esc s1) as [[fs1 a1] e1].
  pose proof (hdlc_stream_prefix a1 e1 s2) as Hp. destruct (hdlc_stream a1 e1 s2) as [[fs2 a2] e2].
  unfold fits. cbn. intros [[H1 H2]%Forall_app H3]. split_and!; try done.
  destruct fs2 as [|f fs2]; apply zlen_prefix in Hp; [lia|]. inversion H2. lia.
Qed.

(** The message of a frame: without its check sequence. *)
Definition frame_msg (f : bytes) : bytes := slice f 0 (zlen f - 2).

Lemma frame_msg_app m : frame_msg (m ++ hdlc_fcs_of m) = m.
Proof.
  unfold frame_msg. rewrite zlen_app. change (zlen (hdlc_fcs_of m)) with 2.
  rewrite Z.add_simpl_r. by apply slice_app_exact.
Qed.

(** Encoded messages, one after the other: the specification sees them all. *)
Lemma hdlc_stream_frames msgs tail :
  Forall bytes_ok msgs ->
  hdlc_stream [] 0 ((msgs ≫= hdlc_frame) ++ tail) =
  let '(fs, a, e) := hdlc_stream [] 0 tail in (((fun m => m ++ hdlc_fcs_of m) <$> msgs) ++ fs, a, e).
Proof.
  induction 1 as [|m msgs Hm Hmsgs IH].
  { cbn. by destruct (hdlc_stream [] 0 tail) as [[fs a] e]. }
  cbn [mbind list_bind]. rewrite <- app_assoc, hdlc_stream_scan, scan_frame by done.
  rewrite IH. by destruct (hdlc_stream [] 0 tail) as [[fs a] e].
Qed.

(** ** What receiving messages does to the program

    [received p msgs w w']: every enabled client's queue has grown by the
    messages, in order and in the client's encoding, and nothing else has
    changed but the receive state of [p] and what the descriptors still say. *)

(** A packet that is sent as it is, charged to a flow that exists. *)
Definition sound (s : qstate) (b : mbuf) : Prop := mb_size b = zlen (mb_data b) /\ flow_ok (mb_flow b) s.

Record received (p : nat) (msgs : list bytes) (w w' : world) : Prop := {
  rc_clients c dm : dm_clients (w_dm w) !! c = Some dm ->
    payloads (w_queues w') (QClient c) = payloads (w_queues w) (QClient c) ++
      (if dm_enabled dm then encoded (dm_encode_type dm) <$> msgs else []);
  rc_queues q : (forall c, q = QClient c -> dm_clients (w_dm w) !! c = None) ->
    payloads (w_queues w') q = payloads (w_queues w) q;
  rc_flow flow : flow_ok flow (w_queues w) -> flow_ok flow (w_queues w');
  rc_sound q : Forall (sound (w_queues w)) (queue_of (w_queues w) q) ->
    Forall (sound (w_queues w')) (queue_of (w_queues w') q);
  rc_rest : w_masks w' = w_masks w /\ w_watches w' = w_watches w /\ w_dm w' = w_dm w /\
    w_cmds w' = w_cmds w /\ w_ids w' = w_ids w /\ w_dev w' = w_dev w;
  rc_others : pf_list (w_pf w') = pf_list (w_pf w) /\ pf_fresh (w_pf w') = pf_fresh (w_pf w) /\
    forall q, q <> p -> pf_objs (w_pf w') !! q = pf_objs (w_pf w) !! q;
  rc_kernel : e_results (w_env w') = e_results (w_env w) /\ e_aio (w_env w') = e_aio (w_env w) }.

Lemma received_refl p w : received p [] w w.
Proof. split; try done. intros c dm _. by destruct (dm_enabled dm); rewrite app_nil_r. Qed.

Lemma received_trans p ms1 ms2 w1 w2 w3 :
  received p ms1 w1 w2 -> received p ms2 w2 w3 -> received p (ms1 ++ ms2) w1 w3.
Proof.
  intros [A1 A2 A3 As (A4 & A5 & A6 & A7 & A8 & A9) (A10 & A11 & A12) [A13 A14]]
    [B1 B2 B3 Bs (B4 & B5 & B6 & B7 & B8 & B9) (B10 & B11 & B12) [B13 B14]]. split.
  - intros c dm Hc. rewrite (B1 c dm), (A1 c dm), <- app_assoc by (by rewrite ?A6).
    by destruct (dm_enabled dm); rewrite ?fmap_app.
  - intros q Hq. rewrite B2, A2; [done|done|]. intros c. rewrite A6. apply Hq.
  - auto.
  - auto.
  - split_and!; congruence.
  - split_and!; try congruence. intros q Hq. by rewrite B12, A12.
  - split; congruence.
Qed.

Lemma received_env p w g :
  e_results (g (w_env w)) = e_results (w_env w) -> e_aio (g (w_env w)) = e_aio (w_env w) ->
  received p [] w (over (fun e : env => g e) w).
Proof. intros Hr Ha. destruct (received_refl p w) as [A1 A2 A3 As A4 A5 A6]. by split. Qed.

Lemma received_perif p g w : received p [] w
  (over (fun s => PfState (alter g p (pf_objs s)) (pf_list s) (pf_fresh s)) w).
Proof.
  destruct (received_refl p w) as [A1 A2 A3 As A4 A5 A6]. split; try done.
  split_and!; try done. intros q Hq. cbn. by rewrite lookup_alter_ne.
Qed.

Lemma sound_deliver dms flow msg s c q :
  flow_ok flow s -> Forall (sound s) (queue_of s q) ->
  Forall (sound (deliver dms flow msg s c)) (queue_of (deliver dms flow msg s c) q).
Proof.
  intros Hf Hs. pose proof (fun f => flow_ok_deliver dms flow f msg s c) as Hmono. unfold deliver in *.
  destruct (dms !! c) as [dm|]; [|done]. destruct (dm_enabled dm); [|done].
  assert (Forall (sound (enqueue (QClient c) flow (encoded (dm_encode_type dm) msg) s)) (queue_of s q)) as Hs'.
  { eapply Forall_impl; [exact Hs|]. intros b [Hb1 Hb2]. split; [done|by apply Hmono]. }
  rewrite queue_of_enqueue. destruct (decide _); [|done]. subst. apply Forall_app. split; [done|]. constructor; [|constructor].
  split; [done|by apply Hmono].
Qed.

(** Broadcasting one message. *)
Lemma received_broadcast p msg len flow h w :
  (forall c dm, dm_clients (w_dm w) !! c = Some dm -> client_ok dm) ->
  flow_ok flow (w_queues w) -> alloc_ok h -> bytes_ok (slice msg 0 len) ->
  0 <= len <= zlen msg -> len < 2 ^ 61 ->
  exists k q, dm_broadcast msg len flow h w = Done (tt, steps k h, with_queues q w) /\
    received p [slice msg 0 len] w (with_queues q w).
Proof.
  intros Hw Hf Hh Hok Hl Hlen.
  destruct (dm_broadcast_ok msg len flow h w Hw Hf Hh Hok Hl Hlen) as [k E].
  exists k. eexists. split; [exact E|]. split; try done.
  - intros c dm Hc. cbn. rewrite payloads_deliver_all, Hc, decide_True by (by eapply lookup_lt_Some). done.
  - intros q Hq. cbn. rewrite payloads_deliver_all. destruct q as [c| | | |]; rewrite ?app_nil_r; try done.
    rewrite (Hq c eq_refl). case_decide; apply app_nil_r.
  - intros flow' H. by apply flow_ok_deliver_all.
  - intros q. cbn. generalize (seq 0 (length (dm_clients (w_dm w)))). intros l. revert Hf.
    generalize (w_queues w). induction l as [|c l IH]; intros s Hf H; [done|]. cbn [foldl].
    apply IH; [by apply flow_ok_deliver|by apply sound_deliver].
Qed.

(** ** Draining the ring *)

Definition clients_ok (w : world) : Prop :=
  forall c dm, dm_clients (w_dm w) !! c = Some dm -> client_ok dm.

(** The decoder reads: it moves the tail and nothing else. *)
Lemma decode_loop_buf fuel h raw b r h' b' :
  hdlc_decode_loop fuel h raw b = Done (r, h', b') -> cb_buf b' = cb_buf b /\ cb_head b' = cb_head b.
Proof.
  revert h raw b. induction fuel as [|fuel IH]; intros h raw b; [done|]. cbn [hdlc_decode_loop].
  destruct (_ =? _); [by intros [= _ _ <-]|]. destruct (mem_read _ _ _); [|done..]. cbn [mbind outcome_bind].
  destruct (_ =? _); [intros [= _ _ <-]; done|]. destruct (_ =? _); [by intros H%IH|].
  destruct (mem_write _ _ _); [|done..]. by intros H%IH.
Qed.

Lemma decode_one_buf h b r h' b' :
  hdlc_decode_one h b = Done (r, h', b') -> cb_buf b' = cb_buf b /\ cb_head b' = cb_head b.
Proof.
  unfold hdlc_decode_one. destruct (hdlc_decode_loop _ _ _ _) as [[[found h1] b1]| | |] eqn:E; [|done..].
  cbn [mbind outcome_bind]. apply decode_loop_buf in E.
  destruct (negb found); [intros [= _ _ <-]; done|]. destruct (_ =? _); intros [= _ _ <-]; done.
Qed.

(** The receive state of [p]: what the decoder holds, what waits in the ring,
    and where the next byte goes. *)
Definition receiving (p : nat) (perif : peripheral) (acc : bytes) (esc : Z) (s : bytes) (pos : Z) (w : world) : Prop :=
  exists d b, pf_objs (w_pf w) !! p = Some (pf_with_recv b d perif) /\
    dec_state d acc esc /\ circ_wf b /\ bytes_ok (cb_buf b) /\ circ_contents b = s /\ cb_head b = pos.

Lemma pf_with_recv_twice b d b' d' perif : pf_with_recv b' d' (pf_with_recv b d perif) = pf_with_recv b' d' perif.
Proof. done. Qed.

Lemma upd_recv p perif b d b' d' h w :
  pf_objs (w_pf w) !! p = Some (pf_with_recv b d perif) ->
  exists w', upd_perif p (pf_with_recv b' d') h w = Done (tt, h, w') /\ received p [] w w' /\
    w_env w' = w_env w /\ w_queues w' = w_queues w /\ w_dm w' = w_dm w /\
    pf_objs (w_pf w') !! p = Some (pf_with_recv b' d' perif).
Proof.
  intros Hp. eexists. split; [done|]. split; [apply received_perif|]. split_and!; try done.
  cbn. by rewrite lookup_alter_eq, Hp.
Qed.

Lemma drain_frames_ok fuel p perif acc esc s pos h w :
  receiving p perif acc esc s pos w -> clients_ok w -> flow_ok (pf_flow perif) (w_queues w) -> alloc_ok h ->
  bytes_ok acc -> is_byte esc -> bytes_ok s ->
  fits (hdlc_stream acc esc s) -> zlen s < Z.of_nat fuel ->
  exists k w', drain_frames fuel p h w = Done (tt, steps k h, w') /\ w_env w' = w_env w /\
    match hdlc_stream acc esc s with
    | (fs, acc', esc') => received p (frame_msg <$> fs) w w' /\ receiving p perif acc' esc' [] pos w'
    end.
Proof.
  revert acc esc s h w.
  induction fuel as [|fuel IH]; intros acc esc s h w (d & b & Hp & Hd & Hb & Hbok & Hs & Hpos) Hcl Hf Hh Ha He Hsok Hfit Hfuel.
  { zlia. }
  cbn [drain_frames]. erewrite bind_done by (by apply get_perif_ok). cbn [pf_recv_decoder pf_recv_buf pf_with_recv].
  pose proof Hd as (Hdok & Hacc & Hesc).
  pose proof (hdlc_decode_one_ok d b Hdok Hb) as Hdec. rewrite Hacc, Hesc, Hs in Hdec.
  pose proof (hdlc_stream_bytes acc esc s Ha He Hsok) as Hbytes.
  rewrite hdlc_stream_scan in *. destruct (hdlc_scan acc esc s) as [a e|a e rest] eqn:Hscan; cbn [scan_acc] in Hdec.
  - destruct Hfit as [_ Hfit]. destruct (Hdec Hfit) as (d' & b' & Hb' & E & Hd' & Hc').
    erewrite bind_done by (unfold lift; rewrite E; reflexivity). cbv beta iota.
    destruct (upd_recv p perif b d b' d' h w Hp) as (w' & E' & Hr & Henv & _ & _ & Hp').
    erewrite bind_done by exact E'. exists 0%nat, w'. split; [destruct h; done|]. split; [done|]. split; [done|].
    destruct (decode_one_buf _ _ _ _ _ E) as [Eb Ehd].
    exists d', b'. split_and!; try done; try apply Hd'; try apply Hb'; by rewrite ?Eb, ?Ehd.
  - pose proof (hdlc_scan_rest acc esc s) as Hrest. rewrite Hscan in Hrest. destruct Hrest as (pre & -> & Hpre).
    apply bytes_ok_app in Hsok as [_ Hrestok].
    pose proof (hdlc_stream_bytes [] 0 rest ltac:(constructor) ltac:(done) Hrestok) as Hbytes'.
    destruct (hdlc_stream [] 0 rest) as [[fs a'] e'] eqn:Hstream.
    destruct Hfit as [[Ha2 Hfit]%Forall_cons Hfit'], Hbytes as ([Haok _]%Forall_cons & _). cbn [fst snd] in *.
    destruct (Hdec ltac:(lia)) as (d' & b' & Hb' & Hdec'). destruct a as [|x a]; [unfold zlen in Ha2; cbn in Ha2; lia|].
    destruct Hdec' as (E & Hd' & Hc' & Hraw). assert (HDLC_BUF_SIZE < 2 ^ 61) by done.
    rewrite u64_id in E by lia. erewrite bind_done by (unfold lift; rewrite E; reflexivity). cbv beta iota.
    destruct (upd_recv p perif b d b' d' h w Hp) as (w1 & E1 & Hr1 & Henv1 & Hq1 & Hdm1 & Hp1).
    erewrite bind_done by exact E1. set (f := x :: a) in *.
    assert (slice (hd_raw_buf d') 0 (zlen f - 2) = frame_msg f) as Hmsg.
    { unfold frame_msg. rewrite <- Hraw at 2. rewrite <- slice_slice_0; [done|lia]. }
    pose proof Hd' as ([Hraw_len _] & _). unfold clients_ok in Hcl. rewrite <- Hdm1 in Hcl.
    destruct (received_broadcast p (hd_raw_buf d') (zlen f - 2) (pf_flow perif) h w1) as (k2 & q & E2 & Hr2); try done.
    { by rewrite Hq1. } { rewrite Hmsg. unfold frame_msg. auto with diag. } { lia. } { lia. }
    cbn [pf_flow pf_with_recv]. erewrite bind_done by exact E2. rewrite Hmsg in Hr2.
    destruct (IH [] 0 rest (steps k2 h) (with_queues q w1)) as (k3 & w3 & E3 & Henv3 & H3); try done.
    { destruct (decode_one_buf _ _ _ _ _ E) as [Eb Ehd].
      exists d', b'. split_and!; try done; try apply Hd'; try apply Hb'; by rewrite ?Eb, ?Ehd. }
    { apply (rc_flow _ _ _ _ Hr2). by rewrite Hq1. }
    { constructor. } { by rewrite Hstream. } { rewrite zlen_app in Hfuel. lia. }
    rewrite Hstream in H3. destruct H3 as [Hr3 Hrec]. exists (k3 + k2)%nat, w3. rewrite E3.
    split; [by rewrite steps_steps|]. split; [by rewrite Henv3|]. split; [|done].
    eapply (received_trans _ []); [exact Hr1|]. eapply (received_trans _ [_]); [exact Hr2|exact Hr3].
Qed.

(** ** What a descriptor still has to say

    The bytes up to its first error, the error, what comes after it, and a
    bound on the reads. *)

Fixpoint script_data (f : list (Z + bytes)) : bytes :=
  match f with inr d :: f => (u8 <$> d) ++ script_data f | _ => [] end.

Fixpoint script_errno (f : list (Z + bytes)) : Z :=
  match f with inr _ :: f => script_errno f | inl e :: _ => e | [] => EAGAIN end.

Fixpoint script_rest (f : list (Z + bytes)) : list (Z + bytes) :=
  match f with inr _ :: f => script_rest f | inl _ :: f => f | [] => [] end.

Fixpoint script_size (f : list (Z + bytes)) : nat :=
  match f with inr d :: f => S (length d) + script_size f | _ => 0 end.

Lemma script_data_bytes f : bytes_ok (script_data f).
Proof.
  induction f as [|[e|d] f IH]; [constructor..|]. apply bytes_ok_app. split; [|done].
  apply Forall_fmap, Forall_true. intros. apply u8_is_byte.
Qed.

Lemma script_read_data (f : list (Z + bytes)) n d f' :
  fd_read f n = (inr d, f') ->
  script_data f = d ++ script_data f' /\ script_errno f' = script_errno f /\ script_rest f' = script_rest f /\
  (script_size f' + length d <= script_size f)%nat /\ (0 < n -> (script_size f' < script_size f)%nat).
Proof.
  destruct f as [|[e|c] f]; cbn; [done..|]. case_match; intros [= <- <-].
  - split_and!; [done..|rewrite length_fmap; lia|lia].
  - cbn. rewrite app_assoc, <- fmap_app, take_drop, length_fmap, length_take, length_drop.
    unfold zlen in *. split_and!; [done..|lia|lia].
Qed.

Lemma script_read_error (f : list (Z + bytes)) n e f' :
  fd_read f n = (inl e, f') -> script_data f = [] /\ e = script_errno f /\ f' = script_rest f.
Proof. destruct f as [|[e'|c] f]; cbn; [by intros [= <- <-]..|]. by case_match. Qed.

Lemma fd_reads_data (f f' : list (Z + bytes)) d :
  fd_reads f d f' ->
  script_data f = d ++ script_data f' /\ script_errno f' = script_errno f /\ script_rest f' = script_rest f /\
  (script_size f' + length d <= script_size f)%nat.
Proof.
  induction 1 as [f|f n d f' ds f'' Hr _ (IH1 & IH2 & IH3 & IH4)]; [split_and!; [done..|cbn; lia]|].
  apply script_read_data in Hr as (E1 & E2 & E3 & E4 & _). rewrite E1, IH1, app_assoc.
  split_and!; [done|congruence..|rewrite length_app; lia].
Qed.

(** Where the next byte goes: the tail and the bytes that wait say it. *)
Lemma circ_head b : circ_wf b -> cb_head b = (cb_tail b + zlen (circ_contents b)) mod HDLC_BUF_SIZE.
Proof.
  intros (_ & Hh & Ht). rewrite zlen_circ_contents. unfold circ_used. rewrite Z.add_mod_idemp_r by done.
  replace (cb_tail b + (cb_head b - cb_tail b)) with (cb_head b) by lia. by rewrite Z.mod_small.
Qed.

Lemma circ_read_head (f : list (Z + bytes)) b r f' b' d :
  circ_wf b -> bytes_ok (cb_buf b) -> circ_read f b = Done (r, f', b') -> circ_contents b' = circ_contents b ++ d ->
  cb_head b' = (cb_head b + zlen d) mod HDLC_BUF_SIZE.
Proof.
  intros Hb Hok E Hc.
  destruct (circ_read_loop_correct 3 f [] f b Hb Hok) as (r1 & f1 & b1 & d1 & E1 & Hb1 & _ & Ht & _);
    [unfold rounds; repeat case_match; lia|constructor|].
  unfold circ_read in E. rewrite E in E1. injection E1 as <- <- <-.
  rewrite (circ_head b' Hb1), (circ_head b Hb), Ht, Hc, zlen_app, Z.add_mod_idemp_l by done. f_equal. lia.
Qed.

(** Filling the ring, against the script. *)
Lemma circ_read_script (f : list (Z + bytes)) b :
  circ_wf b -> bytes_ok (cb_buf b) ->
  exists r f' b' d, circ_read f b = Done (r, f', b') /\
    circ_wf b' /\ bytes_ok (cb_buf b') /\ circ_contents b' = circ_contents b ++ d /\
    cb_head b' = (cb_head b + zlen d) mod HDLC_BUF_SIZE /\
    match r with
    | inr _ => script_data f = d ++ script_data f' /\ script_errno f' = script_errno f /\ script_rest f' = script_rest f /\
        (script_size f' <= script_size f)%nat /\
        (circ_contents b = [] -> (script_size f' < script_size f)%nat)
    | inl e => script_data f = d /\ e = script_errno f /\ f' = script_rest f /\ (d = [] /\ b' = b \/ cb_head b' = 0)
    end.
Proof.
  intros Hb Hok. destruct (circ_read_ok f b Hb Hok) as (r & f' & b' & d & E & Hb' & Hok' & Hc & Hstop).
  pose proof (circ_read_head _ _ _ _ _ _ Hb Hok E Hc) as Hhd.
  exists r, f', b', d. split_and!; try done. destruct r as [e|[]].
  - destruct Hstop as (f1 & n & (E1 & E2 & E5 & _)%fd_reads_data & (E3 & E4 & E6)%script_read_error).
    rewrite E3, app_nil_r in E1. split; [done|]. split; [congruence|]. split; [congruence|].
    destruct (circ_read_loop_error _ _ _ _ _ _ Hb E) as [[-> _]|?]; [left|by right]. split; [|done].
    apply (f_equal zlen) in Hc. rewrite zlen_app in Hc. destruct d; [done|]. pose proof (zlen_nonneg d). zlia.
  - destruct Hstop as [Hr Hstop]. pose proof (fd_reads_data _ _ _ Hr) as (E1 & E2 & Er & E3).
    split_and!; [done..|lia|]. intros Hnil. destruct Hstop as [Hfull|(f1 & d1 & n & d2 & H1 & H2 & -> & Hn)].
    + rewrite CIRC_SPACE_eq in Hfull by done. rewrite <- zlen_circ_contents, Hc, Hnil in Hfull.
      cbn in Hfull. unfold HDLC_BUF_SIZE, zlen in Hfull. lia.
    + apply fd_reads_data in H1 as (_ & _ & _ & E4). apply script_read_data in H2 as (_ & _ & _ & _ & E5).
      pose proof (zlen_nonneg d2). lia.
Qed.

(** ** The receive loop *)

(** Between two calls: nothing waits in the ring, or what waits was read
    exactly to the end of its array. *)
Definition at_rest (p : nat) (perif : peripheral) (acc : bytes) (esc : Z) (s : bytes) (pos : Z) (w : world) : Prop :=
  receiving p perif acc esc s pos w /\ (s = [] \/ pos = 0).

Definition fd_script (fd : Z) (w : world) : list (Z + bytes) := default [] (e_fds (w_env w) !! fd).

Lemma sys_circ_read_done fd b r f' b' h w :
  circ_read (fd_script fd w) b = Done (r, f', b') ->
  exists w', sys_circ_read fd b h w = Done ((r, b'), h, w') /\ fd_script fd w' = f' /\
    (forall p, received p [] w w') /\ w_pf w' = w_pf w /\ w_queues w' = w_queues w /\ w_dm w' = w_dm w.
Proof.
  intros E. eexists. split; [unfold sys_circ_read; apply zoom_done; unfold env_circ_read;
    change (default [] (e_fds (view w) !! fd)) with (fd_script fd w); rewrite E; reflexivity|].
  split; [by unfold fd_script; cbn; rewrite lookup_insert_eq|].
  split; [|done]. intros p. by apply received_env.
Qed.

Lemma data_recv_loop fuel p perif fd acc esc s pos h w :
  at_rest p perif acc esc s pos w -> clients_ok w -> flow_ok (pf_flow perif) (w_queues w) -> alloc_ok h ->
  bytes_ok acc -> is_byte esc -> bytes_ok s ->
  fits (hdlc_stream acc esc (s ++ script_data (fd_script fd w))) ->
  (script_size (fd_script fd w) + (if decide (s = []) then 0 else 1) < fuel)%nat ->
  exists k w' s1 s2, diag_data_recv_hdlc fuel p fd h w = Done (- script_errno (fd_script fd w), steps k h, w') /\
    s ++ script_data (fd_script fd w) = s1 ++ s2 /\ fd_script fd w' = script_rest (fd_script fd w) /\
    match hdlc_stream acc esc s1 with
    | (fs, acc', esc') => received p (frame_msg <$> fs) w w' /\
        at_rest p perif acc' esc' s2 ((pos + zlen (script_data (fd_script fd w))) mod HDLC_BUF_SIZE) w'
    end.
Proof.
  revert acc esc s pos h w. induction fuel as [|fuel IH];
    intros acc esc s pos h w [(d & b & Hp & Hd & Hb & Hbok & Hs & Hpos) Hrest] Hcl Hf Hh Ha He Hsok Hfit Hfuel; [lia|].
  destruct (circ_read_script (fd_script fd w) b Hb Hbok) as (r & f' & b' & x & E & Hb' & Hbok' & Hc & Hhd & H).
  destruct (sys_circ_read_done fd b r f' b' h w E) as (w1 & E1 & Hf1 & Hr1 & Hpf1 & Hq1 & Hdm1).
  pose proof (script_data_bytes (fd_script fd w)) as Hx. rewrite Hs in Hc, H. rewrite Hpos in Hhd.
  cbn [diag_data_recv_hdlc]. erewrite bind_done by (by apply get_perif_ok). cbn [pf_recv_buf pf_with_recv].
  erewrite bind_done by exact E1. cbv beta iota. cbn [pf_recv_decoder].
  destruct (upd_recv p perif b d b' d h w1) as (w2 & E2 & Hr2 & Henv2 & Hq2 & Hdm2 & Hp2); [by rewrite Hpf1|].
  erewrite bind_done by exact E2.
  assert (received p [] w w2) as H12 by (by eapply (received_trans _ [] []); [apply Hr1|]).
  destruct r as [e|[]].
  - destruct H as (Hx' & -> & -> & Hend). exists 0%nat, w2, [], (s ++ x). split; [destruct h; done|].
    split; [by rewrite Hx'|]. split; [unfold fd_script in *; by rewrite Henv2|]. cbn. split; [done|]. rewrite Hx', <- Hhd. split; [exists d, b'; by split_and!|].
    destruct Hend as [[-> ->]|?]; [rewrite app_nil_r, Hpos; exact Hrest|by right].
  - destruct H as (Hx' & Herr & Hrst & Hsz & Hsz'). rewrite Hx', app_assoc in Hfit. rewrite Hx' in Hx.
    apply bytes_ok_app in Hx as [Hx _]. pose proof (fits_app _ _ _ _ Hfit) as Hcut.
    pose proof (hdlc_stream_bytes acc esc (s ++ x) Ha He ltac:(by apply bytes_ok_app)) as Hbytes.
    destruct (hdlc_stream acc esc (s ++ x)) as [[fs a1] e1] eqn:Hstream. destruct Hcut as [Hfit1 Hfit2], Hbytes as (_ & Ha1 & He1).
    destruct (drain_frames_ok (Z.to_nat HDLC_BUF_SIZE) p perif acc esc (s ++ x) (cb_head b') h w2) as (k3 & w3 & E3 & Henv3 & H3); try done.
    { exists d, b'. by split_and!. } { unfold clients_ok. by rewrite Hdm2, Hdm1. } { by rewrite Hq2, Hq1. }
    { by apply bytes_ok_app. } { by rewrite Hstream. }
    { rewrite <- Hc, zlen_circ_contents. pose proof (circ_used_range b'). unfold HDLC_BUF_SIZE in *. lia. }
    rewrite Hstream in H3. destruct H3 as [Hr3 (d3 & b3 & Hrec3)]. erewrite bind_done by exact E3.
    assert (fd_script fd w3 = f') as Hf3 by (unfold fd_script in *; by rewrite Henv3, Henv2).
    assert (received p (frame_msg <$> fs) w w3) as H13 by (by eapply (received_trans _ []); [exact H12|]).
    destruct (IH a1 e1 [] (cb_head b') (steps k3 h) w3) as (k4 & w4 & s3 & s4 & E4 & Hs4 & Hf4 & H4); try done.
    { split; [by exists d3, b3|by left]. }
    { unfold clients_ok. by rewrite (proj1 (proj2 (proj2 (rc_rest _ _ _ _ H13)))). }
    { by apply (rc_flow _ _ _ _ H13). } { constructor. } { by rewrite Hf3. }
    { rewrite Hf3, decide_True by done. revert Hfuel. case_decide as Hnil; [specialize (Hsz' Hnil)|]; lia. }
    exists (k4 + k3)%nat, w4, (s ++ x ++ s3), s4. rewrite E4, Hf3, Herr, <- steps_steps. split; [done|].
    rewrite Hf3 in Hs4. cbn in Hs4. split; [by rewrite Hx', Hs4, !app_assoc|]. split; [by rewrite Hf4, Hf3|].
    rewrite app_assoc, hdlc_stream_app, Hstream. destruct (hdlc_stream a1 e1 s3) as [[fs3 a3] e3].
    destruct H4 as [H4 H4']. split; [rewrite fmap_app; by eapply received_trans|].
    rewrite Hf3, Hhd, Z.add_mod_idemp_l, <- Z.add_assoc, <- zlen_app, <- Hx' in H4' by done. exact H4'.
Qed.

(** ** Properties *)

(** C1 The data channel is a stream: however the transport cuts it into
    chunks, [diag_data_recv_hdlc] reads until the descriptor fails, decodes the
    bytes [s1] of the stream, delivers to every enabled client the message of
    each complete frame of [s1], once and in order, and keeps the partial frame
    in the decoder; the descriptor is left with what comes after the error.
    [s1] is all there is, except when the bytes read end exactly at the end of
    the ring's array, [pos] being the index where the first of them goes: then
    the bytes [s2] wait in the ring for the next call, complete frames
    included ([exact_fill_delays_message]).  The frames are to fit the
    decoder's buffer and to have their check sequence. *)
Theorem diag_data_recv_hdlc_delivers fuel p perif fd acc esc s pos h w :
  at_rest p perif acc esc s pos w -> clients_ok w -> flow_ok (pf_flow perif) (w_queues w) -> alloc_ok h ->
  bytes_ok acc -> is_byte esc -> bytes_ok s ->
  fits (hdlc_stream acc esc (s ++ script_data (fd_script fd w))) ->
  (S (script_size (fd_script fd w)) < fuel)%nat ->
  let pos' := (pos + zlen (script_data (fd_script fd w))) mod HDLC_BUF_SIZE in
  exists k w' s1 s2, diag_data_recv_hdlc fuel p fd h w = Done (- script_errno (fd_script fd w), steps k h, w') /\
    s ++ script_data (fd_script fd w) = s1 ++ s2 /\ (s2 = [] \/ pos' = 0) /\
    fd_script fd w' = script_rest (fd_script fd w) /\
    match hdlc_stream acc esc s1 with
    | (fs, acc', esc') => received p (frame_msg <$> fs) w w' /\ at_rest p perif acc' esc' s2 pos' w'
    end.
Proof.
  intros Hrest Hcl Hf Hh Ha He Hs Hfit Hfuel pos'.
  destruct (data_recv_loop fuel p perif fd acc esc s pos h w) as (k & w' & s1 & s2 & E & Es & Ef & H); try done.
  { case_decide; lia. }
  exists k, w', s1, s2. split; [done|]. split; [done|]. fold pos' in H.
  destruct (hdlc_stream acc esc s1) as [[fs acc'] esc']. split; [apply H|done].
Qed.

(** ** A message that waits for the next one

    A modem whose ring is empty at index [n], the frame of one byte arriving
    in one chunk, and an enabled client. *)

Definition one_frame (n : Z) : world :=
  World masks_zero (QState ∅ []) (WState [] [] [] [] false 0 0)
    (DmState [DiagClient "USB client" (-1) 5 DIAG_ENCODE_HDLC false true circ_zero] 0)
    (PfState {[0%nat := Peripheral (Some "modem"%string) 0 7 true 8 true 9 0 None 0 false
                          (CircBuf (cb_buf circ_zero) n n) decoder_zero Rpmsg]} [0%nat] 1)
    (CmdState [] [] []) (IdState [] DIAG_ID_APPS) (DevState [] [])
    (Env {[8 := [inr (hdlc_frame [0x60])]]} [] [] [] []).

Definition delivered_and_waiting (r : outcome (Z * heap * world)) : option (Z * list bytes * bytes) :=
  match r with
  | Done (ret, _, w) =>
      Some (ret, payloads (w_queues w) (QClient 0),
            default [] (circ_contents ∘ pf_recv_buf <$> pf_objs (w_pf w) !! 0%nat))
  | _ => None
  end.

(** When a chunk ends exactly at the end of the ring's array, the next read
    of [circ_read] fails with [EAGAIN] and its result hides that bytes were
    read: [diag_data_recv] returns with a complete frame in the ring, which no
    client gets until the peripheral sends something else.  The same chunk
    anywhere else in the ring is delivered at once. *)
Lemma exact_fill_delays_message :
  delivered_and_waiting (diag_data_recv 4 0 8 never_fails (one_frame (HDLC_BUF_SIZE - 5))) =
    Some (0, [], hdlc_frame [0x60]) /\
  delivered_and_waiting (diag_data_recv 4 0 8 never_fails (one_frame 0)) =
    Some (0, [hdlc_frame [0x60]], []).
Proof. split; by vm_compute. Qed.
