(* ===== verification/Requests.v ===== *)
(** * Requests: from a monitor's ring to the router

    What [dm_recv_hdlc] does with the bytes of a ring: every complete request
    is handed to the router, in order; what follows the last one is dropped,
    because the decoder is a local variable. *)

From S2P Require Import Prelude CircBuf Hdlc Masks Queue Watch World Dm Cntl Peripheral AppCmds CommonCmds Router DmRecv DataPath.

(** ** The decoder writes a frame over what its buffer held *)

Lemma decode_loop_head fuel h raw b r h' b' :
  hdlc_decode_loop fuel h raw b = Done (r, h', b') -> cb_head b' = cb_head b.
Proof.
  revert h raw b. induction fuel as [|fuel IH]; intros h raw b; [done|]. cbn [hdlc_decode_loop].
  destruct (_ =? _); [congruence|]. destruct (mem_read _ _ _); [|done..]. cbn [mbind outcome_bind].
  destruct (_ =? _); [intros [= _ _ <-]; done|]. destruct (_ =? _); [by intros ->%IH|].
  destruct (mem_write _ _ _); [|done..]. by intros ->%IH.
Qed.

Lemma decode_loop_tail fuel h raw b flag h' b' :
  0 <= raw -> hdlc_decode_loop fuel h raw b = Done (flag, h', b') ->
  exists n, hd_raw h' = Some n /\ raw <= n /\
    drop (Z.to_nat n) (hd_raw_buf h') = drop (Z.to_nat n) (hd_raw_buf h).
Proof.
  revert h raw b. induction fuel as [|fuel IH]; intros h raw b Hraw; [done|]. cbn [hdlc_decode_loop].
  destruct (_ =? _); [intros [= <- <- <-]; eauto with lia|].
  destruct (mem_read _ _ _); [|done..]. cbn [mbind outcome_bind].
  destruct (_ =? _); [intros [= <- <- <-]; eauto with lia|].
  destruct (_ =? _); [intros E; by apply (IH _ _ _ Hraw) in E|].
  destruct (mem_write _ _ _) as [raw_buf| | |] eqn:Ew; [|done..]. cbn [mbind outcome_bind].
  intros E. apply IH in E as (n & E2 & Hn & E3); [|lia]. exists n. split; [done|]. split; [lia|].
  rewrite E3. cbn [hd_raw_buf]. unfold mem_write in Ew. destruct (in_object _ _ _) eqn:Eo; [|done]. injection Ew as <-.
  apply in_object_true in Eo as (_ & _ & Hlen). apply drop_splice; unfold zlen in *; cbn in *; lia.
Qed.

Lemma decode_one_head d b r d' b' : hdlc_decode_one d b = Done (r, d', b') -> cb_head b' = cb_head b.
Proof.
  unfold hdlc_decode_one. destruct (hdlc_decode_loop _ _ _ _) as [[[flag d1] b1]| | |] eqn:E; [|done..].
  cbn [mbind outcome_bind]. apply decode_loop_head in E. repeat case_match; congruence.
Qed.

(** One frame from a decoder that holds nothing. *)
Lemma decode_one_frame d b f esc rest :
  dec_state d [] 0 -> circ_wf b -> hdlc_scan [] 0 (circ_contents b) = Frame f esc rest ->
  2 <= zlen f <= HDLC_BUF_SIZE ->
  exists d' b', hdlc_decode_one d b = Done (Some (zlen f - 2), d', b') /\
    hd_raw_buf d' = splice (hd_raw_buf d) 0 f /\ hd_raw d' = Some 0 /\ hd_escape d' = 0 /\
    circ_wf b' /\ circ_contents b' = rest /\ cb_buf b' = cb_buf b /\ cb_head b' = cb_head b.
Proof.
  intros (Hd & Hacc & Hesc) Hb Hscan Hf. pose proof (zlen_dec_acc d Hd) as H0. rewrite Hacc in H0.
  change (zlen []) with 0 in H0. pose proof Hd as [Hl _].
  destruct (decode_loop_refines (Z.to_nat HDLC_BUF_SIZE) d 0 b) as (d1 & b1 & Hb1 & Hh1 & [n Hn] & H); [by split|done| | |].
  { pose proof (circ_used_range b). unfold HDLC_BUF_SIZE in *; lia. }
  { change (slice (hd_raw_buf d) 0 0) with (@nil Z). rewrite Hesc, Hscan. cbn. lia. }
  change (slice (hd_raw_buf d) 0 0) with (@nil Z) in H. rewrite Hesc, Hscan in H. destruct H as (E & (Hok & Ha & _) & Hc).
  pose proof (zlen_dec_acc d1 Hok) as Hz. rewrite Ha, Hn in Hz. cbn in Hz.
  pose proof E as E'. apply decode_loop_tail in E' as (n' & En & _ & Ht); [|lia]. rewrite Hn in En. injection En as <-.
  pose proof (decode_loop_buf _ _ _ _ _ _ _ E) as [Hbuf _].
  exists (HdlcDecoder (hd_raw_buf d1) (Some 0) 0), b1. unfold hdlc_decode_one. rewrite <- H0, E. cbn [mbind outcome_bind negb].
  rewrite Hn. cbn [default from_option id]. rewrite (proj2 (Z.eqb_neq n 0)) by lia. unfold HDLC_BUF_SIZE in Hf.
  rewrite u64_id, <- Hz by lia. split_and!; try done; try apply Hb1.
  cbn [hd_raw_buf]. unfold splice. cbn [take Z.to_nat app]. rewrite Z.add_0_l, Hz, <- Ht. unfold dec_acc in Ha. rewrite Hn in Ha.
  rewrite <- Ha. unfold slice. by rewrite drop_0, take_drop.
Qed.

(** ** The router keeps the request buffer's size *)

(** Whatever a computation returns satisfies [P]. *)
Definition yields {S A} (P : A -> Prop) (m : M S A) : Prop :=
  forall h s a h' s', m h s = Done (a, h', s') -> P a.

Lemma yields_ret {S A} (P : A -> Prop) (a : A) : P a -> yields P (mret a : M S A).
Proof. intros Ha h s b h' s' [= <- _ _]. done. Qed.

Lemma yields_with {S A B} (Q : A -> Prop) (P : B -> Prop) (m : M S A) (f : A -> M S B) :
  yields Q m -> (forall a, Q a -> yields P (f a)) -> yields P (m ≫= f).
Proof. intros Hm Hf h s b h' s' (a & h1 & s1 & E1 & E2)%bind_done_inv. eapply Hf; [by eapply Hm|exact E2]. Qed.

Lemma yields_bind {S A B} (P : B -> Prop) (m : M S A) (f : A -> M S B) :
  (forall a, yields P (f a)) -> yields P (m ≫= f).
Proof. intros Hf. apply (yields_with (fun _ => True)); [done|auto]. Qed.

Ltac yields_step :=
  first [ apply yields_bind; intros ? | progress cbv zeta | case_match | by apply yields_ret
        | intros ? ? ? ? ?; discriminate ].

(** The size of the request buffer. *)
Definition sized_as (buf : bytes) (r : Z * bytes) : Prop := zlen r.2 = zlen buf.

Lemma write_at_length b off src : yields (fun b' => zlen b' = zlen b) (write_at b off src).
Proof. intros h s b' h' s'. unfold write_at. intros (E & _ & _)%lift_shape. by apply mem_write_shape in E as (_ & _ & ?). Qed.

Lemma keep_buf_length buf m : yields (sized_as buf) (keep_buf buf m).
Proof. apply yields_bind. intros r. by apply yields_ret. Qed.

Lemma log_set_mask_length c buf len : yields (sized_as buf) (log_set_mask c buf len).
Proof.
  unfold log_set_mask. do 10 try yields_step.
  eapply yields_with; [apply write_at_length|]. intros buf' Hbuf'. repeat yields_step.
Qed.

Lemma run_handler_length hd c buf len : yields (sized_as buf) (run_handler hd c buf len).
Proof.
  destruct hd; cbn [run_handler]; try apply keep_buf_length. unfold handle_logging_configuration.
  apply yields_bind. intros op. repeat (case_match; [apply keep_buf_length || apply log_set_mask_length|]).
  by apply yields_ret.
Qed.

Lemma yields_weaken {S A} (P Q : A -> Prop) (m : M S A) : yields P m -> (forall a, P a -> Q a) -> yields Q m.
Proof. intros Hm HPQ h s a h' s' E. by eapply HPQ, Hm. Qed.

Lemma call_cb_length dc c buf len : yields (sized_as buf) (call_cb dc c buf len).
Proof. apply yields_bind. intros hd. apply run_handler_length. Qed.

Lemma dispatch_all_length key cmds c buf len n : yields (sized_as buf) (dispatch_all key cmds c buf len n).
Proof.
  revert buf n. induction cmds as [|dc cmds IH]; intros buf n; cbn [dispatch_all]; [by apply yields_ret|].
  destruct (negb _); [apply IH|]. eapply (yields_with (fun buf' => zlen buf' = zlen buf)).
  - destruct (dc_cb dc) as [hd|]; [|repeat yields_step].
    eapply yields_with; [apply run_handler_length|]. intros r Hr. by apply yields_ret.
  - intros buf' Hb. eapply yields_weaken; [apply IH|]. unfold sized_as. intros r. lia.
Qed.

Lemma dispatch_length c buf len : yields (sized_as buf) (diag_cmd_dispatch c buf len).
Proof.
  unfold diag_cmd_dispatch. do 2 yields_step. case_match; [apply call_cb_length|].
  eapply yields_with; [apply dispatch_all_length|]. intros [n buf'] Hb. unfold sized_as in *. cbn in Hb.
  case_match; [by apply yields_ret|]. apply yields_bind. intros w'. case_match; [|by apply yields_ret].
  eapply yields_weaken; [apply call_cb_length|]. unfold sized_as. intros r. lia.
Qed.

Lemma handle_command_length c buf len : yields (fun buf' => zlen buf' = zlen buf) (diag_client_handle_command c buf len).
Proof.
  unfold diag_client_handle_command. eapply yields_with; [apply dispatch_length|]. intros [ret buf'] Hb.
  repeat yields_step.
Qed.

(** ** The frames of a ring *)

(** What the program should do with requests [msgs]: hand them to the router
    one after the other.  Each is written, with its check sequence, over the
    start of the buffer the one before was handled in. *)
Fixpoint handle_requests (c : nat) (msgs : list bytes) (buf : bytes) : M world bytes :=
  match msgs with
  | [] => mret buf
  | m :: msgs =>
      buf ← diag_client_handle_command c (splice buf 0 (m ++ hdlc_fcs_of m)) (zlen m);
      handle_requests c msgs buf
  end.

Definition drained (b : circ_buf) : circ_buf := CircBuf (cb_buf b) (cb_head b) (cb_head b).

Lemma drained_id b b' :
  circ_wf b' -> circ_contents b' = [] -> cb_buf b' = cb_buf b -> cb_head b' = cb_head b -> b' = drained b.
Proof.
  intros Hb Hc E1 E2. assert (cb_tail b' = cb_head b') as Ht.
  { destruct (decide (cb_tail b' = cb_head b')) as [|Hne]; [done|].
    by destruct (circ_contents_pop b' Hb Hne) as (x & _ & E); rewrite E in Hc. }
  destruct b'; cbn in *. by subst.
Qed.

(** A stream without a flag has no frame and stays below its own length. *)
Lemma scan_no_flag acc esc s :
  0x7e ∉ s -> exists a e, hdlc_scan acc esc s = Pending a e /\ zlen a <= zlen acc + zlen s.
Proof.
  revert acc esc. induction s as [|ch s IH]; intros acc esc Hs; cbn [hdlc_scan].
  - exists acc, esc. split; [done|]. zlia.
  - apply not_elem_of_cons in Hs as [Hch Hs]. rewrite (proj2 (Z.eqb_neq ch 0x7e)) by congruence.
    destruct (ch =? 0x7d); edestruct IH as (a & e & E & Ha); try exact Hs; exists a, e; (split; [exact E|]); zlia.
Qed.

Lemma zlen_frame m : bytes_ok m -> zlen m + 3 <= zlen (hdlc_frame m).
Proof.
  intros Hm. rewrite hdlc_frame_eq, zlen_app. destruct (escaped_spec (m ++ hdlc_fcs_of m)) as (_ & H & _).
  - apply bytes_ok_app. split; [done|apply fcs_bytes_ok].
  - rewrite zlen_app in H. change (zlen (hdlc_fcs_of m)) with 2 in H. change (zlen [126]) with 1. lia.
Qed.

(** The decoder holds nothing. *)
Definition fresh_decoder (d : hdlc_decoder) : Prop := dec_ok d /\ default 0 (hd_raw d) = 0 /\ hd_escape d = 0.

Lemma fresh_dec_state d : fresh_decoder d -> dec_state d [] 0.
Proof. intros (Hd & Hraw & Hesc). split; [done|]. split; [|done]. unfold dec_acc. by rewrite Hraw. Qed.

Lemma recv_loop_in_order fuel c msgs partial d b h w :
  fresh_decoder d -> circ_wf b -> circ_contents b = (msgs ≫= hdlc_frame) ++ partial ->
  Forall bytes_ok msgs -> 0x7e ∉ partial -> (length msgs < fuel)%nat ->
  dm_recv_hdlc_loop fuel c d b h w = (_ ← handle_requests c msgs (hd_raw_buf d); mret (0, drained b)) h w.
Proof.
  revert msgs d b h w. induction fuel as [|fuel IH]; intros msgs d b h w Hd Hb Hc Hms Hp Hfuel; [lia|].
  assert (zlen (circ_contents b) < HDLC_BUF_SIZE) as Hlen by (rewrite zlen_circ_contents; pose proof (circ_used_range b); lia).
  pose proof (fresh_dec_state d Hd) as Hst. cbn [dm_recv_hdlc_loop]. destruct msgs as [|m msgs].
  - cbn [mbind list_bind app] in Hc. destruct (scan_no_flag [] 0 partial Hp) as (a & e & Hscan & Ha). change (zlen []) with 0 in Ha.
    destruct Hd as (Hdok & Hraw & Hesc). destruct Hst as (_ & Hacc & _).
    pose proof (hdlc_decode_one_ok d b Hdok Hb) as H. rewrite Hacc, Hesc, Hc, Hscan in H. rewrite Hc in Hlen.
    destruct H as (d' & b' & Hb' & E & _ & Hc'); [cbn; lia|]. pose proof (decode_one_buf _ _ _ _ _ E) as [E1 _].
    pose proof (decode_one_head _ _ _ _ _ E) as E2. erewrite bind_done by (unfold lift; rewrite E; reflexivity).
    cbv beta iota. rewrite (drained_id b b') by done. reflexivity.
  - cbn [mbind list_bind] in Hc. rewrite <- app_assoc in Hc. apply Forall_cons in Hms as [Hm Hms].
    pose proof (zlen_frame m Hm) as Hfr. rewrite Hc, zlen_app in Hlen. pose proof (zlen_nonneg ((msgs ≫= hdlc_frame) ++ partial)).
    pose proof (zlen_nonneg m).
    assert (zlen (m ++ hdlc_fcs_of m) = zlen m + 2) as Hf by (by rewrite zlen_app).
    destruct (decode_one_frame d b (m ++ hdlc_fcs_of m) 0 ((msgs ≫= hdlc_frame) ++ partial)) as
      (d' & b' & E & Er & Ern & Ere & Hb' & Hc' & E1 & E2); [done|done|by rewrite Hc, scan_frame|lia|].
    rewrite Hf, Z.add_simpl_r in E. erewrite bind_done by (unfold lift; rewrite E; reflexivity).
    cbv beta iota. rewrite Er. cbn [handle_requests].
    set (raw := splice (hd_raw_buf d) 0 (m ++ hdlc_fcs_of m)).
    unfold mbind, M_bind.
    destruct (diag_client_handle_command c raw (zlen m) h w) as [[[raw' h1] w1]| | |] eqn:Eh; [|done..].
    destruct Hd as ([Hl _] & _ & _). rewrite Ern, Ere.
    assert (zlen raw = HDLC_BUF_SIZE) as Hraw by (unfold raw; rewrite zlen_splice; lia).
    apply handle_command_length in Eh. rewrite (IH msgs).
    + unfold drained. rewrite E1, E2. reflexivity.
    + split; [|done]. split; [cbn; lia|]. cbn. unfold HDLC_BUF_SIZE. lia.
    + done.
    + done.
    + done.
    + done.
    + cbn in Hfuel. lia.
Qed.

(** ** From the descriptor to the ring *)

(** The state once a client's descriptor has been read into its ring. *)
Definition ring_filled (c : nat) (dm : diag_client) (f : list (Z + bytes)) (b : circ_buf) (w : world) : world :=
  over (fun s => DmState (alter (dm_with_buf b) c (dm_clients s)) (dm_bad_cmd_counter s))
    (over (fun e => Env (<[dm_in_fd dm := f]> (e_fds e)) (e_results e) (e_senders e) (e_udev e) (e_aio e)) w).

(** Filling the ring, then decoding it. *)
Lemma dm_recv_reads fuel c dm r f b h w :
  dm_clients (w_dm w) !! c = Some dm -> dm_encode_type dm = DIAG_ENCODE_HDLC \/ dm_encode_type dm = DIAG_ENCODE_NHDLC ->
  circ_read (fd_script (dm_in_fd dm) w) (dm_recv_buf dm) = Done (r, f, b) ->
  match r with inl errno => errno = EAGAIN | inr _ => True end ->
  dm_recv fuel c h w =
    (r ← dm_decode_data c b; _ ← upd_client c (dm_with_buf (r.2)); mret (r.1)) h (ring_filled c dm f b w).
Proof.
  intros Hc Henc Hread Hr. unfold dm_recv. erewrite bind_done by (by apply get_client_ok).
  assert (dm_encode_type dm =? DIAG_ENCODE_RAW = false) as -> by (by destruct Henc as [-> | ->]).
  assert ((dm_encode_type dm =? DIAG_ENCODE_HDLC) || (dm_encode_type dm =? DIAG_ENCODE_NHDLC) = true) as ->
    by (by destruct Henc as [-> | ->]).
  unfold dm_recv_encoded. erewrite bind_done by (by apply get_client_ok).
  erewrite bind_done.
  2:{ unfold sys_circ_read. apply zoom_done. unfold env_circ_read. cbn [view env_lens].
      change (default [] (e_fds (w_env w) !! dm_in_fd dm)) with (fd_script (dm_in_fd dm) w). rewrite Hread. reflexivity. }
  cbv beta iota. erewrite bind_done by reflexivity. by destruct r as [errno|n]; [subst errno|].
Qed.

(** ** Properties *)

(** C4 Requests in order: when an HDLC client's ring holds the frames of
    requests, [dm_recv] hands exactly these requests to the router, one after
    the other in the order they were sent, whatever each of them does, and
    leaves an empty ring.  What follows the last flag, the beginning of a
    request that has not arrived completely, is dropped: the next call starts
    with a fresh decoder. *)
Theorem dm_recv_in_order fuel c dm r f b msgs partial h w :
  dm_clients (w_dm w) !! c = Some dm -> dm_encode_type dm = DIAG_ENCODE_HDLC ->
  circ_read (default [] (e_fds (w_env w) !! dm_in_fd dm)) (dm_recv_buf dm) = Done (r, f, b) ->
  match r with inl errno => errno = EAGAIN | inr _ => True end ->
  circ_wf b -> circ_contents b = (msgs ≫= hdlc_frame) ++ partial -> Forall bytes_ok msgs -> 0x7e ∉ partial ->
  dm_recv fuel c h w =
    (_ ← handle_requests c msgs (replicate (Z.to_nat HDLC_BUF_SIZE) 0);
     _ ← upd_client c (dm_with_buf (drained b));
     mret 0) h (ring_filled c dm f b w).
Proof.
  intros Hc Henc Hread Hr Hb Hcont Hms Hp.
  rewrite (dm_recv_reads fuel c dm r f b) by (done || by left).
  unfold dm_decode_data. unfold mbind at 1, M_bind at 1. erewrite bind_done.
  2:{ apply get_client_ok. cbn. by rewrite list_lookup_alter_eq, Hc. }
  cbn [dm_encode_type dm_with_buf]. rewrite Henc, Z.eqb_refl. unfold dm_recv_hdlc.
  rewrite (recv_loop_in_order _ c msgs partial); try done.
  { unfold mbind, M_bind. by destruct (handle_requests _ _ _ _ _) as [[[? ?] ?]| | |]. }
  assert (forall ms, Forall bytes_ok ms -> 3 * Z.of_nat (length ms) <= zlen (ms ≫= hdlc_frame)) as Hlen.
  { induction 1 as [|m ms Hm Hms' IH]; [done|]. cbn [mbind list_bind length]. rewrite zlen_app.
    pose proof (zlen_frame m Hm). pose proof (zlen_nonneg m). lia. }
  specialize (Hlen msgs Hms). pose proof (circ_used_range b) as Hu. rewrite <- zlen_circ_contents, Hcont, zlen_app in Hu.
  pose proof (zlen_nonneg partial). unfold HDLC_BUF_SIZE in *. lia.
Qed.
