(* ===== verification/Nhdlc.v ===== *)
(** * Nhdlc: requests of a monitor that does not use HDLC

    [dm_recv_nhdlc] takes its packet from the start of the ring's array and
    leaves the ring's indices alone.  A ring that was empty has its first
    packet there, and keeps it there. *)

From S2P Require Import Prelude CircBuf Hdlc Masks Queue Watch World Dm Cntl Peripheral AppCmds CommonCmds Router DmRecv DataPath Requests.

(** ** A ring that was never read *)

Lemma circ_contents_start b : circ_wf b -> cb_tail b = 0 -> circ_contents b = slice (cb_buf b) 0 (cb_head b).
Proof.
  intros (Hl & Hh & _) Ht. unfold circ_contents, circ_used. rewrite Ht, Z.sub_0_r, Z.mod_small by lia.
  apply list_eq. intros k. unfold slice. rewrite drop_0, list_lookup_fmap. unfold HDLC_BUF_SIZE, zlen in *.
  destruct (decide (Z.of_nat k < cb_head b)).
  - rewrite lookup_seqZ_lt, lookup_take_lt by lia. cbn. unfold circ_at, HDLC_BUF_SIZE. rewrite Z.mod_small by lia.
    destruct (lookup_lt_is_Some_2 (cb_buf b) k) as [x Hx]; [lia|]. rewrite Hx. f_equal.
    apply list_lookup_total_correct. rewrite <- Hx. f_equal. lia.
  - rewrite lookup_seqZ_ge, lookup_take_ge by lia. done.
Qed.

(** The packet of [m] is the first thing in it. *)
Record jammed (m : bytes) (b : circ_buf) : Prop := {
  jm_wf : circ_wf b;
  jm_bytes : bytes_ok (cb_buf b);
  jm_tail : cb_tail b = 0;
  jm_frame : nhdlc_frame m `prefix_of` circ_contents b }.

Lemma jammed_object m b : jammed m b -> exists rest, circ_object b = nhdlc_frame m ++ rest.
Proof.
  intros [Hb _ Ht [x Hx]]. rewrite circ_contents_start in Hx by done. unfold circ_object, slice in *. rewrite drop_0 in Hx.
  rewrite <- (take_drop (Z.to_nat (cb_head b)) (cb_buf b)), Hx, <- !app_assoc. by eexists.
Qed.

(** Whatever else arrives goes behind it. *)
Lemma jammed_read m (f : list (Z + bytes)) b :
  jammed m b -> exists r f' b', circ_read f b = Done (r, f', b') /\ jammed m b' /\
    match r with inl errno => errno = script_errno f | inr _ => True end.
Proof.
  intros [Hb Hok Ht Hx].
  destruct (circ_read_loop_correct 3 f [] f b Hb Hok) as (r & f' & b' & d & E & Hb' & Hok' & Ht' & Hc & _);
    [unfold rounds; repeat case_match; lia|constructor|].
  destruct (circ_read_script f b Hb Hok) as (r2 & f2 & b2 & d2 & E2 & _ & _ & _ & _ & Hr). unfold circ_read in *.
  rewrite E in E2. injection E2 as <- <- <-. exists r, f', b'. split; [done|]. split.
  - split; try done; [congruence|]. rewrite Hc. by apply prefix_app_r.
  - by destruct r as [e|[]]; [destruct Hr as (_ & -> & _)|].
Qed.

(** A ring's bytes stand for the ring. *)
Lemma circ_of_object_id b : circ_wf b -> circ_of_object (circ_object b) = b.
Proof.
  intros (Hl & Hh & Ht). unfold circ_of_object, circ_object, HDLC_BUF_SIZE in *. destruct b as [buf head tail]. cbn [cb_buf cb_head cb_tail] in *.
  rewrite take_app_length' by (unfold zlen in Hl; lia).
  rewrite (slice_app_r buf _ 16384), (slice_app_r buf) by lia. rewrite Hl. change (16384 - 16384) with 0. change (16384 + 8 - 16384) with 8.
  rewrite slice_app_exact by done. rewrite slice_app_r by done. change (8 - zlen (le 8 head)) with 0.
  rewrite slice_0_all by done. rewrite !le_dec_le. rewrite !Z.mod_small by lia. done.
Qed.

(** ** A monitor that sends two requests

    The ring already holds the request 0x60, and 0x61 arrives; the router
    knows neither. *)

Definition first_request : circ_buf :=
  CircBuf (nhdlc_frame [0x60] ++ replicate (Z.to_nat (HDLC_BUF_SIZE - 6)) 0) 6 0.

Definition nhdlc_client : diag_client := DiagClient "UNIX" 3 5 DIAG_ENCODE_NHDLC false true first_request.

Definition two_requests : world :=
  over (fun _ => DmState [nhdlc_client] 0)
    (over (fun _ => Env {[3 := [inr (nhdlc_frame [0x61])]]} [] [] [] []) (one_frame 0)).

Lemma first_request_jammed : jammed [0x60] first_request.
Proof.
  assert (circ_wf first_request) as Hwf by (split; [by vm_compute|split; split; (done || by vm_compute)]).
  split; [done| |done|].
  - unfold first_request. cbn [cb_buf]. apply bytes_ok_app. split; [by repeat constructor|]. by apply Forall_replicate.
  - rewrite circ_contents_start by done. exists []. by vm_compute.
Qed.

(** The answers, and how much of the ring is taken, after two calls. *)
Example second_request_unheard :
  match (_ ← dm_recv 1 0; dm_recv 1 0) never_fails two_requests with
  | Done (_, _, w) => (payloads (w_queues w) (QClient 0), circ_used ∘ dm_recv_buf <$> dm_clients (w_dm w))
  | _ => ([], [])
  end = ([nhdlc_frame [0x13; 0x60]; nhdlc_frame [0x13; 0x60]], [12]).
Proof. by vm_compute. Qed.

(** ** Properties *)

(** C18 A monitor that does not use HDLC is heard once: when the first packet
    of its ring is one with a message [m], every call of [dm_recv], whatever
    has arrived since, hands [m] to the router again, and nothing else.  The
    handler works in the ring itself; as far as it leaves its buffer as it was,
    the ring is left as it was read, with the same packet at its start. *)
Theorem nhdlc_request_repeats fuel c dm m h w :
  dm_clients (w_dm w) !! c = Some dm -> dm_encode_type dm = DIAG_ENCODE_NHDLC ->
  jammed m (dm_recv_buf dm) -> zlen m < 2 ^ 16 -> script_errno (fd_script (dm_in_fd dm) w) = EAGAIN ->
  exists f b rest, jammed m b /\
    dm_recv fuel c h w =
      (data ← diag_client_handle_command c (m ++ rest) (zlen m);
       _ ← upd_client c (dm_with_buf (circ_of_object (pkt_frame_header (zlen m) ++ data)));
       mret 0) h (ring_filled c dm f b w) /\
    circ_of_object (pkt_frame_header (zlen m) ++ m ++ rest) = b.
Proof.
  intros Hc Henc Hj Hm Herr.
  destruct (jammed_read m (fd_script (dm_in_fd dm) w) _ Hj) as (r & f & b & E & Hb & Hr).
  destruct (jammed_object m b Hb) as [tl Etl]. exists f, b, (NHDLC_CONTROL_CHAR :: tl). split; [done|].
  assert (circ_object b = pkt_frame_header (zlen m) ++ m ++ NHDLC_CONTROL_CHAR :: tl) as Eobj.
  { rewrite Etl. unfold nhdlc_frame. by rewrite <- !app_assoc. }
  split; [|by rewrite <- Eobj; apply circ_of_object_id, Hb].
  assert (match r with inl errno => errno = EAGAIN | inr _ => True end) as Hr' by (by destruct r; [rewrite Hr|]).
  rewrite (dm_recv_reads fuel c dm r f b) by (done || by right).
  unfold dm_decode_data. unfold mbind at 1, M_bind at 1. erewrite bind_done.
  2:{ apply get_client_ok. cbn. by rewrite list_lookup_alter_eq, Hc. }
  cbn [dm_encode_type dm_with_buf]. rewrite Henc. change (DIAG_ENCODE_NHDLC =? DIAG_ENCODE_HDLC) with false. rewrite Z.eqb_refl.
  destruct (nhdlc_frame_reads m tl Hm) as (R0 & _ & R2 & R3). rewrite <- Etl in R0, R2, R3.
  unfold dm_recv_nhdlc. erewrite bind_done.
  2:{ unfold lift, dm_check_nhdlc_pkt, sizeof_pkt_frame. rewrite R0. cbn [mbind outcome_bind negb Z.eqb Pos.eqb].
      rewrite R2. cbn [mbind outcome_bind]. rewrite R3. reflexivity. }
  cbn [negb Z.eqb]. erewrite bind_done by done. erewrite bind_done by (unfold lift; rewrite R2; reflexivity).
  assert (Z.to_nat sizeof_pkt_frame = length (pkt_frame_header (zlen m))) as Ehdr by done.
  rewrite Eobj, Ehdr, drop_app_length, take_app_length. unfold mbind, M_bind.
  by destruct (diag_client_handle_command _ _ _ _ _) as [[[data h1] w1]| | |].
Qed.

Lemma nhdlc_request_repeats_witness :
  exists f b rest, jammed [0x60] b /\
    dm_recv 1 0 never_fails two_requests =
      (data ← diag_client_handle_command 0 ([0x60] ++ rest) 1;
       _ ← upd_client 0 (dm_with_buf (circ_of_object (pkt_frame_header 1 ++ data)));
       mret 0) never_fails (ring_filled 0 nhdlc_client f b two_requests).
Proof.
  destruct (nhdlc_request_repeats 1 0 nhdlc_client [0x60] never_fails two_requests eq_refl eq_refl first_request_jammed
    ltac:(by vm_compute) eq_refl) as (f & b & rest & Hb & E & _).
  exists f, b, rest. split; [exact Hb|exact E].
Defined.
