(* ===== verification/QrtrProps.v ===== *)
(** * QrtrProps: a QRTR peripheral's data socket

    The socket receives datagrams: non-HDLC frames from the peripheral, and
    control packets.  Its specification is a session that is open or not and
    has heard messages. *)

From S2P Require Import Prelude CircBuf Hdlc Masks Queue Watch World Dm Cntl CntlProps Peripheral Devnode Qrtr MaskTables DataPath Hotplug.

(** ** What a datagram says *)

(** The message of the non-HDLC frame a datagram starts with. *)
Definition nhdlc_payload (d : bytes) : option bytes :=
  match non_hdlc_check d (zlen d) with
  | Done (Some n) => Some (slice d sizeof_pkt_frame n)
  | _ => None
  end.

(** The check does not depend on what the receive buffer held before. *)
Lemma rd_prefix n a b off z : rd n a off = Done z -> rd n (a ++ b) off = Done z.
Proof.
  unfold rd. destruct (mem_read a off (Z.of_nat n)) as [x| | |] eqn:E; [|done..]. intros Hz.
  apply mem_read_shape in E as (H1 & H2 & H3 & ->). pose proof (zlen_nonneg b).
  rewrite mem_read_ok by (rewrite ?zlen_app; lia). by rewrite slice_app_l by lia.
Qed.

Lemma non_hdlc_check_prefix d junk :
  bytes_ok d -> bytes_ok junk -> 4 <= zlen (d ++ junk) -> zlen d < 2 ^ 63 ->
  exists r, non_hdlc_check (d ++ junk) (zlen d) = Done r /\
    match r with
    | Some n => nhdlc_payload d = Some (slice d sizeof_pkt_frame n) /\ 0 <= n < 2 ^ 16 /\ sizeof_pkt_frame + n + 1 <= zlen d
    | None => nhdlc_payload d = None
    end.
Proof.
  intros Hd Hj H4 Hn. pose proof (zlen_nonneg d) as H0. unfold nhdlc_payload, sizeof_pkt_frame.
  destruct (decide (zlen d < 5)) as [Hs|Hs].
  - assert (match non_hdlc_check d (zlen d) with Done (Some n) => Some (slice d 4 n) | _ => None end = None) as ->.
    { unfold non_hdlc_check, sizeof_pkt_frame. destruct (rd 1 d 0); [|done..]. cbn [mbind outcome_bind]. destruct (negb _); [done|].
      destruct (rd 1 d 1); [|done..]. cbn [mbind outcome_bind]. destruct (negb _); [done|].
      destruct (rd 2 d 2) as [z| | |] eqn:Ez; [|done..]. cbn [mbind outcome_bind].
      apply rd_range in Ez; [|done]. rewrite u64_id by lia. by destruct (Z.ltb_spec (zlen d) (4 + z + 1)); [|lia]. }
    exists None. split; [|done]. unfold non_hdlc_check, sizeof_pkt_frame.
    destruct (rd_done 1 (d ++ junk) 0 ltac:(lia) ltac:(lia)) as (z0 & -> & _). cbn [mbind outcome_bind]. destruct (negb _); [done|].
    destruct (rd_done 1 (d ++ junk) 1 ltac:(lia) ltac:(lia)) as (z1 & -> & _). cbn [mbind outcome_bind]. destruct (negb _); [done|].
    destruct (rd_done 2 (d ++ junk) 2 ltac:(lia) ltac:(lia)) as (z2 & -> & Hz2). cbn [mbind outcome_bind].
    specialize (Hz2 ltac:(by apply bytes_ok_app)). rewrite u64_id by lia.
    by destruct (Z.ltb_spec (zlen d) (4 + z2 + 1)); [|lia].
  - assert (non_hdlc_check (d ++ junk) (zlen d) = non_hdlc_check d (zlen d) /\
      exists r, non_hdlc_check d (zlen d) = Done r /\
        forall n, r = Some n -> 0 <= n < 2 ^ 16 /\ 4 + n + 1 <= zlen d) as (E & r & Er & Hr).
    { unfold non_hdlc_check, sizeof_pkt_frame.
      destruct (rd_done 1 d 0 ltac:(lia) ltac:(lia)) as (z0 & E0 & _). rewrite E0, (rd_prefix _ _ _ _ _ E0). cbn [mbind outcome_bind].
      destruct (negb _); [by split; [|eexists]|].
      destruct (rd_done 1 d 1 ltac:(lia) ltac:(lia)) as (z1 & E1 & _). rewrite E1, (rd_prefix _ _ _ _ _ E1). cbn [mbind outcome_bind].
      destruct (negb _); [by split; [|eexists]|].
      destruct (rd_done 2 d 2 ltac:(lia) ltac:(lia)) as (z2 & E2 & Hz2). rewrite E2, (rd_prefix _ _ _ _ _ E2). cbn [mbind outcome_bind].
      specialize (Hz2 Hd). rewrite u64_id by lia. destruct (Z.ltb_spec (zlen d) (4 + z2 + 1)); [by split; [|eexists]|].
      destruct (rd_done 1 d (4 + z2) ltac:(lia) ltac:(lia)) as (z3 & E3 & _). rewrite E3, (rd_prefix _ _ _ _ _ E3). cbn [mbind outcome_bind].
      destruct (negb _); (split; [done|]; eexists; split; [done|]); intros n [= <-]. lia. }
    exists r. rewrite E, Er. split; [done|]. destruct r as [n|]; [|done]. split; [done|]. by apply Hr.
Qed.

Lemma rd_slice_le n d off z : bytes_ok d -> rd n d off = Done z -> 0 <= off /\ slice d off (Z.of_nat n) = le n z.
Proof.
  intros Hd. unfold rd. destruct (mem_read d off (Z.of_nat n)) as [x| | |] eqn:E; [|done..]. intros [= <-].
  apply mem_read_shape in E as (H1 & H2 & H3 & ->). split; [lia|].
  pose proof (zlen_slice d off (Z.of_nat n) ltac:(lia) ltac:(lia) ltac:(lia)) as Hz.
  rewrite <- (le_le_dec (slice d off (Z.of_nat n))) at 1 by auto with diag. f_equal. unfold zlen in Hz. lia.
Qed.

Lemma drop_slice (d : bytes) off n : 0 <= off -> 0 <= n -> drop (Z.to_nat off) d = slice d off n ++ drop (Z.to_nat (off + n)) d.
Proof.
  intros. unfold slice. rewrite <- (take_drop (Z.to_nat n) (drop (Z.to_nat off) d)) at 1. rewrite drop_drop. do 2 f_equal. lia.
Qed.

(** The message is the one of the frame the datagram starts with. *)
Lemma nhdlc_payload_spec d m :
  bytes_ok d -> zlen d < 2 ^ 63 ->
  nhdlc_payload d = Some m <-> zlen m < 2 ^ 16 /\ nhdlc_frame m `prefix_of` d.
Proof.
  intros Hd Hn. pose proof (zlen_nonneg d). split.
  - unfold nhdlc_payload. destruct (non_hdlc_check d (zlen d)) as [[n|]| | |] eqn:E; [|done..]. intros [= <-].
    revert E. unfold non_hdlc_check, sizeof_pkt_frame.
    destruct (rd 1 d 0) as [z0| | |] eqn:E0; [|done..]. cbn [mbind outcome_bind].
    destruct (Z.eqb_spec z0 126) as [->|]; [|done]. cbn [negb].
    destruct (rd 1 d 1) as [z1| | |] eqn:E1; [|done..]. cbn [mbind outcome_bind].
    destruct (Z.eqb_spec z1 1) as [->|]; [|done]. cbn [negb].
    destruct (rd 2 d 2) as [z2| | |] eqn:E2; [|done..]. cbn [mbind outcome_bind].
    pose proof (rd_range _ _ _ _ Hd E2). rewrite u64_id by lia. destruct (Z.ltb_spec (zlen d) (4 + z2 + 1)); [done|].
    destruct (rd 1 d (4 + z2)) as [z3| | |] eqn:E3; [|done..]. cbn [mbind outcome_bind].
    destruct (Z.eqb_spec z3 126) as [->|]; [|done]. cbn [negb]. intros [= <-].
    rewrite (zlen_slice d 4 z2) by lia. split; [lia|].
    apply rd_slice_le in E0 as [_ E0], E1 as [_ E1], E2 as [_ E2], E3 as [_ E3]; [|done..].
    exists (drop (Z.to_nat (4 + z2 + 1)) d). rewrite nhdlc_frame_fields, zlen_slice by lia.
    transitivity (drop (Z.to_nat 0) d); [by rewrite drop_0|].
    rewrite (drop_slice d 0 1), (drop_slice d (0 + 1) 1), (drop_slice d (0 + 1 + 1) 2), (drop_slice d (0 + 1 + 1 + 2) z2),
      (drop_slice d (0 + 1 + 1 + 2 + z2) 1) by lia.
    change (0 + 1 + 1 + 2) with 4. change (0 + 1 + 1) with 2. change (0 + 1) with 1.
    change (Z.of_nat 1) with 1 in *. change (Z.of_nat 2) with 2 in *. by rewrite E0, E1, E2, E3.
  - intros [Hm [rest ->]].
    destruct (nhdlc_frame_checks m rest (zlen (nhdlc_frame m ++ rest)) Hm) as [Hs Hc]; [lia|].
    unfold nhdlc_payload. rewrite Hc. rewrite zlen_app. pose proof (zlen_nonneg rest).
    rewrite (proj2 (Z.leb_le _ _)) by lia. by rewrite Hs.
Qed.

(** ** The session *)

(** The port that announces what becomes of the sockets. *)
Definition QRTR_PORT_CTRL : Z := 0xfffffffe.

(** The size of a control packet, and the words that say what it is about. *)
Definition sizeof_qrtr_ctrl_pkt : Z := 20.

Definition ctrl_type (word : Z) : option qrtr_type :=
  if word =? 3 then Some QRTR_TYPE_BYE
  else if word =? 4 then Some QRTR_TYPE_NEW_SERVER
  else if word =? 5 then Some QRTR_TYPE_DEL_SERVER
  else if word =? 6 then Some QRTR_TYPE_DEL_CLIENT
  else None.

(** What libqrtr documents: a datagram from any port but the control port is
    data, all of it. *)
Record qrtr_lib (dec : bytes -> Z -> Z * Z -> Z + qrtr_packet) : Prop := {
  ql_data buf n a : a.2 <> QRTR_PORT_CTRL -> dec buf n a = inr (QrtrPacket QRTR_TYPE_DATA a.1 a.2 0 n) }.

(** From the control port, a datagram that is too short is refused, and
    another one is a control packet of the type its first word says; one with
    a word the library does not know is refused or passed on as such. *)
Record qrtr_lib_control (dec : bytes -> Z -> Z * Z -> Z + qrtr_packet) : Prop := {
  ql_short buf n a : a.2 = QRTR_PORT_CTRL -> n < sizeof_qrtr_ctrl_pkt -> exists e, dec buf n a = inl e /\ e < 0;
  ql_known buf n a word t : a.2 = QRTR_PORT_CTRL -> sizeof_qrtr_ctrl_pkt <= n -> rd 4 buf 0 = Done word ->
    ctrl_type word = Some t -> exists node port, dec buf n a = inr (QrtrPacket t node port 0 n);
  ql_unknown buf n a word : a.2 = QRTR_PORT_CTRL -> sizeof_qrtr_ctrl_pkt <= n -> rd 4 buf 0 = Done word ->
    ctrl_type word = None ->
    (exists e, dec buf n a = inl e /\ e < 0) \/
    (exists node port, dec buf n a = inr (QrtrPacket QRTR_TYPE_OTHER node port 0 n)) }.

(** A sender and its datagram, of the size [recvfrom] hands over at most. *)
Definition datagram : Type := Z * Z * bytes.

Definition datagram_ok (e : datagram) : Prop := bytes_ok e.2 /\ zlen e.2 <= 4096.

(** What a datagram is. *)
Inductive said : Type := SaysData | SaysControl (word : Z) | SaysNothing.

Definition says (e : datagram) : said :=
  if negb (e.1.2 =? QRTR_PORT_CTRL) then SaysData
  else if zlen e.2 <? sizeof_qrtr_ctrl_pkt then SaysNothing
  else SaysControl (le_dec (slice e.2 0 4)).

Record session := Session { se_open : bool; se_heard : list bytes }.

(** Data opens the session and may hold a message; the goodbye packet closes
    it; no other control packet matters. *)
Definition hear (s : session) (e : datagram) : session :=
  match says e with
  | SaysData => Session true (se_heard s ++ option_list (nhdlc_payload e.2))
  | SaysControl word => if word =? 3 then Session false (se_heard s) else s
  | SaysNothing => s
  end.

(** The callback's result: the decoder's errno for what it refuses, 0 for
    everything else. *)
Definition returns (e : datagram) (ret : Z) : Prop :=
  match says e with
  | SaysData => ret = 0
  | SaysControl word => match ctrl_type word with Some _ => ret = 0 | None => ret <= 0 end
  | SaysNothing => ret < 0
  end.

(** How the program has a session of peripheral [p]: the flag and the write
    watch on the socket, which is there exactly when the session is open, and
    the clients' queues. *)
Record talking (w0 : world) (p : nat) (fd : Z) (base : list watch) (s : session) (w : world) : Prop := {
  tk_perif : exists perif, pf_objs (w_pf w) !! p = Some perif /\ pf_data_fd perif = fd /\
    pf_data_open perif = se_open s /\ flow_ok (pf_flow perif) (w_queues w);
  tk_aio : exists id, ws_aio (w_watches w) =
    base ++ (if se_open s then [Watch id fd CbFreeWriteAio (Some (QData p)) None true None] else []);
  tk_dm : w_dm w = w_dm w0;
  tk_clients c dm : dm_clients (w_dm w0) !! c = Some dm ->
    payloads (w_queues w) (QClient c) = payloads (w_queues w0) (QClient c) ++
      (if dm_enabled dm then encoded (dm_encode_type dm) <$> se_heard s else []);
  tk_queues q : (forall c, q <> QClient c) -> payloads (w_queues w) q = payloads (w_queues w0) q }.

(** Receiving a datagram. *)
Definition after_datagram (fd : Z) (f : list (Z + bytes)) (l : list (Z * Z)) : world -> world :=
  over (fun e => Env (<[fd := f]> (e_fds e)) (e_results e) l (e_udev e) (e_aio e)).

Lemma recvfrom_ok fd n d f a l h w :
  fd_script fd w = inr d :: f -> e_senders (w_env w) = a :: l -> bytes_ok d -> zlen d <= n ->
  sys_recvfrom fd n h w = Done ((inr d, a), h, after_datagram fd f l w).
Proof.
  intros Hf Hl Hd Hn. unfold sys_recvfrom. erewrite bind_done.
  2:{ unfold sys_read. apply zoom_done. unfold env_read. cbn [view env_lens]. fold (fd_script fd w). rewrite Hf. cbn [fd_read script_fd script_read].
      rewrite (proj2 (Z.leb_le _ _)) by done. reflexivity. }
  erewrite bind_done.
  2:{ apply zoom_done. unfold env_sender. cbn [view over env_lens w_env e_senders]. rewrite Hl. reflexivity. }
  by rewrite u8_bytes.
Qed.

(** A datagram in the middle of junk. *)
Lemma datagram_buffer d h (w : world) :
  bytes_ok d -> zlen d <= 4096 ->
  exists buf junk, stack 4096 h w = Done (buf, tick h, w) /\ mem_write buf 0 d = Done (d ++ junk) /\
    bytes_ok junk /\ zlen (d ++ junk) = 4096.
Proof.
  intros Hd Hn. destruct (stack_ok 4096 h w) as (buf & E & Hb & Hl). exists buf, (drop (length d) buf).
  specialize (Hl ltac:(lia)). split; [done|]. split.
  - rewrite mem_write_ok by lia. unfold splice, zlen. f_equal. change (Z.to_nat 0) with 0%nat. rewrite take_0. cbn [app]. do 2 f_equal. lia.
  - split; [by apply Forall_drop|]. rewrite zlen_app. unfold zlen in *. rewrite length_drop. lia.
Qed.

(** Opening the session at the first datagram. *)
Lemma talking_open w0 p fd base s w perif h :
  talking w0 p fd base s w -> pf_objs (w_pf w) !! p = Some perif -> alloc_ok h ->
  exists k w', (if negb (pf_data_open perif) then
      _ ← sys_call;
      _ ← upd_perif p (fun q => pf_with_open (pf_cntl_open q) true q);
      _ ← zoom (watch_add_writeq (pf_data_fd perif) (QData p)); mret tt
    else mret tt) h w = Done (tt, steps k h, w') /\ talking w0 p fd base (Session true (se_heard s)) w' /\
    w_queues w' = w_queues w /\ e_fds (w_env w') = e_fds (w_env w) /\ e_senders (w_env w') = e_senders (w_env w).
Proof.
  intros Ht Hp Hh. pose proof Ht as [(perif' & Hp' & Hfd & Ho & Hf) [id Ha] Hd Hc Hq]. rewrite Hp in Hp'. injection Hp' as <-.
  rewrite Ho. destruct (se_open s) eqn:Es; cbn [negb].
  { exists 0%nat, w. split; [by destruct h|]. split; [|done]. split; try done; [by exists perif|by exists id]. }
  erewrite bind_done by apply sys_call_ok. erewrite bind_done by (by apply upd_perif_ok).
  erewrite bind_done by (by apply zoom_done, watch_add_writeq_ok). exists 1%nat. eexists. split; [done|]. split; [|done]. split; try done.
  - exists (pf_with_open (pf_cntl_open perif) true perif). cbn. by rewrite lookup_insert_eq.
  - exists (ws_fresh (w_watches w)). cbn. by rewrite Ha, app_nil_r, Hfd.
Qed.

(** A datagram in a receive buffer: the message of its frame for every client. *)
Lemma qrtr_frame_delivers d junk pkt flow h w :
  (forall c dm, dm_clients (w_dm w) !! c = Some dm -> client_ok dm) ->
  flow_ok flow (w_queues w) -> alloc_ok h -> bytes_ok d -> bytes_ok junk -> 4 <= zlen (d ++ junk) -> zlen (d ++ junk) < 2 ^ 61 ->
  qp_data pkt = 0 -> qp_data_len pkt = zlen d ->
  exists k, qrtr_frame (d ++ junk) pkt flow h w = Done (0, steps k h,
    match nhdlc_payload d with
    | Some m => with_queues (foldl (deliver (dm_clients (w_dm w)) flow m) (w_queues w) (seq 0 (length (dm_clients (w_dm w))))) w
    | None => w
    end).
Proof.
  intros Hok Hf Hh Hd Hj Hz Hz' Ho Hn. unfold qrtr_frame. rewrite Ho, Hn, drop_0. cbv zeta.
  pose proof (zlen_nonneg junk). pose proof (zlen_nonneg d). pose proof Hz as Hl. rewrite zlen_app in Hl, Hz'.
  destruct (non_hdlc_check_prefix d junk) as (r & E & Hr); try done; [lia|].
  erewrite bind_done by (unfold lift; rewrite E; reflexivity). destruct r as [n|].
  2:{ exists 0%nat. rewrite Hr. by destruct h. }
  destruct Hr as (Hpay & Hn1 & Hn2). unfold sizeof_pkt_frame in *.
  assert (zlen (drop (Z.to_nat 4) (d ++ junk)) = zlen d + zlen junk - 4) as Hdrop by (unfold zlen in *; rewrite length_drop, length_app; lia).
  assert (slice (drop (Z.to_nat 4) (d ++ junk)) 0 n = slice d 4 n) as Hs.
  { transitivity (slice (d ++ junk) 4 n); [unfold slice; by rewrite drop_0|]. by rewrite slice_app_l by lia. }
  destruct (dm_broadcast_ok (drop (Z.to_nat 4) (d ++ junk)) n flow h w) as [k Ek]; try done; try lia.
  { rewrite Hs. auto with diag. }
  erewrite bind_done by exact Ek. rewrite Hs, Hpay. by exists k.
Qed.

(** What that leaves in the queues. *)
Lemma heard_clients dms flow s m c dm :
  dms !! c = Some dm ->
  payloads (foldl (deliver dms flow m) s (seq 0 (length dms))) (QClient c) =
    payloads s (QClient c) ++ (if dm_enabled dm then [encoded (dm_encode_type dm) m] else []).
Proof. intros Hc. rewrite payloads_deliver_all, Hc, decide_True by (by eapply lookup_lt_Some). by destruct (dm_enabled dm). Qed.

Lemma heard_others dms flow s m q :
  (forall c, q <> QClient c) -> payloads (foldl (deliver dms flow m) s (seq 0 (length dms))) q = payloads s q.
Proof. intros Hne. rewrite payloads_deliver_all. destruct q; try (by rewrite app_nil_r). by destruct (Hne client). Qed.

(** Handing its message to the clients. *)
Lemma talking_frame w0 p fd base l w d junk pkt flow h :
  talking w0 p fd base (Session true l) w -> (forall c dm, dm_clients (w_dm w0) !! c = Some dm -> client_ok dm) ->
  flow_ok flow (w_queues w) -> alloc_ok h -> bytes_ok d -> bytes_ok junk -> zlen (d ++ junk) = 4096 ->
  qp_data pkt = 0 -> qp_data_len pkt = zlen d ->
  exists k w', qrtr_frame (d ++ junk) pkt flow h w = Done (0, steps k h, w') /\
    talking w0 p fd base (Session true (l ++ option_list (nhdlc_payload d))) w' /\ w_env w' = w_env w.
Proof.
  intros Ht Hok Hf Hh Hd Hj Hz Ho Hn. pose proof Ht as [(perif & Hp & Hfd & Hop & Hpf) Ha Hdm Hc Hq].
  destruct (qrtr_frame_delivers d junk pkt flow h w) as [k E]; try done; try lia; [by rewrite Hdm|].
  exists k. eexists. split; [exact E|]. destruct (nhdlc_payload d) as [m|]; [|by rewrite app_nil_r]. split; [|done]. split; try done.
  - exists perif. split_and!; try done. by apply flow_ok_deliver_all.
  - intros c dm Hdmc. cbn. rewrite Hdm, (heard_clients _ _ _ _ _ _ Hdmc), (Hc c dm Hdmc), <- app_assoc. cbn.
    by destruct (dm_enabled dm); rewrite ?fmap_app.
  - intros q Hne. cbn. by rewrite heard_others, (Hq q Hne).
Qed.

Lemma talking_close w0 p fd base s w perif h :
  talking w0 p fd base s w -> pf_objs (w_pf w) !! p = Some perif -> Forall (not_fd fd) base ->
  exists w', (_ ← zoom (watch_remove_writeq (pf_data_fd perif));
      _ ← upd_perif p (fun q => pf_with_open (pf_cntl_open q) false q); mret 0) h w = Done (0, h, w') /\
    talking w0 p fd base (Session false (se_heard s)) w' /\ w_env w' = w_env w.
Proof.
  intros [(perif' & Hp' & Hfd & Ho & Hf) [id Ha] Hd Hc Hq] Hp Hb. rewrite Hp in Hp'. injection Hp' as <-.
  erewrite bind_done by done. erewrite bind_done by (by apply upd_perif_ok). eexists. split; [done|]. split; [|done]. split; try done.
  - exists (pf_with_open (pf_cntl_open perif) false perif). cbn. by rewrite lookup_insert_eq.
  - exists id. cbn. rewrite Ha, Hfd, filter_app, app_nil_r.
    assert (filter (not_fd fd) base = base) as -> by by apply filter_all.
    destruct (se_open s); [|by rewrite filter_nil, app_nil_r]. rewrite filter_cons, filter_nil, decide_False by (intros H; by apply H).
    by rewrite app_nil_r.
Qed.

Section session.
Context (dec : bytes -> Z -> Z * Z -> Z + qrtr_packet) (Hdec : qrtr_lib dec) (Hctl : qrtr_lib_control dec).
Context (w0 : world) (p : nat) (fd : Z) (base : list watch).
Context (Hok : forall c dm, dm_clients (w_dm w0) !! c = Some dm -> client_ok dm) (Hbase : Forall (not_fd fd) base).

(** What the decoder makes of a datagram from the control port. *)
Lemma control_decoded d junk a :
  a.2 = QRTR_PORT_CTRL ->
  (exists e, dec (d ++ junk) (zlen d) a = inl e /\ returns (a, d) e /\ forall s, hear s (a, d) = s) \/
  (exists t node port, dec (d ++ junk) (zlen d) a = inr (QrtrPacket t node port 0 (zlen d)) /\
    returns (a, d) 0 /\ t <> QRTR_TYPE_DATA /\
    forall s, hear s (a, d) = match t with QRTR_TYPE_BYE => Session false (se_heard s) | _ => s end).
Proof.
  intros Ha. unfold hear, returns, says. cbn [fst snd]. rewrite Ha, Z.eqb_refl. cbn [negb].
  destruct (Z.ltb_spec (zlen d) sizeof_qrtr_ctrl_pkt) as [Hs|Hs].
  { left. destruct (ql_short dec Hctl (d ++ junk) (zlen d) a Ha Hs) as (e & Ee & He). by exists e. }
  set (word := le_dec (slice d 0 4)).
  assert (rd 4 (d ++ junk) 0 = Done word) as Hw.
  { apply rd_prefix. unfold rd. unfold sizeof_qrtr_ctrl_pkt in Hs. by rewrite mem_read_ok by lia. }
  clearbody word. destruct (ctrl_type word) as [t|] eqn:Et.
  - right. destruct (ql_known dec Hctl _ _ a word t Ha Hs Hw Et) as (node & port & Ed). exists t, node, port.
    split; [exact Ed|]. split; [done|]. unfold ctrl_type in Et.
    destruct (word =? 3); [by injection Et as <-|]. by repeat case_match; try done; injection Et as <-.
  - assert (word =? 3 = false) as -> by (unfold ctrl_type in Et; by destruct (word =? 3)).
    destruct (ql_unknown dec Hctl _ _ a word Ha Hs Hw Et) as [(e & Ed & He)|(node & port & Ed)].
    + left. exists e. split_and!; [done|lia|done].
    + right. by exists QRTR_TYPE_OTHER, node, port.
Qed.

Lemma session_step s e f l h w :
  talking w0 p fd base s w -> datagram_ok e -> fd_script fd w = inr e.2 :: f -> e_senders (w_env w) = e.1 :: l -> alloc_ok h ->
  exists ret k w', qrtr_data_recv dec p fd h w = Done (ret, steps k h, w') /\ returns e ret /\
    talking w0 p fd base (hear s e) w' /\ fd_script fd w' = f /\ e_senders (w_env w') = l.
Proof.
  intros Ht (Hd & Hn) Hf Hl Hh. destruct e as [a d]. cbn [fst snd] in *.
  destruct (datagram_buffer d h w Hd Hn) as (buf & junk & Eb & Ew & Hj & Hz). unfold qrtr_data_recv. erewrite bind_done by exact Eb.
  erewrite bind_done by (by apply recvfrom_ok). cbv beta iota. set (w1 := after_datagram fd f l w).
  erewrite bind_done by (unfold lift; rewrite Ew; reflexivity).
  assert (talking w0 p fd base s w1 /\ fd_script fd w1 = f /\ e_senders (w_env w1) = l) as (Ht1 & Hf1 & Hl1).
  { split; [by destruct Ht|]. split; [|done]. unfold fd_script. cbn. by rewrite lookup_insert_eq. }
  clearbody w1. clear Ht Hf Hl. pose proof Ht1 as [(perif & Hp & Hfd & Hop & Hpf) _ _ _ _]. cbv zeta.
  destruct (Z.eqb_spec a.2 QRTR_PORT_CTRL) as [Ha|Ha].
  - destruct (control_decoded d junk a Ha) as [(e & -> & Hret & Hhear)|(t & node & port & -> & Hret & Hne & Hhear)].
    { exists e, 1%nat, w1. by rewrite Hhear. }
    cbn [qp_type]. rewrite Hhear. exists 0, 1%nat. destruct t; try done; try (by exists w1).
    erewrite bind_done by (by apply get_perif_ok).
    destruct (talking_close w0 p fd base s w1 perif (tick h) Ht1 Hp Hbase) as (w2 & E2 & H2 & He2).
    exists w2. split; [exact E2|]. split; [done|]. split; [done|]. unfold fd_script in *. by rewrite He2.
  - rewrite (ql_data dec Hdec (d ++ junk) (zlen d) a Ha). cbn [qp_type]. erewrite bind_done by (by apply get_perif_ok).
    destruct (talking_open w0 p fd base s w1 perif (tick h) Ht1 Hp) as (k & w2 & E2 & H2 & Hq2 & Hf2 & Hl2); [done|].
    erewrite bind_done by exact E2.
    destruct (talking_frame w0 p fd base (se_heard s) w2 d junk (QrtrPacket QRTR_TYPE_DATA a.1 a.2 0 (zlen d)) (pf_flow perif)
      (steps k (tick h)) H2) as (k3 & w3 & E3 & H3 & He3); try done; [by rewrite Hq2|].
    unfold returns, hear, says. cbn [fst snd]. rewrite (proj2 (Z.eqb_neq _ _) Ha). cbn [negb].
    exists 0, (k3 + k + 1)%nat, w3. rewrite E3. change (tick h) with (steps 1 h). rewrite !steps_steps. split; [done|]. split; [done|].
    split; [done|]. unfold fd_script in *. by rewrite He3, Hf2, Hl2.
Qed.

(** A call of the callback for each datagram, with what it returns. *)
Fixpoint data_calls (evs : list datagram) : M world (list Z) :=
  match evs with
  | [] => mret []
  | _ :: evs => ret ← qrtr_data_recv dec p fd; rets ← data_calls evs; mret (ret :: rets)
  end.

Lemma session_steps evs s f l h w :
  talking w0 p fd base s w -> Forall datagram_ok evs -> fd_script fd w = (inr <$> evs.*2) ++ f ->
  e_senders (w_env w) = evs.*1 ++ l -> alloc_ok h ->
  exists rets k w', data_calls evs h w = Done (rets, steps k h, w') /\ Forall2 returns evs rets /\
    talking w0 p fd base (foldl hear s evs) w' /\ fd_script fd w' = f /\ e_senders (w_env w') = l.
Proof.
  intros Ht Hevs. revert s h w Ht. induction Hevs as [|e evs He Hevs IH]; intros s h w Ht Hf Hl Hh.
  { exists [], 0%nat, w. split; [by destruct h|]. by split; [constructor|]. }
  destruct (session_step s e _ _ h w Ht He Hf Hl Hh) as (ret & k1 & w1 & E1 & Hr1 & H1 & Hf1 & Hl1).
  destruct (IH _ (steps k1 h) w1 H1 Hf1 Hl1) as (rets & k2 & w2 & E2 & Hr2 & H2 & H2'); [done|].
  exists (ret :: rets), (k2 + k1)%nat, w2. cbn [data_calls]. erewrite bind_done by exact E1. erewrite bind_done by exact E2.
  split; [by rewrite steps_steps|]. split; [by constructor|done].
Qed.
End session.

(** ** Properties *)


(** ** A session *)

(** A decoder as the library documents it. *)
Definition lib_decode (buf : bytes) (n : Z) (a : Z * Z) : Z + qrtr_packet :=
  if negb (a.2 =? QRTR_PORT_CTRL) then inr (QrtrPacket QRTR_TYPE_DATA a.1 a.2 0 n)
  else if n <? sizeof_qrtr_ctrl_pkt then inl (-90)
  else match rd 4 buf 0 with
       | Done word => inr (QrtrPacket (default QRTR_TYPE_OTHER (ctrl_type word)) 0 0 0 n)
       | _ => inl (-90)
       end.

Lemma lib_decode_documented : qrtr_lib lib_decode /\ qrtr_lib_control lib_decode.
Proof.
  unfold lib_decode. split; split; intros buf n a.
  - intros Ha. by rewrite (proj2 (Z.eqb_neq _ _) Ha).
  - intros Ha Hn. rewrite Ha, Z.eqb_refl, (proj2 (Z.ltb_lt _ _) Hn). by exists (-90).
  - intros word t Ha Hn Hw Ht. rewrite Ha, Z.eqb_refl, (proj2 (Z.ltb_ge _ _) Hn), Hw, Ht. by eexists _, _.
  - intros word Ha Hn Hw Ht. rewrite Ha, Z.eqb_refl, (proj2 (Z.ltb_ge _ _) Hn), Hw, Ht. right. by eexists _, _.
Qed.

(** A frame, a datagram that is none, a client that goes away, a short control
    packet, another frame, and goodbye. *)
Definition datagrams : list datagram :=
  [((0, 7), nhdlc_frame [0x60]); ((0, 7), [1; 2; 3]); ((0, QRTR_PORT_CTRL), le 4 6 ++ replicate 16 0);
   ((0, QRTR_PORT_CTRL), le 4 3); ((0, 7), nhdlc_frame [0x61]); ((0, QRTR_PORT_CTRL), le 4 3 ++ replicate 16 0)].

Definition qrtr_modem : peripheral :=
  Peripheral (Some "modem"%string) 0 40 false 41 false 42 43 None 0 true circ_zero decoder_zero Qrtr.

Definition socket_world : world :=
  over (fun _ => PfState {[0%nat := qrtr_modem]} [0%nat] 1)
    (over (fun _ => Env {[41 := inr <$> datagrams.*2]} [] datagrams.*1 [] []) (one_frame 0)).

