(* ===== verification/QrtrCmd.v ===== *)
(** * QrtrCmd: a QRTR peripheral's command socket

    The socket receives the service's announcements and its answers.  Its
    specification counts the announcements that were not taken back, each of
    which makes the program watch the socket for writing once more, and the
    messages heard. *)

From S2P Require Import Prelude CircBuf Hdlc Masks Queue Watch World Dm Cntl CntlProps Peripheral Devnode Qrtr MaskTables DataPath Hotplug QrtrProps.

(** ** What arrives *)

(** The codes of the control packets, and where they hold node and port. *)
Definition QRTR_TYPE_NEW_SERVER_code : Z := 4.
Definition QRTR_TYPE_DEL_SERVER_code : Z := 5.

(** What libqrtr documents of the control packets about services. *)
Record qrtr_lib_services (dec : bytes -> Z -> Z * Z -> Z + qrtr_packet) : Prop := {
  qs_new buf n a node port : a.2 = QRTR_PORT_CTRL -> sizeof_qrtr_ctrl_pkt <= n ->
    rd 4 buf 0 = Done QRTR_TYPE_NEW_SERVER_code -> rd 4 buf 12 = Done node -> rd 4 buf 16 = Done port ->
    dec buf n a = inr (QrtrPacket QRTR_TYPE_NEW_SERVER node port 0 n);
  qs_del buf n a : a.2 = QRTR_PORT_CTRL -> sizeof_qrtr_ctrl_pkt <= n -> rd 4 buf 0 = Done QRTR_TYPE_DEL_SERVER_code ->
    exists node port, dec buf n a = inr (QrtrPacket QRTR_TYPE_DEL_SERVER node port 0 n) }.

(** Data from a port, a service announced at a node and port (0 and 0 at the end
    of the list of services), or withdrawn. *)
Inductive cmd_event : Type :=
| CmdData (a : Z * Z) (d : bytes)
| CmdNewServer (from node port : Z)
| CmdDelServer (from node port : Z).

Definition ctrl_packet (code node port : Z) : bytes :=
  le 4 code ++ le 4 4097 ++ le 4 1 ++ le 4 node ++ le 4 port.

(** The sender and the bytes of an event. *)
Definition datagram_of (e : cmd_event) : datagram :=
  match e with
  | CmdData a d => (a, d)
  | CmdNewServer from node port => ((from, QRTR_PORT_CTRL), ctrl_packet QRTR_TYPE_NEW_SERVER_code node port)
  | CmdDelServer from node port => ((from, QRTR_PORT_CTRL), ctrl_packet QRTR_TYPE_DEL_SERVER_code node port)
  end.

Definition cmd_event_ok (e : cmd_event) : Prop :=
  match e with
  | CmdData a d => a.2 <> QRTR_PORT_CTRL /\ bytes_ok d /\ zlen d <= HDLC_BUF_SIZE
  | CmdNewServer _ node port | CmdDelServer _ node port => 0 <= node < 2 ^ 32 /\ 0 <= port < 2 ^ 32
  end.

(** ** The session *)

Record cmd_session := CmdSession { cs_links : nat; cs_heard : list bytes }.

Definition announces (e : cmd_event) : bool :=
  match e with CmdNewServer _ node port => negb ((node =? 0) && (port =? 0)) | _ => false end.

Definition cmd_hear (s : cmd_session) (e : cmd_event) : cmd_session :=
  match e with
  | CmdData _ d => CmdSession (cs_links s) (cs_heard s ++ option_list (nhdlc_payload d))
  | CmdNewServer _ _ _ => if announces e then CmdSession (S (cs_links s)) (cs_heard s) else s
  | CmdDelServer _ _ _ => CmdSession 0 (cs_heard s)
  end.

(** How the program has it: as many write watches on the socket as there are
    announcements, and the clients' queues. *)
Record serving (w0 : world) (p : nat) (fd : Z) (base : list watch) (s : cmd_session) (w : world) : Prop := {
  sv_perif : exists perif, pf_objs (w_pf w) !! p = Some perif /\ pf_cmd_fd perif = fd /\ ring_typed (pf_recv_buf perif);
  sv_aio : exists ids, length ids = cs_links s /\
    ws_aio (w_watches w) = base ++ ((fun id => Watch id fd CbFreeWriteAio (Some (QCmd p)) None true None) <$> ids);
  sv_dm : w_dm w = w_dm w0;
  sv_clients c dm : dm_clients (w_dm w0) !! c = Some dm ->
    payloads (w_queues w) (QClient c) = payloads (w_queues w0) (QClient c) ++
      (if dm_enabled dm then encoded (dm_encode_type dm) <$> cs_heard s else []);
  sv_queues q : (forall c, q <> QClient c) -> payloads (w_queues w) q = payloads (w_queues w0) q }.

Lemma datagram_of_bytes e : cmd_event_ok e -> bytes_ok (datagram_of e).2 /\ zlen (datagram_of e).2 <= HDLC_BUF_SIZE.
Proof.
  destruct e as [a d|from node port|from node port]; [by intros (_ & H)|..];
    intros _; (split; [cbn [datagram_of snd]; unfold ctrl_packet; rewrite !bytes_ok_app; split_and!; auto with diag|done]).
Qed.

Lemma ctrl_packet_fields code node port junk :
  0 <= code < 2 ^ 32 -> 0 <= node < 2 ^ 32 -> 0 <= port < 2 ^ 32 ->
  rd 4 (ctrl_packet code node port ++ junk) 0 = Done code /\ rd 4 (ctrl_packet code node port ++ junk) 12 = Done node /\
  rd 4 (ctrl_packet code node port ++ junk) 16 = Done port.
Proof.
  intros Hc Hn Hp. pose proof (zlen_nonneg junk).
  assert (forall off z, 0 <= z < 2 ^ 32 -> slice (ctrl_packet code node port) off 4 = le 4 z -> 0 <= off -> off + 4 <= 20 ->
    rd 4 (ctrl_packet code node port ++ junk) off = Done z) as H4.
  { intros off z Hz Hs H0 H20. apply rd_prefix. unfold rd. rewrite mem_read_ok by (change (zlen (ctrl_packet _ _ _)) with 20; lia).
    cbn [mbind outcome_bind]. change (Z.of_nat 4) with 4. rewrite Hs, le_dec_le. f_equal. by apply Z.mod_small. }
  split_and!; apply H4; try done; lia.
Qed.

(** ** The steps *)

(** A datagram over the start of the ring's array. *)
Lemma ring_datagram b d :
  ring_typed b -> bytes_ok d -> zlen d <= HDLC_BUF_SIZE ->
  exists junk, mem_write (cb_buf b) 0 d = Done (d ++ junk) /\ bytes_ok junk /\ zlen (d ++ junk) = HDLC_BUF_SIZE /\
    ring_typed (CircBuf (d ++ junk) (cb_head b) (cb_tail b)).
Proof.
  intros [(Hl & Hp) Hb] Hd Hn. exists (drop (length d) (cb_buf b)).
  assert (zlen (d ++ drop (length d) (cb_buf b)) = HDLC_BUF_SIZE) as Hz.
  { rewrite zlen_app. unfold zlen in *. rewrite length_drop. lia. }
  assert (bytes_ok (drop (length d) (cb_buf b))) as Hj by by apply Forall_drop. split_and!; try done.
  - rewrite mem_write_ok by lia. unfold splice, zlen. f_equal. change (Z.to_nat 0) with 0%nat. rewrite take_0. cbn [app]. do 2 f_equal. lia.
  - split; [by split|]. by apply bytes_ok_app.
Qed.

Section session.
Context (dec : bytes -> Z -> Z * Z -> Z + qrtr_packet) (Hdec : qrtr_lib dec) (Hsvc : qrtr_lib_services dec).
Context (w0 : world) (p : nat) (fd : Z) (base : list watch).
Context (Hok : forall c dm, dm_clients (w_dm w0) !! c = Some dm -> client_ok dm) (Hbase : Forall (not_fd fd) base).

(** What leaves the peripheral's descriptor, the watches, the clients and the
    queues alone. *)
Lemma serving_ext s w w' perif :
  pf_objs (w_pf w') !! p = Some perif -> pf_cmd_fd perif = fd -> ring_typed (pf_recv_buf perif) ->
  w_watches w' = w_watches w -> w_dm w' = w_dm w -> w_queues w' = w_queues w ->
  serving w0 p fd base s w -> serving w0 p fd base s w'.
Proof.
  intros Hp Hfd Hr Ew Ed Eq [_ H2 H3 H4 H5]. split; [by exists perif|by rewrite Ew|by rewrite Ed|..].
  - intros c dm. rewrite Eq. apply H4.
  - intros q. rewrite Eq. apply H5.
Qed.

Lemma serving_data s w d junk node port h :
  serving w0 p fd base s w -> alloc_ok h -> bytes_ok d -> bytes_ok junk -> zlen (d ++ junk) = HDLC_BUF_SIZE ->
  exists k w', qrtr_frame (d ++ junk) (QrtrPacket QRTR_TYPE_DATA node port 0 (zlen d)) None h w = Done (0, steps k h, w') /\
    serving w0 p fd base (CmdSession (cs_links s) (cs_heard s ++ option_list (nhdlc_payload d))) w' /\ w_env w' = w_env w.
Proof.
  intros [Hp Ha Hd0 Hc Hq] Hh Hd Hj Hz. unfold HDLC_BUF_SIZE in Hz.
  destruct (qrtr_frame_delivers d junk (QrtrPacket QRTR_TYPE_DATA node port 0 (zlen d)) None h w) as [k E]; try done; try lia;
    [by rewrite Hd0|].
  exists k. eexists. split; [exact E|]. destruct (nhdlc_payload d) as [m|]; [|rewrite app_nil_r; by split; [destruct s|]].
  split; [|done]. split; try done.
  - intros c dm Hdm. cbn. rewrite Hd0, (heard_clients _ _ _ _ _ _ Hdm), (Hc c dm Hdm), <- app_assoc. cbn.
    by destruct (dm_enabled dm); rewrite ?fmap_app.
  - intros q Hne. cbn. by rewrite heard_others, (Hq q Hne).
Qed.

(** The events, one call of the callback each; an announcement asks the system
    for a connection. *)
Lemma cmd_step s e f l h w :
  serving w0 p fd base s w -> cmd_event_ok e -> fd_script fd w = inr (datagram_of e).2 :: f ->
  e_senders (w_env w) = (datagram_of e).1 :: l -> alloc_ok h ->
  (announces e = true -> exists r rs, e_results (w_env w) = r :: rs /\ 0 <= r) ->
  exists k w', qrtr_cmd_recv dec p fd h w = Done (0, steps k h, w') /\ serving w0 p fd base (cmd_hear s e) w' /\
    fd_script fd w' = f /\ e_senders (w_env w') = l /\
    e_results (w_env w') = (if announces e then tl (e_results (w_env w)) else e_results (w_env w)).
Proof.
  intros Hs He Hf Hl Hh Hconn. destruct (datagram_of_bytes e He) as [Hd Hn].
  pose proof (sv_perif _ _ _ _ _ _ Hs) as (perif & Hp & Hfd & Hr).
  destruct (ring_datagram _ _ Hr Hd Hn) as (junk & Ew & Hj & Hz & Hr').
  unfold qrtr_cmd_recv. erewrite bind_done by (by apply get_perif_ok). erewrite bind_done by (by apply recvfrom_ok). cbv beta iota zeta.
  set (w1 := after_datagram fd f l w). erewrite bind_done by (unfold lift; rewrite Ew; reflexivity).
  erewrite bind_done by (by apply (upd_perif_ok p perif)). set (perif' := pf_with_recv _ _ perif). set (w2 := set_perif p perif' w1).
  assert (serving w0 p fd base s w2 /\ fd_script fd w2 = f /\ e_senders (w_env w2) = l /\
    e_results (w_env w2) = e_results (w_env w)) as (Hs2 & Hf2 & Hl2 & Hres2).
  { split; [|split; [unfold fd_script; cbn; by rewrite lookup_insert_eq|done]].
    by apply (serving_ext s w w2 perif'); [cbn; by rewrite lookup_insert_eq|..]. }
  rewrite <- Hres2. rewrite <- Hres2 in Hconn. change (pf_cmd_fd perif) with (pf_cmd_fd perif'). assert (pf_cmd_fd perif' = fd) as Hfd' by done.
  assert (pf_objs (w_pf w2) !! p = Some perif') as Hp2 by (cbn; by rewrite lookup_insert_eq).
  clearbody w2 perif'. clear w1 Hs Hf Hl Hp Hres2. destruct e as [a d|from node port|from node port]; cbn [datagram_of fst snd announces cmd_hear] in *.
  - destruct He as (Ha & _ & _). rewrite (ql_data dec Hdec _ _ a Ha). cbn [qp_type].
    destruct (serving_data s w2 d junk a.1 a.2 h Hs2 Hh Hd Hj Hz) as (k & w3 & E & H3 & He3). exists k, w3.
    split; [exact E|]. unfold fd_script in *. by rewrite !He3.
  - destruct He as [Hno Hpo]. destruct (ctrl_packet_fields QRTR_TYPE_NEW_SERVER_code node port junk ltac:(done) Hno Hpo) as (R1 & R2 & R3).
    rewrite (qs_new dec Hsvc _ (zlen (ctrl_packet QRTR_TYPE_NEW_SERVER_code node port)) (from, QRTR_PORT_CTRL) _ _ eq_refl ltac:(done) R1 R2 R3). cbn [qp_type qp_node qp_port].
    destruct ((node =? 0) && (port =? 0)) eqn:Ez; cbn [negb].
    { exists 0%nat, w2. split; [by destruct h|]. by split_and!. }
    destruct (Hconn eq_refl) as (r & rs & Eres & Hr0). erewrite bind_done by apply sys_call_ok. rewrite Eres. cbn [hd tl].
    rewrite (proj2 (Z.ltb_ge r 0) Hr0). erewrite bind_done by (by apply zoom_done, watch_add_writeq_ok).
    exists 1%nat. eexists. split; [reflexivity|]. split; [|done]. destruct Hs2 as [H1 (ids & Hlen & Haio) H3 H4 H5]. split; try done.
    exists (ids ++ [ws_fresh (w_watches w2)]). split; [rewrite length_app, Hlen; cbn; lia|].
    cbn. rewrite Haio, fmap_app, <- app_assoc. by rewrite Hfd'.
  - destruct He as [Hno Hpo]. destruct (ctrl_packet_fields QRTR_TYPE_DEL_SERVER_code node port junk ltac:(done) Hno Hpo) as (R1 & _).
    destruct (qs_del dec Hsvc _ (zlen (ctrl_packet QRTR_TYPE_DEL_SERVER_code node port)) (from, QRTR_PORT_CTRL) eq_refl ltac:(done) R1)
      as (n1 & p1 & ->). cbn [qp_type].
    erewrite bind_done by reflexivity. exists 0%nat. eexists. split; [by destruct h|]. split; [|done].
    destruct Hs2 as [H1 (ids & Hlen & Haio) H3 H4 H5]. split; try done. exists []. split; [done|].
    cbn. rewrite Haio, Hfd', filter_app, (filter_all _ base Hbase). f_equal.
    clear. induction ids as [|id ids IH]; [done|]. cbn [fmap list_fmap]. by rewrite filter_cons_False by (intros H; by apply H).
Qed.

(** A call of the callback for each event, with what it returns. *)
Fixpoint cmd_calls (evs : list cmd_event) : M world (list Z) :=
  match evs with
  | [] => mret []
  | _ :: evs => ret ← qrtr_cmd_recv dec p fd; rets ← cmd_calls evs; mret (ret :: rets)
  end.

Definition connections (evs : list cmd_event) : nat := length (filter announces evs).

Lemma cmd_steps evs s f l h w :
  serving w0 p fd base s w -> Forall cmd_event_ok evs ->
  fd_script fd w = (inr <$> (datagram_of <$> evs).*2) ++ f -> e_senders (w_env w) = (datagram_of <$> evs).*1 ++ l -> alloc_ok h ->
  (connections evs <= length (e_results (w_env w)))%nat -> Forall (Z.le 0) (e_results (w_env w)) ->
  exists k w', cmd_calls evs h w = Done (replicate (length evs) 0, steps k h, w') /\
    serving w0 p fd base (foldl cmd_hear s evs) w' /\ fd_script fd w' = f /\ e_senders (w_env w') = l.
Proof.
  intros Hs Hevs. revert s h w Hs. induction Hevs as [|e evs He Hevs IH]; intros s h w Hs Hf Hl Hh Hlen Hpos.
  { exists 0%nat, w. split; [by destruct h|done]. }
  destruct (cmd_step s e _ _ h w Hs He Hf Hl Hh) as (k1 & w1 & E1 & H1 & Hf1 & Hl1 & Hres1).
  { intros Ha. unfold connections in Hlen. rewrite filter_cons_True in Hlen by (by rewrite Ha).
    destruct Hpos as [|r rs Hr Hpos]; [cbn in Hlen; lia|]. by exists r, rs. }
  destruct (IH (cmd_hear s e) (steps k1 h) w1 H1 Hf1 Hl1) as (k2 & w2 & E2 & H2 & H2'); [done|..].
  { rewrite Hres1. unfold connections in *. destruct (announces e) eqn:Ha.
    - rewrite filter_cons_True in Hlen by (by rewrite Ha). destruct (e_results (w_env w)); cbn in *; lia.
    - by rewrite filter_cons_False in Hlen by (rewrite Ha; intros []). }
  { rewrite Hres1. destruct (announces e); [|done]. by destruct Hpos. }
  exists (k2 + k1)%nat, w2. cbn [cmd_calls]. erewrite bind_done by exact E1. erewrite bind_done by exact E2.
  split; [|done]. by rewrite steps_steps.
Qed.
End session.

(** ** Properties *)

(** C16 A QRTR peripheral's command socket: whatever is announced, withdrawn or
    answered on it, [qrtr_cmd_recv] keeps the session.  There are as many write
    watches on the socket as there were announcements of the service since it
    was last withdrawn, so a service announced twice has two; withdrawing it
    removes them all, and the end of the list of services adds none.  Every
    enabled client gets the message of each datagram that starts with a whole
    non-HDLC frame, once and in order, and nothing else is queued; the ring,
    whose array is the receive buffer, keeps its positions; and as long as the
    connections succeed no call fails. *)
Theorem qrtr_cmd_session dec p fd base evs s f l h w0 w :
  qrtr_lib dec -> qrtr_lib_services dec ->
  (forall c dm, dm_clients (w_dm w0) !! c = Some dm -> client_ok dm) -> Forall (not_fd fd) base -> alloc_ok h ->
  serving w0 p fd base s w -> Forall cmd_event_ok evs ->
  fd_script fd w = (inr <$> (datagram_of <$> evs).*2) ++ f -> e_senders (w_env w) = (datagram_of <$> evs).*1 ++ l ->
  (connections evs <= length (e_results (w_env w)))%nat -> Forall (Z.le 0) (e_results (w_env w)) ->
  exists k w', cmd_calls dec p fd evs h w = Done (replicate (length evs) 0, steps k h, w') /\
    serving w0 p fd base (foldl cmd_hear s evs) w'.
Proof.
  intros Hdec Hsvc Hok Hbase Hh Hs Hevs Hf Hl Hlen Hpos.
  destruct (cmd_steps dec Hdec Hsvc w0 p fd base Hok Hbase evs s f l h w Hs Hevs Hf Hl Hh Hlen Hpos) as (k & w' & E & H & _).
  by exists k, w'.
Qed.

(** ** A session *)

(** A decoder as the library documents it. *)
Definition services_decode (buf : bytes) (n : Z) (a : Z * Z) : Z + qrtr_packet :=
  if negb (a.2 =? QRTR_PORT_CTRL) || (n <? sizeof_qrtr_ctrl_pkt) then lib_decode buf n a
  else match rd 4 buf 0, rd 4 buf 12, rd 4 buf 16 with
       | Done 4, Done node, Done port => inr (QrtrPacket QRTR_TYPE_NEW_SERVER node port 0 n)
       | Done 5, _, _ => inr (QrtrPacket QRTR_TYPE_DEL_SERVER 0 0 0 n)
       | _, _, _ => lib_decode buf n a
       end.

Lemma services_decode_documented : qrtr_lib services_decode /\ qrtr_lib_services services_decode.
Proof.
  destruct lib_decode_documented as [[Hd] _]. unfold services_decode. split; split; intros buf n a.
  - intros Ha. rewrite (proj2 (Z.eqb_neq _ _) Ha). by apply Hd.
  - intros node port Ha Hn -> -> ->. rewrite Ha, (proj2 (Z.ltb_ge _ _) Hn). by rewrite Z.eqb_refl.
  - intros Ha Hn ->. rewrite Ha, (proj2 (Z.ltb_ge _ _) Hn), Z.eqb_refl. cbn [negb orb]. by eexists _, _.
Qed.

(** A service announced twice, an answer, the end of the list. *)
Definition cmd_events : list cmd_event :=
  [CmdNewServer 1 0 7; CmdNewServer 1 0 7; CmdData (0, 7) (nhdlc_frame [0x61]); CmdNewServer 1 0 0].

Definition cmd_world : world :=
  over (fun _ => PfState {[0%nat := qrtr_modem]} [0%nat] 1)
    (over (fun _ => Env {[42 := inr <$> (datagram_of <$> cmd_events).*2]} [0; 0] (datagram_of <$> cmd_events).*1 [] []) (one_frame 0)).

Lemma qrtr_cmd_session_witness :
  exists k w', cmd_calls services_decode 0 42 cmd_events never_fails cmd_world = Done ([0; 0; 0; 0], steps k never_fails, w') /\
    payloads (w_queues w') (QClient 0) = [hdlc_frame [0x61]] /\ length (ws_aio (w_watches w')) = 2%nat.
Proof.
  destruct (qrtr_cmd_session services_decode 0 42 [] cmd_events (CmdSession 0 []) [] [] never_fails cmd_world cmd_world)
    as (k & w' & E & [_ (ids & Hlen & Ha) _ Hc _]).
  - exact (proj1 services_decode_documented).
  - exact (proj2 services_decode_documented).
  - intros c dm Hc. destruct c; [|done]. injection Hc as <-. right. by left.
  - constructor.
  - exact never_fails_alloc_ok.
  - split; try done; [exists qrtr_modem; split; [done|]; split; [done|apply zero_typed]|by exists []|].
    intros c dm Hc. by destruct (dm_enabled dm); rewrite app_nil_r.
  - repeat constructor; done.
  - by rewrite app_nil_r.
  - by rewrite app_nil_r.
  - done.
  - by repeat constructor.
  - exists k, w'. split; [exact E|]. split; [exact (Hc 0%nat _ eq_refl)|]. rewrite Ha. cbn [app]. by rewrite length_fmap, Hlen.
Defined.
