(* ===== verification/Keeps.v ===== *)
(** * Keeps: what the operations called from callbacks keep

    An interface between the data and the program, in three steps.  A property of
    the state that survives each primitive operation of the components, which
    is what the classes ask for, survives everything built from them: with
    [Quiet] the handlers of requests and of received packets, with [Reading],
    which adds the system calls, the receiving of data, and with [Inner]
    everything a callback runs, except opening and closing peripherals, for
    which see [Preserve].  Some operations store a reference: a command or a
    write watch that names a peripheral, a timer that names a client.  The
    property may depend on what such a reference names, so the lemmas are
    relative to the references that are [allowed]. *)

From S2P Require Import Prelude CircBuf Hdlc Masks Queue Watch World Dm Cntl Peripheral AppCmds CommonCmds Router DmRecv Devnode Qrtr Clients EventLoop.

(** ** Keeping a property *)

Definition keeps {S A} (I : S -> Prop) (m : M S A) : Prop :=
  forall h s a h' s', I s -> m h s = Done (a, h', s') -> I s'.

(** A computation that leaves the state alone. *)
Definition silent {S A} (m : M S A) : Prop :=
  forall h s a h' s', m h s = Done (a, h', s') -> s' = s.

Section rules.
Context {S : Type} (I : S -> Prop).

Lemma keeps_silent {A} (m : M S A) : silent m -> keeps I m.
Proof. intros Hm h s a h' s' Hs E. by rewrite (Hm _ _ _ _ _ E). Qed.

Lemma keeps_bind {A B} (m : M S A) (f : A -> M S B) :
  keeps I m -> (forall a, keeps I (f a)) -> keeps I (m ≫= f).
Proof. intros Hm Hf h s b h' s' Hs (a & h1 & s1 & E1 & E2)%bind_done_inv. eapply Hf; [|exact E2]. by eapply Hm. Qed.

(** A bind whose first part promises something of its result. *)
Lemma keeps_bind_post {A B} (Q : A -> Prop) (m : M S A) (f : A -> M S B) :
  keeps I m -> (forall h s a h' s', m h s = Done (a, h', s') -> Q a) ->
  (forall a, Q a -> keeps I (f a)) -> keeps I (m ≫= f).
Proof.
  intros Hm HQ Hf h s b h' s' Hs (a & h1 & s1 & E1 & E2)%bind_done_inv.
  eapply (Hf a); [by eapply HQ| |exact E2]. by eapply Hm.
Qed.

Lemma keeps_modify f : (forall s, I s -> I (f s)) -> keeps I (modify f).
Proof. intros Hf h s a h' s' Hs [= _ _ <-]. by apply Hf. Qed.

Lemma keeps_zoom_modify {T} `{!Lens S T} (f : T -> T) :
  (forall s, I s -> I (over (fun _ => f (view s)) s)) -> keeps I (zoom (modify f)).
Proof. intros Hf h s a h' s' Hs E. unfold zoom, modify in E. injection E as _ _ <-. by apply Hf. Qed.

Lemma keeps_zoom {T A} `{!Lens S T} (m : M T A) :
  (forall f s, I s -> I (over f s)) -> keeps I (zoom m).
Proof.
  intros Hf h s a h' s' Hs E. unfold zoom in E. destruct (m h (view s)) as [[[b h1] t]| | |]; try done.
  injection E as _ _ <-. by apply Hf.
Qed.
End rules.

(** What the property says of the state that is looked at. *)
Lemma keeps_from_state {S A} (I P : S -> Prop) (f : S -> M S A) :
  (forall s, I s -> P s) -> (forall s, P s -> keeps I (f s)) -> keeps I (s ← get; f s).
Proof.
  intros HP Hf h s a h' s' Hs (s1 & h1 & s2 & [= <- <- <-] & E)%bind_done_inv. eapply (Hf s); [by apply HP|done|exact E].
Qed.

(** From one property to another. *)
Definition brings {S A} (P Q : S -> Prop) (m : M S A) : Prop :=
  forall h s a h' s', P s -> m h s = Done (a, h', s') -> Q s'.

Lemma brings_bind {S A B} (P Q R : S -> Prop) (m : M S A) (f : A -> M S B) :
  brings P Q m -> (forall a, brings Q R (f a)) -> brings P R (m ≫= f).
Proof. intros Hm Hf h s b h' s' Hs (a & h1 & s1 & E1 & E2)%bind_done_inv. eapply Hf; [|exact E2]. by eapply Hm. Qed.

Lemma brings_first {S A B} (P R : S -> Prop) (m : M S A) (f : A -> M S B) :
  keeps P m -> (forall a, brings P R (f a)) -> brings P R (m ≫= f).
Proof. apply brings_bind. Qed.

Lemma brings_last {S A B} (P R : S -> Prop) (m : M S A) (f : A -> M S B) :
  brings P R m -> (forall a, keeps R (f a)) -> brings P R (m ≫= f).
Proof. apply brings_bind. Qed.

(** With a promise of the first part's result. *)
Lemma brings_post {S A B} (Q : A -> Prop) (P R : S -> Prop) (m : M S A) (f : A -> M S B) :
  keeps P m -> (forall h s a h' s', m h s = Done (a, h', s') -> Q a) -> (forall a, Q a -> brings P R (f a)) ->
  brings P R (m ≫= f).
Proof.
  intros Hm HQ Hf h s b h' s' Hs (a & h1 & s1 & E1 & E2)%bind_done_inv.
  eapply (Hf a); [by eapply HQ| |exact E2]. by eapply Hm.
Qed.

Lemma brings_weaken {S A} (P P' Q Q' : S -> Prop) (m : M S A) :
  (forall s, P s -> P' s) -> (forall s, Q' s -> Q s) -> brings P' Q' m -> brings P Q m.
Proof. intros HP HQ Hm h s a h' s' Hs E. eapply HQ, Hm; [|exact E]. by apply HP. Qed.

Lemma keeps_brings {S A} (P Q : S -> Prop) (m : M S A) : (forall s, P s -> Q s) -> keeps P m -> brings P Q m.
Proof. intros HP Hm h s a h' s' Hs E. apply HP. by eapply Hm. Qed.

(** Two properties together. *)
Lemma keeps_and {S A} (I J : S -> Prop) (m : M S A) :
  keeps I m -> keeps J m -> keeps (fun s => I s /\ J s) m.
Proof. intros HI HJ h s a h' s' [Hi Hj] E. split; [by eapply HI|by eapply HJ]. Qed.

Lemma silent_ret {S A} (a : A) : silent (mret a : M S A).
Proof. by intros h s b h' s' [= _ _ <-]. Qed.
Lemma silent_bind {S A B} (m : M S A) (f : A -> M S B) :
  silent m -> (forall a, silent (f a)) -> silent (m ≫= f).
Proof.
  intros Hm Hf h s b h' s' (a & h1 & s1 & E1 & E2)%bind_done_inv.
  apply Hm in E1 as ->. by apply Hf in E2.
Qed.
Lemma silent_lift {S A} (o : outcome A) : silent (lift o : M S A).
Proof. intros h s a h' s' E. unfold lift in E. destruct o; try done. by injection E as _ _ <-. Qed.
Lemma silent_get {S} : silent (@get S).
Proof. by intros h s a h' s' [= _ _ <-]. Qed.
Lemma silent_fail {S A} : silent (@fail_ub S A).
Proof. done. Qed.
Lemma silent_exit {S A} : silent (@exit1 S A).
Proof. done. Qed.
Lemma silent_malloc {S} n : silent (@malloc S n).
Proof. by intros h s a h' s' [= _ _ <-]. Qed.
Lemma silent_calloc {S} n : silent (@calloc S n).
Proof. by intros h s a h' s' [= _ _ <-]. Qed.
Lemma silent_stack {S} n : silent (@stack S n).
Proof. by intros h s a h' s' [= _ _ <-]. Qed.
Lemma silent_zoom {S T A} `{!Lens S T} (m : M T A) : silent m -> silent (zoom m : M S A).
Proof.
  intros Hm h s a h' s' E. unfold zoom in E. destruct (m h (view s)) as [[[b h1] t]| | |] eqn:Em; try done.
  injection E as _ _ <-. apply over_view. by apply Hm in Em.
Qed.

(** Running a sequence inside the program is running its parts there. *)
Lemma zoom_bind {S T A B} `{!Lens S T} (m : M T A) (f : A -> M T B) h (s : S) :
  zoom (m ≫= f) h s = (zoom m ≫= (fun a => zoom (f a))) h s.
Proof.
  unfold zoom, mbind, M_bind. destruct (m h (view s)) as [[[a h1] t]| | |]; try done.
  rewrite view_over. destruct (f a h1 t) as [[[b h2] t']| | |]; try done. by rewrite over_over.
Qed.

Lemma keeps_zoom_bind {S T A B} (I : S -> Prop) `{!Lens S T} (m : M T A) (f : A -> M T B) :
  keeps I (zoom m) -> (forall a, keeps I (zoom (f a))) -> keeps I (zoom (m ≫= f)).
Proof. intros Hm Hf h s b h' s' Hs E. rewrite zoom_bind in E. exact (keeps_bind I _ _ Hm Hf _ _ _ _ _ Hs E). Qed.

Create HintDb keep discriminated.
#[export] Hint Constants Opaque : keep.
#[export] Hint Resolve silent_ret silent_lift silent_get silent_fail silent_exit silent_malloc silent_calloc
  silent_stack : keep.

(** Walk down binds, conditionals and components. *)
Ltac keep :=
  repeat first
    [ progress intros
    | solve [eauto with keep nocore]
    | match goal with |- keeps _ (mbind _ _) => apply keeps_bind end
    | match goal with |- silent (mbind _ _) => apply silent_bind end
    | match goal with |- keeps _ (zoom (mbind _ _)) => apply keeps_zoom_bind end
    | match goal with |- silent (zoom _) => apply silent_zoom end
    | match goal with |- keeps _ (match ?x with _ => _ end) => destruct x end
    | match goal with |- keeps _ (zoom (match ?x with _ => _ end)) => destruct x end
    | match goal with |- silent (match ?x with _ => _ end) => destruct x end
    | match goal with |- keeps _ _ => solve [apply keeps_silent; keep] end ].

Lemma silent_deref {S A} (p : option A) : silent (deref p : M S A).
Proof. destruct p; [apply silent_ret|apply silent_fail]. Qed.
Lemma silent_memcpy {S} p off src n : silent (@memcpy S p off src n).
Proof. unfold memcpy. keep. apply silent_deref. Qed.
#[export] Hint Resolve @silent_deref @silent_memcpy : keep.

Lemma silent_get_perif p : silent (get_perif p).
Proof. unfold get_perif. keep. Qed.
Lemma silent_get_client c : silent (get_client c).
Proof. unfold get_client. keep. Qed.
Lemma silent_strdup {S} s : silent (@strdup S s).
Proof. unfold strdup. keep. Qed.
Lemma silent_encode {S} msg : silent (@hdlc_encode S msg).
Proof. unfold hdlc_encode. keep. Qed.
#[export] Hint Resolve silent_get_perif silent_get_client @silent_strdup @silent_encode : keep.

Lemma silent_calloc_or_die {S} n : silent (@calloc_or_die S n).
Proof. unfold calloc_or_die. keep. Qed.
#[export] Hint Resolve @silent_calloc_or_die : keep.

Lemma keeps_for_each {S A} (I : S -> Prop) (f : A -> M S unit) l :
  (forall a, keeps I (f a)) -> keeps I (for_each f l).
Proof. intros Hf. induction l; cbn [for_each]; keep. Qed.
#[export] Hint Resolve @keeps_for_each : keep.

(** A new client: the number it gets is one the property allows for. *)
Lemma keeps_new_client (I : world -> Prop) (new : nat -> Prop) name in_fd out_fd enc :
  (forall w, I w -> new (length (dm_clients (w_dm w)))) ->
  (forall c, new c -> keeps I (zoom (modify (set_queue (QClient c) [])))) ->
  (forall c, new c -> keeps I (zoom (watch_add_readfd in_fd (CbDmRecv c) None))) ->
  (forall c, new c -> keeps I (zoom (watch_add_writeq out_fd (QClient c)))) ->
  (forall dm w, client_ok dm -> I w -> I (over (fun s => DmState (dm_clients s ++ [dm]) (dm_bad_cmd_counter s)) w)) ->
  keeps I (dm_add name in_fd out_fd enc).
Proof.
  intros Hnew Hq Hr Hw Hdm. unfold dm_add. apply keeps_bind; [keep|intros _]. apply keeps_bind; [keep|intros _].
  apply (keeps_from_state I (fun w => new (length (dm_clients (w_dm w))))); [done|]. intros w Hc.
  apply keeps_bind; [by apply Hq|intros _].
  apply keeps_bind; [destruct (0 <=? in_fd); [by apply Hr|keep]|intros _].
  apply keeps_bind; [by apply Hw|intros _]. apply keeps_bind; [|intros _; keep].
  apply keeps_modify. intros w'. apply Hdm. unfold client_ok, type_ok. destruct enc; cbn; auto.
Qed.

(** ** The interface

    The queues of clients and peripherals, apart from the USB read buffers. *)

Definition perif_queue (q : queue_ref) : Prop :=
  match q with QCmd _ | QCntl _ | QData _ => True | QClient _ | QUsb _ => False end.

Definition packet_queue (q : queue_ref) : Prop := match q with QUsb _ => False | _ => True end.

(** A buffer that belongs to no flow and has the room it says it has. *)
Definition usb_buffer (b : mbuf) : Prop := mb_flow b = None /\ 0 <= mb_size b <= zlen (mb_data b).

(** What may be referred to: the peripherals commands are registered for, the
    peripherals write watches are added for, clients and USB handles. *)
Record allowed := Allowed {
  al_cmd : nat -> Prop; al_write : nat -> Prop; al_client : nat -> Prop; al_handle : nat -> Prop }.

Definition anything : allowed := Allowed (fun _ => True) (fun _ => True) (fun _ => True) (fun _ => True).

Definition write_ok (ok : allowed) (q : queue_ref) : Prop :=
  match q with QCmd p | QCntl p | QData p => al_write ok p | QClient _ | QUsb _ => False end.

(** A change of the command table that only adds commands of allowed
    peripherals. *)
Definition adds_for (ok : allowed) (f : list diag_cmd -> list diag_cmd) : Prop :=
  forall l dc, dc ∈ f l -> dc ∈ l \/ exists p, al_cmd ok p /\ dc_peripheral dc = Some p /\ dc_cb dc = None.

(** What a peripheral is linked to: its transport, descriptors and flow. *)
Definition same_links (p q : peripheral) : Prop :=
  pf_transport p = pf_transport q /\ pf_cntl_fd p = pf_cntl_fd q /\ pf_data_fd p = pf_data_fd q /\
  pf_cmd_fd p = pf_cmd_fd q /\ pf_flow p = pf_flow q.

(** The receive state of a peripheral: a ring and a decoder of bytes, their
    positions within their arrays. *)
Definition recv_typed (p : peripheral) : Prop := ring_typed (pf_recv_buf p) /\ decoder_typed (pf_recv_decoder p).
Definition all_typed (s : pfstate) : Prop := forall p x, pf_objs s !! p = Some x -> recv_typed x.

(** What the handlers of requests and of control packets do: they change the
    tables, what is known of peripherals and clients, and the queues.  They
    call the system for nothing. *)
Class Quiet (ok : allowed) (I : world -> Prop) := {
  in_masks (f : masks -> masks) w : I w -> I (over f w);
  in_ids (f : idstate -> idstate) w : I w -> I (over f w);
  in_dm (f : dmstate -> dmstate) w : keeps_clients f -> I w -> I (over f w);
  in_with_cmds f : adds_for ok f -> keeps I (with_cmds f);
  in_upd_perif p f w : (forall q, same_links (f q) q) ->
    (forall x, pf_objs (w_pf w) !! p = Some x -> recv_typed x -> recv_typed (f x)) ->
    I w -> I (over (fun s => PfState (alter f p (pf_objs s)) (pf_list s) (pf_fresh s)) w);
  in_push q msg len flow : packet_queue q -> keeps I (zoom (queue_push_flow q msg len flow));
  in_push_nhdlc q msg len flow : packet_queue q -> keeps I (zoom (queue_push_nhdlc_flow q msg len flow));
  in_add_timer c n b : al_client ok c -> keeps I (zoom (watch_add_timer (TmHdlcReset c) n b)) }.

(** What receiving does: it also calls the system. *)
Class Reading (ok : allowed) (I : world -> Prop) := {
  in_quiet :: Quiet ok I;
  in_env (f : env -> env) w : (forall e, e_aio (f e) = e_aio e) -> I w -> I (over f w) }.

(** And what the other operations of callbacks do. *)
Class Inner (ok : allowed) (I : world -> Prop) := {
  in_reading :: Reading ok I;
  in_usb_back u b : usb_buffer b -> keeps I (zoom (list_add_tail (QUsb u) b));
  in_add_readq fd u : al_handle ok u -> keeps I (zoom (watch_add_readq fd (QUsb u) (CbFfsRecv u)));
  in_add_writeq fd q : write_ok ok q -> keeps I (zoom (watch_add_writeq fd q));
  in_dm_add name in_fd out_fd enc : keeps I (dm_add name in_fd out_fd enc);
  in_remove_fd fd : keeps I (zoom (watch_remove_fd fd));
  in_remove_writeq fd : keeps I (zoom (watch_remove_writeq fd)) }.

Section inner.
Context (ok : allowed) (I : world -> Prop) `{HQ : !Quiet ok I}.

#[local] Hint Resolve in_push in_push_nhdlc in_add_timer : keep.
#[local] Hint Extern 1 (packet_queue _) => exact Logic.I : keep.
#[local] Hint Extern 1 (write_ok _ _) => assumption : keep.
#[local] Hint Extern 1 (forall _, same_links _ _) => by intros [] : keep.
#[local] Hint Extern 1 (forall _, recv_typed _ -> recv_typed _) => by intros [] : keep.
#[local] Hint Extern 1 (forall _, dm_alike _ _) =>
  by intros []; split_and!; try done; intros _; right; left : keep.
#[local] Hint Extern 1 (type_ok _) => by unfold type_ok; auto : keep.

Lemma keeps_masks {A} (m : M masks A) : keeps I (zoom m).
Proof. apply keeps_zoom, in_masks. Qed.
Lemma keeps_ids {A} (m : M idstate A) : keeps I (zoom m).
Proof. apply keeps_zoom, in_ids. Qed.
Lemma keeps_upd_perif p f :
  (forall q, same_links (f q) q) -> (forall q, recv_typed q -> recv_typed (f q)) -> keeps I (upd_perif p f).
Proof. intros Hl Hf. apply keeps_modify. intros w. apply in_upd_perif; auto. Qed.
Lemma keeps_upd_client c f : (forall dm, dm_alike dm (f dm)) -> keeps I (upd_client c f).
Proof.
  intros Hf. apply keeps_modify. intros w. apply in_dm.
  intros s. apply Forall2_alter_r; [done|]. intros x y _ _ H. by trans y.
Qed.
Lemma keeps_counter n : keeps I (set_bad_cmd_counter n).
Proof. apply keeps_modify. intros w. apply in_dm. by intros s. Qed.
#[local] Hint Resolve keeps_masks keeps_ids keeps_upd_perif keeps_upd_client keeps_counter : keep.

Lemma keeps_queue_push q msg len : packet_queue q -> keeps I (zoom (queue_push q msg len)).
Proof. by apply in_push. Qed.
Lemma keeps_hdlc q msg len flow : packet_queue q -> keeps I (zoom (hdlc_enqueue_flow q msg len flow)).
Proof. intros. unfold hdlc_enqueue_flow. keep. Qed.
Lemma keeps_hdlc_enqueue q msg len : packet_queue q -> keeps I (zoom (hdlc_enqueue q msg len)).
Proof. apply keeps_hdlc. Qed.
#[local] Hint Resolve keeps_queue_push keeps_hdlc keeps_hdlc_enqueue : keep.

(** *** Clients *)

Lemma keeps_dm_send_flow c msg len flow : keeps I (dm_send_flow c msg len flow).
Proof. unfold dm_send_flow. keep. Qed.
#[local] Hint Resolve keeps_dm_send_flow : keep.
Lemma keeps_dm_send c msg len : keeps I (dm_send c msg len).
Proof. apply keeps_dm_send_flow. Qed.
Lemma keeps_dm_reply c msg : keeps I (dm_reply c msg).
Proof. apply keeps_dm_send_flow. Qed.
Lemma keeps_dm_broadcast msg len flow : keeps I (dm_broadcast msg len flow).
Proof. unfold dm_broadcast. keep. apply keeps_for_each. keep. Qed.
Lemma keeps_dm_enable c : keeps I (dm_enable c).
Proof. unfold dm_enable. keep. Qed.
Lemma keeps_dm_disable c : keeps I (dm_disable c).
Proof. unfold dm_disable. keep. Qed.
Lemma retype_alike t dm : type_ok t -> dm_alike dm (retype t dm).
Proof. intros Ht. unfold retype. by destruct (_ =? _). Qed.
Lemma keeps_set_encode_type t : type_ok t -> keeps I (set_encode_type t).
Proof.
  intros Ht. apply keeps_modify. intros w. apply in_dm. intros s. apply Forall2_fmap_r.
  apply Forall_Forall2_diag, Forall_true. intros dm. by apply retype_alike.
Qed.
#[local] Hint Resolve keeps_dm_send keeps_dm_reply keeps_dm_broadcast keeps_dm_enable keeps_dm_disable
  keeps_set_encode_type : keep.
Lemma keeps_recovery c : al_client ok c -> keeps I (diag_start_hdlc_recovery c).
Proof. unfold diag_start_hdlc_recovery. keep. Qed.
Lemma keeps_reset c : keeps I (diag_hdlc_reset c).
Proof. unfold diag_hdlc_reset. keep. Qed.
#[local] Hint Resolve keeps_recovery keeps_reset : keep.

(** *** Control channel *)

Lemma keeps_register f p : al_cmd ok p ->
  keeps I (with_cmds (fun l => l ++ [DiagCmd f.1 f.2 (Some p) None])).
Proof.
  intros Hp. apply in_with_cmds. intros l dc [Hl|[->|[]%not_elem_of_nil]%elem_of_cons]%elem_of_app; [by left|right].
  by exists p.
Qed.
Lemma keeps_unregister (P : diag_cmd -> Prop) `{!forall dc, Decision (P dc)} : keeps I (with_cmds (filter P)).
Proof. apply in_with_cmds. intros l dc [_ Hl]%list_elem_of_filter. by left. Qed.
Lemma keeps_register_loop n i p buf hdr : al_cmd ok p -> keeps I (register_loop n i p buf hdr).
Proof.
  intros Hp. revert i. induction n as [|n IH]; intros i; cbn [register_loop]; keep.
  by apply (keeps_register (_, _)).
Qed.
Lemma keeps_deregister_loop n i p buf hdr : keeps I (deregister_loop n i p buf hdr).
Proof. revert i. induction n as [|n IH]; intros i; cbn [deregister_loop]; keep. apply keeps_unregister. Qed.
#[local] Hint Resolve keeps_register_loop keeps_deregister_loop : keep.
Lemma silent_write_at b off src : silent (write_at b off src).
Proof. unfold write_at. keep. Qed.
Lemma silent_write_mask b off m n : silent (write_mask b off m n).
Proof. unfold write_mask. keep. Qed.
#[local] Hint Resolve silent_write_at silent_write_mask : keep.
Lemma keeps_send_log p e : keeps I (diag_cntl_send_log_mask p e).
Proof. unfold diag_cntl_send_log_mask. keep. Qed.
Lemma keeps_send_msg p r : keeps I (diag_cntl_send_msg_mask p r).
Proof. unfold diag_cntl_send_msg_mask, msg_mask_items. keep. Qed.
Lemma keeps_send_event p : keeps I (diag_cntl_send_event_mask p).
Proof. unfold diag_cntl_send_event_mask. keep. Qed.
#[local] Hint Resolve keeps_send_log keeps_send_msg keeps_send_event : keep.
Lemma keeps_send_masks p : keeps I (diag_cntl_send_masks p).
Proof. unfold diag_cntl_send_masks. apply keeps_for_each. keep. Qed.
Lemma keeps_diag_mode p b : keeps I (diag_cntl_set_diag_mode p b).
Proof. unfold diag_cntl_set_diag_mode. keep. Qed.
Lemma keeps_buffering p m : keeps I (diag_cntl_set_buffering_mode p m).
Proof. unfold diag_cntl_set_buffering_mode. keep. Qed.
#[local] Hint Resolve keeps_send_masks keeps_diag_mode keeps_buffering : keep.
Lemma keeps_send_feature p f : keeps I (diag_cntl_send_feature_mask p f).
Proof. unfold diag_cntl_send_feature_mask. keep. Qed.
#[local] Hint Resolve keeps_send_feature : keep.
Lemma keeps_diag_id p buf hdr len : keeps I (diag_cntl_process_diag_id p buf hdr len).
Proof. unfold diag_cntl_process_diag_id. keep. Qed.
#[local] Hint Resolve keeps_diag_id : keep.
Lemma keeps_cntl_dispatch p buf off n cmd : al_cmd ok p -> keeps I (cntl_dispatch p buf off n cmd).
Proof. unfold cntl_dispatch, diag_cntl_register, diag_cntl_deregister, diag_cntl_feature_mask. keep. Qed.
#[local] Hint Resolve keeps_cntl_dispatch : keep.
Lemma keeps_cntl_loop fuel p buf off n : al_cmd ok p -> keeps I (cntl_recv_loop fuel p buf off n).
Proof. intros Hp. revert off. induction fuel as [|fuel IH]; intros off; cbn [cntl_recv_loop]; keep. Qed.
#[local] Hint Resolve keeps_cntl_loop : keep.
Lemma keeps_cntl_recv p buf n : al_cmd ok p -> keeps I (diag_cntl_recv p buf n).
Proof. unfold diag_cntl_recv. keep. Qed.
Lemma keeps_cntl_close p : keeps I (diag_cntl_close p).
Proof. apply keeps_unregister. Qed.
#[local] Hint Resolve keeps_cntl_recv keeps_cntl_close : keep.

(** *** Peripherals *)

Lemma keeps_peripheral_send p msg len : keeps I (peripheral_send p msg len).
Proof.
  unfold peripheral_send, perif_rpmsg_send, qrtr_perif_send. keep;
    destruct (has_feature _ DIAG_FEATURE_REQ_RSP_SUPPORT); keep.
Qed.
Lemma keeps_broadcast_event : keeps I peripheral_broadcast_event_mask.
Proof. unfold peripheral_broadcast_event_mask. keep. Qed.
Lemma keeps_broadcast_log e : keeps I (peripheral_broadcast_log_mask e).
Proof. unfold peripheral_broadcast_log_mask. keep. Qed.
Lemma keeps_broadcast_loop ps r : keeps I (broadcast_msg_loop ps r).
Proof. revert r. induction ps as [|p ps IH]; intros r; cbn [broadcast_msg_loop]; keep. Qed.
#[local] Hint Resolve keeps_peripheral_send keeps_broadcast_event keeps_broadcast_log keeps_broadcast_loop : keep.
Lemma keeps_broadcast_msg r : keeps I (peripheral_broadcast_msg_mask r).
Proof. unfold peripheral_broadcast_msg_mask. keep. Qed.
#[local] Hint Resolve keeps_broadcast_msg : keep.

(** *** Requests *)

Lemma silent_field n buf off : silent (field n buf off).
Proof. unfold field. keep. Qed.
Lemma silent_part buf off n : silent (part buf off n).
Proof. unfold part. keep. Qed.
Lemma silent_range buf off : silent (get_range buf off).
Proof. unfold get_range, field. keep. Qed.
#[local] Hint Resolve silent_field silent_part silent_range : keep.
#[local] Hint Transparent ssid_range ssize : keep.
Lemma keeps_with_resp n f : (forall b, keeps I (f b)) -> keeps I (with_resp n f).
Proof. intros. unfold with_resp. keep. Qed.
#[local] Hint Resolve keeps_with_resp : keep.
Lemma keeps_keep_buf buf m : keeps I m -> keeps I (keep_buf buf m).
Proof. intros. unfold keep_buf. keep. Qed.

Lemma keeps_logging c buf len : keeps I (handle_logging_configuration c buf len).
Proof.
  unfold handle_logging_configuration, log_disable, log_get_range, log_set_mask, log_get_mask, keep_buf.
  keep; apply keeps_with_resp; keep.
Qed.
Lemma keeps_message c buf len : keeps I (handle_extended_message_configuration c buf len).
Proof.
  unfold handle_extended_message_configuration, msg_get_ssid_range, msg_get_build_mask, msg_get_msg_mask,
    msg_set_msg_mask, msg_set_all_msg_mask.
  keep; apply keeps_with_resp; keep.
Qed.
Lemma keeps_events c buf len :
  keeps I (handle_event_get_mask c buf len) /\ keeps I (handle_event_set_mask c buf len) /\
  keeps I (handle_event_report_control c buf len).
Proof.
  unfold handle_event_get_mask, handle_event_set_mask, handle_event_report_control.
  split; [|split]; keep; apply keeps_with_resp; keep.
Qed.
Lemma keeps_apps c buf len :
  keeps I (handle_diag_version c buf len) /\ keeps I (handle_diag_version_no c buf len) /\
  keeps I (handle_extended_build_id c buf len) /\ keeps I (handle_keep_alive c buf len) /\
  keeps I (handle_diag_id c buf len) /\ keeps I (handle_hdlc_disable_cmd c buf len).
Proof.
  unfold handle_diag_version, handle_diag_version_no, handle_extended_build_id, handle_keep_alive,
    handle_diag_id, handle_hdlc_disable_cmd.
  split_and!; keep.
Qed.
Lemma keeps_run_handler hd c buf len : keeps I (run_handler hd c buf len).
Proof.
  pose proof (keeps_events c buf len) as (? & ? & ?).
  pose proof (keeps_apps c buf len) as (? & ? & ? & ? & ? & ?).
  destruct hd; cbn [run_handler];
    first [apply keeps_logging | apply keeps_keep_buf; first [assumption | apply keeps_message]].
Qed.
#[local] Hint Resolve keeps_run_handler : keep.
Lemma keeps_dispatch_all key cmds c buf len n : keeps I (dispatch_all key cmds c buf len n).
Proof. revert buf n. induction cmds as [|dc cmds IH]; intros buf n; cbn [dispatch_all]; keep. Qed.
#[local] Hint Resolve keeps_dispatch_all : keep.
Lemma keeps_dispatch c buf len : keeps I (diag_cmd_dispatch c buf len).
Proof. unfold diag_cmd_dispatch, call_cb. keep. Qed.
#[local] Hint Resolve keeps_dispatch : keep.
Lemma keeps_handle_command c buf len : keeps I (diag_client_handle_command c buf len).
Proof. unfold diag_client_handle_command, diag_rsp_bad_command. keep. Qed.
#[local] Hint Resolve keeps_handle_command : keep.

(** *** With the system *)

Context `{HR : !Reading ok I}.

Lemma keeps_env {A} (m : M env A) :
  (forall h e a h' e', m h e = Done (a, h', e') -> e_aio e' = e_aio e) -> keeps I (zoom m).
Proof.
  intros Hm h w a h' w' Hw E. unfold zoom in E. destruct (m h (view w)) as [[[b h1] t]| | |] eqn:Em; try done.
  assert (w' = over (fun e => Env (e_fds t) (e_results t) (e_senders t) (e_udev t) (e_aio e)) w) as ->.
  { apply Hm in Em. change (view w) with (w_env w) in Em. destruct t. cbn in *. injection E as _ _ <-. by subst. }
  by apply in_env.
Qed.
Lemma keeps_call : keeps I sys_call.
Proof.
  apply keeps_env. unfold env_call. intros h e a h' e'. destruct (e_results e); by intros [= _ _ <-].
Qed.
Lemma keeps_read fd n : keeps I (sys_read fd n).
Proof.
  apply keeps_env. unfold env_read. intros h e a h' e'. destruct (fd_read _ n). by intros [= _ _ <-].
Qed.
Lemma keeps_circ_read fd b : keeps I (sys_circ_read fd b).
Proof.
  apply keeps_env. unfold env_circ_read. intros h e a h' e'. destruct (circ_read _ b) as [[[r f] b']| | |]; try done.
  by intros [= _ _ <-].
Qed.
Lemma keeps_sender : keeps I (zoom env_sender).
Proof.
  apply keeps_env. unfold env_sender. intros h e a h' e'. destruct (e_senders e); by intros [= _ _ <-].
Qed.
Lemma keeps_device : keeps I (zoom env_device).
Proof.
  apply keeps_env. unfold env_device. intros h e a h' e'. destruct (e_udev e); by intros [= _ _ <-].
Qed.
#[local] Hint Resolve keeps_sender keeps_device keeps_call keeps_read keeps_circ_read : keep.

(** *** Receiving *)

Lemma keeps_recv_hdlc fuel c d buf : keeps I (dm_recv_hdlc_loop fuel c d buf).
Proof. revert d buf. induction fuel as [|fuel IH]; intros d buf; cbn [dm_recv_hdlc_loop]; keep. Qed.
#[local] Hint Resolve keeps_recv_hdlc : keep.
Lemma keeps_decode_data c buf : al_client ok c -> keeps I (dm_decode_data c buf).
Proof. unfold dm_decode_data, dm_recv_hdlc, dm_recv_nhdlc. keep. Qed.
#[local] Hint Resolve keeps_decode_data : keep.

(** What is received is written into the peripheral it was received for: the
    object that was read before is still there. *)
Definition perif_is (p : nat) (x : peripheral) (w : world) : Prop := I w /\ pf_objs (w_pf w) !! p = Some x.

Lemma keeps_get_perif {B} p (k : peripheral -> M world B) :
  (forall x, brings (perif_is p x) I (k x)) -> keeps I (get_perif p ≫= k).
Proof.
  intros Hk h w b h' w' Hw (x & h1 & w1 & E1 & E2)%bind_done_inv. unfold get_perif in E1.
  apply bind_done_inv in E1 as (w2 & h2 & w3 & [= <- <- <-] & E1).
  destruct (pf_objs (w_pf w) !! p) as [y|] eqn:Ex; [|done]. injection E1 as <- _ <-. by eapply (Hk y); [|exact E2].
Qed.
Lemma keeps_perif_is {A} p x (m : M world A) :
  keeps I m -> keeps (fun w => pf_objs (w_pf w) !! p = Some x) m -> keeps (perif_is p x) m.
Proof. apply keeps_and. Qed.
Lemma brings_recv {B} p x b d (k : M world B) :
  (recv_typed x -> recv_typed (pf_with_recv b d x)) -> keeps I k ->
  brings (perif_is p x) I (_ ← upd_perif p (pf_with_recv b d); k).
Proof.
  intros Hx Hk. apply brings_last; [|done]. intros h w a h' w' [Hw Ex] [= _ _ <-].
  apply in_upd_perif; [done| |done]. intros y Ey. rewrite Ex in Ey. by injection Ey as <-.
Qed.

Lemma keeps_drain fuel p : keeps I (drain_frames fuel p).
Proof.
  induction fuel as [|fuel IH]; cbn [drain_frames]; [keep|]. apply keeps_get_perif. intros x.
  apply (brings_post (fun r => recv_typed x -> recv_typed (pf_with_recv (r.2) (r.1.2) x)));
    [apply keeps_silent, silent_lift| |].
  - intros h w [[msg d] b] h' w' (E & _ & _)%lift_shape [Hb Hd]. exact (decode_one_typed _ _ _ _ _ E Hb Hd).
  - intros [[msg d] b] Hr. apply brings_recv; [exact Hr|keep].
Qed.
#[local] Hint Resolve keeps_drain : keep.
Lemma keeps_data_hdlc fuel p fd : keeps I (diag_data_recv_hdlc fuel p fd).
Proof.
  induction fuel as [|fuel IH]; cbn [diag_data_recv_hdlc]; [keep|]. apply keeps_get_perif. intros x.
  apply (brings_post (fun r => recv_typed x -> recv_typed (pf_with_recv (r.2) (pf_recv_decoder x) x))).
  - apply keeps_perif_is; [keep|]. by apply keeps_zoom.
  - intros h w [r b] h' w' E [Hb Hd]. split; [|done]. apply zoom_inv in E as (t & E & _). unfold env_circ_read in E.
    destruct (circ_read _ _) as [[[r1 f1] b1]| | |] eqn:Er; [|done..]. injection E as <- <- _ _. by eapply circ_read_typed.
  - intros [r b] Hr. apply brings_recv; [exact Hr|keep].
Qed.
Lemma keeps_data_raw fuel p fd buf : keeps I (diag_data_recv_raw fuel p fd buf).
Proof. revert buf. induction fuel as [|fuel IH]; intros buf; cbn [diag_data_recv_raw]; keep. Qed.
#[local] Hint Resolve keeps_data_hdlc keeps_data_raw : keep.

Lemma keeps_recvfrom fd n : keeps I (sys_recvfrom fd n).
Proof. unfold sys_recvfrom. keep. Qed.
#[local] Hint Resolve keeps_recvfrom : keep.
Lemma keeps_qrtr_frame buf pkt flow : keeps I (qrtr_frame buf pkt flow).
Proof. unfold qrtr_frame. keep. Qed.
#[local] Hint Resolve keeps_qrtr_frame : keep.

(** *** With watches that come and go *)

Context `{HI : !Inner ok I}.

#[local] Hint Resolve in_usb_back in_add_readq in_add_writeq in_dm_add in_remove_fd in_remove_writeq : keep.

Lemma keeps_ffs_recv u b : (forall c, al_client ok c) -> usb_buffer b -> keeps I (diag_ffs_recv u b).
Proof. intros. unfold diag_ffs_recv. keep. Qed.
Lemma keeps_recv_raw fuel c buf : keeps I (dm_recv_raw_loop fuel c buf).
Proof. revert buf. induction fuel as [|fuel IH]; intros buf; cbn [dm_recv_raw_loop]; keep. Qed.
#[local] Hint Resolve keeps_recv_raw : keep.
Lemma keeps_dm_recv fuel c : al_client ok c -> keeps I (dm_recv fuel c).
Proof. unfold dm_recv, dm_recv_raw, dm_recv_encoded. keep. Qed.

Lemma keeps_qrtr_cmd dec p fd : al_write ok p -> keeps I (qrtr_cmd_recv dec p fd).
Proof.
  intros. unfold qrtr_cmd_recv. apply keeps_get_perif. intros x.
  apply (brings_post (fun r => match r.1 with inl _ => True | inr d => bytes_ok d end)).
  - apply keeps_perif_is; [keep|]. unfold sys_recvfrom. apply keeps_bind; [by apply keeps_zoom|intros].
    apply keeps_bind; [by apply keeps_zoom|intros; keep].
  - intros h w [r sq] h' w' (r1 & h1 & w1 & E1 & E)%bind_done_inv.
    apply bind_done_inv in E as (a & h2 & w2 & _ & [= <- _ _ _]). apply zoom_inv in E1 as (t & E1 & _).
    unfold env_read in E1. destruct (fd_read _ _) as [[e|d] f] eqn:Er; injection E1 as <- _ _; [done|]. by eapply fd_read_bytes.
  - intros [[e|d] sq] Hd; cbn [fst] in Hd.
    { apply keeps_brings; [by intros ? []|]. apply keeps_silent, silent_ret. }
    apply (brings_post (fun buf => ring_typed (pf_recv_buf x) -> ring_typed (CircBuf buf (cb_head (pf_recv_buf x)) (cb_tail (pf_recv_buf x)))));
      [apply keeps_silent, silent_lift| |].
    + intros h w buf h' w' (Em & _ & _)%lift_shape [(Hl & Hb) Hbuf]. pose proof (mem_write_shape _ _ _ _ Em) as (H1 & H2 & H3). rewrite mem_write_ok in Em by lia.
      injection Em as <-. split; [split; [cbn; lia|done]|]. by apply bytes_ok_splice.
    + intros buf Hb. apply brings_recv; [|keep]. intros [Hr Hdec]. by split; [apply Hb|].
Qed.
#[local] Hint Resolve keeps_qrtr_cmd : keep.
Lemma keeps_qrtr dec p fd : al_cmd ok p -> al_write ok p ->
  keeps I (qrtr_cntl_recv dec p fd) /\ keeps I (qrtr_cmd_recv dec p fd) /\ keeps I (qrtr_data_recv dec p fd).
Proof. intros. unfold qrtr_cntl_recv, qrtr_data_recv. split_and!; keep. Qed.

(** *** Opening channels *)

Lemma silent_devnode_get path : silent (devnode_get path).
Proof. unfold devnode_get. keep. Qed.
Lemma keeps_devnode_loop r n l : keeps I (devnode_open_loop r n l).
Proof. induction l as [|d l IH]; cbn [devnode_open_loop]; keep. Qed.
#[local] Hint Resolve silent_devnode_get keeps_devnode_loop : keep.
Lemma keeps_devnode_open r n : keeps I (devnode_open r n).
Proof. unfold devnode_open. keep. Qed.
#[local] Hint Resolve keeps_devnode_open : keep.
Lemma keeps_open_either r a b : keeps I (open_either r a b).
Proof. unfold open_either. keep. Qed.
Lemma silent_named r l : silent (named_loop r l).
Proof. induction l as [|p l IH]; cbn [named_loop]; keep. Qed.
#[local] Hint Resolve keeps_open_either silent_named : keep.

Lemma keeps_ep0 n ty u fd : al_handle ok u -> keeps I (ep0_recv n ty u fd).
Proof. unfold ep0_recv. keep. Qed.
Lemma keeps_unix_listen : keeps I unix_listen.
Proof. unfold unix_listen. keep. Qed.
End inner.
