(* ===== verification/RawClients.v ===== *)
(** * RawClients: requests of clients without framing

    A raw client's descriptor hands out requests one [read] at a time: what one
    call returns is one request.  [dm_recv_raw] reads until the descriptor is
    drained. *)

From S2P Require Import Prelude CircBuf Hdlc Masks Queue Watch World Dm Cntl Peripheral AppCmds CommonCmds Router DmRecv DataPath Requests Keeps.

(** ** Handling a request calls the system for nothing *)

Section handled.
Context (c : nat) (fd : Z) (e : env).

(** The environment, and the client with its descriptor. *)
Definition undisturbed (w : world) : Prop :=
  w_env w = e /\ exists dm, dm_clients (w_dm w) !! c = Some dm /\ dm_in_fd dm = fd.

Lemma undisturbed_ext w w' : w_env w' = w_env w -> w_dm w' = w_dm w -> undisturbed w -> undisturbed w'.
Proof. intros E1 E2 [H1 H2]. split; [by rewrite E1|by rewrite E2]. Qed.

#[export] Instance undisturbed_Quiet : Quiet anything undisturbed.
Proof.
  split; try (intros; match goal with H : undisturbed ?w |- _ => by apply (undisturbed_ext w) end);
    try (intros; apply keeps_zoom; intros ? w; by apply (undisturbed_ext w)).
  - intros f w Hf [He (dm & Hc & Hfd)]. split; [done|].
    destruct (Forall2_lookup_l _ _ _ _ _ (Hf (w_dm w)) Hc) as (dm' & Hc' & _ & Hin & _). exists dm'. split; [done|]. by rewrite Hin.
  - intros f _. apply keeps_modify. intros w. by apply undisturbed_ext.
Qed.
End handled.

Lemma handled_undisturbed c fd e buf len h w buf' h' w' :
  undisturbed c fd e w -> diag_client_handle_command c buf len h w = Done (buf', h', w') -> undisturbed c fd e w'.
Proof. apply (keeps_handle_command anything (undisturbed c fd e)). Qed.

(** ** The requests of a descriptor *)

(** The chunks that are left on the descriptor. *)
Definition left_to_read (fd : Z) (l : list (Z + bytes)) (w : world) : world :=
  over (fun e => Env (<[fd := l]> (e_fds e)) (e_results e) (e_senders e) (e_udev e) (e_aio e)) w.

(** What the program should do with the requests [chunks]: take each from the
    descriptor and hand it to the router.  Each is written over the start of
    the buffer the one before was handled in. *)
Fixpoint handle_chunks (c : nat) (fd : Z) (chunks : list bytes) (rest : list (Z + bytes)) (buf : bytes) : M world bytes :=
  match chunks with
  | [] => mret buf
  | d :: chunks =>
      _ ← modify (left_to_read fd ((inr <$> chunks) ++ rest));
      buf ← diag_client_handle_command c (splice buf 0 d) (zlen d);
      handle_chunks c fd chunks rest buf
  end.

Definition one_read (d : bytes) : Prop := bytes_ok d /\ 0 < zlen d <= sizeof_dm_buf.

(** One call of [read] that returns one request. *)
Lemma sys_read_chunk fd d l n h w :
  fd_script fd w = inr d :: l -> bytes_ok d -> zlen d <= n ->
  sys_read fd n h w = Done (inr d, h, left_to_read fd l w).
Proof.
  intros Hs Hd Hn. unfold sys_read. etransitivity.
  - apply zoom_done. unfold env_read. change (default [] (e_fds (view w) !! fd)) with (fd_script fd w).
    rewrite Hs. cbn [fd_read script_fd script_read]. rewrite (proj2 (Z.leb_le _ _) Hn), u8_bytes by done. reflexivity.
  - reflexivity.
Qed.

(** What ends the loop: nothing more to read for now, an error, or the end of
    the stream. *)
Definition no_request (rest : list (Z + bytes)) : Prop := match rest with inr (_ :: _) :: _ => False | _ => True end.

Definition raw_end (fd : Z) (r : Z + bytes) : M world Z :=
  match r with
  | inl errno => if errno =? EAGAIN then mret 0 else mret (- errno)
  | inr _ => _ ← zoom (watch_remove_fd fd); mret 0
  end.

Lemma sys_read_rest fd rest n h w :
  fd_script fd w = rest -> no_request rest -> 0 <= n ->
  exists r w', sys_read fd n h w = Done (r, h, w') /\ match r with inl _ => True | inr d => d = [] end.
Proof.
  intros Hs Hr Hn. unfold sys_read.
  assert (exists r f, fd_read (fd_script fd w) n = (r, f) /\ match r with inl _ => True | inr d => d = [] end) as (r & f & E & H).
  { rewrite Hs. destruct rest as [|[x|[|x d]] rest]; [by eexists _, _..| |done].
    exists (inr []), rest. split; [|done]. cbn [fd_read script_fd script_read]. by rewrite (proj2 (Z.leb_le (zlen []) n) Hn). }
  exists r. eexists. split; [|exact H]. apply zoom_done. unfold env_read.
  change (default [] (e_fds (view w) !! fd)) with (fd_script fd w). rewrite E. reflexivity.
Qed.

(** ** The loop *)

Lemma raw_loop_in_order fuel c fd chunks rest e buf h w :
  undisturbed c fd e w -> fd_script fd w = (inr <$> chunks) ++ rest -> no_request rest ->
  Forall one_read chunks -> zlen buf = sizeof_dm_buf -> (length chunks < fuel)%nat ->
  dm_recv_raw_loop fuel c buf h w =
    (_ ← handle_chunks c fd chunks rest buf; r ← sys_read fd sizeof_dm_buf; raw_end fd r) h w.
Proof.
  revert chunks e buf h w. induction fuel as [|fuel IH]; intros chunks e buf h w Hu Hs Hrest Hch Hbuf Hfuel; [lia|].
  cbn [dm_recv_raw_loop]. pose proof Hu as (He & dm & Hc & Hfd). erewrite bind_done by (by apply get_client_ok). rewrite Hfd.
  destruct chunks as [|d chunks].
  - cbn [handle_chunks]. rewrite (bind_done (mret buf) _ h w buf h w) by done.
    destruct (sys_read_rest fd rest sizeof_dm_buf h w Hs Hrest) as (r & w' & E & Hr); [done|].
    rewrite !(bind_done _ _ _ _ _ _ _ E). destruct r as [errno|d]; [done|]. by subst d.
  - apply Forall_cons in Hch as [[Hd Hdl] Hch]. cbn [fmap list_fmap app] in Hs. change (fmap inr chunks) with (inr (A:=Z) <$> chunks) in Hs.
    set (l := (inr <$> chunks) ++ rest) in *. cbn [handle_chunks]. fold l.
    erewrite bind_done by (apply (sys_read_chunk fd d l); [exact Hs|exact Hd|lia]). cbv beta iota.
    rewrite (proj2 (Z.eqb_neq (zlen d) 0)) by lia. set (w1 := left_to_read fd l w).
    erewrite bind_done by (unfold lift; rewrite mem_write_ok by lia; reflexivity).
    unfold mbind, M_bind. cbn [modify]. fold w1.
    destruct (diag_client_handle_command c (splice buf 0 d) (zlen d) h w1) as [[[buf' h2] w2]| | |] eqn:Eh; [|done..].
    assert (undisturbed c fd (w_env w1) w2) as Hu2 by (eapply handled_undisturbed; [|exact Eh]; split; [done|by exists dm]).
    apply (IH chunks (w_env w1)); try done.
    + unfold fd_script. rewrite (proj1 Hu2). cbn. by rewrite lookup_insert_eq.
    + apply handle_command_length in Eh. rewrite Eh, zlen_splice; lia.
    + cbn in Hfuel. lia.
Qed.

(** ** Properties *)

(** C5 Every read of a raw client is a request: [dm_recv] takes the chunks the
    descriptor hands out, one by one and in order, and hands each to the router
    before it reads the next, in a buffer that still holds what the handling of
    the ones before left behind the chunk; whatever the handlers do, nothing is
    lost or cut.  It ends when there is nothing more to read for now, with the
    error of a failing read, or, when the client hung up, by removing the
    watches of its descriptor. *)
Theorem dm_recv_raw_in_order fuel c dm chunks rest h w :
  dm_clients (w_dm w) !! c = Some dm -> dm_encode_type dm = DIAG_ENCODE_RAW ->
  fd_script (dm_in_fd dm) w = (inr <$> chunks) ++ rest -> no_request rest -> Forall one_read chunks ->
  (length chunks < fuel)%nat ->
  dm_recv fuel c h w =
    (buf ← stack sizeof_dm_buf; _ ← handle_chunks c (dm_in_fd dm) chunks rest buf;
     r ← sys_read (dm_in_fd dm) sizeof_dm_buf; raw_end (dm_in_fd dm) r) h w.
Proof.
  intros Hc Ht Hs Hrest Hch Hfuel. unfold dm_recv. erewrite bind_done by (by apply get_client_ok). rewrite Ht. cbn [Z.eqb].
  change (DIAG_ENCODE_RAW =? DIAG_ENCODE_RAW) with true. cbv iota. unfold dm_recv_raw.
  destruct (stack_ok sizeof_dm_buf h w) as (buf & E & _ & Hb). rewrite !(bind_done _ _ _ _ _ _ _ E).
  apply (raw_loop_in_order fuel c (dm_in_fd dm) chunks rest (w_env w)); try done; [by split; [|exists dm]|by apply Hb].
Qed.
