(* ===== verification/Preserve.v ===== *)
(** * Preserve: what every callback of the program keeps

    A property of the state that survives every primitive operation, also
    those that open and close peripherals, survives every callback, and, when
    it survives a submission and a completion of asynchronous I/O as well,
    every round of the event loop and every run of the program. *)

From S2P Require Import Prelude CircBuf Hdlc Masks Queue Watch World Dm Cntl Peripheral AppCmds CommonCmds Router DmRecv Devnode Qrtr Clients EventLoop Keeps.

(** ** The interface *)

Class Inv (I : world -> Prop) := {
  inv_masks (f : masks -> masks) w : I w -> I (over f w);
  inv_cmds (f : cmdstate -> cmdstate) w : I w -> I (over f w);
  inv_ids (f : idstate -> idstate) w : I w -> I (over f w);
  inv_dev (f : devstate -> devstate) w : I w -> I (over f w);
  inv_env (f : env -> env) w : (forall e, e_aio (f e) = e_aio e) -> I w -> I (over f w);
  inv_pf (f : pfstate -> pfstate) w : (all_typed (w_pf w) -> all_typed (f (w_pf w))) -> I w -> I (over f w);
  inv_dm (f : dmstate -> dmstate) w : keeps_clients f -> I w -> I (over f w);
  inv_push q msg len flow : packet_queue q -> keeps I (zoom (queue_push_flow q msg len flow));
  inv_push_nhdlc q msg len flow : packet_queue q -> keeps I (zoom (queue_push_nhdlc_flow q msg len flow));
  inv_flow_new : keeps I (zoom watch_flow_new);
  inv_reset q : perif_queue q -> keeps I (zoom (modify (set_queue q [])));
  inv_usb_queue u b : usb_buffer b -> keeps I (zoom (modify (set_queue (QUsb u) [b])));
  inv_usb_back u b : usb_buffer b -> keeps I (zoom (list_add_tail (QUsb u) b));
  inv_add_readfd fd cb flow : keeps I (zoom (watch_add_readfd fd cb flow));
  inv_add_readq fd u : keeps I (zoom (watch_add_readq fd (QUsb u) (CbFfsRecv u)));
  inv_add_writeq fd q : perif_queue q -> keeps I (zoom (watch_add_writeq fd q));
  inv_dm_add name in_fd out_fd enc : keeps I (dm_add name in_fd out_fd enc);
  inv_remove_fd fd : keeps I (zoom (watch_remove_fd fd));
  inv_remove_writeq fd : keeps I (zoom (watch_remove_writeq fd));
  inv_add_timer cb n b : keeps I (zoom (watch_add_timer cb n b));
  inv_read f w : (forall l, f l `sublist_of` l) -> I w -> I (over (with_read f) w) }.

(** What only the loop itself changes: the timers that are set, and the clock. *)
Class ClockInv (I : world -> Prop) := {
  inv_timers f w : I w -> I (over (with_timers f) w);
  inv_now now : keeps I (set_now now) }.

(** Two such properties together. *)
#[export] Instance Inv_and (I J : world -> Prop) `{!Inv I, !Inv J} : Inv (fun w => I w /\ J w).
Proof.
  split; intros; try (by apply keeps_and; destruct Inv0, Inv1; auto); destruct_and?; split;
    destruct Inv0, Inv1; auto.
Qed.

#[export] Instance ClockInv_and (I J : world -> Prop) `{!ClockInv I, !ClockInv J} : ClockInv (fun w => I w /\ J w).
Proof. split; intros; [destruct_and?; split; by apply inv_timers|apply keeps_and; apply inv_now]. Qed.

Lemma typed_alter p f s :
  (forall x, pf_objs s !! p = Some x -> recv_typed x -> recv_typed (f x)) ->
  all_typed s -> all_typed (PfState (alter f p (pf_objs s)) (pf_list s) (pf_fresh s)).
Proof.
  intros Hf Hs q y. cbn. rewrite lookup_alter. case_decide as E; [|apply Hs]. subst.
  destruct (pf_objs s !! q) as [x|] eqn:Ex; [|done]. intros [= <-]. by apply (Hf x), (Hs q).
Qed.

(** Such a property survives the operations of a callback, whatever they refer
    to. *)
#[export] Instance Inv_Inner (I : world -> Prop) `{!Inv I} : Inner anything I.
Proof.
  split; [split; [split|]|..]; intros.
  - by apply inv_masks.
  - by apply inv_ids.
  - by apply inv_dm.
  - apply keeps_modify. intros. by apply inv_cmds.
  - apply inv_pf; [|done]. by apply typed_alter.
  - by apply inv_push.
  - by apply inv_push_nhdlc.
  - apply inv_add_timer.
  - by apply inv_env.
  - by apply inv_usb_back.
  - apply inv_add_readq.
  - apply inv_add_writeq. by destruct q.
  - apply inv_dm_add.
  - apply inv_remove_fd.
  - apply inv_remove_writeq.
Qed.

(** An operation that may refer to anything. *)
Ltac inner :=
  match goal with |- keeps ?I _ => first [ apply (keeps_call anything I) | apply (keeps_read anything I) | apply (keeps_device anything I)
        | apply (keeps_masks anything I) | apply (keeps_devnode_open anything I) | apply (keeps_open_either anything I)
        | apply (keeps_send_masks anything I) | apply (keeps_dm_enable anything I) | apply (keeps_dm_broadcast anything I)
        | apply (keeps_data_hdlc anything I) | apply (keeps_data_raw anything I)
        | exact (keeps_cntl_recv anything I _ _ _ Logic.I) ] end.

Section preserve.
Context (I : world -> Prop) `{HI : !Inv I}.

#[local] Hint Resolve inv_flow_new inv_reset inv_usb_queue inv_add_readfd inv_dm_add inv_add_writeq inv_remove_fd
  inv_add_timer : keep.
#[local] Hint Extern 1 (perif_queue _) => exact Logic.I : keep.
#[local] Hint Extern 1 (forall _, recv_typed _ -> recv_typed _) => by intros [] : keep.
#[local] Hint Extern 2 (keeps _ _) => inner : keep.
#[local] Hint Resolve silent_devnode_get silent_named : keep.

Lemma keeps_cmds (f : cmdstate -> cmdstate) : keeps I (modify (over f)).
Proof. apply keeps_modify, inv_cmds. Qed.
Lemma keeps_dev (f : devstate -> devstate) : keeps I (modify (over f)).
Proof. apply keeps_modify, inv_dev. Qed.
Lemma keeps_pf (f : pfstate -> pfstate) : (forall s, all_typed s -> all_typed (f s)) -> keeps I (modify (over f)).
Proof. intros Hf. apply keeps_modify. intros w. apply inv_pf, Hf. Qed.
Lemma keeps_alter_perif p f : (forall q, recv_typed q -> recv_typed (f q)) -> keeps I (upd_perif p f).
Proof. intros Hf. apply keeps_pf. intros s. apply typed_alter. auto. Qed.
Lemma typed_delete p s : all_typed s -> all_typed (PfState (delete p (pf_objs s)) (filter (fun q => q <> p) (pf_list s)) (pf_fresh s)).
Proof. intros Hs q x. cbn. intros [_ Ex]%lookup_delete_Some. by apply (Hs q). Qed.
Lemma typed_insert p x s :
  recv_typed x -> all_typed s -> all_typed (PfState (<[p := x]> (pf_objs s)) (pf_list s ++ [p]) (S p)).
Proof. intros Hx Hs q y. cbn. intros [[_ <-]|[_ Ey]]%lookup_insert_Some; [done|by apply (Hs q)]. Qed.
Lemma typed_new name cntl_fd cntl_open data_fd data_open cmd dci feat flow id sock tr :
  recv_typed (Peripheral name feat cntl_fd cntl_open data_fd data_open cmd dci flow id sock circ_zero decoder_zero tr).
Proof. apply zero_typed. Qed.
#[local] Hint Resolve keeps_cmds keeps_dev keeps_pf keeps_alter_perif typed_delete typed_insert typed_new : keep.

(** *** Peripherals *)

Lemma keeps_close p : keeps I (peripheral_close p).
Proof. unfold peripheral_close, perif_rpmsg_close, diag_cntl_close, with_cmds. keep. Qed.
#[local] Hint Resolve keeps_close : keep.
Lemma keeps_rpmsg fuel p fd :
  keeps I (diag_data_recv fuel p fd) /\ keeps I (diag_cmd_recv p fd) /\ keeps I (rpmsg_perif_cntl_recv p fd).
Proof. unfold diag_data_recv, diag_cmd_recv, rpmsg_perif_cntl_recv. split_and!; keep. Qed.

Lemma keeps_peripheral_open p : keeps I (peripheral_open p).
Proof. unfold peripheral_open. keep. Qed.
Lemma keeps_add_peripheral perif : recv_typed perif -> keeps I (add_peripheral perif).
Proof. intros. unfold add_peripheral. keep. Qed.
Lemma keeps_set_devnodes f : keeps I (set_devnodes f).
Proof. apply keeps_dev. Qed.
#[local] Hint Resolve keeps_add_peripheral keeps_set_devnodes : keep.
Lemma keeps_udev_add dev path : keeps I (udev_add dev path).
Proof. unfold udev_add, devnode_add, peripheral_create. keep. Qed.
#[local] Hint Resolve keeps_udev_add : keep.
Lemma keeps_udev_update : keeps I peripheral_udev_update.
Proof. unfold peripheral_udev_update, devnode_remove. keep. Qed.
Lemma keeps_rpmsg_init udev devs fd : keeps I (peripheral_rpmsg_init udev devs fd).
Proof. unfold peripheral_rpmsg_init. keep. apply keeps_for_each. keep. Qed.
Lemma keeps_qrtr_init : keeps I peripheral_qrtr_init.
Proof.
  unfold peripheral_qrtr_init, qrtr_perif_init_subsystem, qrtr_socket. keep. apply keeps_for_each. keep.
Qed.

(** *** Every callback, and the start of the program *)

Context (dec : bytes -> Z -> Z * Z -> Z + qrtr_packet) (ffs_size : Z) (ffs_type : bytes -> ffs_event)
  (fuel : nat).

Lemma run_cb_keeps cb fd : keeps I (run_cb dec ffs_size ffs_type fuel cb fd).
Proof.
  destruct cb as [c| |p|p|p| |p|p|p|u|u|]; cbn [run_cb];
    try pose proof (keeps_rpmsg fuel p fd) as (? & ? & ?); try pose proof (keeps_qrtr anything I dec p fd Logic.I Logic.I) as (? & ? & ?);
    try done; first [by apply (keeps_dm_recv anything I)|by apply (keeps_unix_listen anything I)|apply keeps_udev_update|by apply (keeps_ep0 anything I)].
Qed.

Lemma run_timer_keeps cb : keeps I (run_timer cb).
Proof. destruct cb; cbn [run_timer]; [apply (keeps_reset anything I)|apply keeps_peripheral_open]. Qed.

Definition usb_or_none (b : option mbuf) : Prop := match b with Some b => usb_buffer b | None => True end.

Lemma mbuf_alloc_usb n h s b h' s' :
  0 <= n < 2 ^ 32 -> mbuf_alloc n h s = Done (b, h', s') -> usb_or_none b.
Proof.
  intros Hn. unfold mbuf_alloc, malloc, sizeof_mbuf. intros (p & h1 & s1 & [= Ep _ _] & E2)%bind_done_inv.
  destruct (h_oracle h (h_calls h)) as [junk|]; cbn in Ep; subst p; injection E2 as <- _ _; [|done]. split; [done|]. cbn [mb_size mb_data].
  rewrite u64_id by lia. pose proof (zlen_junk_bytes junk (40 + n)). rewrite zlen_drop; lia.
Qed.

Lemma silent_mbuf_alloc n : silent (mbuf_alloc n).
Proof. unfold mbuf_alloc. keep. Qed.

Lemma keeps_ffs_init : keeps I ffs_diag_init.
Proof. unfold ffs_diag_init, ffs_step. keep. Qed.
#[local] Hint Resolve keeps_ffs_init : keep.

Lemma keeps_usb_open : keeps I diag_usb_open.
Proof.
  unfold diag_usb_open, calloc_or_die. apply keeps_bind; [keep|]. intros _.
  apply (keeps_bind_post I usb_or_none).
  - apply keeps_silent, silent_zoom, silent_mbuf_alloc.
  - intros h w b h' w' E. unfold zoom in E. destruct (mbuf_alloc 16384 h (view w)) as [[[r hr] t]| | |] eqn:Em; try done.
    injection E as -> _ _. eapply mbuf_alloc_usb; [|exact Em]. lia.
  - intros [b|] Hb; keep.
Qed.

Lemma start_keeps m udev devs fd : keeps I (diag_start m udev devs fd).
Proof.
  assert (forall n, keeps I (configure n)) as Hc.
  { intros n. induction n as [|n IH]; cbn [configure]; keep. }
  unfold diag_start, peripheral_init, diag_sock_connect, diag_uart_open, diag_unix_open, register_app_cmds, register_common_cmds,
    register_fallback_cmd, register_fallback_subsys_cmd, register_common_cmd, add_fallback, calloc_or_die.
  keep; auto using keeps_usb_open, keeps_rpmsg_init, keeps_qrtr_init.
Qed.
End preserve.

(** ** Rounds of the event loop *)

Class LoopInv (I : world -> Prop) `{!Inv I} := {
  inv_submit id : keeps I (watch_submit_aio id);
  inv_event id ev : keeps I (aio_event id ev) }.

Section rounds.
Context (I : world -> Prop) `{HI : !Inv I, HL : !LoopInv I, HC : !ClockInv I}.
Context (dec : bytes -> Z -> Z * Z -> Z + qrtr_packet) (ffs_size : Z) (ffs_type : bytes -> ffs_event)
  (fuel : nat).

#[local] Hint Resolve inv_submit inv_event run_cb_keeps run_timer_keeps : keep.
#[local] Hint Extern 2 (keeps _ sys_call) => inner : keep.

Lemma silent_get_aio id : silent (get_aio id).
Proof. unfold get_aio. keep. Qed.
Lemma silent_get_read id : silent (get_read id).
Proof. unfold get_read. keep. Qed.
Lemma silent_blocked f : silent (watch_flow_blocked f).
Proof. unfold watch_flow_blocked. keep. Qed.
#[local] Hint Resolve silent_get_aio silent_get_read silent_blocked : keep.

Lemma silent_select l : silent (select_fds l).
Proof. induction l as [|w l IH]; cbn [select_fds]; keep. Qed.
#[local] Hint Resolve silent_select : keep.

Lemma keeps_submit_round : keeps I submit_round.
Proof. unfold submit_round. keep. apply keeps_for_each. keep. Qed.

Lemma keeps_aio_loop n item next evs : keeps I (aio_loop n item next evs).
Proof. revert item next. induction n as [|n IH]; intros [id|] next; cbn [aio_loop]; keep. Qed.
#[local] Hint Resolve keeps_submit_round keeps_aio_loop : keep.

Lemma keeps_eventfd evs : keeps I (watch_handle_eventfd evs).
Proof. unfold watch_handle_eventfd. keep. Qed.

Lemma keeps_list_del id : keeps I (list_del_read id).
Proof. unfold list_del_read. keep. apply keeps_modify. intros. apply inv_read; [intros; apply sublist_filter|done]. Qed.
#[local] Hint Resolve keeps_eventfd keeps_list_del : keep.

Lemma keeps_read_loop n item next ready : keeps I (read_loop dec ffs_size ffs_type fuel n item next ready).
Proof. revert item next. induction n as [|n IH]; intros [id|] next; cbn [read_loop]; keep. Qed.
#[local] Hint Resolve keeps_read_loop : keep.

(** With the timers and the clock as well: whole rounds and runs. *)
#[local] Hint Resolve inv_now : keep.

Lemma keeps_free_timer k : keeps I (zoom (watch_free_timer k)).
Proof. intros h w a h' w' Hw [= _ _ <-]. by apply (inv_timers (delete k)). Qed.
#[local] Hint Resolve keeps_free_timer : keep.

Lemma keeps_timer_round k : keeps I (timer_round k).
Proof.
  unfold timer_round. keep. apply keeps_modify. intros w Hw.
  by apply (inv_timers (alter (watch_set_timer (ws_now (w_watches w))) k)).
Qed.
#[local] Hint Resolve keeps_timer_round : keep.

Lemma silent_timeout k s : silent (select_timeout k s).
Proof. unfold select_timeout. keep. Qed.
#[local] Hint Resolve silent_timeout : keep.

Lemma watch_round_keeps n r : keeps I (watch_round dec ffs_size ffs_type fuel n r).
Proof. unfold watch_round, read_round. keep. Qed.
#[local] Hint Resolve watch_round_keeps : keep.

Lemma watch_loop_keeps n rs : keeps I (watch_loop dec ffs_size ffs_type fuel n rs).
Proof. induction rs as [|r rs IH]; cbn [watch_loop]; keep. Qed.
#[local] Hint Resolve watch_loop_keeps : keep.

Lemma main_keeps m udev devs fd n rs : keeps I (main dec ffs_size ffs_type fuel m udev devs fd n rs).
Proof.
  unfold main, watch_run. apply keeps_bind; [by apply start_keeps|]. keep. apply keeps_for_each. keep.
Qed.
End rounds.
