(* ===== verification/Flow.v ===== *)
(** * Flow: the accounting of [router/watch.c]'s flow counters

    A flow counts the packets a peripheral's data channel has outstanding;
    [watch_run] stops reading the channel while the count is above the
    watermark.  The counter is raised where a packet is queued and lowered
    where its write completes, in different files: the invariant here, that a
    counter never falls below the packets it stands for, ties them together,
    through every callback and every round of the event loop. *)

From S2P Require Import Prelude CircBuf Hdlc Masks Queue Watch World Dm Cntl Peripheral AppCmds CommonCmds Router DmRecv Devnode Qrtr Clients EventLoop Keeps Preserve.

(** ** Outstanding packets *)

Definition charged (f : nat) (l : list mbuf) : Z := zlen (filter (fun b => mb_flow b = Some f) l).

(** In the queues, and in the hands of the kernel. *)
Definition queued (f : nat) (m : gmap queue_ref (list mbuf)) : Z :=
  map_fold (fun _ l n => charged f l + n) 0 m.

Definition pending (f : nat) (l : list watch) : Z := charged f (omap wa_pending_aio l).

Definition outstanding (f : nat) (w : world) : Z :=
  queued f (q_lists (w_queues w)) + pending f (ws_aio (w_watches w)).

Definition counter (f : nat) (w : world) : Z := default 0 (q_flows (w_queues w) !! f).

Lemma charged_nonneg f l : 0 <= charged f l.
Proof. apply zlen_nonneg. Qed.
Lemma charged_app f l k : charged f (l ++ k) = charged f l + charged f k.
Proof. unfold charged. by rewrite filter_app, zlen_app. Qed.
Lemma charged_cons f b l : charged f (b :: l) = charged f [b] + charged f l.
Proof. apply (charged_app f [b]). Qed.
Lemma charged_one f b : charged f [b] = if decide (mb_flow b = Some f) then 1 else 0.
Proof. unfold charged. rewrite filter_cons, filter_nil. by case_decide. Qed.

Lemma queued_delete f q m : queued f m = charged f (default [] (m !! q)) + queued f (delete q m).
Proof.
  unfold queued. destruct (m !! q) as [l|] eqn:E; cbn [default from_option id].
  - apply (map_fold_delete_L (fun _ l n => charged f l + n) 0 q l m); [|done].
    intros; lia.
  - rewrite delete_id by done. done.
Qed.

Lemma queued_insert f q l m : queued f (<[q := l]> m) = queued f m - charged f (default [] (m !! q)) + charged f l.
Proof.
  rewrite (queued_delete f q (<[q := l]> m)), (queued_delete f q m).
  rewrite lookup_insert_eq, delete_insert_eq. cbn. lia.
Qed.

Lemma queued_nonneg f m : 0 <= queued f m.
Proof.
  unfold queued. apply (map_fold_weak_ind (fun n _ => 0 <= n)); [done|].
  intros q l m' n Hq Hn. pose proof (charged_nonneg f l). lia.
Qed.

Lemma queued_at_least f q m : charged f (default [] (m !! q)) <= queued f m.
Proof. rewrite (queued_delete f q m). pose proof (queued_nonneg f (delete q m)). lia. Qed.

Lemma queued_set f q l s :
  queued f (q_lists (set_queue q l s)) = queued f (q_lists s) - charged f (queue_of s q) + charged f l.
Proof. apply queued_insert. Qed.

Lemma pending_app f l k : pending f (l ++ k) = pending f l + pending f k.
Proof. unfold pending. by rewrite omap_app, charged_app. Qed.
Lemma pending_cons f w l : pending f (w :: l) = pending f [w] + pending f l.
Proof. apply (pending_app f [w]). Qed.
Lemma pending_nonneg f l : 0 <= pending f l.
Proof. apply charged_nonneg. Qed.
Lemma pending_one f w : pending f [w] = match wa_pending_aio w with Some b => charged f [b] | None => 0 end.
Proof. unfold pending. cbn. by destruct (wa_pending_aio w). Qed.

Lemma pending_filter f (P : watch -> Prop) `{!forall w, Decision (P w)} l : pending f (filter P l) <= pending f l.
Proof.
  induction l as [|w l IH]; [done|]. rewrite filter_cons, (pending_cons f w l).
  pose proof (pending_nonneg f [w]). case_decide; [rewrite pending_cons|]; lia.
Qed.

(** ** The invariant

    A read watch moves the USB buffers, which belong to no flow. *)

Definition aio_ok (w : watch) : Prop :=
  if wa_is_write w then wa_cb w = CbFreeWriteAio
  else exists u, wa_cb w = CbFfsRecv u /\ wa_queue w = Some (QUsb u) /\ usb_or_none (wa_pending_aio w).

Record flow_inv (w : world) : Prop := {
  fi_count f : outstanding f w <= counter f w;
  fi_usb u : Forall usb_buffer (queue_of (w_queues w) (QUsb u));
  fi_aio : Forall aio_ok (ws_aio (w_watches w));
  fi_ids : NoDup (wa_id <$> ws_aio (w_watches w));
  fi_fresh : Forall (fun w' => (wa_id w' < ws_fresh (w_watches w))%nat) (ws_aio (w_watches w)) }.

(** The invariant is about two components. *)
Lemma flow_inv_ext w w' :
  w_queues w' = w_queues w -> w_watches w' = w_watches w -> flow_inv w -> flow_inv w'.
Proof.
  intros Eq Ew [H1 H2 H3 H4 H5]. split; unfold outstanding, counter in *; rewrite ?Eq, ?Ew; assumption.
Qed.

(** A change of the queues alone. *)
Lemma flow_inv_queues w s :
  flow_inv w ->
  (forall f, queued f (q_lists s) - queued f (q_lists (w_queues w)) <=
    default 0 (q_flows s !! f) - counter f w) ->
  (forall u, Forall usb_buffer (queue_of s (QUsb u))) ->
  flow_inv (over (fun _ => s) w).
Proof.
  intros [H1 H2 H3 H4 H5] Hc Hu. split; try assumption.
  intros f. specialize (H1 f). specialize (Hc f). unfold outstanding, counter in *. cbn in *. lia.
Qed.

(** A change of the watches alone. *)
Lemma flow_inv_watches w s :
  flow_inv w ->
  (forall f, pending f (ws_aio s) <= pending f (ws_aio (w_watches w))) ->
  Forall aio_ok (ws_aio s) -> NoDup (wa_id <$> ws_aio s) ->
  Forall (fun w' => (wa_id w' < ws_fresh s)%nat) (ws_aio s) ->
  flow_inv (over (fun _ => s) w).
Proof.
  intros [H1 H2 H3 H4 H5] Hp Ha Hn Hf. split; try assumption.
  intros f. specialize (H1 f). specialize (Hp f). unfold outstanding, counter in *. cbn in *. lia.
Qed.

(** ** Pushing *)

Lemma flow_inc_shape flow h s a h' s' :
  watch_flow_inc flow h s = Done (a, h', s') -> flow_ok flow s /\ s' = bump flow s.
Proof.
  intros E. assert (flow_ok flow s) as Hf.
  { destruct flow as [f|]; [|done]. cbn in E |- *. unfold flow_upd in E.
    apply bind_done_inv in E as (s1 & h1 & s2 & [= <- <- <-] & E). by destruct (q_flows s !! f). }
  split; [done|]. rewrite (flow_inc_ok flow h s Hf) in E. by injection E as _ _ <-.
Qed.

Lemma mbuf_alloc_shape n h s b h' s' :
  mbuf_alloc n h s = Done (Some b, h', s') -> s' = s /\ h' = tick h /\ exists junk, b = Mbuf n 0 None junk.
Proof.
  unfold mbuf_alloc. intros (p & h1 & s1 & [= _ <- <-] & E)%bind_done_inv. destruct p; [|done].
  injection E as <- <- <-. split_and!; [done..|]. by eexists.
Qed.

Lemma mb_write_shape b off src b' :
  mb_write b off src = Done b' ->
  0 <= off /\ off + zlen src <= zlen (mb_data b) /\ zlen (mb_data b') = zlen (mb_data b) /\
  mb_size b' = mb_size b /\ mb_offset b' = mb_offset b.
Proof.
  unfold mb_write. destruct (mem_write (mb_data b) off src) as [d| | |] eqn:E; intros [= <-].
  by apply mem_write_shape in E as (? & ? & ?).
Qed.

(** What a push can do to the queues, whatever its arguments. *)
Definition pushed (q : queue_ref) (flow : option nat) (s s' : qstate) : Prop :=
  s' = s \/ exists b, mb_flow b = flow /\ 0 <= mb_size b <= zlen (mb_data b) /\ flow_ok flow s /\
    s' = set_queue q (queue_of s q ++ [b]) (bump flow s).

Lemma push_tail_shape q b flow h s a h' s' :
  mb_flow b = flow -> 0 <= mb_size b <= zlen (mb_data b) ->
  (_ ← watch_flow_inc flow; list_add_tail q b) h s = Done (a, h', s') -> pushed q flow s s'.
Proof.
  intros Hb Hs (u & h1 & s1 & E1 & E2)%bind_done_inv. apply flow_inc_shape in E1 as [Hf ->].
  injection E2 as _ _ <-. right. exists b. by rewrite queue_of_bump.
Qed.

Lemma push_shape q msg len flow h s a h' s' :
  queue_push_flow q msg len flow h s = Done (a, h', s') -> pushed q flow s s'.
Proof.
  unfold queue_push_flow. intros ([b|] & h1 & s1 & E1 & E)%bind_done_inv; [|done].
  apply mbuf_alloc_shape in E1 as (-> & _ & junk & ->). unfold mbuf_put in E. cbn in E.
  destruct (len <? _) eqn:El; [discriminate E|]. apply bind_done_inv in E as (d & h2 & s2 & E2 & E).
  apply lift_shape in E2 as (E2 & -> & ->). apply mem_read_shape in E2 as (_ & Hlen & Hmsg & ->).
  apply bind_done_inv in E as (b2 & h3 & s3 & E3 & E). apply lift_shape in E3 as (E3 & -> & ->).
  apply mb_write_shape in E3 as (_ & Hw & Hz & Es & _). cbn in Hw, Hz, Es. rewrite zlen_slice in Hw by lia.
  eapply push_tail_shape in E; [done|done|cbn; lia].
Qed.

Lemma push_nhdlc_shape q msg len flow h s a h' s' :
  queue_push_nhdlc_flow q msg len flow h s = Done (a, h', s') -> pushed q flow s s'.
Proof.
  unfold queue_push_nhdlc_flow. intros ([b|] & h1 & s1 & E1 & E)%bind_done_inv;
    [|apply silent_mbuf_alloc in E1 as ->; injection E as _ _ <-; by left].
  apply mbuf_alloc_shape in E1 as (-> & _ & junk & ->). unfold mbuf_put in E. cbn [mb_size mb_offset] in E.
  destruct (_ <? _); [injection E as _ _ <-; by left|].
  do 4 (let d := fresh "d" in let Ed := fresh "Ed" in
        apply bind_done_inv in E as (d & ? & ? & Ed & E); apply lift_shape in Ed as (Ed & -> & ->)).
  apply mb_write_shape in Ed as (_ & _ & Z1 & S1 & _). apply mem_read_shape in Ed0 as (_ & Hlen & _ & ->).
  apply mb_write_shape in Ed1 as (_ & _ & Z2 & S2 & _). apply mb_write_shape in Ed2 as (_ & Hw & Z3 & S3 & _).
  eapply push_tail_shape in E; [done|done|]. cbn [mb_size mb_data] in *. change (zlen [NHDLC_CONTROL_CHAR]) with 1 in Hw.
  rewrite S3, S2, S1. unfold sizeof_pkt_frame, u64 in *. pose proof (Z.mod_le (len + 4 + 1) (2 ^ 64)).
  pose proof (Z.mod_pos_bound (len + 4 + 1) (2 ^ 64)). lia.
Qed.

Lemma counter_bump flow s f :
  flow_ok flow s ->
  default 0 (q_flows (bump flow s) !! f) = default 0 (q_flows s !! f) + (if decide (flow = Some f) then 1 else 0).
Proof.
  destruct flow as [g|]; intros Hf; cbn; [|rewrite decide_False by done; lia].
  destruct (decide (g = f)) as [->|Hne].
  - rewrite decide_True by done. rewrite list_lookup_alter_eq. destruct Hf as [n ->]. done.
  - rewrite decide_False by congruence. rewrite list_lookup_alter_ne by done. lia.
Qed.

Lemma lists_bump flow s : q_lists (bump flow s) = q_lists s.
Proof. by destruct flow. Qed.

Lemma flow_inv_pushed q flow w s' :
  packet_queue q -> flow_inv w -> pushed q flow (w_queues w) s' -> flow_inv (over (fun _ => s') w).
Proof.
  intros Hq Hw [->|(b & Hb & _ & Hf & ->)]; [by apply (flow_inv_ext w)|]. apply flow_inv_queues; [done|..].
  - intros f. rewrite queued_set, queue_of_bump, lists_bump, charged_app, charged_one, Hb.
    cbn [q_flows set_queue]. rewrite counter_bump by done. unfold counter. lia.
  - intros u. rewrite queue_of_set, queue_of_bump. rewrite decide_False by (by intros ->).
    apply (fi_usb w Hw).
Qed.

Lemma keeps_pushed {A} q flow (m : M qstate A) :
  packet_queue q -> (forall h s a h' s', m h s = Done (a, h', s') -> pushed q flow s s') ->
  keeps flow_inv (zoom m).
Proof.
  intros Hq Hm h w a h' w' Hw (t & Em & ->)%zoom_inv. eapply flow_inv_pushed; [done..|]. by eapply Hm.
Qed.

(** ** Watches *)

(** A change of the watches that keeps the asynchronous ones. *)
Lemma flow_inv_other w s :
  flow_inv w -> ws_aio s = ws_aio (w_watches w) -> (ws_fresh (w_watches w) <= ws_fresh s)%nat ->
  flow_inv (over (fun _ => s) w).
Proof.
  intros Hw Ea Hf. pose proof Hw as [H1 H2 H3 H4 H5].
  apply flow_inv_watches; [done|by rewrite Ea|by rewrite Ea|by rewrite Ea|rewrite Ea].
  eapply Forall_impl; [exact H5|]. cbn. lia.
Qed.

(** What the registrations can do. *)
Lemma new_watch_shape h s id h' s' :
  new_watch h s = Done (id, h', s') ->
  id = ws_fresh s /\
  s' = WState (ws_timers s) (ws_read s) (ws_aio s) (ws_quit s) (ws_do_quit s) (ws_now s) (S (ws_fresh s)).
Proof.
  unfold new_watch. intros (u & h1 & s1 & E1 & E)%bind_done_inv.
  apply silent_calloc_or_die in E1 as ->. by injection E as <- _ <-.
Qed.

Lemma keeps_watches {A} (m : M wstate A) :
  (forall h w a h' s', flow_inv w -> m h (w_watches w) = Done (a, h', s') -> flow_inv (over (fun _ => s') w)) ->
  keeps flow_inv (zoom m).
Proof.
  intros Hm h w a h' w' Hw (t & Em & ->)%zoom_inv. by eapply Hm.
Qed.

Lemma flow_inv_add_aio w fd cb q b :
  flow_inv w ->
  let id := ws_fresh (w_watches w) in
  let x := Watch id fd cb (Some q) None b None in
  aio_ok x ->
  flow_inv (over (fun s => WState (ws_timers s) (ws_read s) (ws_aio s ++ [x]) (ws_quit s) (ws_do_quit s)
                             (ws_now s) (S (ws_fresh s))) w).
Proof.
  intros Hw id x Hx. pose proof Hw as [H1 H2 H3 H4 H5]. apply (flow_inv_watches w _ Hw); cbn.
  - intros f. rewrite pending_app, pending_one. cbn. lia.
  - apply Forall_app. by rewrite Forall_singleton.
  - rewrite fmap_app. apply NoDup_app. split; [done|]. split; [|apply NoDup_singleton].
    intros y Hy ->%list_elem_of_singleton. apply list_elem_of_fmap in Hy as (x' & Ex & Hx').
    rewrite Forall_forall in H5. specialize (H5 x' Hx'). cbn in Ex. subst id. lia.
  - apply Forall_app. rewrite Forall_singleton. split; [|cbn; lia].
    eapply Forall_impl; [exact H5|]. cbn. lia.
Qed.

Lemma keeps_add_aio fd cb q b :
  (forall id, aio_ok (Watch id fd cb (Some q) None b None)) ->
  keeps flow_inv (zoom (
    id ← new_watch;
    _ ← modify (with_aio (fun l => l ++ [Watch id fd cb (Some q) None b None]));
    mret 0)).
Proof.
  intros Hx. apply keeps_watches. intros h w a h' s' Hw (id & h1 & s1 & E1 & E2)%bind_done_inv.
  apply new_watch_shape in E1 as [-> ->]. injection E2 as _ _ <-.
  by apply (flow_inv_add_aio w fd cb q b Hw).
Qed.

Lemma Forall_kept {A} (P Q : A -> Prop) `{!forall x, Decision (Q x)} l : Forall P l -> Forall P (filter Q l).
Proof. rewrite !Forall_forall. intros HP x [_ Hx]%list_elem_of_filter. by apply HP. Qed.

Lemma flow_inv_filter_aio w fd f :
  flow_inv w ->
  flow_inv (over (fun s => with_aio (filter (not_fd fd)) (with_read f s)) w).
Proof.
  intros Hw. pose proof Hw as [H1 H2 H3 H4 H5]. apply (flow_inv_watches w _ Hw); cbn.
  - intros g. apply pending_filter.
  - by apply Forall_kept.
  - eapply sublist_NoDup; [exact H4|]. apply fmap_sublist, sublist_filter.
  - by apply Forall_kept.
Qed.

Lemma keeps_add_writeq fd q : keeps flow_inv (zoom (watch_add_writeq fd q)).
Proof. by apply keeps_add_aio. Qed.

Lemma keeps_set_queue q l :
  (forall f, charged f l = 0) -> (match q with QUsb _ => Forall usb_buffer l | _ => True end) ->
  keeps flow_inv (zoom (modify (set_queue q l))).
Proof.
  intros Hl Hq. apply keeps_zoom_modify. intros w Hw. change (view w) with (w_queues w).
  apply flow_inv_queues; [done|..].
  - intros f. rewrite queued_set, Hl. pose proof (charged_nonneg f (queue_of (w_queues w) q)).
    unfold counter. cbn [q_flows set_queue]. lia.
  - intros u. rewrite queue_of_set. destruct (decide (q = QUsb u)) as [->|]; [done|apply (fi_usb w Hw)].
Qed.

Lemma charged_flowless f b : mb_flow b = None -> charged f [b] = 0.
Proof. intros E. rewrite charged_one, E. done. Qed.

Lemma keeps_add_readfd fd cb flow : keeps flow_inv (zoom (watch_add_readfd fd cb flow)).
Proof.
  apply keeps_watches. intros h w a h' s' Hw (id & h1 & s1 & E1 & E2)%bind_done_inv.
  apply new_watch_shape in E1 as [-> ->]. injection E2 as _ _ <-. apply flow_inv_other; [done|done|cbn; lia].
Qed.

Lemma flow_new_shape h s a h' s' :
  watch_flow_new h s = Done (a, h', s') -> s' = s \/ s' = QState (q_lists s) (q_flows s ++ [0]).
Proof.
  unfold watch_flow_new. intros (p & h1 & s1 & E1 & E)%bind_done_inv. apply silent_calloc in E1 as ->.
  destruct p; [|injection E as _ _ <-; by left]. cbn in E. injection E as _ _ <-. by right.
Qed.

Lemma keeps_flow_new : keeps flow_inv (zoom watch_flow_new).
Proof.
  intros h w a h' w' Hw (t & Em & ->)%zoom_inv.
  apply flow_new_shape in Em as [->| ->]; [by apply (flow_inv_ext w)|].
  change (view w) with (w_queues w). apply flow_inv_queues; [done| |apply (fi_usb w Hw)].
  intros f. cbn. unfold counter. destruct (decide (f < length (q_flows (w_queues w)))%nat).
  - rewrite lookup_app_l by done. lia.
  - rewrite lookup_app_r by lia. rewrite (lookup_ge_None_2 (q_flows (w_queues w))) by lia.
    destruct (f - _)%nat as [|k]; [cbn; lia|]. rewrite (lookup_ge_None_2 [0]) by (cbn; lia). cbn. lia.
Qed.

Lemma flow_inv_dm_add name in_fd out_fd enc : keeps flow_inv (dm_add name in_fd out_fd enc).
Proof.
  apply (keeps_new_client _ (fun _ => True)); [done|intros..].
  - by apply keeps_set_queue.
  - apply keeps_add_readfd.
  - apply keeps_add_writeq.
  - by apply (flow_inv_ext w).
Qed.

#[export] Instance flow_inv_Inv : Inv flow_inv.
Proof.
  split.
  - intros f w. by apply flow_inv_ext.
  - intros f w. by apply flow_inv_ext.
  - intros f w. by apply flow_inv_ext.
  - intros f w. by apply flow_inv_ext.
  - intros f w _. by apply flow_inv_ext.
  - intros f w _. by apply flow_inv_ext.
  - intros f w _. by apply flow_inv_ext.
  - intros q msg len flow Hq. apply (keeps_pushed q flow); [done|]. intros *. apply push_shape.
  - intros q msg len flow Hq. apply (keeps_pushed q flow); [done|]. intros *. apply push_nhdlc_shape.
  - apply keeps_flow_new.
  - intros q Hq. apply keeps_set_queue; [done|by destruct q].
  - intros u b Hb. apply keeps_set_queue; [intros f; by apply charged_flowless, Hb|by constructor].
  - intros u b Hb. apply keeps_zoom_modify. intros w Hw. change (view w) with (w_queues w).
    apply flow_inv_queues; [done|..].
    + intros f. rewrite queued_set, charged_app, charged_flowless by apply Hb. unfold counter. cbn [q_flows set_queue]. lia.
    + intros u'. rewrite queue_of_set. case_decide as E'; [|apply (fi_usb w Hw)].
      apply Forall_app. split; [apply (fi_usb w Hw)|by constructor].
  - apply keeps_add_readfd.
  - intros fd u. apply keeps_add_aio. intros id. by exists u.
  - intros fd q _. apply keeps_add_writeq.
  - apply flow_inv_dm_add.
  - intros fd. apply keeps_watches. intros h w a h' s' Hw E.
    change (Done (tt, h, with_aio (filter (not_fd fd)) (with_read (filter (not_fd fd)) (w_watches w))) =
      Done (a, h', s')) in E. injection E as _ _ <-. by apply (flow_inv_filter_aio w fd (filter (not_fd fd))).
  - intros fd. apply keeps_watches. intros h w a h' s' Hw E.
    change (Done (tt, h, with_aio (filter (not_fd fd)) (with_read (fun l => l) (w_watches w))) =
      Done (a, h', s')) in E. injection E as _ _ <-. by apply (flow_inv_filter_aio w fd (fun l => l)).
  - intros cb n b. apply keeps_watches. unfold watch_add_timer.
    intros h w a h' s' Hw (u & h1 & s1 & E1 & E)%bind_done_inv.
    apply silent_calloc_or_die in E1 as ->. injection E as _ _ <-. by apply flow_inv_other.
  - intros f w _ Hw. by apply (flow_inv_other w).
Qed.

#[export] Instance flow_inv_ClockInv : ClockInv flow_inv.
Proof.
  split.
  - intros f w Hw. by apply (flow_inv_other w).
  - intros now h w a h' w' Hw [= _ _ <-]. by apply (flow_inv_other w).
Qed.

(** ** Submissions and completions *)

Definition set_aio (id : nat) (b : option mbuf) : list watch -> list watch :=
  fmap (fun w => if bool_decide (wa_id w = id) then wa_with_pending b w else w).

Lemma find_watch_some id l x : find_watch id l = Some x -> x ∈ l /\ wa_id x = id.
Proof.
  intros [Hx Hid]%List.find_some. split; [by apply list_elem_of_In|].
  by apply bool_decide_eq_true in Hid.
Qed.

Lemma set_aio_ids id b l : wa_id <$> set_aio id b l = wa_id <$> l.
Proof.
  unfold set_aio. rewrite <- list_fmap_compose. apply list_fmap_ext. intros i w _. cbn.
  by destruct (bool_decide _).
Qed.

Lemma set_aio_absent id b l : id ∉ wa_id <$> l -> set_aio id b l = l.
Proof.
  induction l as [|w l IH]; intros Hid; [done|]. cbn in *. apply not_elem_of_cons in Hid as [Hne Hid].
  rewrite bool_decide_eq_false_2 by congruence. f_equal. by apply IH.
Qed.

Definition buffer_charge (f : nat) (b : option mbuf) : Z :=
  match b with Some b => charged f [b] | None => 0 end.

Lemma pending_set f id b l x :
  NoDup (wa_id <$> l) -> find_watch id l = Some x ->
  pending f (set_aio id b l) = pending f l - buffer_charge f (wa_pending_aio x) + buffer_charge f b.
Proof.
  induction l as [|w l IH]; intros Hn Hf; [done|]. cbn in Hn. apply NoDup_cons in Hn as [Hw Hn].
  cbn [find_watch List.find] in Hf. unfold set_aio. rewrite fmap_cons.
  fold (set_aio id b l). rewrite (pending_cons _ _ (set_aio _ _ _)), (pending_cons f w l), !pending_one.
  destruct (bool_decide (wa_id w = id)) eqn:E.
  - apply bool_decide_eq_true in E. injection Hf as ->.
    rewrite set_aio_absent by (by rewrite <- E). cbn. unfold buffer_charge. lia.
  - specialize (IH Hn Hf). unfold buffer_charge in *. lia.
Qed.

Lemma set_aio_fresh id b l n :
  Forall (fun w => (wa_id w < n)%nat) l -> Forall (fun w => (wa_id w < n)%nat) (set_aio id b l).
Proof.
  rewrite !Forall_forall. intros HP w' (w & -> & Hw)%list_elem_of_fmap. specialize (HP w Hw).
  by destruct (bool_decide _).
Qed.

Lemma set_aio_ok id b l x :
  NoDup (wa_id <$> l) -> find_watch id l = Some x -> Forall aio_ok l ->
  (wa_is_write x = false -> usb_or_none b) -> Forall aio_ok (set_aio id b l).
Proof.
  intros Hn Hf. rewrite !Forall_forall. intros Hok Hb w' (w & -> & Hw)%list_elem_of_fmap.
  specialize (Hok w Hw). destruct (bool_decide (wa_id w = id)) eqn:E; [|done].
  apply bool_decide_eq_true in E. apply find_watch_some in Hf as [Hx Ex].
  assert (w = x) as ->.
  { apply list_elem_of_lookup in Hw as [i Hi], Hx as [j Hj].
    assert (i = j) as -> by (eapply (NoDup_lookup _ _ _ id Hn); rewrite list_lookup_fmap, ?Hi, ?Hj; cbn; by f_equal).
    congruence. }
  unfold aio_ok in *. cbn. destruct (wa_is_write x); [done|]. destruct Hok as (u & ? & ? & _). exists u. auto.
Qed.

(** Moving a buffer between its queue and the kernel, or releasing it. *)
Lemma flow_inv_move id x b s w :
  flow_inv w -> find_watch id (ws_aio (w_watches w)) = Some x ->
  (forall f, queued f (q_lists s) + buffer_charge f b - queued f (q_lists (w_queues w)) -
      buffer_charge f (wa_pending_aio x) <= default 0 (q_flows s !! f) - counter f w) ->
  (forall u, Forall usb_buffer (queue_of s (QUsb u))) ->
  (wa_is_write x = false -> usb_or_none b) ->
  flow_inv (over (with_aio (set_aio id b)) (over (fun _ => s) w)).
Proof.
  intros [H1 H2 H3 H4 H5] Hf Hc Hu Hb. split; cbn.
  - intros f. specialize (H1 f). specialize (Hc f). unfold outstanding, counter in *. cbn.
    rewrite (pending_set f id b _ x H4 Hf). lia.
  - exact Hu.
  - by eapply set_aio_ok.
  - by rewrite set_aio_ids.
  - by apply set_aio_fresh.
Qed.

Lemma get_aio_shape id h w x h' w' :
  get_aio id h w = Done (x, h', w') -> find_watch id (ws_aio (w_watches w)) = Some x /\ w' = w /\ h' = h.
Proof.
  unfold get_aio. intros (w1 & h1 & s1 & [= <- <- <-] & E)%bind_done_inv.
  destruct (find_watch id (ws_aio (w_watches w))); [|done]. by injection E as <- <- <-.
Qed.

Lemma sys_call_shape h w r h' w' :
  sys_call h w = Done (r, h', w') -> w_queues w' = w_queues w /\ w_watches w' = w_watches w.
Proof.
  intros E. unfold sys_call, zoom, env_call in E. cbn in E. destruct (e_results (w_env w)); by injection E as _ _ <-.
Qed.

(** The bytes of a buffer that are written. *)
Definition wire (b : mbuf) : bytes := slice (mb_data b) 0 (mb_size b).

(** What a submission does: nothing but asking the kernel, or it moves the
    first packet of the watch's queue into the kernel's hands. *)
Lemma submit_shape id h w a h' w' :
  watch_submit_aio id h w = Done (a, h', w') ->
  exists x q e, find_watch id (ws_aio (w_watches w)) = Some x /\ wa_pending_aio x = None /\ wa_queue x = Some q /\
    ((e_aio e = e_aio (w_env w) /\ w' = over (fun _ => e) w) \/
     exists b rest, queue_of (w_queues w) q = b :: rest /\ 0 <= mb_size b <= zlen (mb_data b) /\
       e_aio e = e_aio (w_env w) ++ [Iocb id (wa_fd x) (wa_is_write x) (wire b)] /\
       w' = over (with_aio (set_aio id (Some b))) (over (set_queue q rest) (over (fun _ => e) w))).
Proof.
  intros (x & h1 & w1 & (Hx & -> & ->)%get_aio_shape & E)%bind_done_inv. exists x.
  destruct (wa_pending_aio x) as [?|]; [done|].
  apply bind_done_inv in E as (q & h2 & w2 & E1 & E). destruct (wa_queue x) as [q'|]; [|done].
  injection E1 as -> <- <-. exists q. apply bind_done_inv in E as (s & h3 & w3 & [= <- <- <-] & E).
  destruct (queue_of (w_queues w) q) as [|b rest].
  { exists (w_env w). split_and!; [done..|left]. injection E as _ _ <-. by destruct w. }
  apply bind_done_inv in E as (data & h4 & w4 & (E2 & -> & ->)%lift_shape & E).
  apply mem_read_shape in E2 as (_ & H1 & H2 & ->).
  apply bind_done_inv in E as (ret & h5 & w5 & (e & E3 & ->)%zoom_inv & E).
  assert (e_aio e = e_aio (w_env w)) as He by (unfold env_call in E3; destruct (e_results (view w)); by injection E3 as _ _ <-).
  destruct (ret =? 1); [|exists e; split_and!; [done..|left]; by injection E as _ _ <-].
  eexists. split_and!; [done..|right]. exists b, rest. split_and!; [done|lia|lia| |].
  2:{ apply bind_done_inv in E as (u & h6 & w6 & [= _ <- <-] & E). injection E as _ _ <-. reflexivity. }
  cbn. by rewrite He.
Qed.

Lemma flow_inv_submit id : keeps flow_inv (watch_submit_aio id).
Proof.
  intros h w a h' w' Hw (x & q & e & Hx & Hp & Hq & [[_ ->]|(b & rest & El & _ & _ & ->)])%submit_shape;
    [by apply (flow_inv_ext w)|].
  apply (flow_inv_move id x (Some b) (set_queue q rest (w_queues w)) (over (fun _ => e) w)).
  - by apply (flow_inv_ext w).
  - done.
  - intros f. rewrite queued_set, El, (charged_cons f b rest), Hp. unfold counter. cbn. lia.
  - intros u''. rewrite queue_of_set. pose proof (fi_usb w Hw u'') as H. case_decide as Ed; [|done].
    subst q. rewrite El in H. by inversion H.
  - intros Hr. cbn. pose proof (fi_aio w Hw) as Hok. rewrite Forall_forall in Hok.
    specialize (Hok x (proj1 (find_watch_some _ _ _ Hx))). unfold aio_ok in Hok. rewrite Hr in Hok.
    destruct Hok as (u0 & _ & Eu & _). pose proof (fi_usb w Hw u0) as H.
    rewrite Hq in Eu. injection Eu as ->. rewrite El in H. by inversion H.
Qed.

Lemma flow_dec_shape flow h s a h' s' :
  watch_flow_dec flow h s = Done (a, h', s') ->
  q_lists s' = q_lists s /\
  forall f, default 0 (q_flows s !! f) - (if decide (flow = Some f) then 1 else 0) <= default 0 (q_flows s' !! f).
Proof.
  destruct flow as [g|]; cbn [watch_flow_dec].
  - unfold flow_upd. intros (s1 & h1 & s2 & [= <- <- <-] & E)%bind_done_inv.
    destruct (q_flows s !! g) as [n|] eqn:En; [|done]. injection E as _ _ <-. split; [done|]. intros f. cbn.
    destruct (decide (g = f)) as [->|Hne].
    + rewrite decide_True by done. rewrite list_lookup_insert_eq by (by apply lookup_lt_Some in En).
      rewrite En. cbn. destruct (Z.eqb_spec n 0); lia.
    + rewrite decide_False by congruence. by rewrite list_lookup_insert_ne, Z.sub_0_r by done.
  - intros [= _ _ <-]. split; [done|]. intros f. rewrite decide_False by done. lia.
Qed.

(** Clearing a pending buffer that a callback has put back in its queue. *)
Lemma flow_inv_clear id w : flow_inv w -> flow_inv (over (with_aio (set_aio id None)) w).
Proof.
  intros Hw. destruct (find_watch id (ws_aio (w_watches w))) as [x|] eqn:Ex.
  - apply (flow_inv_move id x None (w_queues w) w Hw Ex).
    + intros f. unfold buffer_charge, counter. destruct (wa_pending_aio x) as [b|]; [|lia].
      pose proof (charged_nonneg f [b]). lia.
    + apply (fi_usb w Hw).
    + done.
  - assert (set_aio id None (ws_aio (w_watches w)) = ws_aio (w_watches w)) as E.
    { apply set_aio_absent. intros (x & Hid & Hx)%list_elem_of_fmap. unfold find_watch in Ex.
      apply list_elem_of_In in Hx. apply (List.find_none _ _ Ex) in Hx. apply bool_decide_eq_false in Hx. congruence. }
    apply (flow_inv_other w (with_aio (set_aio id None) (w_watches w)) Hw); [exact E|done].
Qed.

(** A write that is completed: its packet is released. *)
Lemma flow_inv_release id x b h w a h' s :
  flow_inv w -> find_watch id (ws_aio (w_watches w)) = Some x -> wa_pending_aio x = Some b ->
  watch_flow_dec (mb_flow b) h (w_queues w) = Done (a, h', s) ->
  flow_inv (over (with_aio (set_aio id None)) (over (fun _ => s) w)).
Proof.
  intros Hw Hx Hp [El Hc]%flow_dec_shape. apply (flow_inv_move id x None s w Hw Hx).
  - intros f. rewrite El, Hp. cbn. rewrite charged_one. specialize (Hc f). unfold counter. lia.
  - intros u'. unfold queue_of. rewrite El. apply (fi_usb w Hw).
  - done.
Qed.

Lemma flow_inv_event id ev : keeps flow_inv (aio_event id ev).
Proof.
  intros h w a h' w' Hw (o & h1 & w1 & (Ho & -> & ->)%get_aio_shape & E)%bind_done_inv.
  apply bind_done_inv in E as (x & h2 & w2 & (Hx & -> & ->)%get_aio_shape & E).
  destruct (negb (wa_fd o =? wa_fd x)); [by injection E as _ _ <-|].
  destruct (wa_pending_aio x) as [b|] eqn:Hp; [|done].
  destruct (ev_res ev =? - EAGAIN); [by injection E as _ _ <-|]. cbv zeta in E.
  match type of E with context [aio_complete _ ?b0] => set (b' := b0) in E end. assert (mb_flow b' = mb_flow b) as Hb' by (subst b'; by destruct (_ && _)).
  apply bind_done_inv in E as (r & h3 & w3 & E1 & E).
  change (Done (tt, h3, over (with_aio (set_aio id None)) w3) = Done (a, h', w')) in E. injection E as _ _ <-.
  pose proof (fi_aio w Hw) as Hok. rewrite Forall_forall in Hok.
  specialize (Hok x (proj1 (find_watch_some _ _ _ Hx))). unfold aio_ok in Hok.
  destruct (wa_is_write x) eqn:Hwr.
  - rewrite Hok in E1. cbn [aio_complete] in E1. unfold watch_free_write_aio in E1.
    apply bind_done_inv in E1 as (u & h4 & w4 & E1 & [= _ _ <-]). rewrite Hb' in E1. apply zoom_inv in E1 as (s & Ed & ->).
    by eapply flow_inv_release.
  - destruct Hok as (u & Ecb & _ & Hfl). rewrite Ecb in E1. cbn [aio_complete] in E1.
    rewrite Hp in Hfl. cbn in Hfl. apply flow_inv_clear.
    eapply (keeps_ffs_recv anything flow_inv); [done| |exact Hw|exact E1]. subst b'. by destruct (_ && _).
Qed.

(** A property that survives a completion's parts survives it: the buffer a
    read watch gives back belongs to no flow. *)
Lemma keeps_event (J : world -> Prop) `{!Inner anything J} id ev :
  (forall flow, keeps J (zoom (watch_flow_dec flow))) -> keeps J (set_pending id None) ->
  keeps (fun w => flow_inv w /\ J w) (aio_event id ev).
Proof.
  intros Hdec Hset h w a h' w' [Hw HJ] E. split; [by eapply flow_inv_event|].
  apply bind_done_inv in E as (o & h1 & w1 & (Ho & -> & ->)%get_aio_shape & E).
  apply bind_done_inv in E as (x & h2 & w2 & (Hx & -> & ->)%get_aio_shape & E).
  destruct (negb (wa_fd o =? wa_fd x)); [by injection E as _ _ <-|].
  destruct (wa_pending_aio x) as [b|] eqn:Hp; [|done].
  destruct (ev_res ev =? - EAGAIN); [by injection E as _ _ <-|]. cbv zeta in E.
  revert E. apply (keeps_bind J); [|by intros _|done].
  pose proof (fi_aio w Hw) as Hok. rewrite Forall_forall in Hok.
  specialize (Hok x (proj1 (find_watch_some _ _ _ Hx))). unfold aio_ok in Hok. destruct (wa_is_write x).
  - rewrite Hok. cbn [aio_complete]. unfold watch_free_write_aio. keep.
  - destruct Hok as (u & -> & _ & Hb). rewrite Hp in Hb. cbn [aio_complete].
    apply (keeps_ffs_recv anything J); [done|]. by destruct (_ && _).
Qed.

#[export] Instance flow_inv_LoopInv : LoopInv flow_inv.
Proof. split; [apply flow_inv_submit|apply flow_inv_event]. Qed.

(** ** Properties *)

(** The program's state when it is started. *)
Definition start (e : env) : world := over (fun _ => e) world_zero.

Lemma flow_inv_start e : flow_inv (start e).
Proof. split; cbn; [intros f; cbn; unfold counter; cbn; by rewrite lookup_nil|done|constructor..]. Qed.

Lemma pending_counted w x b f :
  flow_inv w -> x ∈ ws_aio (w_watches w) -> wa_pending_aio x = Some b -> mb_flow b = Some f -> 0 < counter f w.
Proof.
  intros Hw Hx Hb Hf. pose proof (fi_count w Hw f) as Hc. unfold outstanding in Hc.
  pose proof (queued_nonneg f (q_lists (w_queues w))).
  apply list_elem_of_split in Hx as (l1 & l2 & El). rewrite El, pending_app, pending_cons, pending_one, Hb, charged_one in Hc.
  rewrite decide_True in Hc by done. pose proof (pending_nonneg f l1). pose proof (pending_nonneg f l2). lia.
Qed.

(** C6 Flow accounting: however the program is started and whatever its
    rounds bring, each flow's counter is at least the number of packets
    charged to it that wait in a queue or are being written; so a write that
    completes always finds its flow's counter above zero. *)
Theorem flow_accounting dec ffs_size ffs_type fuel m udev devs fd n rs e h h' w' :
  main dec ffs_size ffs_type fuel m udev devs fd n rs h (start e) = Done (tt, h', w') ->
  (forall f, outstanding f w' <= counter f w') /\
  (forall x b f, x ∈ ws_aio (w_watches w') -> wa_pending_aio x = Some b -> mb_flow b = Some f ->
    0 < counter f w').
Proof.
  intros E. assert (flow_inv w') as Hw by (eapply (main_keeps flow_inv); [apply flow_inv_start|exact E]).
  split; [apply (fi_count w' Hw)|]. intros x b f. by apply pending_counted.
Qed.
