(* ===== verification/Surplus.v ===== *)
(** * Surplus: what a flow counter counts beyond its packets

    [Flow] shows that a flow's counter is at least the number of packets that
    stand for it.  Receiving data, submitting writes and completing them do not
    move the two apart: a channel that is read and whose messages are all
    written is as far from its watermark as before. *)

From S2P Require Import Prelude CircBuf Hdlc Masks Queue Watch World Dm Cntl Peripheral AppCmds CommonCmds Router DmRecv Devnode Qrtr Clients EventLoop Keeps Preserve Flow.

Section surplus.
Context (f : nat) (k : Z).

Record surplus (w : world) : Prop := {
  sl_flow : flow_inv w;
  sl_count : counter f w <= outstanding f w + k }.

Lemma surplus_ext w w' :
  w_queues w' = w_queues w -> w_watches w' = w_watches w -> surplus w -> surplus w'.
Proof.
  intros Eq Ew [H1 H2]. split; [by apply (flow_inv_ext w)|]. unfold outstanding, counter in *. by rewrite Eq, Ew.
Qed.

(** A change of the watches that keeps the asynchronous ones. *)
Lemma surplus_other w s :
  ws_aio s = ws_aio (w_watches w) -> (ws_fresh (w_watches w) <= ws_fresh s)%nat ->
  surplus w -> surplus (over (fun _ => s) w).
Proof.
  intros Ea Hf [H1 H2]. split; [by apply flow_inv_other|]. unfold outstanding, counter in *. cbn. by rewrite Ea.
Qed.

Lemma surplus_pushed q flow w s :
  packet_queue q -> pushed q flow (w_queues w) s -> surplus w -> surplus (over (fun _ => s) w).
Proof.
  intros Hq Hs [H1 H2]. split; [by eapply flow_inv_pushed|]. destruct Hs as [->|(b & Hb & _ & Hf & ->)]; [done|].
  unfold outstanding, counter in *. change (w_queues (over (fun _ => ?s) w)) with s.
  cbn [q_flows set_queue]. rewrite queued_set, queue_of_bump, lists_bump, charged_app, charged_one, Hb, counter_bump by done.
  change (w_watches (over (fun _ => _) w)) with (w_watches w). lia.
Qed.

Lemma keeps_surplus_pushed {A} q flow (m : M qstate A) :
  packet_queue q -> (forall h s a h' s', m h s = Done (a, h', s') -> pushed q flow s s') -> keeps surplus (zoom m).
Proof. intros Hq Hm h w a h' w' Hw (s & Em & ->)%zoom_inv. eapply surplus_pushed; [done| |done]. by eapply Hm. Qed.

(** Receiving data. *)
#[export] Instance surplus_Reading : Reading anything surplus.
Proof.
  split; [split|]; intros.
  - by apply (surplus_ext w).
  - by apply (surplus_ext w).
  - by apply (surplus_ext w).
  - apply keeps_modify. intros w. by apply surplus_ext.
  - by apply (surplus_ext w).
  - apply (keeps_surplus_pushed q flow); [done|]. intros *. apply push_shape.
  - apply (keeps_surplus_pushed q flow); [done|]. intros *. apply push_nhdlc_shape.
  - intros h w a h' w' Hw (s & E & ->)%zoom_inv. revert E. unfold watch_add_timer.
    intros (u & h1 & s1 & E1 & E)%bind_done_inv. apply silent_calloc_or_die in E1 as ->. injection E as _ _ <-.
    by apply surplus_other.
  - by apply (surplus_ext w).
Qed.

Lemma surplus_data_recv fuel p fd : keeps surplus (diag_data_recv_hdlc fuel p fd).
Proof. apply (keeps_data_hdlc anything surplus). Qed.

(** The clock, and submitting. *)
Lemma surplus_now now w : surplus w -> surplus (at_time now w).
Proof. by apply surplus_other. Qed.
Lemma surplus_before now w : surplus (at_time now w) -> surplus w.
Proof.
  intros H. apply (surplus_other _ (w_watches w)) in H; [|done..]. by destruct w.
Qed.

Lemma surplus_submit id : keeps surplus (watch_submit_aio id).
Proof.
  intros h w a h' w' [H1 H2] E. split; [by eapply flow_inv_submit|].
  apply submit_shape in E as (x & q & e & Hx & Hp & Hq & [[_ ->]|(b & rest & El & _ & _ & ->)]); [done|].
  unfold outstanding, counter in *. cbn. rewrite (pending_set f id (Some b) _ x (fi_ids w H1) Hx), Hp.
  rewrite queued_insert. fold (queue_of (w_queues w) q). rewrite El, (charged_cons f b rest). cbn. lia.
Qed.

(** Completing a write. *)
Lemma surplus_release id x b h w a h' s :
  surplus w -> find_watch id (ws_aio (w_watches w)) = Some x -> wa_pending_aio x = Some b ->
  watch_flow_dec (mb_flow b) h (w_queues w) = Done (a, h', s) ->
  surplus (over (with_aio (set_aio id None)) (over (fun _ => s) w)).
Proof.
  intros [H1 H2] Hx Hp Ed. split; [by eapply flow_inv_release|].
  assert (0 < counter f w \/ mb_flow b <> Some f) as Hpos.
  { destruct (decide (mb_flow b = Some f)); [left|by right].
    eapply pending_counted; [done|apply find_watch_some in Hx; apply Hx|done|done]. }
  unfold outstanding in *. cbn. rewrite (pending_set f id None _ x (fi_ids w H1) Hx), Hp. cbn [buffer_charge].
  rewrite charged_one. assert (q_lists s = q_lists (w_queues w)) as -> by apply (flow_dec_shape _ _ _ _ _ _ Ed).
  unfold counter in *. cbn. destruct (mb_flow b) as [g|]; cbn [watch_flow_dec] in Ed.
  - unfold flow_upd in Ed. apply bind_done_inv in Ed as (s1 & h1 & s2 & [= <- <- <-] & Ed).
    destruct (q_flows (w_queues w) !! g) as [n|] eqn:En; [|done]. injection Ed as _ _ <-. cbn.
    case_decide as Eg.
    + injection Eg as ->. rewrite list_lookup_insert_eq by (by apply lookup_lt_Some in En). rewrite En in *. cbn in *.
      destruct Hpos; [|done]. destruct (Z.eqb_spec n 0); lia.
    + rewrite list_lookup_insert_ne by congruence. lia.
  - injection Ed as _ _ <-. rewrite decide_False by done. cbn. lia.
Qed.
End surplus.
