(* ===== verification/Stall.v ===== *)
(** * Stall: a client that hangs up

    When a raw client's descriptor reports the end of the stream, [dm_recv_raw]
    takes its watches away and leaves it in the list, enabled.  Packets charged
    to a peripheral's flow keep being queued for it and are never written. *)

From S2P Require Import Prelude CircBuf Hdlc Masks Queue Watch World Dm Cntl Peripheral AppCmds CommonCmds Router DmRecv Devnode Qrtr Clients EventLoop Keeps Preserve Flow.

(** ** An invariant: a queue nobody writes *)

Section stalled.
Context (c f : nat) (k : Z).

Record stalled (w : world) : Prop := {
  st_unwatched : Forall (fun x => wa_queue x <> Some (QClient c)) (ws_aio (w_watches w));
  st_client : (c < length (dm_clients (w_dm w)))%nat;
  st_count : k <= charged f (queue_of (w_queues w) (QClient c)) }.

Lemma stalled_ext w w' :
  w_queues w' = w_queues w -> w_watches w' = w_watches w ->
  length (dm_clients (w_dm w')) = length (dm_clients (w_dm w)) -> stalled w -> stalled w'.
Proof. intros Eq Ew Ed [H1 H2 H3]. split; rewrite ?Eq, ?Ew, ?Ed; assumption. Qed.

Lemma stalled_queues w s :
  stalled w -> k <= charged f (queue_of s (QClient c)) -> stalled (over (fun _ => s) w).
Proof. intros [H1 H2 H3] Hk. by split. Qed.

Lemma stalled_watches w s :
  stalled w -> Forall (fun x => wa_queue x <> Some (QClient c)) (ws_aio s) -> stalled (over (fun _ => s) w).
Proof. intros [H1 H2 H3] Hk. by split. Qed.

Lemma stalled_pushed {A} q flow (m : M qstate A) :
  (forall h s a h' s', m h s = Done (a, h', s') -> pushed q flow s s') -> keeps stalled (zoom m).
Proof.
  intros Hm h w a h' w' Hw (t & Em & ->)%zoom_inv. apply stalled_queues; [done|].
  apply Hm in Em as [->|(x & _ & _ & _ & ->)]; [apply (st_count w Hw)|].
  change (view w) with (w_queues w). rewrite queue_of_set, queue_of_bump.
  pose proof (st_count w Hw). case_decide; [|done]. subst q. rewrite charged_app.
  pose proof (charged_nonneg f [x]). lia.
Qed.

Lemma stalled_set_queue q l : q <> QClient c -> keeps stalled (zoom (modify (set_queue q l))).
Proof.
  intros Hq. apply keeps_zoom_modify. intros w Hw. apply stalled_queues; [done|].
  rewrite queue_of_set, decide_False by done. apply (st_count w Hw).
Qed.

Lemma stalled_watch_op {A} (m : M wstate A) :
  (forall h s a h' s', m h s = Done (a, h', s') ->
    Forall (fun x => wa_queue x <> Some (QClient c)) (ws_aio s) ->
    Forall (fun x => wa_queue x <> Some (QClient c)) (ws_aio s')) ->
  keeps stalled (zoom m).
Proof.
  intros Hm h w a h' w' Hw (t & Em & ->)%zoom_inv. apply stalled_watches; [done|].
  eapply Hm; [exact Em|]. apply (st_unwatched w Hw).
Qed.

Lemma stalled_add_aio fd cb q b : q <> QClient c ->
  keeps stalled (zoom (
    id ← new_watch; _ ← modify (with_aio (fun l => l ++ [Watch id fd cb (Some q) None b None])); mret 0)).
Proof.
  intros Hq. apply stalled_watch_op. intros h s a h' s' (id & h1 & s1 & E1 & E2)%bind_done_inv Hs.
  apply new_watch_shape in E1 as [-> ->]. injection E2 as _ _ <-. cbn.
  apply Forall_app. split; [done|]. constructor; [|constructor]. cbn. congruence.
Qed.

Lemma stalled_readfd fd cb flow : keeps stalled (zoom (watch_add_readfd fd cb flow)).
Proof.
  apply stalled_watch_op. intros h s a h' s' (id & h1 & s1 & E1 & E2)%bind_done_inv Hs.
  apply new_watch_shape in E1 as [-> ->]. by injection E2 as _ _ <-.
Qed.

(** A new client is another one. *)
Lemma stalled_dm_add name in_fd out_fd enc : keeps stalled (dm_add name in_fd out_fd enc).
Proof.
  apply (keeps_new_client _ (fun n => QClient n <> QClient c)); intros.
  - intros [= ?]. pose proof (st_client w H). lia.
  - by apply stalled_set_queue.
  - apply stalled_readfd.
  - by apply stalled_add_aio.
  - destruct H0 as [H1 H2 H3]. split; try done. cbn. rewrite length_app. lia.
Qed.

Lemma Forall_aio_filter fd s :
  Forall (fun x => wa_queue x <> Some (QClient c)) (ws_aio s) ->
  Forall (fun x => wa_queue x <> Some (QClient c)) (filter (not_fd fd) (ws_aio s)).
Proof. apply Forall_kept. Qed.

#[export] Instance stalled_Inv : Inv stalled.
Proof.
  split.
  - intros g w. by apply stalled_ext.
  - intros g w. by apply stalled_ext.
  - intros g w. by apply stalled_ext.
  - intros g w. by apply stalled_ext.
  - intros g w _. by apply stalled_ext.
  - intros g w _. by apply stalled_ext.
  - intros g w Hg. apply stalled_ext; [done|done|]. by apply keeps_clients_length.
  - intros q msg len flow _. apply (stalled_pushed q flow). intros *. apply push_shape.
  - intros q msg len flow _. apply (stalled_pushed q flow). intros *. apply push_nhdlc_shape.
  - intros h w a h' w' Hw (t & Em & ->)%zoom_inv. apply stalled_queues; [done|].
    apply flow_new_shape in Em as [->| ->]; apply (st_count w Hw).
  - intros q Hq. apply stalled_set_queue. by intros ->.
  - intros u b _. by apply stalled_set_queue.
  - intros u b _. apply keeps_zoom_modify. intros w Hw. apply stalled_queues; [done|].
    rewrite queue_of_set, decide_False by done. apply (st_count w Hw).
  - apply stalled_readfd.
  - intros fd u. by apply stalled_add_aio.
  - intros fd q Hq. apply stalled_add_aio. by intros ->.
  - apply stalled_dm_add.
  - intros fd. apply stalled_watch_op. intros h s a h' s' E Hs.
    change (Done (tt, h, with_aio (filter (not_fd fd)) (with_read (filter (not_fd fd)) s)) = Done (a, h', s')) in E.
    injection E as _ _ <-. by apply Forall_aio_filter.
  - intros fd. apply stalled_watch_op. intros h s a h' s' [= _ _ <-] Hs. by apply Forall_aio_filter.
  - intros cb n b. apply stalled_watch_op. unfold watch_add_timer.
    intros h s a h' s' (u & h1 & s1 & E1 & E)%bind_done_inv Hs.
    apply silent_calloc_or_die in E1 as ->. by injection E as _ _ <-.
  - intros g w _ Hw. by apply stalled_watches; [|apply (st_unwatched w Hw)].
Qed.

#[export] Instance stalled_ClockInv : ClockInv stalled.
Proof.
  split.
  - intros g w Hw. by apply stalled_watches; [|apply (st_unwatched w Hw)].
  - intros now h w a h' w' Hw [= _ _ <-]. by apply (stalled_watches w); [|apply (st_unwatched w Hw)].
Qed.

Lemma stalled_set_aio id b w :
  stalled w -> stalled (over (with_aio (set_aio id b)) w).
Proof.
  intros Hw. apply (stalled_watches w (with_aio (set_aio id b) (w_watches w)) Hw). cbn.
  pose proof (st_unwatched w Hw) as H. rewrite Forall_forall in *.
  intros x (y & -> & Hy)%list_elem_of_fmap. specialize (H y Hy). by destruct (bool_decide _).
Qed.

Lemma stalled_submit id : keeps stalled (watch_submit_aio id).
Proof.
  intros h w a h' w' Hw (x & q & e & Hx & _ & Eq & [[_ ->]|(b & rest & _ & _ & _ & ->)])%submit_shape; [by apply (stalled_ext w)|].
  apply stalled_set_aio. apply (stalled_queues (over (fun _ => e) w)); [by apply (stalled_ext w)|]. cbn.
  rewrite queue_of_set, decide_False; [apply (st_count w Hw)|]. intros ->.
  pose proof (st_unwatched w Hw) as H. rewrite Forall_forall in H. apply find_watch_some in Hx as [Hx _]. by apply (H x Hx).
Qed.

Lemma stalled_dec flow : keeps stalled (zoom (watch_flow_dec flow)).
Proof.
  intros h w a h' w' Hw (t & Em & ->)%zoom_inv. apply stalled_queues; [done|].
  apply flow_dec_shape in Em as [El _]. unfold queue_of. rewrite El. apply (st_count w Hw).
Qed.

#[export] Instance stalled_LoopInv : LoopInv (fun w => flow_inv w /\ stalled w).
Proof.
  split; [|intros; apply keeps_event; [apply _|apply stalled_dec|apply keeps_modify; intros; by apply stalled_set_aio]].
  intros id. apply keeps_and; [apply flow_inv_submit|apply stalled_submit].
Qed.
End stalled.

(** ** Getting there *)

Lemma charged_deliver dms f msg s c c' :
  charged f (queue_of (deliver dms (Some f) msg s c') (QClient c)) =
  charged f (queue_of s (QClient c)) +
    (if decide (c' = c) then match dms !! c with Some dm => if dm_enabled dm then 1 else 0 | None => 0 end else 0).
Proof.
  unfold deliver. destruct (decide (c' = c)) as [->|Hne].
  - destruct (dms !! c) as [dm|]; [destruct (dm_enabled dm)|]; try lia.
    rewrite queue_of_enqueue, decide_True, charged_app, charged_one by done. cbn. by rewrite decide_True.
  - assert (QClient c' <> QClient c) by (intros [= ?]; done).
    destruct (dms !! c') as [dm|]; [destruct (dm_enabled dm)|]; rewrite ?queue_of_enqueue, ?decide_False by done; lia.
Qed.

Lemma charged_deliver_all dms f msg s c n dm :
  dms !! c = Some dm -> dm_enabled dm = true ->
  charged f (queue_of (foldl (deliver dms (Some f) msg) s (seq 0 n)) (QClient c)) =
  charged f (queue_of s (QClient c)) + (if decide (c < n)%nat then 1 else 0).
Proof.
  intros Hc He. induction n as [|n IH]; [rewrite decide_False by lia; cbn; lia|].
  rewrite seq_S, foldl_app. cbn [foldl Nat.add]. rewrite charged_deliver, IH, Hc, He.
  destruct (decide (n = c)), (decide (c < n)%nat), (decide (c < S n)%nat); lia.
Qed.

(** [n] packets of a flow for everybody: [n] more for each enabled client. *)
Lemma broadcasts_charge n c dm msg len f h w :
  (forall c dm, dm_clients (w_dm w) !! c = Some dm -> client_ok dm) ->
  dm_clients (w_dm w) !! c = Some dm -> dm_enabled dm = true ->
  is_Some (q_flows (w_queues w) !! f) -> alloc_ok h -> bytes_ok msg -> 0 <= len <= zlen msg -> len < 2 ^ 61 ->
  exists k q, for_each (fun _ => dm_broadcast msg len (Some f)) (seq 0 n) h w =
      Done (tt, steps k h, with_queues q w) /\
    charged f (queue_of q (QClient c)) = charged f (queue_of (w_queues w) (QClient c)) + Z.of_nat n.
Proof.
  intros Hw Hc He Hf Hh Hok Hl Hlen. generalize 0%nat as i. revert h w Hw Hc Hf Hh.
  induction n as [|n IH]; intros h w Hw Hc Hf Hh i.
  { exists 0%nat, (w_queues w). cbn. split; [by destruct h, w|lia]. }
  destruct (dm_broadcast_ok msg len (Some f) h w Hw Hf Hh ltac:(auto with diag) Hl Hlen) as [k E].
  set (q1 := foldl _ _ _) in E.
  destruct (IH (steps k h) (with_queues q1 w) Hw Hc) with (i := S i) as (k' & q & E' & Hq);
    [exact (flow_ok_deliver_all _ _ (Some f) _ _ _ Hf)|done|].
  exists (k' + k)%nat, q. cbn [seq for_each]. erewrite bind_done by exact E. rewrite E', steps_steps.
  split; [done|]. rewrite Hq. cbn [w_queues with_queues over queues_lens]. subst q1.
  rewrite (charged_deliver_all _ _ _ _ _ _ dm Hc He), decide_True by (by eapply lookup_lt_Some). lia.
Qed.

(** C30 A raw client that hangs up blocks a peripheral: reading the end of the
    stream removes the client's watches but leaves it enabled, so after eleven
    more packets of the peripheral's flow the flow is above the watermark, and
    it stays there in every state the event loop can reach: the peripheral's
    data channel is never read again. *)
Theorem hangup_blocks_flow dec ffs_size ffs_type fuel c dm f rest msg len h w :
  flow_inv w -> (forall c dm, dm_clients (w_dm w) !! c = Some dm -> client_ok dm) ->
  dm_clients (w_dm w) !! c = Some dm -> dm_enabled dm = true -> dm_encode_type dm = DIAG_ENCODE_RAW ->
  Forall (fun x => wa_queue x = Some (QClient c) -> wa_fd x = dm_in_fd dm) (ws_aio (w_watches w)) ->
  e_fds (w_env w) !! dm_in_fd dm = Some (inr [] :: rest) ->
  is_Some (q_flows (w_queues w) !! f) -> alloc_ok h -> bytes_ok msg -> 0 <= len <= zlen msg -> len < 2 ^ 61 ->
  exists h1 w1 h2 w2,
    dm_recv (S fuel) c h w = Done (0, h1, w1) /\
    for_each (fun _ => dm_broadcast msg len (Some f)) (seq 0 11) h1 w1 = Done (tt, h2, w2) /\
    forall n rs h3 w3, watch_loop dec ffs_size ffs_type (S fuel) n rs h2 w2 = Done (tt, h3, w3) ->
      FLOW_WATERMARK < counter f w3 /\ watch_flow_blocked (Some f) h3 (w_queues w3) = Done (true, h3, w_queues w3).
Proof.
  intros Hw Hall Hc He Ht Hx Hfd Hf Hh Hok Hl Hlen.
  set (w1 := over (with_aio (filter (not_fd (dm_in_fd dm)))) (over (with_read (filter (not_fd (dm_in_fd dm))))
    (over (fun e => Env (<[dm_in_fd dm := rest]> (e_fds e)) (e_results e) (e_senders e) (e_udev e) (e_aio e)) w))).
  assert (dm_recv (S fuel) c h w = Done (0, tick h, w1)) as E1.
  { unfold dm_recv. erewrite bind_done by (unfold get_client; mrun; rewrite Hc; reflexivity). rewrite Ht.
    change (DIAG_ENCODE_RAW =? DIAG_ENCODE_RAW) with true. cbv iota. unfold dm_recv_raw.
    destruct (stack_ok sizeof_dm_buf h w) as (buf & Eb & _). erewrite bind_done by exact Eb.
    cbn [dm_recv_raw_loop]. erewrite bind_done by (unfold get_client; mrun; rewrite Hc; reflexivity).
    erewrite bind_done; [|unfold sys_read, zoom, env_read; cbn [view env_lens]; rewrite Hfd; reflexivity].
    reflexivity. }
  destruct (broadcasts_charge 11 c dm msg len f (tick h) w1 Hall Hc He Hf Hh Hok Hl Hlen) as (k & q & E2 & Hq).
  exists (tick h), w1, (steps k (tick h)), (with_queues q w1). split; [exact E1|]. split; [exact E2|].
  intros n rs h3 w3 E3.
  assert (flow_inv w1) as Hw1.
  { exact (keeps_dm_recv anything flow_inv (S fuel) c Logic.I _ _ _ _ _ Hw E1). }
  assert (flow_inv (with_queues q w1)) as Hw2.
  { refine (keeps_for_each flow_inv _ _ _ _ _ _ _ _ Hw1 E2). intros i. by apply (keeps_dm_broadcast anything flow_inv). }
  assert (stalled c f 11 (with_queues q w1)) as Hs2.
  { split; cbn.
    - rewrite Forall_forall in *. intros x [Hnf Hx']%list_elem_of_filter Hxq. apply Hnf. by apply Hx.
    - by eapply lookup_lt_Some.
    - rewrite Hq. pose proof (charged_nonneg f (queue_of (w_queues w1) (QClient c))). lia. }
  destruct (watch_loop_keeps (fun w => flow_inv w /\ stalled c f 11 w) dec ffs_size ffs_type (S fuel) n rs
    _ _ _ _ _ (conj Hw2 Hs2) E3) as [Hw3 Hs3].
  assert (FLOW_WATERMARK < counter f w3) as Hb.
  { pose proof (fi_count w3 Hw3 f) as H1. pose proof (st_count c f 11 w3 Hs3) as H2. unfold outstanding in H1.
    pose proof (queued_at_least f (QClient c) (q_lists (w_queues w3))). unfold queue_of in H2.
    pose proof (pending_nonneg f (ws_aio (w_watches w3))). unfold FLOW_WATERMARK. lia. }
  split; [exact Hb|]. unfold watch_flow_blocked, counter in *. mrun.
  destruct (q_flows (w_queues w3) !! f) as [m|]; cbn in Hb; [|unfold FLOW_WATERMARK in Hb; lia].
  destruct (Z.ltb_spec FLOW_WATERMARK m); [done|lia].
Qed.
