(* ===== verification/Stream.v ===== *)
(** * Stream: packets leave in the order they were queued

    The kernel is handed the packets of a client one at a time, from the front
    of its queue.  What has been handed over followed by what waits is the
    client's stream; every callback and every round only appends to it. *)

From S2P Require Import Prelude CircBuf Hdlc Masks Queue Watch World Dm Cntl Peripheral AppCmds CommonCmds Router DmRecv Devnode Qrtr Clients EventLoop Keeps Preserve Flow.

(** What the kernel accepted for a watch. *)
Definition sent (id : nat) (w : world) : list bytes :=
  io_data <$> filter (fun i => io_obj i = id) (e_aio (w_env w)).

(** The stream of client [c], whose write watch is [id]. *)
Definition stream (id c : nat) (w : world) : list bytes :=
  sent id w ++ (wire <$> queue_of (w_queues w) (QClient c)).

Section stream.
Context (id c : nat) (history : list bytes).

(** [id] is the only watch that ever serves the client's queue. *)
Definition serves (x : watch) : Prop := wa_id x = id <-> wa_queue x = Some (QClient c).

Record streaming (w : world) : Prop := {
  sm_watch : Forall serves (ws_aio (w_watches w));
  sm_id : (id < ws_fresh (w_watches w))%nat;
  sm_client : (c < length (dm_clients (w_dm w)))%nat;
  sm_history : history `prefix_of` stream id c w }.

Lemma streaming_ext w w' :
  w_queues w' = w_queues w -> w_watches w' = w_watches w -> e_aio (w_env w') = e_aio (w_env w) ->
  length (dm_clients (w_dm w')) = length (dm_clients (w_dm w)) -> streaming w -> streaming w'.
Proof. intros Eq Ew Ee Ed [H1 H2 H3 H4]. split; unfold stream, sent in *; rewrite ?Eq, ?Ew, ?Ed, ?Ee; assumption. Qed.

Lemma streaming_queues w s l :
  streaming w -> queue_of s (QClient c) = queue_of (w_queues w) (QClient c) ++ l -> streaming (over (fun _ => s) w).
Proof.
  intros [H1 H2 H3 H4] El. split; try assumption. unfold stream. cbn. rewrite El, fmap_app.
  eapply prefix_app_r in H4. unfold stream, sent in *. cbn. rewrite app_assoc. exact H4.
Qed.

Lemma streaming_watches w s :
  streaming w -> Forall serves (ws_aio s) -> (ws_fresh (w_watches w) <= ws_fresh s)%nat ->
  streaming (over (fun _ => s) w).
Proof. intros [H1 H2 H3 H4] Hs Hf. split; try assumption. cbn. lia. Qed.

Lemma streaming_pushed {A} q flow (m : M qstate A) :
  (forall h s a h' s', m h s = Done (a, h', s') -> pushed q flow s s') -> keeps streaming (zoom m).
Proof.
  intros Hm h w a h' w' Hw (t & Em & ->)%zoom_inv.
  apply Hm in Em as [->|(x & _ & _ & _ & ->)]; [by apply (streaming_ext w)|].
  change (view w) with (w_queues w). eapply (streaming_queues w _ (if decide (q = QClient c) then [x] else [])); [done|].
  rewrite queue_of_set, queue_of_bump. case_decide; [by subst|by rewrite app_nil_r].
Qed.

Lemma streaming_set_queue q l : q <> QClient c -> keeps streaming (zoom (modify (set_queue q l))).
Proof.
  intros Hq. apply keeps_zoom_modify. intros w Hw. apply (streaming_queues w _ []); [done|].
  by rewrite queue_of_set, decide_False, app_nil_r.
Qed.

Lemma streaming_watch_op {A} (m : M wstate A) :
  (forall h s a h' s', m h s = Done (a, h', s') -> (id < ws_fresh s)%nat -> Forall serves (ws_aio s) ->
    Forall serves (ws_aio s') /\ (ws_fresh s <= ws_fresh s')%nat) ->
  keeps streaming (zoom m).
Proof.
  intros Hm h w a h' w' Hw (t & Em & ->)%zoom_inv.
  destruct (Hm _ _ _ _ _ Em (sm_id w Hw) (sm_watch w Hw)) as [H1 H2]. by apply streaming_watches.
Qed.

(** A new watch is not [id] and serves another queue. *)
Lemma streaming_add_aio fd cb q b : q <> QClient c ->
  keeps streaming (zoom (
    id ← new_watch; _ ← modify (with_aio (fun l => l ++ [Watch id fd cb (Some q) None b None])); mret 0)).
Proof.
  intros Hq. apply streaming_watch_op. intros h s a h' s' (i & h1 & s1 & E1 & E2)%bind_done_inv Hi Hs.
  apply new_watch_shape in E1 as [-> ->]. injection E2 as _ _ <-. cbn. split; [|lia].
  apply Forall_app. split; [done|]. constructor; [|constructor]. unfold serves. cbn.
  split; [lia|]. intros [= ->]. done.
Qed.

Lemma streaming_readfd fd cb flow : keeps streaming (zoom (watch_add_readfd fd cb flow)).
Proof.
  apply streaming_watch_op. intros h s a h' s' (i & h1 & s1 & E1 & E2)%bind_done_inv Hi Hs.
  apply new_watch_shape in E1 as [-> ->]. injection E2 as _ _ <-. cbn. split; [done|lia].
Qed.

Lemma streaming_dm_add name in_fd out_fd enc : keeps streaming (dm_add name in_fd out_fd enc).
Proof.
  apply (keeps_new_client _ (fun n => QClient n <> QClient c)); intros.
  - intros [= ?]. pose proof (sm_client w H). lia.
  - by apply streaming_set_queue.
  - apply streaming_readfd.
  - by apply streaming_add_aio.
  - destruct H0 as [H1 H2 H3 H4]. split; try done. cbn. rewrite length_app. lia.
Qed.

#[export] Instance streaming_Inv : Inv streaming.
Proof.
  split.
  - intros g w. by apply streaming_ext.
  - intros g w. by apply streaming_ext.
  - intros g w. by apply streaming_ext.
  - intros g w. by apply streaming_ext.
  - intros g w Hg. apply streaming_ext; [done|done|apply Hg|done].
  - intros g w _. by apply streaming_ext.
  - intros g w Hg. apply streaming_ext; [done|done|done|]. by apply keeps_clients_length.
  - intros q msg len flow _. apply (streaming_pushed q flow). intros *. apply push_shape.
  - intros q msg len flow _. apply (streaming_pushed q flow). intros *. apply push_nhdlc_shape.
  - intros h w a h' w' Hw (t & Em & ->)%zoom_inv. apply (streaming_queues w _ []); [done|].
    rewrite app_nil_r. by apply flow_new_shape in Em as [->| ->].
  - intros q Hq. apply streaming_set_queue. by intros ->.
  - intros u b _. by apply streaming_set_queue.
  - intros u b _. apply keeps_zoom_modify. intros w Hw. apply (streaming_queues w _ []); [done|].
    by rewrite queue_of_set, decide_False, app_nil_r.
  - apply streaming_readfd.
  - intros fd u. by apply streaming_add_aio.
  - intros fd q Hq. apply streaming_add_aio. by intros ->.
  - apply streaming_dm_add.
  - intros fd. apply streaming_watch_op. intros h s a h' s' E Hi Hs.
    change (Done (tt, h, with_aio (filter (not_fd fd)) (with_read (filter (not_fd fd)) s)) = Done (a, h', s')) in E.
    injection E as _ _ <-. split; [by apply Forall_kept|done].
  - intros fd. apply streaming_watch_op. intros h s a h' s' [= _ _ <-] Hi Hs. split; [by apply Forall_kept|done].
  - intros cb n b. apply streaming_watch_op. unfold watch_add_timer.
    intros h s a h' s' (u & h1 & s1 & E1 & E)%bind_done_inv Hi Hs.
    apply silent_calloc_or_die in E1 as ->. by injection E as _ _ <-.
  - intros g w _ Hw. by apply streaming_watches; [|apply (sm_watch w Hw)|].
Qed.

#[export] Instance streaming_ClockInv : ClockInv streaming.
Proof.
  split.
  - intros g w Hw. by apply streaming_watches; [|apply (sm_watch w Hw)|].
  - intros now h w a h' w' Hw [= _ _ <-]. by apply (streaming_watches w); [|apply (sm_watch w Hw)|].
Qed.

Lemma streaming_set_aio i b w : streaming w -> streaming (over (with_aio (set_aio i b)) w).
Proof.
  intros Hw. apply (streaming_watches w (with_aio (set_aio i b) (w_watches w)) Hw); [|done]. cbn.
  pose proof (sm_watch w Hw) as H. rewrite Forall_forall in *.
  intros x (y & -> & Hy)%list_elem_of_fmap. specialize (H y Hy). by destruct (bool_decide _).
Qed.

(** A submission moves one packet from the front of the waiting part to the
    end of the part handed over. *)
Lemma streaming_submit i : keeps streaming (watch_submit_aio i).
Proof.
  intros h w a h' w' Hw (x & q & e & Hx & _ & Eq & [[He ->]|(b & rest & El & _ & He & ->)])%submit_shape.
  { destruct Hw as [H1 H2 H3 H4]. split; [done..|]. unfold stream, sent in *. cbn. by rewrite He. }
  apply streaming_set_aio. destruct Hw as [Hs H2 H3 H4]. split; [done..|].
  unfold stream, sent in *. cbn. rewrite He, filter_app, fmap_app, queue_of_set.
  rewrite Forall_forall in Hs. apply find_watch_some in Hx as [Hx Hid]. specialize (Hs x Hx). unfold serves in Hs.
  rewrite Eq, Hid in Hs. rewrite filter_cons, filter_nil. cbn. destruct (decide (i = id)) as [->|Hne].
  - assert (q = QClient c) as -> by (destruct Hs as [Hs _]; specialize (Hs eq_refl); congruence).
    rewrite decide_True by done. rewrite El in H4. cbn in *. by rewrite <- app_assoc.
  - rewrite decide_False by (intros ->; apply Hne; by apply Hs). by rewrite app_nil_r.
Qed.

Lemma streaming_dec flow : keeps streaming (zoom (watch_flow_dec flow)).
Proof.
  intros h w a h' w' Hw (t & Em & ->)%zoom_inv. apply (streaming_queues w _ []); [done|].
  apply flow_dec_shape in Em as [El _]. unfold queue_of. by rewrite El, app_nil_r.
Qed.

#[export] Instance streaming_LoopInv : LoopInv (fun w => flow_inv w /\ streaming w).
Proof.
  split; [|intros; apply keeps_event; [apply _|apply streaming_dec|apply keeps_modify; intros; by apply streaming_set_aio]].
  intros i. apply keeps_and; [apply flow_inv_submit|apply streaming_submit].
Qed.
End stream.

(** C10 Delivery in order: over any rounds of the event loop, what has been
    handed to the kernel for a client's write watch, followed by what waits in
    the client's queue, is only appended to.  No packet is dropped,
    duplicated, changed or overtaken. *)
Theorem client_stream_in_order dec ffs_size ffs_type fuel n rs id c h w h' w' :
  flow_inv w -> Forall (serves id c) (ws_aio (w_watches w)) -> (id < ws_fresh (w_watches w))%nat ->
  (c < length (dm_clients (w_dm w)))%nat ->
  watch_loop dec ffs_size ffs_type fuel n rs h w = Done (tt, h', w') ->
  stream id c w `prefix_of` stream id c w'.
Proof.
  intros Hw Hs Hi Hc E.
  destruct (watch_loop_keeps (fun w' => flow_inv w' /\ streaming id c (stream id c w) w') dec ffs_size ffs_type
    fuel n rs _ _ _ _ _ (conj Hw (Build_streaming id c _ w Hs Hi Hc ltac:(done))) E) as [_ H].
  apply (sm_history _ _ _ _ H).
Qed.
