(* ===== verification/Refs.v ===== *)
(** * Refs: every reference is valid

    The program links its objects by pointers: commands to peripherals,
    watches and timers to clients, peripherals and USB handles, peripherals to
    flows.  A peripheral that is closed is freed.  The invariant here is the
    typing of the state: whatever is reachable is there.  It survives every
    callback, timer and round, since closing a peripheral takes away all that
    refers to it: its commands, and every watch on one of its descriptors; that
    is proved in [Validity].  Here are the invariant, and that it survives the
    operations a callback runs. *)

From S2P Require Import Prelude CircBuf Hdlc Masks Queue Watch World Dm Cntl Peripheral AppCmds CommonCmds Router DmRecv Devnode Qrtr Clients EventLoop Keeps Preserve Flow.

(** ** Valid references *)

Definition perif_at (p : nat) (R : peripheral -> Prop) (w : world) : Prop :=
  exists perif, pf_objs (w_pf w) !! p = Some perif /\ R perif.

Definition live (p : nat) (w : world) : Prop := is_Some (pf_objs (w_pf w) !! p).

Definition client_at (c : nat) (w : world) : Prop := (c < length (dm_clients (w_dm w)))%nat.

(** While an operation is under way, a peripheral may be about to be opened
    ([sl_open]), a QRTR peripheral may be announced before it is created
    ([sl_qrtr]) and USB handles before they are stored ([sl_handles]). *)
Record slack := Slack { sl_open : option nat; sl_qrtr : option nat; sl_handles : nat }.

Definition settled : slack := Slack None None 0.

Definition handle_at (s : slack) (u : nat) (w : world) : Prop :=
  (u < length (usb_handles (w_dev w)) + sl_handles s)%nat.

(** An rpmsg peripheral whose descriptor [field] is [fd], and open. *)
Definition linked (field : peripheral -> Z) (fd : Z) (perif : peripheral) : Prop :=
  pf_transport perif = Rpmsg /\ field perif = fd /\ 0 <= fd.

Definition is_qrtr (perif : peripheral) : Prop := pf_transport perif = Qrtr.

Definition qrtr_at (s : slack) (p : nat) (w : world) : Prop := perif_at p is_qrtr w \/ sl_qrtr s = Some p.

(** A callback registered on [fd]. *)
Definition cb_ok (s : slack) (w : world) (fd : Z) (cb : watch_cb) : Prop :=
  match cb with
  | CbDmRecv c => client_at c w
  | CbRpmsgCntlRecv p => perif_at p (linked pf_cntl_fd fd) w
  | CbRpmsgDataRecv p => perif_at p (linked pf_data_fd fd) w
  | CbRpmsgCmdRecv p => perif_at p (linked pf_cmd_fd fd) w
  | CbQrtrCntlRecv p | CbQrtrCmdRecv p | CbQrtrDataRecv p => qrtr_at s p w
  | CbEp0Recv u | CbFfsRecv u => handle_at s u w
  | CbUnixListen | CbUdevUpdate | CbFreeWriteAio => True
  end.

(** The queue of a write watch on [fd]. *)
Definition queue_ok (s : slack) (w : world) (fd : Z) (q : queue_ref) : Prop :=
  match q with
  | QClient c => client_at c w
  | QCmd p => perif_at p (fun x => is_qrtr x \/ linked pf_cmd_fd fd x) w
  | QCntl p => perif_at p (fun x => is_qrtr x \/ linked pf_cntl_fd fd x) w
  | QData p => perif_at p (fun x => is_qrtr x \/ linked pf_data_fd fd x) w
  | QUsb u => handle_at s u w
  end.

(** No channel is open yet. *)
Definition unopened (perif : peripheral) : Prop :=
  pf_cntl_fd perif = -1 /\ pf_data_fd perif = -1 /\ pf_cmd_fd perif = -1.

Definition tm_ok (s : slack) (w : world) (t : timer) : Prop :=
  match tm_cb t with
  | TmHdlcReset c => client_at c w
  | TmPeripheralOpen p => tm_repeat t = false /\
      perif_at p (fun x => pf_transport x = Rpmsg /\ (sl_open s = Some p \/ unopened x)) w
  end.

Definition opens (t : timer) : option nat :=
  match tm_cb t with TmPeripheralOpen p => Some p | TmHdlcReset _ => None end.

Definition read_ok (s : slack) (w : world) (x : watch) : Prop :=
  cb_ok s w (wa_fd x) (wa_cb x) /\ flow_ok (wa_flow x) (w_queues w).

Definition aio_refs (s : slack) (w : world) (x : watch) : Prop :=
  cb_ok s w (wa_fd x) (wa_cb x) /\ exists q, wa_queue x = Some q /\ queue_ok s w (wa_fd x) q.

Definition cmd_ok (w : world) (dc : diag_cmd) : Prop :=
  dc_cb dc = None /\ exists p, dc_peripheral dc = Some p /\ live p w.

(** The list of peripherals and the objects agree. *)
Record pf_good (w : world) : Prop := {
  pg_list p : p ∈ pf_list (w_pf w) <-> live p w;
  pg_nodup : NoDup (pf_list (w_pf w));
  pg_fresh p : live p w -> (p < pf_fresh (w_pf w))%nat;
  pg_flow p perif : pf_objs (w_pf w) !! p = Some perif -> flow_ok (pf_flow perif) (w_queues w) }.

Record refs (s : slack) (w : world) : Prop := {
  rf_read x : x ∈ ws_read (w_watches w) -> read_ok s w x;
  rf_aio x : x ∈ ws_aio (w_watches w) -> aio_refs s w x;
  rf_quit : ws_quit (w_watches w) = [];
  rf_timer t : t ∈ ws_timers (w_watches w) -> tm_ok s w t;
  rf_open : NoDup (omap opens (ws_timers (w_watches w)));
  rf_cmd dc : dc ∈ diag_cmds (w_cmds w) -> cmd_ok w dc;
  rf_local dc : dc ∈ common_cmds (w_cmds w) ++ fallback_cmds (w_cmds w) -> is_Some (dc_cb dc);
  rf_handle u : u ∈ usb_handles (w_dev w) -> client_at (uh_dm u) w;
  rf_pf : pf_good w }.

(** ** Nothing disappears

    What every operation but closing and opening a peripheral does. *)

Record grows (w w' : world) : Prop := {
  gr_clients : (length (dm_clients (w_dm w)) <= length (dm_clients (w_dm w')))%nat;
  gr_handles : (length (usb_handles (w_dev w)) <= length (usb_handles (w_dev w')))%nat;
  gr_perif p perif : pf_objs (w_pf w) !! p = Some perif ->
    exists perif', pf_objs (w_pf w') !! p = Some perif' /\ same_links perif' perif;
  gr_flows flow : flow_ok flow (w_queues w) -> flow_ok flow (w_queues w');
  gr_timers : ws_timers (w_watches w) `prefix_of` ws_timers (w_watches w') }.

Lemma same_links_refl p : same_links p p.
Proof. by unfold same_links. Qed.

Lemma grows_refl w : grows w w.
Proof. split; try done. intros p perif E. by exists perif. Qed.

(** A property of a peripheral's links. *)
Definition of_links (R : peripheral -> Prop) : Prop := forall x y, same_links y x -> R x -> R y.

Lemma perif_at_grows p R w w' : of_links R -> grows w w' -> perif_at p R w -> perif_at p R w'.
Proof.
  intros HR Hg (x & E & Hx). destruct (gr_perif _ _ Hg _ _ E) as (y & E' & Hl). exists y.
  split; [done|]. by apply (HR x).
Qed.

Lemma linked_links (field : peripheral -> Z) fd :
  (forall x y, same_links y x -> field y = field x) -> of_links (linked field fd).
Proof. intros Hf x y Hl (H1 & H2 & H3). split_and!; [by rewrite (proj1 Hl)|by rewrite (Hf x)|done]. Qed.

Lemma is_qrtr_links : of_links is_qrtr.
Proof. intros x y Hl. unfold is_qrtr. by rewrite (proj1 Hl). Qed.

Lemma links_fields x y :
  same_links y x -> pf_cntl_fd y = pf_cntl_fd x /\ pf_data_fd y = pf_data_fd x /\ pf_cmd_fd y = pf_cmd_fd x.
Proof. by intros (_ & ? & ? & ? & _). Qed.

Lemma qrtr_or_linked_links (field : peripheral -> Z) fd :
  (forall x y, same_links y x -> field y = field x) -> of_links (fun x => is_qrtr x \/ linked field fd x).
Proof.
  intros Hf x y Hl [H|H]; [left; unfold is_qrtr; by rewrite (proj1 Hl)|right; by apply (linked_links field fd Hf x)].
Qed.

#[local] Ltac links := intros ? ? Hl; by apply links_fields in Hl as (? & ? & ?).

Lemma cb_ok_grows s w w' fd cb : grows w w' -> cb_ok s w fd cb -> cb_ok s w' fd cb.
Proof.
  intros Hg. destruct cb; cbn; try done; try (apply perif_at_grows; [|done]; apply linked_links; links);
    try (intros [Hq|Hq]; [left; revert Hq|by right]; apply perif_at_grows; [|done]; apply is_qrtr_links).
  - pose proof (gr_clients _ _ Hg). unfold client_at. lia.
  - pose proof (gr_handles _ _ Hg). unfold handle_at. lia.
  - pose proof (gr_handles _ _ Hg). unfold handle_at. lia.
Qed.

Lemma queue_ok_grows s w w' fd q : grows w w' -> queue_ok s w fd q -> queue_ok s w' fd q.
Proof.
  intros Hg. destruct q; cbn; try (apply perif_at_grows; [|done]; apply qrtr_or_linked_links; links).
  - pose proof (gr_clients _ _ Hg). unfold client_at. lia.
  - pose proof (gr_handles _ _ Hg). unfold handle_at. lia.
Qed.

(** A new state all of whose entries are old or valid. *)
Lemma refs_grow s w w' :
  refs s w -> grows w w' -> pf_good w' ->
  (forall x, x ∈ ws_read (w_watches w') -> x ∈ ws_read (w_watches w) \/ read_ok s w' x) ->
  (forall x, x ∈ ws_aio (w_watches w') ->
    (exists y, y ∈ ws_aio (w_watches w) /\ wa_fd x = wa_fd y /\ wa_cb x = wa_cb y /\ wa_queue x = wa_queue y) \/
    aio_refs s w' x) ->
  ws_quit (w_watches w') = [] ->
  (forall t, t ∈ ws_timers (w_watches w') -> t ∈ ws_timers (w_watches w) \/ tm_ok s w' t) ->
  NoDup (omap opens (ws_timers (w_watches w'))) ->
  (forall dc, dc ∈ diag_cmds (w_cmds w') -> dc ∈ diag_cmds (w_cmds w) \/ cmd_ok w' dc) ->
  (forall dc, dc ∈ common_cmds (w_cmds w') ++ fallback_cmds (w_cmds w') ->
    dc ∈ common_cmds (w_cmds w) ++ fallback_cmds (w_cmds w) \/ is_Some (dc_cb dc)) ->
  (forall u, u ∈ usb_handles (w_dev w') -> u ∈ usb_handles (w_dev w) \/ client_at (uh_dm u) w') ->
  refs s w'.
Proof.
  intros Hr Hg Hpf Hread Haio Hquit Htm Hopen Hcmd Hlocal Hh. split; try done.
  - intros x [Hx|Hx]%Hread; [|done]. destruct (rf_read _ _ Hr x Hx) as [H1 H2].
    split; [by eapply cb_ok_grows|by apply (gr_flows _ _ Hg)].
  - intros x [(y & Hy & E1 & E2 & E3)|Hx]%Haio; [|done]. destruct (rf_aio _ _ Hr y Hy) as (H1 & q & Hq & H2).
    split; [rewrite E1, E2; by eapply cb_ok_grows|]. exists q. rewrite E3, E1. split; [done|]. by eapply queue_ok_grows.
  - intros t [Ht|Ht]%Htm; [|done]. pose proof (rf_timer _ _ Hr t Ht) as H. unfold tm_ok in *. destruct (tm_cb t).
    + pose proof (gr_clients _ _ Hg). unfold client_at in *. lia.
    + destruct H as [H0 H]. split; [done|]. revert H. apply perif_at_grows; [|done].
      intros a b Hl (H1 & H2). split; [by rewrite (proj1 Hl)|]. destruct H2 as [?|H2]; [by left|right].
      apply links_fields in Hl as (E1 & E2 & E3). unfold unopened. by rewrite E1, E2, E3.
  - intros dc [Hd|Hd]%Hcmd; [|done]. destruct (rf_cmd _ _ Hr dc Hd) as (H1 & p & H2 & [x Hx]). split; [done|].
    exists p. split; [done|]. destruct (gr_perif _ _ Hg _ _ Hx) as (y & Hy & _). by exists y.
  - intros dc [Hd|Hd]%Hlocal; [|done]. by apply (rf_local _ _ Hr).
  - intros u [Hu|Hu]%Hh; [|done]. pose proof (rf_handle _ _ Hr u Hu). pose proof (gr_clients _ _ Hg).
    unfold client_at in *. lia.
Qed.

(** The peripherals are the same, or as many and linked alike. *)
Lemma pf_good_alike w w' :
  pf_good w -> grows w w' -> pf_list (w_pf w') = pf_list (w_pf w) -> pf_fresh (w_pf w') = pf_fresh (w_pf w) ->
  (forall p y, pf_objs (w_pf w') !! p = Some y ->
    exists x, pf_objs (w_pf w) !! p = Some x /\ same_links y x) ->
  pf_good w'.
Proof.
  intros Hp Hg El Ef Hback. assert (forall p, live p w' <-> live p w) as Hlive.
  { intros p. split; intros [x Hx].
    - destruct (Hback p x Hx) as (y & Hy & _). by exists y.
    - destruct (gr_perif _ _ Hg p x Hx) as (y & Hy & _). by exists y. }
  split.
  - intros p. rewrite El, Hlive. apply (pg_list _ Hp).
  - rewrite El. apply (pg_nodup _ Hp).
  - intros p. rewrite Ef, Hlive. apply (pg_fresh _ Hp).
  - intros p y Hy. destruct (Hback p y Hy) as (x & Hx & Hl). destruct Hl as (_ & _ & _ & _ & ->).
    apply (gr_flows _ _ Hg). by apply (pg_flow _ Hp p x).
Qed.

Lemma pf_good_same w w' : pf_good w -> grows w w' -> w_pf w' = w_pf w -> pf_good w'.
Proof.
  intros Hp Hg E. apply (pf_good_alike w w' Hp Hg); rewrite E; [done..|]. intros p y Hy. by exists y.
Qed.

(** Changes that concern no reference. *)
Lemma grows_ext w w' :
  w_watches w' = w_watches w -> usb_handles (w_dev w') = usb_handles (w_dev w) -> w_pf w' = w_pf w ->
  length (dm_clients (w_dm w')) = length (dm_clients (w_dm w)) ->
  (forall flow, flow_ok flow (w_queues w) -> flow_ok flow (w_queues w')) -> grows w w'.
Proof.
  intros Ew Ed Ep El Hf. split; rewrite ?Ew, ?Ed, ?Ep, ?El; try done. intros p perif E. by exists perif.
Qed.

Lemma refs_ext s w w' :
  w_watches w' = w_watches w -> usb_handles (w_dev w') = usb_handles (w_dev w) -> w_pf w' = w_pf w -> w_cmds w' = w_cmds w ->
  length (dm_clients (w_dm w')) = length (dm_clients (w_dm w)) ->
  (forall flow, flow_ok flow (w_queues w) -> flow_ok flow (w_queues w')) -> refs s w -> refs s w'.
Proof.
  intros Ew Ed Ep Ec El Hf Hr. assert (grows w w') as Hg by (by apply grows_ext).
  apply (refs_grow s w w' Hr Hg); rewrite ?Ew, ?Ed, ?Ec; try (by left); try (intros; by left).
  - by apply (pf_good_same w w' (rf_pf _ _ Hr)).
  - intros x Hx. left. by exists x.
  - apply (rf_quit _ _ Hr).
  - apply (rf_open _ _ Hr).
Qed.

(** ** What the registrations do *)

Lemma add_readfd_shape fd cb flow h w a h' w' :
  zoom (watch_add_readfd fd cb flow) h w = Done (a, h', w') ->
  exists st, w' = over (fun _ => st) w /\
    ws_read st = ws_read (w_watches w) ++ [Watch (ws_fresh (w_watches w)) fd cb None None false flow] /\
    ws_aio st = ws_aio (w_watches w) /\ ws_quit st = ws_quit (w_watches w) /\
    ws_timers st = ws_timers (w_watches w).
Proof.
  intros (st & E & ->)%zoom_inv. apply bind_done_inv in E as (id & h1 & s1 & E1 & E2).
  apply new_watch_shape in E1 as [-> ->]. injection E2 as _ _ <-. by eexists.
Qed.

Lemma add_aio_shape fd cb q b h w a h' w' :
  zoom (id ← new_watch; _ ← modify (with_aio (fun l => l ++ [Watch id fd cb (Some q) None b None])); mret 0) h w
    = Done (a, h', w') ->
  exists st, w' = over (fun _ => st) w /\
    ws_aio st = ws_aio (w_watches w) ++ [Watch (ws_fresh (w_watches w)) fd cb (Some q) None b None] /\
    ws_read st = ws_read (w_watches w) /\ ws_quit st = ws_quit (w_watches w) /\
    ws_timers st = ws_timers (w_watches w).
Proof.
  intros (st & E & ->)%zoom_inv. apply bind_done_inv in E as (id & h1 & s1 & E1 & E2).
  apply new_watch_shape in E1 as [-> ->]. injection E2 as _ _ <-. by eexists.
Qed.

Lemma add_timer_shape cb n b h w a h' w' :
  zoom (watch_add_timer cb n b) h w = Done (a, h', w') ->
  exists st t, w' = over (fun _ => st) w /\ tm_cb t = cb /\ tm_repeat t = b /\
    ws_timers st = ws_timers (w_watches w) ++ [t] /\
    ws_aio st = ws_aio (w_watches w) /\ ws_read st = ws_read (w_watches w) /\ ws_quit st = ws_quit (w_watches w).
Proof.
  intros (st & E & ->)%zoom_inv. unfold watch_add_timer in E.
  apply bind_done_inv in E as (u & h1 & s1 & E1 & E2). apply silent_calloc_or_die in E1 as ->.
  injection E2 as _ _ <-.
  eexists _, (watch_set_timer (ws_now (w_watches w)) (Timer cb n b 0)). by split_and!.
Qed.

(** A new client, its watches and its queue. *)
Lemma dm_add_shape name in_fd out_fd enc h w c h' w' :
  dm_add name in_fd out_fd enc h w = Done (c, h', w') ->
  exists st dm, let c0 := length (dm_clients (w_dm w)) in c = c0 /\
    w' = over (fun s => DmState (dm_clients s ++ [dm]) (dm_bad_cmd_counter s))
           (over (fun _ => st) (over (set_queue (QClient c0) []) w)) /\
    (forall x, x ∈ ws_read st -> x ∈ ws_read (w_watches w) \/ wa_cb x = CbDmRecv c0 /\ wa_flow x = None) /\
    (forall x, x ∈ ws_aio st -> x ∈ ws_aio (w_watches w) \/ wa_cb x = CbFreeWriteAio /\ wa_queue x = Some (QClient c0)) /\
    ws_quit st = ws_quit (w_watches w) /\ ws_timers st = ws_timers (w_watches w).
Proof.
  unfold dm_add. intros (u & h1 & w1 & E1 & E)%bind_done_inv.
  apply silent_calloc_or_die in E1 as ->.
  apply bind_done_inv in E as (p & h2 & w2 & E2 & E). apply silent_malloc in E2 as ->.
  apply bind_done_inv in E as (w3 & h3 & w4 & [= <- <- <-] & E). cbv zeta in E.
  set (c0 := length (dm_clients (w_dm w))) in *. apply bind_done_inv in E as (u2 & h4 & w5 & E4 & E).
  assert (w5 = over (set_queue (QClient c0) []) w) as Ew5 by (by injection E4 as _ _ <-).
  assert (w_watches w5 = w_watches w) as Ew by (by rewrite Ew5).
  apply bind_done_inv in E as (r & h5 & w6 & E5 & E).
  assert (exists st, w6 = over (fun _ => st) w5 /\
    (forall x, x ∈ ws_read st -> x ∈ ws_read (w_watches w) \/ wa_cb x = CbDmRecv c0 /\ wa_flow x = None) /\
    ws_aio st = ws_aio (w_watches w) /\ ws_quit st = ws_quit (w_watches w) /\
    ws_timers st = ws_timers (w_watches w)) as (st & -> & Hread & Haio & Hquit & Htm).
  { rewrite <- Ew. destruct (0 <=? in_fd).
    - apply add_readfd_shape in E5 as (st & -> & Hst & Ha & Hq & Ht). exists st. split; [done|]. split; [|done].
      intros x. rewrite Hst. intros [Hx|Hx]%elem_of_app; [by left|]. right.
      apply list_elem_of_singleton in Hx as ->. done.
    - injection E5 as _ _ <-. exists (w_watches w5). split_and!; try done; [by destruct w5|intros x; by left]. }
  apply bind_done_inv in E as (r2 & h6 & w7 & E6 & E).
  apply add_aio_shape in E6 as (st2 & -> & Ha2 & Hr2 & Hq2 & Ht2). injection E as <- _ <-.
  eexists st2, _. cbv zeta. split; [done|]. split; [rewrite Ew5; reflexivity|]. cbn in Ha2, Hr2, Hq2, Ht2.
  split_and!; [|intros x|by rewrite Hq2|by rewrite Ht2].
  - by rewrite Hr2.
  - rewrite Ha2, Haio. intros [Hx|Hx]%elem_of_app; [by left|]. right.
    apply list_elem_of_singleton in Hx as ->. done.
Qed.

(** ** The operations of a callback

    [F] is what a callback knows about its own object. *)

Class Growing (F : world -> Prop) := growing w w' : grows w w' -> F w -> F w'.

(** What [ok] allows is there. *)
Definition allowed_ok (s : slack) (ok : allowed) (w : world) : Prop :=
  (forall p, al_cmd ok p -> live p w) /\ (forall p, al_write ok p -> perif_at p is_qrtr w) /\
  (forall c, al_client ok c -> client_at c w) /\ (forall u, al_handle ok u -> handle_at s u w).

Section callback.
Context (s : slack) (ok : allowed) (F : world -> Prop) `{!Growing F}.
Context (Hok : forall w, F w -> allowed_ok s ok w).

Definition refs_and (w : world) : Prop := refs s w /\ F w.

Lemma refs_and_ext w w' :
  w_watches w' = w_watches w -> usb_handles (w_dev w') = usb_handles (w_dev w) -> w_pf w' = w_pf w -> w_cmds w' = w_cmds w ->
  length (dm_clients (w_dm w')) = length (dm_clients (w_dm w)) ->
  (forall flow, flow_ok flow (w_queues w) -> flow_ok flow (w_queues w')) -> refs_and w -> refs_and w'.
Proof.
  intros Ew Ed Ep Ec El Hf [Hr HF]. split; [by apply (refs_ext s w)|]. eapply growing; [|exact HF]. by apply grows_ext.
Qed.

Lemma pushed_flows q flow st st' f : pushed q flow st st' -> flow_ok f st -> flow_ok f st'.
Proof.
  intros [->|(b & _ & _ & _ & ->)] Hf; [done|]. destruct f as [f|]; [|done]. cbn in *. destruct flow as [g|]; cbn; [|done].
  apply lookup_lt_is_Some. rewrite length_alter. by apply lookup_lt_is_Some.
Qed.

Lemma refs_pushed {A} q flow (m : M qstate A) :
  (forall h st a h' st', m h st = Done (a, h', st') -> pushed q flow st st') -> keeps refs_and (zoom m).
Proof.
  intros Hm h w a h' w' Hw (t & Em & ->)%zoom_inv. apply (refs_and_ext w); try done.
  intros f. cbn. eapply pushed_flows. by eapply Hm.
Qed.

Lemma refs_modify_queues f : (forall st, q_flows (f st) = q_flows st) -> keeps refs_and (zoom (modify f)).
Proof.
  intros Hf. apply keeps_zoom_modify. intros w Hw. apply (refs_and_ext w); try done.
  intros [g|]; cbn; [|done]. by rewrite Hf.
Qed.

(** A change of the watches and timers that only adds valid ones. *)
Lemma refs_watches st w :
  refs_and w ->
  let w' := over (fun _ => st) w in
  (forall x, x ∈ ws_read st -> x ∈ ws_read (w_watches w) \/ read_ok s w' x) ->
  (forall x, x ∈ ws_aio st ->
    (exists y, y ∈ ws_aio (w_watches w) /\ wa_fd x = wa_fd y /\ wa_cb x = wa_cb y /\ wa_queue x = wa_queue y) \/
    aio_refs s w' x) ->
  ws_quit st = ws_quit (w_watches w) ->
  (forall t, t ∈ ws_timers st -> t ∈ ws_timers (w_watches w) \/ tm_ok s w' t) ->
  ws_timers (w_watches w) `prefix_of` ws_timers st -> NoDup (omap opens (ws_timers st)) ->
  refs_and w'.
Proof.
  intros [Hr HF] w' Hread Haio Hquit Htm Hpre Hopen.
  assert (grows w w') as Hg by (split; try done; intros p perif E; by exists perif).
  split; [|by eapply growing]. apply (refs_grow s w w' Hr Hg); try done; try (intros; by left).
  - by apply (pf_good_same w w' (rf_pf _ _ Hr)).
  - rewrite <- (rf_quit _ _ Hr). exact Hquit.
Qed.

(** Registrations of valid watches. *)
Lemma refs_add_readfd fd cb flow :
  (forall w, F w -> cb_ok s w fd cb /\ flow_ok flow (w_queues w)) ->
  keeps refs_and (zoom (watch_add_readfd fd cb flow)).
Proof.
  intros Hcb h w a h' w' Hw E. apply add_readfd_shape in E as (st & -> & Hr & Ha & Hq & Ht).
  assert (F (over (fun _ => st) w)) as HF.
  { eapply growing; [|exact (proj2 Hw)]. split; try done; [by intros p x E; exists x|]. cbn. by rewrite Ht. }
  apply refs_watches; rewrite ?Ha, ?Hr, ?Hq, ?Ht; try done; try (intros; by left).
  - intros x [Hx| ->%list_elem_of_singleton]%elem_of_app; [by left|right]. by apply Hcb.
  - intros x Hx. left. by exists x.
  - apply (rf_open _ _ (proj1 Hw)).
Qed.

Lemma refs_add_aio fd cb q b :
  (forall w, F w -> cb_ok s w fd cb /\ queue_ok s w fd q) ->
  keeps refs_and (zoom (id ← new_watch; _ ← modify (with_aio (fun l => l ++ [Watch id fd cb (Some q) None b None])); mret 0)).
Proof.
  intros Hcb h w a h' w' Hw E. apply add_aio_shape in E as (st & -> & Ha & Hr & Hq & Ht).
  assert (F (over (fun _ => st) w)) as HF.
  { eapply growing; [|exact (proj2 Hw)]. split; try done; [by intros p x E; exists x|]. cbn. by rewrite Ht. }
  apply refs_watches; rewrite ?Ha, ?Hr, ?Hq, ?Ht; try done; try (intros; by left).
  - intros x [Hx| ->%list_elem_of_singleton]%elem_of_app; [left; by exists x|right]. split; [by apply Hcb|].
    exists q. split; [done|]. by apply Hcb.
  - apply (rf_open _ _ (proj1 Hw)).
Qed.

Lemma refs_add_writeq fd q :
  (forall w, F w -> queue_ok s w fd q) -> keeps refs_and (zoom (watch_add_writeq fd q)).
Proof. intros Hq. apply refs_add_aio. intros w Hw. split; [done|by apply Hq]. Qed.

(** Watches taken off. *)
Lemma refs_fewer st w :
  refs_and w -> (forall x, x ∈ ws_read st -> x ∈ ws_read (w_watches w)) ->
  (forall x, x ∈ ws_aio st -> x ∈ ws_aio (w_watches w)) -> ws_quit st = ws_quit (w_watches w) ->
  ws_timers st = ws_timers (w_watches w) -> refs_and (over (fun _ => st) w).
Proof.
  intros Hw Hr Ha Hq Ht. apply refs_watches; rewrite ?Ht; try done; try (intros; left; by auto).
  - intros x Hx. left. exists x. by split; [apply Ha|].
  - apply (rf_open _ _ (proj1 Hw)).
Qed.

Lemma refs_filter (P : watch -> Prop) `{!forall x, Decision (P x)} w :
  refs_and w -> refs_and (over (with_aio (filter P)) w) /\ refs_and (over (with_read (filter P)) w).
Proof.
  intros Hw. split; (apply (refs_fewer _ w Hw); [..|done|done]; [intros x Hx|intros x Hx]; cbn in Hx;
    try apply list_elem_of_filter in Hx as [_ Hx]; done).
Qed.

Lemma refs_add_timer c n b : (forall w, F w -> client_at c w) -> keeps refs_and (zoom (watch_add_timer (TmHdlcReset c) n b)).
Proof.
  intros Hc h w a h' w' Hw E. apply add_timer_shape in E as (st & t & -> & Et & Eb & Ht & Ha & Hr & Hq).
  apply refs_watches; rewrite ?Ha, ?Hr, ?Hq, ?Ht; try done; try (intros; by left).
  - intros x Hx. left. by exists x.
  - intros t' [Hx| ->%list_elem_of_singleton]%elem_of_app; [by left|right]. unfold tm_ok. rewrite Et.
    exact (Hc w (proj2 Hw)).
  - by exists [t].
  - rewrite omap_app. cbn. unfold opens at 2. rewrite Et, app_nil_r. apply (rf_open _ _ (proj1 Hw)).
Qed.

Lemma refs_upd_perif p f w : (forall q, same_links (f q) q) -> refs_and w ->
  refs_and (over (fun s => PfState (alter f p (pf_objs s)) (pf_list s) (pf_fresh s)) w).
Proof.
  intros Hf [Hr HF]. set (w' := over _ w).
  assert (grows w w') as Hg.
  { split; try done. intros q x Ex. cbn. destruct (decide (p = q)) as [->|Hne].
    - exists (f x). rewrite lookup_alter_eq, Ex. split; [done|apply Hf].
    - exists x. by rewrite lookup_alter_ne by done. }
  split; [|by eapply growing]. apply (refs_grow s w w' Hr Hg); try (intros; by left); try apply Hr.
  - apply (pf_good_alike w w' (rf_pf _ _ Hr) Hg); try done. intros q y. cbn. rewrite lookup_alter.
    case_decide; [|intros Ey; by exists y]. subst q. destruct (pf_objs (w_pf w) !! p) as [x|]; [|done].
    intros [= <-]. by exists x.
  - intros x Hx. left. by exists x.
Qed.

Lemma refs_dm_add name in_fd out_fd enc : keeps refs_and (dm_add name in_fd out_fd enc).
Proof.
  intros h w c h' w' [Hr HF] (st & dm & -> & -> & Hread & Haio & Hq & Ht)%dm_add_shape.
  set (w' := over _ (over _ _)).
  assert (grows w w') as Hg.
  { split; try done; cbn; [rewrite length_app; lia|by intros p x Ex; exists x|by rewrite Ht]. }
  assert (client_at (length (dm_clients (w_dm w))) w') as Hc by (unfold client_at; cbn; rewrite length_app; cbn; lia).
  split; [|by eapply growing]. apply (refs_grow s w w' Hr Hg); try (intros; by left).
  - by apply (pf_good_same w w' (rf_pf _ _ Hr)).
  - intros x [Hx|[E1 E2]]%Hread; [by left|right]. split; [rewrite E1; exact Hc|by rewrite E2].
  - intros x [Hx|[E1 E2]]%Haio; [left; by exists x|right]. split; [by rewrite E1|]. eexists. split; [exact E2|done].
  - cbn. rewrite Hq. apply Hr.
  - cbn. rewrite Ht. intros; by left.
  - cbn. rewrite Ht. apply Hr.
Qed.

(** What a callback runs, other than opening and closing. *)
Lemma refs_Inner : Inner ok refs_and.
Proof.
  split; [split; [split|]|..]; intros.
  - by apply (refs_and_ext w).
  - by apply (refs_and_ext w).
  - apply (refs_and_ext w); try done. by apply keeps_clients_length.
  - apply keeps_modify. intros w [Hr HF]. set (w' := over _ w).
    assert (grows w w') as Hg by (by split; try done; intros p x Ex; exists x).
    split; [|by eapply growing]. apply (refs_grow s w w' Hr Hg); try (intros; by left); try apply Hr.
    + by apply (pf_good_same w w' (rf_pf _ _ Hr)).
    + intros x Hx. left. by exists x.
    + intros dc [Hd|(p & Hp & E1 & E2)]%H; [by left|right]. split; [done|]. exists p. split; [done|].
      by apply (Hok w HF).
  - by apply refs_upd_perif.
  - apply (refs_pushed q flow). intros *. apply push_shape.
  - apply (refs_pushed q flow). intros *. apply push_nhdlc_shape.
  - apply refs_add_timer. intros w HF. by apply (Hok w HF).
  - by apply (refs_and_ext w).
  - by apply refs_modify_queues.
  - apply refs_add_aio. intros w HF. pose proof (Hok w HF) as (_ & _ & _ & Hu). by split; apply Hu.
  - apply refs_add_writeq. intros w HF. pose proof (Hok w HF) as (_ & Hq & _).
    destruct q; try done; (destruct (Hq perif H) as (x & E & Hx); exists x; by split; [|left]).
  - apply refs_dm_add.
  - intros h w a h' w' Hw [= _ _ <-]. by apply (refs_filter (not_fd fd) _ (proj2 (refs_filter (not_fd fd) w Hw))).
  - intros h w a h' w' Hw [= _ _ <-]. by apply (refs_filter (not_fd fd) w Hw).
Qed.
End callback.
