(* ===== verification/Timers.v ===== *)
(** * Timers: callbacks run when they are due

    [watch_run] gives [select] the time to the earliest timer as its timeout
    and runs that timer when nothing else happened.  Nothing else touches the
    timers that are set: callbacks only add new ones, from the present on. *)

From S2P Require Import Prelude CircBuf Hdlc Masks Queue Watch World Dm Cntl Peripheral AppCmds CommonCmds Router DmRecv Devnode Qrtr Clients EventLoop Keeps Preserve Flow Refs.

(** ** Callbacks only add timers *)

(** A timer set at a time, for an interval. *)
Definition set_at (now : Z) (t : timer) : Prop := exists cb n b, t = watch_set_timer now (Timer cb n b 0).

Section since.
Context (base : list timer) (now : Z).

Definition only_adds (s : wstate) : Prop :=
  ws_now s = now /\ exists new, ws_timers s = base ++ new /\ Forall (set_at now) new.

Definition adding (w : world) : Prop := only_adds (w_watches w).

Lemma only_adds_ext s s' : ws_now s' = ws_now s -> ws_timers s' = ws_timers s -> only_adds s -> only_adds s'.
Proof. unfold only_adds. by intros -> ->. Qed.

Lemma adding_ext w w' :
  ws_now (w_watches w') = ws_now (w_watches w) -> ws_timers (w_watches w') = ws_timers (w_watches w) ->
  adding w -> adding w'.
Proof. apply only_adds_ext. Qed.

(** An operation on another component. *)
Lemma adding_queues {A} (m : M qstate A) : keeps adding (zoom m).
Proof. by apply keeps_zoom. Qed.

Lemma adding_watches {A} (m : M wstate A) :
  (forall h s a h' s', m h s = Done (a, h', s') -> only_adds s -> only_adds s') -> keeps adding (zoom m).
Proof. intros Hm h w a h' w' Hw (s & E & ->)%zoom_inv. by eapply (Hm _ _ _ _ _ E). Qed.

Lemma adding_new_watch {A} (f : nat -> M wstate A) :
  (forall id h s a h' s', f id h s = Done (a, h', s') -> only_adds s -> only_adds s') ->
  keeps adding (zoom (id ← new_watch; f id)).
Proof.
  intros Hf. apply adding_watches. intros h s a h' s' (id & h1 & s1 & E1 & E2)%bind_done_inv Hs.
  apply new_watch_shape in E1 as [-> ->]. apply (Hf _ _ _ _ _ _ E2). by apply (only_adds_ext s).
Qed.

Lemma adding_readfd fd cb flow : keeps adding (zoom (watch_add_readfd fd cb flow)).
Proof. apply adding_new_watch. by intros id h s a h' s' [= _ _ <-]. Qed.
Lemma adding_aio fd cb q b : keeps adding (zoom (
  id ← new_watch; _ ← modify (with_aio (fun l => l ++ [Watch id fd cb (Some q) None b None])); mret 0)).
Proof. apply adding_new_watch. by intros id h s a h' s' [= _ _ <-]. Qed.

Lemma adding_timer cb n b : keeps adding (zoom (watch_add_timer cb n b)).
Proof.
  apply adding_watches. unfold watch_add_timer. intros h s a h' s' (u & h1 & s1 & E1 & E)%bind_done_inv.
  apply silent_calloc_or_die in E1 as ->. injection E as _ _ <-. intros (Hn & new & Es & Hnew).
  split; [done|]. exists (new ++ [watch_set_timer now (Timer cb n b 0)]).
  cbn -[watch_set_timer]. rewrite Es, Hn, app_assoc. split; [done|].
  apply Forall_app. split; [done|]. constructor; [by do 3 eexists|constructor].
Qed.

#[local] Hint Resolve adding_queues adding_readfd adding_aio : keep.

Lemma adding_dm_add name in_fd out_fd enc : keeps adding (dm_add name in_fd out_fd enc).
Proof.
  apply (keeps_new_client _ (fun _ => True)); [done|intros..].
  - keep.
  - keep.
  - apply adding_aio.
  - done.
Qed.

#[export] Instance adding_Inv : Inv adding.
Proof.
  split; try (intros; match goal with H : adding ?w |- _ => by apply (adding_ext w) end);
    try (intros; by apply adding_queues); intros.
  - apply adding_readfd.
  - apply adding_aio.
  - apply adding_aio.
  - apply adding_dm_add.
  - apply adding_watches. intros h s a h' s' E Hs.
    change (Done (tt, h, with_aio (filter (not_fd fd)) (with_read (filter (not_fd fd)) s)) = Done (a, h', s')) in E.
    by injection E as _ _ <-.
  - apply adding_watches. by intros h s a h' s' [= _ _ <-].
  - apply adding_timer.
Qed.

#[export] Instance adding_LoopInv : LoopInv (fun w => flow_inv w /\ adding w).
Proof.
  split.
  - intros id. apply keeps_and; [apply flow_inv_submit|].
    intros h w a h' w' Hw (x & q & e & _ & _ & _ & [[_ ->]|(b & rest & _ & _ & _ & ->)])%submit_shape; exact Hw.
  - intros. apply keeps_event; [apply _|intros; apply adding_queues|by apply keeps_modify].
Qed.
End since.

(** ** A round *)

(** What the loop does with the timer that expired. *)
Definition expire (now : Z) (k : nat) (l : list timer) : list timer :=
  match l !! k with
  | Some t => if tm_repeat t then alter (watch_set_timer now) k l else delete k l
  | None => l
  end.

(** The clock has passed the timeout when [select] finds nothing. *)
Definition punctual (r : round) : Prop :=
  forall fds t ready, rd_select r fds (Some t) = inr ready -> filter (.∈ fds) ready = [] -> rd_evfd r = false ->
    rd_now r + t <= rd_woke r.

Lemma expire_app now k l new : (k < length l)%nat -> expire now k (l ++ new) = expire now k l ++ new.
Proof.
  intros Hk. unfold expire. rewrite lookup_app_l by done. destruct (l !! k) as [t|]; [|done].
  destruct (tm_repeat t); [by apply alter_app_l|].
  by rewrite !delete_take_drop, take_app_le, drop_app_le, app_assoc by lia.
Qed.

Section round.
Context (dec : bytes -> Z -> Z * Z -> Z + qrtr_packet) (ffs_size : Z) (ffs_type : bytes -> ffs_event) (fuel : nat).

(** The callback of the timer, then it is set again or freed. *)
Lemma timer_round_runs base now k t h w h' w' :
  base !! k = Some t -> adding base now w -> timer_round k h w = Done (tt, h', w') ->
  exists h2 w2, run_timer (tm_cb t) h w = Done (tt, h2, w2) /\ adding base now w2 /\
    w' = over (with_timers (expire now k)) w2.
Proof.
  intros Hk Hw (s & h1 & w1 & [= <- <- <-] & E)%bind_done_inv.
  assert (forall w, adding base now w -> ws_timers (w_watches w) !! k = Some t) as Hat.
  { intros w0 (_ & new & -> & _). by apply lookup_app_l_Some. }
  rewrite Hat in E by done. apply bind_done_inv in E as (t' & h2 & w2 & [= <- <- <-] & E).
  apply bind_done_inv in E as ([] & h3 & w3 & E1 & E). exists h3, w3. split; [exact E1|].
  apply (run_timer_keeps (adding base now) (tm_cb t)) in E1 as H3; [|done]. split; [exact H3|].
  pose proof (Hat w3 H3) as Hk3. destruct H3 as (Hn3 & _), w3 as [? ? [] ? ? ? ? ? ?]. cbn in Hk3, Hn3. subst.
  unfold with_timers, expire. cbn. rewrite Hk3. destruct (tm_repeat t); injection E as _ <-; reflexivity.
Qed.

Lemma adding_expire base now k w :
  (k < length base)%nat -> adding base now w -> adding (expire now k base) now (over (with_timers (expire now k)) w).
Proof. intros Hk (Hn & new & Es & Hnew). split; [done|]. exists new. cbn. by rewrite Es, expire_app. Qed.

#[local] Hint Resolve silent_get_aio silent_get_read silent_blocked silent_select silent_timeout : keep.

(** Submitting touches the queues, the environment and the write watches. *)
Definition submitted (w w' : world) : Prop :=
  w_masks w' = w_masks w /\ w_dm w' = w_dm w /\ w_pf w' = w_pf w /\ w_cmds w' = w_cmds w /\ w_ids w' = w_ids w /\
  w_dev w' = w_dev w /\ ws_timers (w_watches w') = ws_timers (w_watches w) /\
  ws_read (w_watches w') = ws_read (w_watches w).

Lemma submit_round_submitted w0 : keeps (submitted w0) submit_round.
Proof.
  unfold submit_round. keep. apply keeps_for_each. intros id. apply keeps_bind; [keep|intros x].
  apply keeps_bind; [keep|intros q]. apply keeps_bind; [keep|intros s].
  destruct (queue_of _ _), (wa_pending_aio x); try keep.
  intros h w u h' w' Hw (y & q' & e & _ & _ & _ & [[_ ->]|(b & rest & _ & _ & _ & ->)])%submit_shape; exact Hw.
Qed.

(** Nothing is ready, so no callback runs. *)
Lemma silent_read_round n : silent (read_round dec ffs_size ffs_type fuel n []).
Proof.
  unfold read_round. keep. generalize (wa_id <$> head (ws_read (w_watches a))). revert a0.
  induction n as [|n IH]; intros next [id|]; cbn [read_loop]; [keep|keep| |keep].
  apply silent_bind; [keep|intros x]. rewrite bool_decide_eq_false_2 by apply not_elem_of_nil. keep.
Qed.

(** The time to the earliest timer, as [select] is told. *)
Definition time_left (now : Z) (l : list timer) : option Z :=
  k ← watch_get_next_timer l; t ← l !! k; Some (Z.max 0 (tm_tick t - now)).

Lemma select_timeout_left s h (w : world) timeout h' w' :
  select_timeout (watch_get_next_timer (ws_timers s)) s h w = Done (timeout, h', w') ->
  timeout = time_left (ws_now s) (ws_timers s) /\ h' = h /\ w' = w.
Proof.
  unfold select_timeout, time_left. destruct (watch_get_next_timer (ws_timers s)) as [k|]; [|by intros [= <- <- <-]].
  cbn [mbind option_bind]. destruct (ws_timers s !! k) as [t|]; [|done]. cbn [deref]. mrun. cbv zeta.
  destruct (Z.ltb_spec (tm_tick t - ws_now s) 0); intros [= <- <- <-]; (split; [cbn; f_equal; lia|done]).
Qed.

(** The descriptors a round asks for, and its answer. *)
Definition asks (r : round) (h : heap) (w : world) (fds ready : list Z) : Prop :=
  (exists h1, select_fds (ws_read (w_watches w)) h (at_time (rd_now r) w) = Done (fds, h1, at_time (rd_now r) w)) /\
  rd_select r fds (time_left (rd_now r) (ws_timers (w_watches w))) = inr ready.

(** [select] reported none of the descriptors asked for, nor the eventfd. *)
Definition timed_out (r : round) (fds ready : list Z) : Prop :=
  filter (.∈ fds) ready = [] /\ rd_evfd r = false.

Lemma flow_inv_at_time now w : flow_inv w -> flow_inv (at_time now w).
Proof. intros Hw. exact (inv_now (I := flow_inv) now (Heap 0 (fun _ => None)) w tt _ _ Hw eq_refl). Qed.

(** A round up to [select], and after it. *)
Lemma watch_round_inv n r h w h' w' :
  flow_inv w -> watch_round dec ffs_size ffs_type fuel n r h w = Done (true, h', w') ->
  exists fds h1 w1 ready, flow_inv w1 /\ submitted w w1 /\ asks r h w fds ready /\ ws_now (w_watches w1) = rd_now r /\
    let timer := watch_get_next_timer (ws_timers (w_watches w)) in
    (_ ← (if (zlen (filter (.∈ fds) ready) =? 0) && negb (rd_evfd r) then
            match timer with Some k => timer_round k | None => mret tt end
          else mret tt);
     _ ← (if rd_evfd r then watch_handle_eventfd (rd_events r) else mret tt);
     read_round dec ffs_size ffs_type fuel n (filter (.∈ fds) ready)) h1 (at_time (rd_woke r) w1) = Done (tt, h', w').
Proof.
  intros Hw (u & h1 & w1 & [= <- <- <-] & E)%bind_done_inv.
  apply bind_done_inv in E as (w2 & h2 & w3 & [= <- <- <-] & E).
  apply bind_done_inv in E as (fds & h2 & w2 & E1 & E). pose proof (silent_select _ _ _ _ _ _ E1) as ->.
  apply bind_done_inv in E as (u2 & h3 & w1 & E2 & E).
  assert (flow_inv w1 /\ submitted w w1 /\ ws_now (w_watches w1) = rd_now r) as (Hf & Hs & Hn).
  { assert (flow_inv (at_time (rd_now r) w)) as Hw0 by by apply flow_inv_at_time. split_and!.
    - by eapply (keeps_submit_round flow_inv).
    - eapply submit_round_submitted; [|exact E2]. by split_and!.
    - refine (proj1 (proj2 (keeps_submit_round (fun w' => flow_inv w' /\ adding (ws_timers (w_watches w)) (rd_now r) w')
        _ _ _ _ _ _ E2))). split; [done|]. split; [done|]. exists []. by rewrite app_nil_r. }
  apply bind_done_inv in E as (s & h4 & w3 & [= <- <- <-] & E).
  cbv zeta in E. assert (ws_timers (w_watches w1) = ws_timers (w_watches w)) as Et by apply Hs. rewrite Et in E.
  apply bind_done_inv in E as (timeout & h5 & w4 & E3 & E).
  rewrite <- Et in E3. apply select_timeout_left in E3 as (-> & -> & ->). rewrite Et, Hn in E.
  apply bind_done_inv in E as (u3 & h6 & w4 & [= <- <- <-] & E).
  destruct (rd_select r fds _) as [?|ready] eqn:Er; [done|].
  exists fds, h3, w1, ready. cbv zeta in *. split_and!; try done; [split; [by exists h2|exact Er]|].
  apply bind_done_inv in E as (u4 & h7 & w5 & E4 & E). erewrite bind_done by exact E4.
  apply bind_done_inv in E as (u5 & h8 & w6 & E5 & E). erewrite bind_done by exact E5.
  apply bind_done_inv in E as ([] & h9 & w7 & E6 & E). injection E as <- <-. exact E6.
Qed.

Lemma keeps_rest base now n r ready :
  keeps (fun w => flow_inv w /\ adding base now w)
    (_ ← (if rd_evfd r then watch_handle_eventfd (rd_events r) else mret tt);
     read_round dec ffs_size ffs_type fuel n ready).
Proof.
  set (both := fun w : world => flow_inv w /\ adding base now w).
  apply keeps_bind; [destruct (rd_evfd r); [apply (keeps_eventfd both)|keep]|intros _].
  unfold read_round. keep. apply (keeps_read_loop both).
Qed.

(** The clock when [select] times out. *)
Lemma timeout_due k t r h w fds ready :
  punctual r -> watch_get_next_timer (ws_timers (w_watches w)) = Some k -> ws_timers (w_watches w) !! k = Some t ->
  asks r h w fds ready -> timed_out r fds ready -> tm_tick t <= rd_woke r.
Proof.
  intros Hp Hn Hk [_ Er] [Hnone Hev]. unfold time_left in Er. rewrite Hn in Er. cbn in Er. rewrite Hk in Er. cbn in Er.
  pose proof (Hp _ _ _ Er Hnone Hev). lia.
Qed.
End round.

(** ** Properties *)

(** C17 Timers run when they are due.  In a round of the event loop [select] is
    told the time to the earliest timer.  In a round in which it reports one of
    the descriptors asked for, or the eventfd, every timer stays as it is, and
    so it does when none is set.  When it reports neither, exactly one timer
    expires: the first of the earliest, which is due; its callback runs, on
    the program as it was, and nothing else does; and the timer is taken off,
    or set again when it repeats.  In all rounds the callbacks only add timers
    that count from the present. *)
Theorem timers_run_when_due dec ffs_size ffs_type fuel n r h w h' w' :
  flow_inv w -> punctual r -> watch_round dec ffs_size ffs_type fuel n r h w = Done (true, h', w') ->
  let l := ws_timers (w_watches w) in
  exists fds ready new, asks r h w fds ready /\ Forall (set_at (rd_woke r)) new /\
    ((~ timed_out r fds ready \/ l = []) /\ ws_timers (w_watches w') = l ++ new \/
     timed_out r fds ready /\
     exists k t, l !! k = Some t /\ tm_tick t <= rd_woke r /\
       (forall t', t' ∈ l -> tm_tick t <= tm_tick t') /\
       (forall j t', (j < k)%nat -> l !! j = Some t' -> tm_tick t < tm_tick t') /\
       ws_timers (w_watches w') = expire (rd_woke r) k l ++ new /\
       exists h1 w1 h2 w2, submitted w w1 /\ run_timer (tm_cb t) h1 w1 = Done (tt, h2, w2) /\
         w' = over (with_timers (expire (rd_woke r) k)) w2).
Proof.
  intros Hw Hp E l. destruct (watch_round_inv _ _ _ _ _ _ _ _ _ _ Hw E) as (fds & h1 & w1 & ready & Hf & Hs & Has & Hn & E1).
  clear E. pose proof (watch_get_next_timer_earliest l) as Hk. cbv zeta in E1. fold l in E1.
  assert (adding l (rd_woke r) (at_time (rd_woke r) w1)) as Ha.
  { split; [done|]. exists []. rewrite app_nil_r. split; [apply Hs|constructor]. }
  assert (flow_inv (at_time (rd_woke r) w1)) as Hf1 by by apply flow_inv_at_time.
  apply bind_done_inv in E1 as (u & h2 & w2 & E1 & E2). exists fds, ready.
  assert (forall base, flow_inv w2 -> adding base (rd_woke r) w2 -> adding base (rd_woke r) w') as Hrest.
  { intros base H1 H2. by eapply (keeps_rest dec ffs_size ffs_type fuel base) in E2 as [_ ?]. }
  destruct ((zlen (filter (.∈ fds) ready) =? 0) && negb (rd_evfd r)) eqn:Eidle.
  2:{ injection E1 as _ _ <-. destruct (Hrest l Hf1 Ha) as (_ & new & El & Hnew). exists new. split_and!; try done. left.
      split; [|done]. left. intros [Hnone Hev]. by rewrite Hnone, Hev in Eidle. }
  apply andb_true_iff in Eidle as [Ez Eev]. apply Z.eqb_eq, zlen_0_nil in Ez. apply negb_true_iff in Eev.
  destruct (watch_get_next_timer l) as [k|] eqn:Enext.
  2:{ injection E1 as _ _ <-. destruct (Hrest l Hf1 Ha) as (_ & new & El & Hnew). exists new. split_and!; try done. left.
      split; [by right|done]. }
  destruct Hk as (t & Hk & Hfirst & Hearlier), u.
  assert (flow_inv w2) as Hf2 by by eapply (keeps_timer_round flow_inv).
  destruct (timer_round_runs l _ k t _ _ _ _ Hk Ha E1) as (h3 & w3 & E3 & H3 & ->).
  destruct (Hrest (expire (rd_woke r) k l)) as (_ & new & El & Hnew); [done|..].
  { apply adding_expire; [by eapply lookup_lt_Some|done]. }
  exists new. split_and!; try done. right. split; [done|]. exists k, t. split_and!; try done.
  - by apply (timeout_due k t r h w fds ready).
  - rewrite Ez, Eev in E2. apply bind_done_inv in E2 as (u3 & h4 & w4 & [= _ <- <-] & E2).
    apply silent_read_round in E2 as ->. by exists h1, (at_time (rd_woke r) w1), h3, w3.
Qed.
