(* ===== verification/Validity.v ===== *)
(** * Validity: the references survive the program

    What the callbacks, timers and rounds do to the references of [Refs]:
    closing a peripheral takes away all that refers to it, opening one gives
    its watches their descriptors, and creating one starts with none. *)

From S2P Require Import Prelude CircBuf Hdlc Masks Queue Watch World Dm Cntl Peripheral AppCmds CommonCmds Router DmRecv Devnode Qrtr Clients EventLoop RouterProps Keeps Preserve Flow Refs.

(** ** Closing a peripheral *)

Definition opened (x : peripheral) : Prop := pf_transport x = Rpmsg /\ ~ unopened x.

Lemma opened_links : of_links opened.
Proof.
  intros x y Hl [H1 H2]. split; [by rewrite (proj1 Hl)|]. apply links_fields in Hl as (E1 & E2 & E3).
  unfold unopened in *. by rewrite E1, E2, E3.
Qed.

Lemma linked_opened (field : peripheral -> Z) fd p w :
  (forall x, unopened x -> field x = -1) -> perif_at p (linked field fd) w -> perif_at p opened w.
Proof.
  intros Hf (x & E & H1 & H2 & H3). exists x. split; [done|]. split; [done|]. intros Hu. rewrite (Hf x Hu) in H2. lia.
Qed.

#[export] Instance Growing_perif p R : of_links R -> Growing (perif_at p R).
Proof. intros HR w w' Hg. by apply perif_at_grows. Qed.
#[export] Instance Growing_opened p : Growing (perif_at p opened).
Proof. apply Growing_perif, opened_links. Qed.
#[export] Instance Growing_qrtr p : Growing (perif_at p is_qrtr).
Proof. apply Growing_perif, is_qrtr_links. Qed.
#[export] Instance Growing_client c : Growing (client_at c).
Proof. intros w w' Hg. pose proof (gr_clients _ _ Hg). unfold client_at. lia. Qed.
#[export] Instance Growing_handle s u : Growing (handle_at s u).
Proof. intros w w' Hg. pose proof (gr_handles _ _ Hg). unfold handle_at. lia. Qed.
#[export] Instance Growing_true : Growing (fun _ => True).
Proof. done. Qed.
#[export] Instance Growing_and F G : Growing F -> Growing G -> Growing (fun w => F w /\ G w).
Proof. intros HF HG w w' Hg [H1 H2]. split; [by eapply HF|by eapply HG]. Qed.
#[export] Instance Growing_flow flow : Growing (fun w => flow_ok flow (w_queues w)).
Proof. intros w w' Hg. apply (gr_flows _ _ Hg). Qed.

(** What is left of the state. *)
Definition closed (p : nat) (x : peripheral) (w : world) : world :=
  let off l := filter (not_fd (pf_cmd_fd x)) (filter (not_fd (pf_cntl_fd x)) (filter (not_fd (pf_data_fd x)) l)) in
  over (fun s => PfState (delete p (pf_objs s)) (filter (fun q => q <> p) (pf_list s)) (pf_fresh s))
    (over (fun s => with_aio off (with_read off s))
      (over (fun s => CmdState (filter (fun dc => dc_peripheral dc <> Some p) (diag_cmds s)) (common_cmds s)
                        (fallback_cmds s)) w)).

Lemma peripheral_close_shape p x h w :
  pf_objs (w_pf w) !! p = Some x -> pf_transport x = Rpmsg ->
  peripheral_close p h w = Done (tt, h, closed p x w).
Proof.
  intros Ex Et. unfold peripheral_close, mbind, M_bind. rewrite (get_perif_ok _ _ _ _ Ex), Et.
  unfold perif_rpmsg_close, mbind, M_bind. by rewrite (get_perif_ok _ _ _ _ Ex).
Qed.

Definition off_links (x : peripheral) (fd : Z) : Prop :=
  fd <> pf_data_fd x /\ fd <> pf_cntl_fd x /\ fd <> pf_cmd_fd x.

Section close.
Context (p : nat) (x : peripheral) (w : world).
Context (Hx : pf_objs (w_pf w) !! p = Some x) (Hrpmsg : pf_transport x = Rpmsg).

(** What does not concern [p] outlives it. *)
Lemma perif_at_closed R q : perif_at q R w -> ~ (q = p /\ R x) -> perif_at q R (closed p x w).
Proof.
  intros (y & Ey & Hy) Hn. exists y. split; [|done]. cbn. apply lookup_delete_Some. split; [|done].
  intros <-. apply Hn. split; [done|]. congruence.
Qed.

Lemma live_closed q : live q (closed p x w) <-> live q w /\ q <> p.
Proof. unfold live. cbn. rewrite lookup_delete_is_Some. naive_solver. Qed.

Lemma cb_ok_closed fd cb : off_links x fd -> cb_ok settled w fd cb -> cb_ok settled (closed p x w) fd cb.
Proof.
  intros (H1 & H2 & H3). destruct cb; cbn; try done;
    try (intros [Hq|?]; [left|done]); try (intros Hq); (apply perif_at_closed; [done|]);
    unfold linked, is_qrtr; (intros (_ & ? & ? & ?) || intros (_ & ?)); congruence.
Qed.

Lemma queue_ok_closed fd q : off_links x fd -> queue_ok settled w fd q -> queue_ok settled (closed p x w) fd q.
Proof.
  intros (H1 & H2 & H3). destruct q; cbn; try done; intros Hq; (apply perif_at_closed; [done|]);
    unfold linked, is_qrtr; intros (_ & [?|(? & ? & ?)]); congruence.
Qed.

Lemma closed_off (l : list watch) y :
  y ∈ filter (not_fd (pf_cmd_fd x)) (filter (not_fd (pf_cntl_fd x)) (filter (not_fd (pf_data_fd x)) l)) ->
  y ∈ l /\ off_links x (wa_fd y).
Proof. rewrite !list_elem_of_filter. unfold not_fd, off_links. tauto. Qed.

Lemma pf_good_closed : pf_good w -> pf_good (closed p x w).
Proof.
  intros Hp. split.
  - intros q. rewrite live_closed. cbn. rewrite list_elem_of_filter, (pg_list _ Hp q). tauto.
  - cbn. apply NoDup_filter, Hp.
  - intros q [Hq _]%live_closed. by apply (pg_fresh _ Hp).
  - intros q y. cbn. rewrite lookup_delete_Some. intros [_ Hq]. by apply (pg_flow _ Hp q).
Qed.

(** Closing leaves no reference to the peripheral behind. *)
Lemma refs_closed : ~ unopened x -> refs settled w -> refs settled (closed p x w).
Proof.
  intros Hopen Hr. split; try apply Hr.
  - intros y [Hy Hoff]%closed_off. destruct (rf_read _ _ Hr y Hy) as [H1 H2]. split; [by apply cb_ok_closed|done].
  - intros y [Hy Hoff]%closed_off. destruct (rf_aio _ _ Hr y Hy) as (H1 & q & Eq & H2).
    split; [by apply cb_ok_closed|]. exists q. split; [done|by apply queue_ok_closed].
  - intros t Ht. pose proof (rf_timer _ _ Hr t Ht) as H. unfold tm_ok in *. destruct (tm_cb t) as [c|q]; [done|].
    destruct H as [H0 H]. split; [done|]. apply perif_at_closed; [done|]. intros (_ & _ & [?|?]); done.
  - intros dc [Hn Hd]%list_elem_of_filter. destruct (rf_cmd _ _ Hr dc Hd) as (H1 & q & E & Hq). split; [done|].
    exists q. split; [done|]. apply live_closed. split; [done|]. congruence.
  - apply pf_good_closed, Hr.
Qed.
End close.

Lemma refs_close p h w a h' w' :
  refs settled w -> perif_at p opened w -> peripheral_close p h w = Done (a, h', w') -> refs settled w'.
Proof.
  intros Hr (x & Ex & Et & Ho) E. rewrite (peripheral_close_shape p x h w Ex Et) in E. injection E as _ _ <-.
  by apply refs_closed.
Qed.

(** ** The receive callbacks *)

Definition none : nat -> Prop := fun _ => False.

Definition for_perif (p : nat) : allowed := Allowed (eq p) none none none.
Definition for_qrtr (p : nat) : allowed := Allowed (eq p) (eq p) none none.
Definition for_client (c : nat) : allowed := Allowed none none (eq c) none.
Definition for_handle (u : nat) : allowed := Allowed none none none (eq u).
Definition for_none : allowed := Allowed none none none none.

Lemma inner_perif s p : Inner (for_perif p) (refs_and s (perif_at p opened)).
Proof.
  apply refs_Inner; [apply _|]. intros w (x & Ex & _). split_and!; try done. intros q <-. by exists x.
Qed.
Lemma inner_qrtr s p : Inner (for_qrtr p) (refs_and s (perif_at p is_qrtr)).
Proof.
  apply refs_Inner; [apply _|]. intros w Hp. split_and!; try done; intros q <-; [|done].
  destruct Hp as (x & Ex & _). by exists x.
Qed.
Lemma inner_client s c : Inner (for_client c) (refs_and s (client_at c)).
Proof. apply refs_Inner; [apply _|]. intros w Hc. split_and!; try done. by intros ? <-. Qed.
Lemma inner_handle s u : Inner (for_handle u) (refs_and s (handle_at s u)).
Proof. apply refs_Inner; [apply _|]. intros w Hc. split_and!; try done. by intros ? <-. Qed.
Lemma inner_none s F `{!Growing F} : Inner for_none (refs_and s F).
Proof. by apply refs_Inner. Qed.
#[local] Existing Instances inner_perif inner_qrtr inner_client inner_handle inner_none.
#[local] Notation quiet_of i := (@in_quiet _ _ (@in_reading _ _ i)).

Lemma refs_dm_broadcast s msg len flow : keeps (refs s) (dm_broadcast msg len flow).
Proof.
  eapply brings_weaken, (keeps_dm_broadcast _ _ (HQ := quiet_of (inner_none s (fun _ => True)))); [done|by intros w []].
Qed.

#[local] Hint Resolve refs_dm_broadcast : keep.

Section rpmsg.
Context (p : nat).

#[local] Notation P := (refs_and settled (perif_at p opened)).
#[local] Instance inner_p : Inner (for_perif p) P := inner_perif settled p.
#[local] Instance reading_p : Reading (for_perif p) P := in_reading.

#[local] Hint Extern 1 (keeps P (sys_read _ _)) => apply (keeps_read _ _ (HR := reading_p)) : keep.
#[local] Hint Extern 1 (keeps P (diag_data_recv_raw _ _ _ _)) => apply (keeps_data_raw _ _ (HQ := @in_quiet _ _ reading_p) (HR := reading_p)) : keep.
#[local] Hint Extern 1 (keeps P (diag_data_recv_hdlc _ _ _)) => apply (keeps_data_hdlc _ _ (HQ := @in_quiet _ _ reading_p) (HR := reading_p)) : keep.
#[local] Hint Extern 1 (keeps P (diag_cntl_recv _ _ _)) => apply (keeps_cntl_recv _ _ (HQ := @in_quiet _ _ reading_p)); exact eq_refl : keep.

Lemma refs_close_if (b : bool) : brings P (refs settled) (if b then peripheral_close p else mret tt).
Proof. intros h w a h' w' [Hr Hp]. destruct b; [by apply refs_close|]. by intros [= _ _ <-]. Qed.

Lemma refs_data_recv fuel fd : brings P (refs settled) (diag_data_recv fuel p fd).
Proof.
  unfold diag_data_recv. apply brings_first; [keep|intros x]. apply brings_first; [keep|intros n].
  apply brings_last; [apply refs_close_if|keep].
Qed.

Lemma refs_cmd_recv fd : brings P (refs settled) (diag_cmd_recv p fd).
Proof.
  unfold diag_cmd_recv. apply brings_first; [keep|intros buf]. apply brings_first; [keep|intros r].
  apply brings_last; [|keep]. destruct r as [errno|d].
  - apply brings_last; [apply refs_close_if|keep].
  - apply (keeps_brings P); [by intros w [Hr _]|]. keep.
Qed.

Lemma refs_cntl_recv fd : brings P (refs settled) (rpmsg_perif_cntl_recv p fd).
Proof.
  unfold rpmsg_perif_cntl_recv. apply brings_first; [keep|intros buf]. apply brings_first; [keep|intros [errno|d]].
  - apply brings_last; [apply refs_close_if|keep].
  - apply (keeps_brings P); [by intros w [Hr _]|]. keep.
Qed.
End rpmsg.

(** ** Opening a peripheral *)

Definition cb_perif (cb : watch_cb) : option nat :=
  match cb with
  | CbRpmsgCntlRecv p | CbRpmsgDataRecv p | CbRpmsgCmdRecv p
  | CbQrtrCntlRecv p | CbQrtrCmdRecv p | CbQrtrDataRecv p => Some p
  | _ => None
  end.

Definition queue_perif (q : queue_ref) : option nat :=
  match q with QCmd p | QCntl p | QData p => Some p | QClient _ | QUsb _ => None end.

(** No watch refers to [p]. *)
Definition unwatched (p : nat) (w : world) : Prop :=
  (forall x, x ∈ ws_read (w_watches w) -> cb_perif (wa_cb x) <> Some p) /\
  (forall x q, x ∈ ws_aio (w_watches w) -> wa_queue x = Some q -> cb_perif (wa_cb x) <> Some p /\ queue_perif q <> Some p).

Definition closed_rpmsg (x : peripheral) : Prop := pf_transport x = Rpmsg /\ unopened x.

Lemma unopened_unwatched p w : refs settled w -> perif_at p closed_rpmsg w -> unwatched p w.
Proof.
  intros Hr (x & Ex & Et & E1 & E2 & E3).
  assert (forall fd cb, cb_ok settled w fd cb -> cb_perif cb <> Some p) as Hcb.
  { intros fd cb H [= E]. destruct cb; cbn in H, E; try done; injection E as ->;
      (destruct H as (y & Ey & H) || destruct H as [(y & Ey & H)|?]; try done);
      unfold linked, is_qrtr in H; simplify_eq; (destruct H as (? & ? & ?); lia) || congruence. }
  split.
  - intros y Hy. by apply (Hcb (wa_fd y)), (rf_read _ _ Hr).
  - intros y q Hy Eq. destruct (rf_aio _ _ Hr y Hy) as (H1 & q' & Eq' & H2). simplify_eq. split; [by apply (Hcb (wa_fd y))|].
    intros [= E]. destruct q; cbn in H2, E; try done; injection E as ->;
      destruct H2 as (z & Ez & [H|H]); unfold linked, is_qrtr in H; simplify_eq; try congruence; destruct H as (? & ? & ?); lia.
Qed.

Definition opening (p : nat) : slack := Slack (Some p) None 0.

Lemma refs_opening p w : refs settled w -> refs (opening p) w.
Proof.
  intros Hr. split; [apply (rf_read _ _ Hr)|apply (rf_aio _ _ Hr)|apply Hr| |apply Hr|apply Hr|apply Hr|apply Hr|apply Hr].
  intros t Ht. pose proof (rf_timer _ _ Hr t Ht) as H. unfold tm_ok in *. destruct (tm_cb t) as [c|q]; [done|].
  destruct H as [H0 (x & Ex & H1 & [?|H2])]; [done|]. split; [done|]. exists x. auto.
Qed.

Section relink.
Context (p : nat) (f : peripheral -> peripheral).
Context (Ht : forall x, pf_transport (f x) = pf_transport x) (Hflow : forall x, pf_flow (f x) = pf_flow x).

Definition relinked (w : world) : world := over (fun s => PfState (alter f p (pf_objs s)) (pf_list s) (pf_fresh s)) w.

Lemma perif_at_other q R w : q <> p -> perif_at q R w -> perif_at q R (relinked w).
Proof. intros Hne (x & Ex & Hx). exists x. cbn. by rewrite lookup_alter_ne by done. Qed.

Lemma perif_at_relinked (R R' : peripheral -> Prop) w :
  (forall x, R x -> R' (f x)) -> perif_at p R w -> perif_at p R' (relinked w).
Proof. intros HR (x & Ex & Hx). exists (f x). cbn. rewrite lookup_alter_eq, Ex. split; [done|]. by apply HR. Qed.

Lemma live_relinked q w : live q (relinked w) <-> live q w.
Proof. unfold live. cbn. rewrite lookup_alter. case_decide; [|done]. subst. by rewrite fmap_is_Some. Qed.

Lemma cb_ok_relinked s w fd cb : cb_perif cb <> Some p -> cb_ok s w fd cb -> cb_ok s (relinked w) fd cb.
Proof.
  intros Hn. destruct cb; cbn in *; try done; try (intros [Hq|?]; [left; revert Hq|by right]);
    apply perif_at_other; congruence.
Qed.

Lemma queue_ok_relinked s w fd q : queue_perif q <> Some p -> queue_ok s w fd q -> queue_ok s (relinked w) fd q.
Proof. intros Hn. destruct q; cbn in *; try done; apply perif_at_other; congruence. Qed.

Lemma pf_good_relinked w : pf_good w -> pf_good (relinked w).
Proof.
  intros Hp. split.
  - intros q. rewrite live_relinked. apply (pg_list _ Hp).
  - apply (pg_nodup _ Hp).
  - intros q. rewrite live_relinked. apply (pg_fresh _ Hp).
  - intros q y. cbn. rewrite lookup_alter. case_decide; [|apply (pg_flow _ Hp)]. subst q.
    destruct (pf_objs (w_pf w) !! p) as [x|] eqn:E; [|done]. intros [= <-]. rewrite Hflow. by apply (pg_flow _ Hp p).
Qed.

Lemma refs_relinked w : refs (opening p) w -> unwatched p w -> refs (opening p) (relinked w) /\ unwatched p (relinked w).
Proof.
  intros Hr Hu. split; [|done]. destruct Hu as [Hu1 Hu2]. split; try apply Hr.
  - intros x Hx. destruct (rf_read _ _ Hr x Hx) as [H1 H2]. split; [|done]. apply cb_ok_relinked; auto.
  - intros x Hx. destruct (rf_aio _ _ Hr x Hx) as (H1 & q & Eq & H2). destruct (Hu2 x q Hx Eq) as [H3 H4].
    split; [by apply cb_ok_relinked|]. exists q. split; [done|by apply queue_ok_relinked].
  - intros t Hin. pose proof (rf_timer _ _ Hr t Hin) as H. unfold tm_ok in *. destruct (tm_cb t) as [c|q]; [done|].
    destruct H as [H0 H]. split; [done|]. destruct (decide (q = p)) as [->|]; [|by apply perif_at_other].
    revert H. apply perif_at_relinked. intros x [E _]. rewrite Ht. split; [done|by left].
  - intros dc Hd. destruct (rf_cmd _ _ Hr dc Hd) as (H1 & q & E & Hq). split; [done|]. exists q. split; [done|].
    by apply live_relinked.
  - apply pf_good_relinked, Hr.
Qed.
End relink.

(** Calls that change the environment only. *)
Definition env_blind (I : world -> Prop) : Prop := forall e w, I w -> I (over (fun _ : env => e) w).

Lemma blind_call I : env_blind I -> keeps I sys_call.
Proof. intros HI. by apply keeps_zoom; intros f w Hw; apply (HI (f (w_env w))). Qed.

Lemma blind_devnode_open I rproc name : env_blind I -> keeps I (devnode_open rproc name).
Proof.
  intros HI. pose proof (blind_call I HI). unfold devnode_open. keep.
  induction (devnodes (w_dev a)) as [|node l IH]; cbn [devnode_open_loop]; keep.
Qed.

Lemma blind_open_either I rproc a b : env_blind I -> keeps I (open_either rproc a b).
Proof. intros HI. unfold open_either. keep; by apply blind_devnode_open. Qed.

Section open.
Context (p : nat) (T : list timer).

(** Before the first watch is added: what is known of the peripheral. *)
Definition before (R : peripheral -> Prop) (w : world) : Prop :=
  refs (opening p) w /\ unwatched p w /\ perif_at p (fun x => pf_transport x = Rpmsg /\ R x) w /\
  T `prefix_of` ws_timers (w_watches w).

Definition after (w : world) : Prop := refs (opening p) w /\ T `prefix_of` ws_timers (w_watches w).

Lemma before_blind R : env_blind (before R).
Proof. intros e w (Hr & Hu & Hp & HT). split_and!; try done. by apply (refs_ext _ w). Qed.

Lemma before_upd (R R' : peripheral -> Prop) f :
  (forall x, pf_transport (f x) = pf_transport x) -> (forall x, pf_flow (f x) = pf_flow x) ->
  (forall x, R x -> R' (f x)) -> brings (before R) (before R') (upd_perif p f).
Proof.
  intros Ht Hf HR h w a h' w' (Hr & Hu & Hp & HT) [= _ _ <-].
  destruct (refs_relinked p f Ht Hf w Hr Hu) as [H1 H2]. split_and!; try done.
  revert Hp. apply perif_at_relinked. intros x [E Hx]. rewrite Ht. split; [done|]. by apply HR.
Qed.

Lemma before_after R w : before R w -> after w.
Proof. by intros (? & _ & _ & ?). Qed.

(** Every watch is added for a descriptor of the peripheral. *)
Definition linked_as (x : peripheral) (w : world) : Prop :=
  (perif_at p (fun y => pf_transport y = Rpmsg /\ same_links y x) w /\ flow_ok (pf_flow x) (w_queues w)) /\
  T `prefix_of` ws_timers (w_watches w).

#[local] Instance Growing_linked_as x : Growing (linked_as x).
Proof.
  intros w w' Hg [[H1 H2] H3]. split; [split; [|by apply (gr_flows _ _ Hg)]|by etrans; [|apply (gr_timers _ _ Hg)]].
  revert H1. apply perif_at_grows; [|done]. intros y z Hl [E Hy]. split; [by rewrite (proj1 Hl)|].
  destruct Hl as (? & ? & ? & ? & ?), Hy as (? & ? & ? & ? & ?). unfold same_links. split_and!; congruence.
Qed.

Lemma perif_at_or R R' w : perif_at p R w -> perif_at p (fun x => R' x \/ R x) w.
Proof. intros (x & E & Hx). exists x. auto. Qed.

Lemma linked_field (field : peripheral -> Z) x w :
  (forall y, same_links y x -> field y = field x) -> 0 <= field x -> linked_as x w -> perif_at p (linked field (field x)) w.
Proof.
  intros Hf Hfd [[(y & Ey & Et & Hl) _] _]. exists y. split; [done|]. split; [done|]. by rewrite (Hf y Hl).
Qed.

Lemma linked_as_writeq (field : peripheral -> Z) q x :
  (forall y, same_links y x -> field y = field x) -> 0 <= field x ->
  (forall w fd, queue_ok (opening p) w fd q = perif_at p (fun y => is_qrtr y \/ linked field fd y) w) ->
  keeps (refs_and (opening p) (linked_as x)) (zoom (watch_add_writeq (field x) q)).
Proof.
  intros Hf Hfd Eq. apply refs_add_writeq; [apply _|]. intros w Hw. rewrite Eq. by apply perif_at_or, linked_field.
Qed.

Lemma linked_as_readfd (field : peripheral -> Z) cb flow x :
  (forall y, same_links y x -> field y = field x) -> 0 <= field x ->
  (forall w fd, cb_ok (opening p) w fd cb = perif_at p (linked field fd) w) -> flow = None \/ flow = pf_flow x ->
  keeps (refs_and (opening p) (linked_as x)) (zoom (watch_add_readfd (field x) cb flow)).
Proof.
  intros Hf Hfd Ecb Hfl. apply refs_add_readfd; [apply _|]. intros w Hw. rewrite Ecb.
  split; [by apply linked_field|]. destruct Hfl as [->| ->]; [done|apply Hw].
Qed.

Lemma linked_as_masks x : keeps (refs_and (opening p) (linked_as x)) (diag_cntl_send_masks p).
Proof. apply (keeps_send_masks _ _ (HQ := quiet_of (inner_none (opening p) (linked_as x)))). Qed.

Lemma linked_as_watches x :
  0 <= pf_cntl_fd x -> 0 <= pf_data_fd x ->
  keeps (refs_and (opening p) (linked_as x))
    (_ ← zoom (watch_add_writeq (pf_cntl_fd x) (QCntl p));
     _ ← zoom (watch_add_writeq (pf_data_fd x) (QData p));
     _ ← zoom (watch_add_readfd (pf_cntl_fd x) (CbRpmsgCntlRecv p) None);
     _ ← zoom (watch_add_readfd (pf_data_fd x) (CbRpmsgDataRecv p) (pf_flow x));
     _ ← (if 0 <=? pf_cmd_fd x then
            _ ← zoom (watch_add_readfd (pf_cmd_fd x) (CbRpmsgCmdRecv p) None);
            _ ← zoom (watch_add_writeq (pf_cmd_fd x) (QCmd p)); mret tt
          else mret tt);
     diag_cntl_send_masks p).
Proof.
  intros Hc Hd.
  assert (forall y, same_links y x -> pf_cntl_fd y = pf_cntl_fd x) as H1 by apply links_fields.
  assert (forall y, same_links y x -> pf_data_fd y = pf_data_fd x) as H2 by apply links_fields.
  assert (forall y, same_links y x -> pf_cmd_fd y = pf_cmd_fd x) as H3 by apply links_fields.
  pose proof (linked_as_writeq pf_cntl_fd (QCntl p) x H1 Hc ltac:(done)).
  pose proof (linked_as_writeq pf_data_fd (QData p) x H2 Hd ltac:(done)).
  pose proof (linked_as_readfd pf_cntl_fd (CbRpmsgCntlRecv p) None x H1 Hc ltac:(done) ltac:(by left)).
  pose proof (linked_as_readfd pf_data_fd (CbRpmsgDataRecv p) (pf_flow x) x H2 Hd ltac:(done) ltac:(by right)).
  pose proof (fun Hm => linked_as_writeq pf_cmd_fd (QCmd p) x H3 Hm ltac:(done)).
  pose proof (fun Hm => linked_as_readfd pf_cmd_fd (CbRpmsgCmdRecv p) None x H3 Hm ltac:(done) ltac:(by left)).
  pose proof (linked_as_masks x). destruct (Z.leb_spec 0 (pf_cmd_fd x)); keep.
Qed.

Definition cntl_data_open (x : peripheral) : Prop := 0 <= pf_cntl_fd x /\ 0 <= pf_data_fd x.

Lemma refs_peripheral_open : brings (before unopened) after (peripheral_open p).
Proof.
  unfold peripheral_open. apply brings_first; [keep|intros perif]. cbv zeta.
  apply brings_first; [apply blind_open_either, before_blind|intros fd].
  destruct (Z.ltb_spec fd 0); [apply (keeps_brings (before unopened)); [apply before_after|keep]|].
  apply brings_bind with (before (fun x => 0 <= pf_data_fd x)); [by apply before_upd|intros _].
  apply brings_first; [apply blind_open_either, before_blind|intros fd2].
  destruct (Z.ltb_spec fd2 0).
  { eapply brings_weaken; [done|apply (before_after (fun _ => True))|]. by apply before_upd. }
  apply brings_bind with (before cntl_data_open); [by apply before_upd|intros _].
  apply brings_first; [apply blind_devnode_open, before_blind|intros fd3].
  apply brings_first; [|intros _].
  { destruct (0 <=? fd3); [|keep]. by apply before_upd. }
  apply brings_first; [apply blind_call, before_blind|intros _].
  intros h w a h' w' (Hr & _ & (x & Ex & Et & Hc & Hd) & HT) E.
  change (get_perif p h w) with (get_perif p h w) in E. apply bind_done_inv in E as (y & h1 & w1 & E1 & E).
  rewrite (get_perif_ok _ _ _ _ Ex) in E1. injection E1 as <- <- <-.
  eapply (linked_as_watches x Hc Hd) in E; [split; [apply E|apply E]|]. split; [done|].
  split; [split; [by exists x|]|done]. by apply (pg_flow _ (rf_pf _ _ Hr) p).
Qed.
End open.

(** ** Creating a peripheral *)

Definition created (x : peripheral) (w : world) : world :=
  let p := pf_fresh (w_pf w) in
  over (fun s => PfState (<[p := x]> (pf_objs s)) (pf_list s ++ [p]) (S p))
    (over (fun s => set_queue (QData p) [] (set_queue (QCntl p) [] (set_queue (QCmd p) [] s))) w).

Lemma add_peripheral_shape x h w :
  add_peripheral x h w = Done (pf_fresh (w_pf w), h, created x w).
Proof. done. Qed.

Lemma grows_created x w : pf_good w -> grows w (created x w).
Proof.
  intros Hp. split; try done. intros p y Ey. exists y. cbn. rewrite lookup_insert_ne; [done|].
  intros <-. pose proof (pg_fresh _ Hp _ (mk_is_Some _ _ Ey)). lia.
Qed.

Lemma pf_good_created x w : pf_good w -> flow_ok (pf_flow x) (w_queues w) -> pf_good (created x w).
Proof.
  intros Hp Hf. assert (forall p, live p (created x w) <-> live p w \/ p = pf_fresh (w_pf w)) as Hlive.
  { intros p. unfold live. cbn. rewrite lookup_insert_is_Some'. naive_solver. }
  split; cbn [w_pf created over pf_lens pf_list pf_fresh pf_objs].
  - intros p. rewrite Hlive, elem_of_app, list_elem_of_singleton. by rewrite (pg_list _ Hp p).
  - apply NoDup_app. split; [apply Hp|]. split; [|apply NoDup_singleton].
    intros p Hin ->%list_elem_of_singleton. apply (pg_list _ Hp) in Hin. apply (pg_fresh _ Hp) in Hin. lia.
  - intros p [Hq| ->]%Hlive; [|lia]. pose proof (pg_fresh _ Hp p Hq). lia.
  - intros p y [[<- <-]|[_ E]]%lookup_insert_Some; [done|]. by apply (pg_flow _ Hp p).
Qed.

Lemma refs_created s x w :
  refs s w -> flow_ok (pf_flow x) (w_queues w) -> refs s (created x w) /\ perif_at (pf_fresh (w_pf w)) (eq x) (created x w).
Proof.
  intros Hr Hf. pose proof (rf_pf _ _ Hr) as Hp. split; [|exists x; cbn; by rewrite lookup_insert_eq].
  apply (refs_grow s w _ Hr (grows_created x w Hp)); try (intros; by left); try apply Hr.
  - by apply pf_good_created.
  - intros y Hy. left. by exists y.
Qed.

(** The announced peripheral is there. *)
Lemma refs_arrived p n w :
  refs (Slack None (Some p) n) w -> perif_at p is_qrtr w -> refs (Slack None None n) w.
Proof.
  intros Hr Hp. assert (forall fd cb, cb_ok (Slack None (Some p) n) w fd cb -> cb_ok (Slack None None n) w fd cb) as Hcb.
  { intros fd cb. destruct cb; cbn; try done; (intros [?|[= <-]]; by left). }
  split; try apply Hr.
  - intros x Hx. destruct (rf_read _ _ Hr x Hx). split; [by apply Hcb|done].
  - intros x Hx. destruct (rf_aio _ _ Hr x Hx). split; [by apply Hcb|done].
Qed.

Lemma flow_new_ok h s flow h' s' :
  watch_flow_new h s = Done (flow, h', s') ->
  flow_ok flow s' /\ (forall f, flow_ok f s -> flow_ok f s') /\ q_lists s' = q_lists s.
Proof.
  unfold watch_flow_new. intros (p & h1 & s1 & E1 & E)%bind_done_inv. apply silent_calloc in E1 as ->.
  destruct p; [|by injection E as <- _ <-]. cbn in E. injection E as <- _ <-. cbn.
  split; [by rewrite lookup_app_r, Nat.sub_diag by lia|]. split; [|done].
  intros [f|]; [|done]. cbn. intros [n Hn]. exists n. by apply lookup_app_l_Some.
Qed.

Lemma refs_flow_new s h w flow h' w' F `{!Growing F} :
  refs_and s F w -> zoom watch_flow_new h w = Done (flow, h', w') -> refs_and s (fun w => F w /\ flow_ok flow (w_queues w)) w'.
Proof.
  intros Hw (st & E & ->)%zoom_inv. apply flow_new_ok in E as (H1 & H2 & _).
  destruct (refs_and_ext s F w (over (fun _ => st) w)) as [? ?]; done.
Qed.

Lemma refs_add_open_timer p n w h a h' w' :
  refs settled w -> perif_at p closed_rpmsg w -> p ∉ omap opens (ws_timers (w_watches w)) ->
  zoom (watch_add_timer (TmPeripheralOpen p) n false) h w = Done (a, h', w') -> refs settled w'.
Proof.
  intros Hr Hp Hn E. apply add_timer_shape in E as (st & t & -> & Et & Eb & Ht & Ha & Hrd & Hq).
  apply (refs_watches settled (fun _ => True) st w); rewrite ?Ha, ?Hrd, ?Hq, ?Ht; try done; try (intros; by left).
  - intros x Hx. left. by exists x.
  - intros t' [Hx| ->%list_elem_of_singleton]%elem_of_app; [by left|right]. unfold tm_ok. rewrite Et.
    split; [done|]. destruct Hp as (x & Ex & H1 & H2). exists x. auto.
  - by exists [t].
  - rewrite omap_app. cbn. unfold opens at 2. rewrite Et. apply NoDup_app. split; [apply Hr|]. split; [|apply NoDup_singleton].
    by intros q Hin ->%list_elem_of_singleton.
Qed.

Lemma refs_opens_live s p w : refs s w -> p ∈ omap opens (ws_timers (w_watches w)) -> live p w.
Proof.
  intros Hr (t & Ht & E)%list_elem_of_omap. pose proof (rf_timer _ _ Hr t Ht) as H. unfold tm_ok, opens in *.
  destruct (tm_cb t) as [c|q]; [done|]. injection E as ->. destruct H as (_ & x & Ex & _). by exists x.
Qed.

Lemma refs_create rproc channel : keeps (refs settled) (peripheral_create rproc channel).
Proof.
  unfold peripheral_create. case_match; [keep|]. apply keeps_bind; [keep|intros w0].
  apply keeps_bind; [apply keeps_silent, silent_named|intros [|]]; [keep|].
  apply keeps_bind; [keep|intros obj]. apply keeps_bind; [keep|intros _].
  intros h w a h' w' Hr (flow & h1 & w1 & E1 & E)%bind_done_inv.
  apply (refs_flow_new settled h w flow h1 w1 (fun _ => True)) in E1 as [Hr1 [_ Hf]]; [|done].
  apply bind_done_inv in E as (name & h2 & w2 & E2 & E). apply silent_strdup in E2 as ->.
  apply bind_done_inv in E as (p & h3 & w3 & E3 & E). rewrite add_peripheral_shape in E3. injection E3 as <- <- <-.
  apply bind_done_inv in E as (u & h4 & w4 & E4 & [= _ _ <-]).
  match type of E4 with context [created ?x _] => destruct (refs_created settled x w1 Hr1 Hf) as [Hr3 Hp] end.
  eapply refs_add_open_timer; [exact Hr3| |..|exact E4].
  - destruct Hp as (x & Ex & <-). by eexists.
  - intros Hin. pose proof (refs_opens_live settled (pf_fresh (w_pf w1)) w1 Hr1 Hin) as Hl.
    apply (pg_fresh _ (rf_pf _ _ Hr1)) in Hl. lia.
Qed.

Lemma refs_devnodes s f : keeps (refs s) (set_devnodes f).
Proof. apply keeps_modify. intros w. by apply (refs_ext s w). Qed.

Lemma refs_blind s : env_blind (refs s).
Proof. intros e w. by apply (refs_ext s w). Qed.

#[local] Hint Resolve refs_create refs_devnodes silent_devnode_get : keep.

Lemma refs_udev_add dev path : keeps (refs settled) (udev_add dev path).
Proof. unfold udev_add, devnode_add. keep. Qed.

#[local] Hint Resolve refs_udev_add : keep.

Lemma refs_udev_update : keeps (refs settled) peripheral_udev_update.
Proof.
  unfold peripheral_udev_update, devnode_remove. apply keeps_bind; [|intros d; keep].
  apply keeps_zoom. intros f w Hw. by apply (refs_blind settled (f (w_env w))).
Qed.

(** ** QRTR peripherals *)

Definition announced (p : nat) : slack := Slack None (Some p) 0.

(** Announcing a peripheral asks nothing of the state. *)
Lemma refs_announce p w : refs settled w -> refs (announced p) w.
Proof.
  intros Hr. split; try apply Hr.
  - intros x Hx. destruct (rf_read _ _ Hr x Hx) as [H1 H2]. split; [|done].
    destruct (wa_cb x); cbn in *; try done; destruct H1 as [?|?]; (by left) || done.
  - intros x Hx. destruct (rf_aio _ _ Hr x Hx) as [H1 H2]. split; [|done].
    destruct (wa_cb x); cbn in *; try done; destruct H1 as [?|?]; (by left) || done.
Qed.

Definition next_is (p : nat) (w : world) : Prop := pf_fresh (w_pf w) = p.

(** Watches of the peripheral to come. *)
Lemma refs_announced_readfd p fd cb flow fl :
  cb ∈ [CbQrtrCntlRecv p; CbQrtrCmdRecv p; CbQrtrDataRecv p] -> flow = None \/ flow = fl ->
  keeps (fun w => refs_and (announced p) (fun w => flow_ok fl (w_queues w)) w /\ next_is p w)
    (zoom (watch_add_readfd fd cb flow)).
Proof.
  intros Hcb Hfl. apply keeps_and; [|by apply keeps_zoom]. apply refs_add_readfd; [apply _|]. intros w Hw. split.
  - repeat apply elem_of_cons in Hcb as [->|Hcb]; try (by right). by apply elem_of_nil in Hcb.
  - by destruct Hfl as [->| ->].
Qed.

Lemma refs_qrtr_arrives p fd1 fd2 fd3 flow x :
  pf_transport x = Qrtr -> pf_flow x = flow ->
  brings (fun w => refs_and (announced p) (fun w => flow_ok flow (w_queues w)) w /\ next_is p w) (refs settled)
    (_ ← zoom (watch_add_readfd fd1 (CbQrtrCntlRecv p) None);
     _ ← zoom (watch_add_readfd fd2 (CbQrtrCmdRecv p) None);
     _ ← zoom (watch_add_readfd fd3 (CbQrtrDataRecv p) flow);
     _ ← add_peripheral x;
     mret 0).
Proof.
  intros Ht Hx. do 3 (apply brings_first;
    [apply refs_announced_readfd; [set_solver|first [by left|by right]]|intros _]).
  intros h w a h' w' [[Hr Hf] Hn] E. unfold mbind, M_bind in E. rewrite add_peripheral_shape in E. injection E as _ _ <-.
  rewrite <- Hx in Hf. destruct (refs_created (announced p) x w Hr Hf) as [Hr' (y & Ey & <-)].
  apply (refs_arrived p 0 _ Hr'). rewrite Hn in Ey. by exists x.
Qed.

Lemma refs_qrtr_subsystem name : keeps (refs settled) (qrtr_perif_init_subsystem name).
Proof.
  assert (silent (calloc sizeof_peripheral : M world _)) as Hs by keep.
  intros h w a h' w' Hr (obj & h1 & w1 & E1 & E)%bind_done_inv. apply Hs in E1 as ->.
  apply bind_done_inv in E as (flow & h2 & w2 & E2 & E).
  apply (refs_flow_new settled h1 w flow h2 w2 (fun _ => True)) in E2; [|done].
  revert E2 E. generalize h2, w2. clear. intros h w Hw.
  apply (brings_first (refs_and settled (fun w => True /\ flow_ok flow (w_queues w))) (refs settled)); [keep| |exact Hw].
  intros n. apply brings_first; [keep|intros _].
  assert (keeps (refs_and settled (fun w => True /\ flow_ok flow (w_queues w))) qrtr_socket) as Hk.
  { unfold qrtr_socket. apply keeps_bind; [|keep]. apply blind_call. intros e v [Hr HF]. split; [by apply refs_blind|done]. }
  do 4 (apply brings_first; [exact Hk|intros ?]).
  intros h0 v b h2 v' [Hr [_ Hf]] (v2 & h3 & v3 & [= <- <- <-] & E)%bind_done_inv. cbv zeta in E. revert E.
  apply refs_qrtr_arrives; [done|done|]. split; [split; [by apply refs_announce|done]|done].
Qed.

Lemma refs_qrtr_init : keeps (refs settled) peripheral_qrtr_init.
Proof.
  unfold peripheral_qrtr_init. apply keeps_bind; [|keep]. apply keeps_for_each. intros n.
  apply keeps_bind; [apply refs_qrtr_subsystem|keep].
Qed.

(** ** Clients *)

Definition holding : slack := Slack None None 1.

Lemma refs_slack_handles n w : refs settled w -> refs (Slack None None n) w.
Proof.
  intros Hr.
  assert (forall fd cb, cb_ok settled w fd cb -> cb_ok (Slack None None n) w fd cb) as Hcb.
  { intros fd cb. destruct cb; cbn; unfold handle_at; cbn; (done || lia). }
  split; try apply Hr.
  - intros x Hx. destruct (rf_read _ _ Hr x Hx). split; [by apply Hcb|done].
  - intros x Hx. destruct (rf_aio _ _ Hr x Hx) as (H1 & q & E & H2). split; [by apply Hcb|]. exists q. split; [done|].
    destruct q; cbn in *; unfold handle_at in *; cbn in *; (done || lia).
Qed.

Definition stored (x : usb_handle) (w : world) : world :=
  over (fun s => DevState (devnodes s) (usb_handles s ++ [x])) w.

Lemma refs_stored x w : refs holding w -> client_at (uh_dm x) w -> refs settled (stored x w).
Proof.
  intros Hr Hc.
  assert (forall u, handle_at holding u w -> handle_at settled u (stored x w)) as Hu.
  { intros u. unfold handle_at. cbn. rewrite length_app. cbn. lia. }
  assert (forall fd cb, cb_ok holding w fd cb -> cb_ok settled (stored x w) fd cb) as Hcb.
  { intros fd cb. destruct cb; cbn; first [done|apply Hu]. }
  split; try apply Hr.
  - intros y Hy. destruct (rf_read _ _ Hr y Hy). split; [by apply Hcb|done].
  - intros y Hy. destruct (rf_aio _ _ Hr y Hy) as (H1 & q & E & H2). split; [by apply Hcb|]. exists q. split; [done|].
    destruct q; cbn in *; first [done|by apply Hu].
  - intros y [Hy| ->%list_elem_of_singleton]%elem_of_app; [by apply (rf_handle _ _ Hr)|done].
  - apply (pf_good_same w); [apply Hr| |done]. split; try done; [cbn; rewrite length_app; lia|]. intros p z E. by exists z.
Qed.

(** With nothing known of the program but its references. *)
Definition plain : world -> Prop := refs_and settled (fun _ => True).

Lemma plain_refs w : plain w -> refs settled w.
Proof. by intros []. Qed.

#[local] Instance inner_plain : Inner for_none plain := inner_none settled (fun _ => True).

Lemma refs_inner {A} (m : M world A) : keeps plain m -> keeps (refs settled) m.
Proof. intros Hm h w a h' w' Hr E. by eapply plain_refs, Hm. Qed.

Lemma refs_call : keeps (refs settled) sys_call.
Proof. apply blind_call, refs_blind. Qed.
Lemma refs_add_client name in_fd out_fd enc : keeps (refs settled) (dm_add name in_fd out_fd enc).
Proof. exact (refs_inner _ (in_dm_add name in_fd out_fd enc)). Qed.
Lemma refs_enable c : keeps (refs settled) (dm_enable c).
Proof. exact (refs_inner _ (keeps_dm_enable for_none plain c)). Qed.
Lemma refs_readfd fd cb : cb = CbUnixListen \/ cb = CbUdevUpdate -> keeps (refs settled) (zoom (watch_add_readfd fd cb None)).
Proof. intros Hcb. apply refs_inner, refs_add_readfd; [apply _|]. intros w _. by destruct Hcb as [->| ->]. Qed.
#[local] Hint Resolve refs_call refs_add_client refs_enable : keep.
#[local] Hint Extern 1 (keeps (refs settled) (zoom (watch_add_readfd _ _ _))) => apply refs_readfd; (by left) || (by right) : keep.

Lemma refs_unix_listen : keeps (refs settled) unix_listen.
Proof. unfold unix_listen. keep. Qed.

Lemma refs_configure n : keeps (refs settled) (configure n).
Proof. induction n as [|n IH]; cbn [configure]; keep. Qed.
#[local] Hint Resolve refs_configure : keep.

Lemma refs_sock_connect : keeps (refs settled) diag_sock_connect.
Proof. unfold diag_sock_connect. keep. Qed.
Lemma refs_uart_open n : keeps (refs settled) (diag_uart_open n).
Proof. unfold diag_uart_open. keep. Qed.
Lemma refs_unix_open : keeps (refs settled) diag_unix_open.
Proof. unfold diag_unix_open. keep. Qed.
Lemma refs_rpmsg_init udev devs fd : keeps (refs settled) (peripheral_rpmsg_init udev devs fd).
Proof. unfold peripheral_rpmsg_init. keep. apply keeps_for_each. keep. Qed.

Lemma refs_ffs_init : keeps (refs settled) ffs_diag_init.
Proof. unfold ffs_diag_init, ffs_step. keep. Qed.

(** The handle that is about to be stored is [u]. *)
Definition holds (u : nat) (w : world) : Prop := refs holding w /\ length (usb_handles (w_dev w)) = u.

Lemma holds_watch u ep0 : keeps (holds u) (zoom (watch_add_readfd ep0 (CbEp0Recv u) None)).
Proof.
  intros h w a h' w' [Hr Hu] E.
  eapply (refs_add_readfd holding (fun w => handle_at holding u w)) in E as E2; [| |split; [done|]].
  - apply add_readfd_shape in E as (st & -> & _). by destruct E2.
  - by intros v Hv.
  - unfold handle_at. cbn. lia.
Qed.

Lemma holds_add u name in_fd out_fd enc :
  brings (holds u) (fun w => holds u w) (dm_add name in_fd out_fd enc).
Proof.
  intros h w c h' w' [Hr Hu] E. split; [|by apply dm_add_shape in E as (st & dm & -> & -> & _)].
  by eapply (refs_dm_add holding (fun _ => True)) in E as [? _].
Qed.

Lemma dm_add_client name in_fd out_fd enc h w c h' w' :
  dm_add name in_fd out_fd enc h w = Done (c, h', w') -> client_at c w'.
Proof.
  intros (st & dm & -> & -> & _)%dm_add_shape. unfold client_at. cbn. rewrite length_app. cbn. lia.
Qed.

Lemma refs_usb_open : keeps (refs settled) diag_usb_open.
Proof.
  unfold diag_usb_open. apply keeps_bind; [unfold calloc_or_die; keep|intros _].
  apply keeps_bind; [apply keeps_silent, silent_zoom, silent_mbuf_alloc|intros [b|]]; [|keep].
  apply keeps_bind; [apply refs_ffs_init|intros [e|[[ep0 bulk_out] bulk_in]]]; [keep|].
  intros h w a h' w' Hr (w1 & h1 & w2 & [= <- <- <-] & E)%bind_done_inv. cbv zeta in E.
  set (u := length (usb_handles (w_dev w))) in *. apply bind_done_inv in E as (t & h3 & w3 & E3 & E).
  assert (holds u w3) as Hw3.
  { injection E3 as _ _ <-. split; [|done]. apply (refs_ext holding w); try done. by apply refs_slack_handles. }
  apply bind_done_inv in E as (t4 & h4 & w4 & E4 & E). apply (holds_watch u) in E4; [|done].
  apply bind_done_inv in E as (dm & h5 & w5 & E5 & E). apply (holds_add u) in E5 as Hw5; [|done].
  apply dm_add_client in E5 as Hc. injection E as _ _ <-.
  by apply (refs_stored (UsbHandle ep0 bulk_out bulk_in dm) w5 (proj1 Hw5)).
Qed.

Lemma refs_ffs_recv u b : keeps (refs settled) (diag_ffs_recv u b).
Proof.
  unfold diag_ffs_recv. intros h w a h' w' Hr (w1 & h1 & w2 & [= <- <- <-] & E)%bind_done_inv.
  destruct (usb_handles (w_dev w) !! u) as [x|] eqn:Ex; [|done].
  assert (refs_and settled (client_at (uh_dm x)) w) as Hw.
  { split; [done|]. apply (rf_handle _ _ Hr). by eapply list_elem_of_lookup_2. }
  apply bind_done_inv in E as (x' & h1 & w1 & E1 & E). injection E1 as <- <- <-.
  apply bind_done_inv in E as (d & h2 & w2 & E2 & E). apply silent_lift in E2 as ->.
  apply bind_done_inv in E as (buf & h3 & w3 & E3 & E). apply silent_lift in E3 as ->.
  apply bind_done_inv in E as (n & h4 & w4 & E4 & E).
  eapply (keeps_decode_data _ _ (HQ := quiet_of (inner_client settled (uh_dm x)))) in E4 as [Hr4 _]; [|done|done].
  apply bind_done_inv in E as (t & h5 & w5 & E5 & [= _ _ <-]). injection E5 as _ _ <-.
  by apply (refs_ext settled w4).
Qed.

(** ** Callbacks, timers and rounds *)

(** [E] runs something that keeps the references. *)
#[local] Ltac kept E :=
  match type of E with ?m _ _ = _ =>
    let Hk := fresh "Hk" in assert (keeps (refs settled) m) as Hk by keep; by eapply Hk in E end.

Section rounds.
Context (dec : bytes -> Z -> Z * Z -> Z + qrtr_packet) (ffs_size : Z) (ffs_type : bytes -> ffs_event) (fuel : nat).

Lemma keeps_from (F : world -> Prop) {A} (m : M world A) h w a h' w' :
  keeps (refs_and settled F) m -> refs settled w -> F w -> m h w = Done (a, h', w') -> refs settled w'.
Proof. intros Hm Hr HF E. by apply Hm in E as [? _]. Qed.

(** A callback of a valid watch. *)
Lemma refs_run_cb cb fd h w a h' w' :
  refs settled w -> cb_ok settled w fd cb -> run_cb dec ffs_size ffs_type fuel cb fd h w = Done (a, h', w') ->
  refs settled w'.
Proof.
  assert (forall p field, (forall x, unopened x -> field x = -1) -> refs settled w -> perif_at p (linked field fd) w ->
    refs_and settled (perif_at p opened) w) as Hp.
  { intros p field Hf Hr Hl. split; [done|]. by eapply linked_opened. }
  assert (forall p, qrtr_at settled p w -> perif_at p is_qrtr w) as Hq by (by intros p [?|?]).
  intros Hr Hcb E. destruct cb as [c| |p|p|p| |p|p|p|u|u|]; cbn [run_cb cb_ok] in *.
  - by eapply (keeps_from (client_at c) _ h w), E; [apply (keeps_dm_recv _ _ (HI := inner_client settled c))|..].
  - by eapply refs_unix_listen.
  - eapply refs_cntl_recv; [|exact E]. by eapply (Hp p pf_cntl_fd); [intros x (?&?&?)|..].
  - eapply refs_data_recv; [|exact E]. by eapply (Hp p pf_data_fd); [intros x (?&?&?)|..].
  - eapply refs_cmd_recv; [|exact E]. by eapply (Hp p pf_cmd_fd); [intros x (?&?&?)|..].
  - by eapply refs_udev_update.
  - eapply (keeps_from (perif_at p is_qrtr)), E; auto. apply (keeps_qrtr _ _ (HI := inner_qrtr settled p) dec p fd eq_refl eq_refl).
  - eapply (keeps_from (perif_at p is_qrtr)), E; auto. apply (keeps_qrtr _ _ (HI := inner_qrtr settled p) dec p fd eq_refl eq_refl).
  - eapply (keeps_from (perif_at p is_qrtr)), E; auto. apply (keeps_qrtr _ _ (HI := inner_qrtr settled p) dec p fd eq_refl eq_refl).
  - eapply (keeps_from (handle_at settled u)), E; auto. by apply (keeps_ep0 _ _ (HI := inner_handle settled u)).
  - done.
  - done.
Qed.
(** A timer that has expired is freed, or set again. *)
Lemma refs_timers o o' l w :
  refs (Slack o None 0) w -> (forall t, t ∈ l -> tm_ok (Slack o' None 0) w t) -> NoDup (omap opens l) ->
  refs (Slack o' None 0) (over (with_timers (fun _ => l)) w).
Proof.
  intros Hr Hl Hn. split; [apply (rf_read _ _ Hr)|apply (rf_aio _ _ Hr)|apply Hr|exact Hl|exact Hn|apply (rf_cmd _ _ Hr)|apply Hr|
    apply (rf_handle _ _ Hr)|]. destruct (rf_pf _ _ Hr) as [H1 H2 H3 H4]. by split.
Qed.

Lemma omap_delete {A B} (f : A -> option B) k (l : list A) : sublist (omap f (delete k l)) (omap f l).
Proof.
  revert k. induction l as [|x l IH]; intros [|k]; cbn; try done; [by destruct (f x); [apply sublist_cons|]|].
  destruct (f x); [apply sublist_skip|]; apply IH.
Qed.

Lemma refs_delete_timer k w : refs settled w -> refs settled (over (with_timers (delete k)) w).
Proof.
  intros Hr. apply (refs_timers None None (delete k (ws_timers (w_watches w))) w Hr).
  - intros t Ht. apply (rf_timer _ _ Hr). eapply sublist_subseteq; [apply sublist_delete|done].
  - eapply sublist_NoDup; [apply (rf_open _ _ Hr)|]. apply omap_delete.
Qed.

(** The peripheral whose timer it was needs it no more. *)
Lemma refs_opened_timer p k t w :
  refs (opening p) w -> ws_timers (w_watches w) !! k = Some t -> opens t = Some p ->
  refs settled (over (with_timers (delete k)) w).
Proof.
  intros Hr Hk Ho. pose proof (rf_open _ _ Hr) as Hn. pose proof (rf_timer _ _ Hr) as Htm.
  apply list_elem_of_split_length in Hk as (l1 & l2 & El & Ek). rewrite El, omap_app in Hn. cbn in Hn. rewrite Ho in Hn.
  assert (delete k (ws_timers (w_watches w)) = l1 ++ l2) as Ed by (rewrite El, Ek; apply delete_middle).
  rewrite <- Permutation_middle, <- omap_app in Hn. apply NoDup_cons in Hn as [Hp Hn].
  change (refs settled (over (with_timers (fun _ => delete k (ws_timers (w_watches w)))) w)). rewrite Ed.
  apply (refs_timers (Some p) None (l1 ++ l2) w Hr); [|done].
  intros t' Ht'. assert (t' ∈ ws_timers (w_watches w)) as Hin by (rewrite El; set_solver).
  specialize (Htm t' Hin). unfold tm_ok in *. destruct (tm_cb t') as [c|q] eqn:Et; [done|].
  destruct Htm as [H0 (x & Ex & Hx1 & [[= <-]|Hx2])]; split; try done; [|exists x; auto].
  exfalso. apply Hp. apply list_elem_of_omap. exists t'. split; [done|]. unfold opens. by rewrite Et.
Qed.

Lemma refs_reset_timer k w :
  refs settled w -> refs settled (over (fun s => with_timers (alter (watch_set_timer (ws_now s)) k) s) w).
Proof.
  intros Hr. apply (refs_timers None None (alter (watch_set_timer (ws_now (w_watches w))) k (ws_timers (w_watches w))) w Hr).
  - intros t (i & Hi)%list_elem_of_lookup. rewrite list_lookup_alter in Hi. case_decide as E; 
      [|exact (rf_timer _ _ Hr t (list_elem_of_lookup_2 _ _ _ Hi))].
    destruct (ws_timers (w_watches w) !! k) as [t0|] eqn:E0; [|done]. injection Hi as <-.
    exact (rf_timer _ _ Hr t0 (list_elem_of_lookup_2 _ _ _ E0)).
  - assert (forall l, omap opens (alter (watch_set_timer (ws_now (w_watches w))) k l) = omap opens l) as ->; [|apply Hr].
    intros l. revert k. induction l as [|t l IH]; intros [|k]; try done.
    cbn. change (opens t) with (opens t). destruct (opens t); by rewrite IH.
Qed.

Lemma refs_timer_round k : keeps (refs settled) (timer_round k).
Proof.
  intros h w a h' w' Hr (s & h1 & w1 & [= <- <- <-] & E)%bind_done_inv.
  apply bind_done_inv in E as (t & h2 & w2 & E2 & E).
  destruct (ws_timers (w_watches w) !! k) as [t'|] eqn:Hk; [|done]. injection E2 as -> <- <-.
  pose proof (rf_timer _ _ Hr t (list_elem_of_lookup_2 _ _ _ Hk)) as Ht. unfold tm_ok in Ht.
  apply bind_done_inv in E as (u & h3 & w3 & E3 & E). destruct (tm_cb t) as [c|p] eqn:Et; cbn [run_timer] in E3.
  - assert (refs settled w3) as Hr3.
    { eapply (keeps_from (client_at c)), E3; [|done..]. apply (keeps_reset _ _ (HQ := quiet_of (inner_client settled c))). }
    destruct (tm_repeat t); injection E as _ _ <-; [by apply refs_reset_timer|by apply refs_delete_timer].
  - destruct Ht as [Hrep Hp]. rewrite Hrep in E. injection E as _ _ <-.
    assert (perif_at p closed_rpmsg w) as Hc.
    { destruct Hp as (x & Ex & H1 & [?|H2]); [done|]. by exists x. }
    eapply (refs_peripheral_open p (ws_timers (w_watches w))) in E3 as [Hr3 HT].
    + apply (refs_opened_timer p k t); [done| |unfold opens; by rewrite Et]. by eapply prefix_lookup_Some.
    + split; [by apply refs_opening|]. by split; [apply unopened_unwatched|].
Qed.
(** Asynchronous I/O moves buffers, and leaves the references of its watches. *)
Lemma refs_set_pending id b : keeps (refs settled) (set_pending id b).
Proof.
  apply keeps_modify. intros w Hr. apply plain_refs. apply (refs_watches settled (fun _ => True)
    (with_aio (set_aio id b) (w_watches w)) w); try done; try (intros; by left); try apply Hr.
  intros x (y & -> & Hy)%list_elem_of_fmap. left. exists y. by destruct (bool_decide _).
Qed.

Lemma refs_queue q l : keeps (refs settled) (zoom (modify (set_queue q l))).
Proof. apply keeps_modify. intros w. by apply (refs_ext settled w). Qed.

Lemma refs_accept id x d : keeps (refs settled) (aio_accept id x d).
Proof. apply keeps_modify. intros w. by apply (refs_ext settled w). Qed.

#[local] Hint Resolve silent_get_aio silent_get_read silent_blocked silent_select silent_timeout refs_set_pending refs_queue refs_accept
  refs_timer_round refs_ffs_recv refs_unix_listen refs_call : keep.

Lemma refs_submit id : keeps (refs settled) (watch_submit_aio id).
Proof. unfold watch_submit_aio. keep. Qed.

Lemma refs_free_write b : keeps (refs settled) (watch_free_write_aio b).
Proof.
  unfold watch_free_write_aio. apply keeps_bind; [|keep]. intros h w a h' w' Hr (st & E & ->)%zoom_inv.
  apply (refs_ext settled w); try done. destruct (mb_flow b) as [g|]; cbn [watch_flow_dec] in E; [|by injection E as _ _ <-].
  unfold flow_upd in E. apply bind_done_inv in E as (s1 & h1 & s2 & [= <- <- <-] & E).
  destruct (q_flows _ !! g) as [n|] eqn:En; [|done]. injection E as _ _ <-.
  intros [f|]; [|done]. cbn. intros Hf. apply lookup_lt_is_Some. rewrite length_insert. by apply lookup_lt_is_Some.
Qed.

Lemma refs_event id ev : keeps (refs settled) (aio_event id ev).
Proof.
  unfold aio_event. keep; try (destruct (wa_cb _); cbn [aio_complete]; keep); apply refs_free_write.
Qed.
#[local] Hint Resolve refs_submit refs_event : keep.

Lemma refs_submit_round : keeps (refs settled) submit_round.
Proof. unfold submit_round. keep. apply keeps_for_each. keep. Qed.

Lemma refs_aio_loop n item next evs : keeps (refs settled) (aio_loop n item next evs).
Proof. revert item next. induction n as [|n IH]; intros [id|] next; cbn [aio_loop]; keep. Qed.
#[local] Hint Resolve refs_submit_round refs_aio_loop : keep.

Lemma refs_eventfd evs : keeps (refs settled) (watch_handle_eventfd evs).
Proof. unfold watch_handle_eventfd. keep. Qed.

Lemma refs_list_del id : keeps (refs settled) (list_del_read id).
Proof.
  unfold list_del_read. apply keeps_bind; [keep|intros _]. apply keeps_modify. intros w Hr. apply plain_refs.
  by apply (refs_filter settled (fun _ => True) (fun x => wa_id x <> id) w).
Qed.
#[local] Hint Resolve refs_eventfd refs_list_del : keep.

(** The callback of a watch that is on the list. *)
Lemma refs_read_loop n item next ready : keeps (refs settled) (read_loop dec ffs_size ffs_type fuel n item next ready).
Proof.
  revert item next. induction n as [|n IH]; intros [id|] next; cbn [read_loop]; [keep..| |keep].
  intros h w a h' w' Hr (x & h1 & w1 & E1 & E)%bind_done_inv.
  unfold get_read in E1. apply bind_done_inv in E1 as (v & h2 & w2 & [= <- <- <-] & E1).
  destruct (find_watch id (ws_read (w_watches w))) as [y|] eqn:Ef; [|done]. injection E1 as -> <- <-.
  apply find_watch_some in Ef as [Hx _]. destruct (rf_read _ _ Hr x Hx) as [Hcb _].
  apply bind_done_inv in E as (u & h3 & w3 & E3 & E).
  assert (refs settled w3) as Hr3.
  { case_bool_decide; [|by injection E3 as _ _ <-]. apply bind_done_inv in E3 as (r & h4 & w4 & E4 & E3).
    apply refs_run_cb in E4; [|done..]. kept E3. }
  kept E.
Qed.

Lemma refs_set_now now : keeps (refs settled) (set_now now).
Proof.
  intros h w a h' w' Hr [= _ _ <-]. split; try apply Hr. destruct (rf_pf _ _ Hr) as [H1 H2 H3 H4]. by split.
Qed.
#[local] Hint Resolve refs_read_loop refs_set_now : keep.

Lemma refs_round n r : keeps (refs settled) (watch_round dec ffs_size ffs_type fuel n r).
Proof. unfold watch_round, read_round. keep. Qed.
#[local] Hint Resolve refs_round : keep.

Lemma refs_loop n rs : keeps (refs settled) (watch_loop dec ffs_size ffs_type fuel n rs).
Proof. induction rs as [|r rs IH]; cbn [watch_loop]; keep. Qed.

(** ** The start of the program *)

Lemma refs_start e : refs settled (start e).
Proof.
  assert (forall p, ~ live p (start e)) as Hl.
  { intros p [x Hx]. change ((∅ : gmap nat peripheral) !! p = Some x) in Hx. by rewrite lookup_empty in Hx. }
  split; try done; try (by intros ? []%not_elem_of_nil); [constructor|]. split.
  - intros p. split; [by intros []%not_elem_of_nil|by intros []%Hl].
  - constructor.
  - by intros p []%Hl.
  - intros p x Hx. by destruct (Hl p); exists x.
Qed.

(** A command of the router's own. *)
Lemma refs_local (f : cmdstate -> cmdstate) :
  (forall s, diag_cmds (f s) = diag_cmds s) ->
  (forall s dc, dc ∈ common_cmds (f s) ++ fallback_cmds (f s) ->
    dc ∈ common_cmds s ++ fallback_cmds s \/ is_Some (dc_cb dc)) ->
  keeps (refs settled) (modify (over f)).
Proof.
  intros Hd Hl. apply keeps_modify. intros w Hr. split; try apply Hr.
  - intros dc. cbn. rewrite Hd. apply (rf_cmd _ _ Hr).
  - intros dc [Hin|Hin]%Hl; [by apply (rf_local _ _ Hr)|done].
  - destruct (rf_pf _ _ Hr) as [H1 H2 H3 H4]. by split.
Qed.

Lemma refs_fallback key cb : keeps (refs settled) (add_fallback key cb).
Proof.
  unfold add_fallback, calloc_or_die. keep. apply refs_local; [done|]. intros s dc. cbn. set_solver.
Qed.
Lemma refs_common cmd cb : keeps (refs settled) (register_common_cmd cmd cb).
Proof.
  unfold register_common_cmd, calloc_or_die. keep. apply refs_local; [done|]. intros s dc. cbn. set_solver.
Qed.
#[local] Hint Resolve refs_fallback refs_common refs_sock_connect refs_uart_open refs_unix_open refs_usb_open
  refs_rpmsg_init refs_qrtr_init refs_loop : keep.

Lemma refs_diag_start m udev devs fd : keeps (refs settled) (diag_start m udev devs fd).
Proof.
  assert (keeps (refs settled) (zoom diag_masks_init)) as Hm by exact (refs_inner _ (keeps_masks for_none plain _)).
  unfold diag_start, peripheral_init, register_app_cmds, register_common_cmds, register_fallback_cmd,
    register_fallback_subsys_cmd. keep.
Qed.
#[local] Hint Resolve refs_diag_start : keep.

Lemma refs_main m udev devs fd n rs : keeps (refs settled) (main dec ffs_size ffs_type fuel m udev devs fd n rs).
Proof.
  unfold main. apply keeps_bind; [keep|intros _]. unfold watch_run.
  do 2 (apply keeps_bind; [keep|intros ?]; case_match; [keep|]). apply keeps_bind; [keep|intros _].
  intros h w b h' w' Hr (s & h1 & w1 & [= <- <- <-] & E)%bind_done_inv. rewrite (rf_quit _ _ Hr) in E.
  by injection E as _ _ <-.
Qed.
End rounds.

(** ** Properties *)

(** C7 Every reference is valid: however the program is started and whatever
    its rounds bring, in the state it reaches the object behind each watch,
    write queue, timer and command is there; an rpmsg watch sits on a
    descriptor of its open peripheral, a pending open concerns a peripheral
    without descriptors, and the list of peripherals names exactly the live
    ones.  So what the router assumes of its tables holds in every state. *)
Theorem references_valid dec ffs_size ffs_type fuel m udev devs fd n rs e h h' w' :
  main dec ffs_size ffs_type fuel m udev devs fd n rs h (start e) = Done (tt, h', w') ->
  refs settled w' /\ Forall (registered_ok w') (diag_cmds (w_cmds w')) /\ pf_wf w'.
Proof.
  intros E. assert (refs settled w') as Hr by (eapply refs_main; [apply refs_start|exact E]).
  split; [done|]. split.
  - apply Forall_forall. intros dc Hdc. destruct (rf_cmd _ _ Hr dc Hdc) as (H1 & p & H2 & x & H3).
    split; [done|]. by exists p, x.
  - intros p. apply (pg_list _ (rf_pf _ _ Hr)).
Qed.
