(* ===== verification/Packets.v ===== *)
(** * Packets: what is queued can be written

    A buffer is handed to the kernel, and released, long after it was queued,
    and by another file.  The invariant here is that every buffer that waits or
    is being written holds the bytes its size promises, and that the flow it is
    charged to exists; with the valid references of [Validity], submitting and
    releasing packets never goes wrong. *)

From S2P Require Import Prelude CircBuf Hdlc Masks Queue Watch World Dm Cntl Peripheral AppCmds CommonCmds Router DmRecv Devnode Qrtr Clients EventLoop Keeps Preserve Flow Refs Validity.

(** ** The invariant *)

Definition mbuf_ok (s : qstate) (b : mbuf) : Prop := 0 <= mb_size b <= zlen (mb_data b) /\ flow_ok (mb_flow b) s.

Record sized (w : world) : Prop := {
  sz_queue q b : b ∈ queue_of (w_queues w) q -> mbuf_ok (w_queues w) b;
  sz_pending x b : x ∈ ws_aio (w_watches w) -> wa_pending_aio x = Some b -> mbuf_ok (w_queues w) b }.

(** A state whose buffers are old or all right. *)
Lemma sized_step w w' :
  sized w ->
  (forall flow, flow_ok flow (w_queues w) -> flow_ok flow (w_queues w')) ->
  (forall q b, b ∈ queue_of (w_queues w') q -> b ∈ queue_of (w_queues w) q \/ mbuf_ok (w_queues w') b) ->
  (forall x b, x ∈ ws_aio (w_watches w') -> wa_pending_aio x = Some b ->
    (exists y, y ∈ ws_aio (w_watches w) /\ wa_pending_aio y = Some b) \/ mbuf_ok (w_queues w') b) ->
  sized w'.
Proof.
  intros [H1 H2] Hf Hq Hp. split.
  - intros q b [Hb|Hb]%Hq; [|done]. destruct (H1 q b Hb) as [? ?]. split; [done|by apply Hf].
  - intros x b Hx E. destruct (Hp x b Hx E) as [(y & Hy & E')|Hb]; [|done]. destruct (H2 y b Hy E') as [? ?].
    split; [done|by apply Hf].
Qed.

(** The buffers and flows alone matter. *)
Lemma sized_watches w w' :
  w_queues w' = w_queues w ->
  (forall x, x ∈ ws_aio (w_watches w') -> x ∈ ws_aio (w_watches w) \/ wa_pending_aio x = None) ->
  sized w -> sized w'.
Proof.
  intros Eq Hx Hw. apply (sized_step w); rewrite ?Eq; [done..|by left|]. intros x b [Hin|E']%Hx E; [|congruence].
  left. by exists x.
Qed.

Lemma sized_ext w w' : w_queues w' = w_queues w -> w_watches w' = w_watches w -> sized w -> sized w'.
Proof. intros Eq Ew. apply sized_watches; [done|]. rewrite Ew. by left. Qed.

Lemma sized_queue w q l :
  (forall b, b ∈ l -> b ∈ queue_of (w_queues w) q \/ mbuf_ok (w_queues w) b) ->
  sized w -> sized (over (set_queue q l) w).
Proof.
  intros Hl Hw. apply (sized_step w); [done|done| |].
  - intros q' b. cbn. rewrite queue_of_set. case_decide as E; [subst|by left]. apply Hl.
  - intros x b Hx E. left. by exists x.
Qed.

(** ** Pushing *)

Lemma flow_ok_bump flow flow' s : flow_ok flow s -> flow_ok flow (bump flow' s).
Proof. apply (flow_ok_enqueue (QUsb 0) flow flow' []). Qed.

Lemma sized_pushed q flow w s' : sized w -> pushed q flow (w_queues w) s' -> sized (over (fun _ => s') w).
Proof.
  intros Hw [->|(b & <- & Hb & Hf & ->)]; [by apply (sized_ext w)|].
  assert (forall flow', flow_ok flow' (w_queues w) -> flow_ok flow' (bump (mb_flow b) (w_queues w))) as Hbump
    by (intros; by apply flow_ok_bump).
  apply (sized_step w); [done|exact Hbump| |].
  - intros q' b'. cbn. rewrite queue_of_set. case_decide as E; [subst q'|rewrite queue_of_bump; by left].
    intros [Hin| ->%list_elem_of_singleton]%elem_of_app; [by left|]. right. split; [done|by apply Hbump].
  - intros x b' Hx E. left. by exists x.
Qed.

Lemma keeps_sized_pushed {A} q flow (m : M qstate A) :
  (forall h s a h' s', m h s = Done (a, h', s') -> pushed q flow s s') -> keeps sized (zoom m).
Proof. intros Hm h w a h' w' Hw (s & E & ->)%zoom_inv. by eapply sized_pushed, Hm. Qed.

(** ** The other operations *)

Lemma keeps_sized_watches {A} (m : M wstate A) :
  (forall h s a h' s', m h s = Done (a, h', s') ->
    forall x, x ∈ ws_aio s' -> x ∈ ws_aio s \/ wa_pending_aio x = None) -> keeps sized (zoom m).
Proof. intros Hm h w a h' w' Hw (s & E & ->)%zoom_inv. apply (sized_watches w); [done| |done]. by eapply Hm. Qed.

Lemma keeps_sized_readfd fd cb flow : keeps sized (zoom (watch_add_readfd fd cb flow)).
Proof.
  apply keeps_sized_watches. intros h s a h' s' (id & h1 & s1 & E1 & E2)%bind_done_inv.
  apply new_watch_shape in E1 as [-> ->]. injection E2 as _ _ <-. by left.
Qed.

Lemma keeps_sized_aio fd cb q b : keeps sized (zoom (
  id ← new_watch; _ ← modify (with_aio (fun l => l ++ [Watch id fd cb (Some q) None b None])); mret 0)).
Proof.
  apply keeps_sized_watches. intros h s a h' s' (id & h1 & s1 & E1 & E2)%bind_done_inv.
  apply new_watch_shape in E1 as [-> ->]. injection E2 as _ _ <-. cbn.
  intros x [Hx| ->%list_elem_of_singleton]%elem_of_app; [by left|by right].
Qed.

Lemma sized_aio_kept w f : (forall l x, x ∈ f l -> x ∈ l) -> sized w -> sized (over (with_aio f) w).
Proof. intros Hf. apply sized_watches; [done|]. intros x Hx. left. by eapply Hf. Qed.

Lemma keeps_sized_queue q l :
  (forall b, b ∈ l -> usb_buffer b) -> keeps sized (zoom (modify (set_queue q l))).
Proof.
  intros Hl. apply keeps_zoom_modify. intros w. apply (sized_queue w q l). intros b Hb. right.
  destruct (Hl b Hb) as [Hf Hs]. unfold mbuf_ok. by rewrite Hf.
Qed.

Lemma keeps_sized_flow_new : keeps sized (zoom watch_flow_new).
Proof.
  intros h w a h' w' Hw (s & E & ->)%zoom_inv. apply flow_new_shape in E as [->| ->]; [by apply (sized_ext w)|].
  apply (sized_step w); [done| |by left|intros x b Hx E; left; by exists x].
  intros [f|]; [|done]. cbn. intros H. rewrite lookup_app_l; [done|by apply lookup_lt_is_Some].
Qed.

Lemma keeps_sized_dm_add name in_fd out_fd enc : keeps sized (dm_add name in_fd out_fd enc).
Proof.
  apply (keeps_new_client _ (fun _ => True)); [done|intros..].
  - by apply keeps_sized_queue; intros ? []%not_elem_of_nil.
  - apply keeps_sized_readfd.
  - apply keeps_sized_aio.
  - by apply (sized_ext w).
Qed.

#[export] Instance sized_Inv : Inv sized.
Proof.
  split; try (intros; match goal with H : sized ?w |- _ => by apply (sized_ext w) end).
  - intros q msg len flow _. apply (keeps_sized_pushed q flow), push_shape.
  - intros q msg len flow _. apply (keeps_sized_pushed q flow), push_nhdlc_shape.
  - apply keeps_sized_flow_new.
  - intros q _. apply keeps_sized_queue. by intros ? []%not_elem_of_nil.
  - intros u b Hb. apply keeps_sized_queue. by intros ? ->%list_elem_of_singleton.
  - intros u b [Hf Hs]. apply keeps_zoom_modify. intros w. apply (sized_queue w (QUsb u)).
    intros b' [Hb'| ->%list_elem_of_singleton]%elem_of_app; [by left|right]. unfold mbuf_ok. by rewrite Hf.
  - apply keeps_sized_readfd.
  - intros fd u. apply keeps_sized_aio.
  - intros fd q _. apply keeps_sized_aio.
  - apply keeps_sized_dm_add.
  - intros fd. apply keeps_sized_watches. intros h s a h' s' [= _ _ <-] x [_ Hx]%list_elem_of_filter. by left.
  - intros fd. apply keeps_sized_watches. intros h s a h' s' [= _ _ <-] x [_ Hx]%list_elem_of_filter. by left.
  - intros cb n b. apply keeps_sized_watches. unfold watch_add_timer.
    intros h s a h' s' (u & h1 & s1 & E1 & E)%bind_done_inv. apply silent_calloc_or_die in E1 as ->.
    injection E as _ _ <-. by left.
  - intros f w _. apply sized_watches; [done|by left].
Qed.

#[export] Instance sized_ClockInv : ClockInv sized.
Proof.
  split.
  - intros f w. apply sized_watches; [done|by left].
  - intros now h w a h' w' Hw [= _ _ <-]. apply (sized_watches w); [done|by left|done].
Qed.

(** ** Submissions and completions *)

Lemma sized_set_aio id b w :
  (forall b', b = Some b' -> mbuf_ok (w_queues w) b') -> sized w -> sized (over (with_aio (set_aio id b)) w).
Proof.
  intros Hb Hw. apply (sized_step w); [done|done|by left|]. intros x b' (y & -> & Hy)%list_elem_of_fmap E.
  destruct (bool_decide _); [right; by apply Hb|left; by exists y].
Qed.

Lemma keeps_sized_submit id : keeps sized (watch_submit_aio id).
Proof.
  intros h w a h' w' Hw (x & q & e & _ & _ & _ & [[_ ->]|(b & rest & El & _ & _ & ->)])%submit_shape;
    [by apply (sized_ext w)|].
  assert (mbuf_ok (w_queues w) b) as Hb by (eapply (sz_queue w Hw q); rewrite El; apply list_elem_of_here).
  apply sized_set_aio; [by intros b' [= <-]|]. apply sized_queue; [|by apply (sized_ext w)].
  intros b' Hb'. left. cbn. rewrite El. by apply list_elem_of_further.
Qed.

Lemma flow_dec_ok flow h s :
  flow_ok flow s -> exists s', watch_flow_dec flow h s = Done (tt, h, s') /\ q_lists s' = q_lists s /\
    (forall flow', flow_ok flow' s -> flow_ok flow' s').
Proof.
  destruct flow as [f|]; [|by exists s]. intros [n E]. unfold watch_flow_dec, flow_upd. mrun. rewrite E. mrun.
  eexists. split; [done|]. split; [done|]. intros [g|]; [|done]. cbn. intros H.
  apply lookup_lt_is_Some. rewrite length_insert. by apply lookup_lt_is_Some.
Qed.

Lemma keeps_sized_dec flow : keeps sized (zoom (watch_flow_dec flow)).
Proof.
  intros h w a h' w' Hw (s & E & ->)%zoom_inv.
  assert (flow_ok flow (view w)) as Hf.
  { destruct flow as [f|]; [|done]. unfold watch_flow_dec, flow_upd in E.
    apply bind_done_inv in E as (s1 & h1 & s2 & [= <- <- <-] & E). cbn. by destruct (q_flows (w_queues w) !! f). }
  destruct (flow_dec_ok flow h _ Hf) as (s' & E' & El & Hk). rewrite E in E'. injection E' as _ _ <-.
  apply (sized_step w); [done|exact Hk| |intros x b Hx Ex; left; by exists x].
  intros q b. unfold queue_of. cbn. rewrite El. by left.
Qed.

#[export] Instance sized_LoopInv : LoopInv (fun w => flow_inv w /\ sized w).
Proof.
  split.
  - intros id. apply keeps_and; [apply flow_inv_submit|apply keeps_sized_submit].
  - intros. apply keeps_event; [apply _|apply keeps_sized_dec|]. apply keeps_modify. intros w. by apply sized_set_aio.
Qed.

Lemma sized_start e : sized (start e).
Proof. split; [intros q b []%not_elem_of_nil|intros x b []%not_elem_of_nil]. Qed.

(** ** The operations never go wrong *)

(** Every asynchronous watch has its queue. *)
Definition queued_watches (w : world) : Prop := forall x, x ∈ ws_aio (w_watches w) -> is_Some (wa_queue x).

Lemma find_watch_listed id l : id ∈ wa_id <$> l -> exists x, find_watch id l = Some x.
Proof.
  intros (x & -> & Hx)%list_elem_of_fmap. destruct (find_watch (wa_id x) l) as [y|] eqn:E; [by exists y|].
  unfold find_watch in E. apply list_elem_of_In in Hx. apply (List.find_none _ _ E) in Hx.
  by apply bool_decide_eq_false in Hx.
Qed.

Lemma submit_safe id x q h w :
  find_watch id (ws_aio (w_watches w)) = Some x -> wa_pending_aio x = None -> wa_queue x = Some q -> sized w ->
  exists w', watch_submit_aio id h w = Done (tt, h, w').
Proof.
  intros Hx Hp Hq Hw. unfold watch_submit_aio, get_aio. mrun. rewrite Hx. cbn [deref]. mrun. rewrite Hp, Hq. cbn [deref]. mrun.
  pose proof (sz_queue w Hw q) as Hs. destruct (queue_of (w_queues w) q) as [|b rest]; [by eexists|].
  destruct (Hs b) as [Hb _]; [apply list_elem_of_here|]. rewrite mem_read_ok by lia. mrun.
  unfold sys_call, zoom, env_call. cbn. destruct (e_results (w_env w)) as [|r rs]; cbn.
  all: repeat case_match; by eexists.
Qed.

Lemma queued_set_aio id b w : queued_watches w -> queued_watches (over (with_aio (set_aio id b)) w).
Proof. intros Hw x (y & -> & Hy)%list_elem_of_fmap. specialize (Hw y Hy). by destruct (bool_decide _). Qed.

Lemma submit_keeps_watches id h w a h' w' :
  watch_submit_aio id h w = Done (a, h', w') -> queued_watches w ->
  queued_watches w' /\ wa_id <$> ws_aio (w_watches w') = wa_id <$> ws_aio (w_watches w).
Proof.
  intros (x & q & e & _ & _ & _ & [[_ ->]|(b & rest & _ & _ & _ & ->)])%submit_shape Hq; [done|]. split.
  - by apply queued_set_aio.
  - cbn. apply set_aio_ids.
Qed.

Lemma submit_round_safe h w : sized w -> queued_watches w -> exists w', submit_round h w = Done (tt, h, w').
Proof.
  intros Hs Hq. unfold submit_round. mrun.
  assert (wa_id <$> ws_aio (w_watches w) ⊆ wa_id <$> ws_aio (w_watches w)) as Hl by done. revert Hl.
  generalize (wa_id <$> ws_aio (w_watches w)) at 1 3. intros ids. revert w Hs Hq.
  induction ids as [|id ids IH]; intros w Hs Hq Hl; [by exists w|]. cbn [for_each].
  destruct (find_watch_listed id (ws_aio (w_watches w))) as [x Hx]; [apply Hl, list_elem_of_here|].
  destruct (Hq x (proj1 (find_watch_some _ _ _ Hx))) as [q Eq].
  match goal with |- exists _, (?m ≫= _) h w = _ => set (step := m) end.
  assert (exists w1, step h w = Done (tt, h, w1) /\ sized w1 /\ queued_watches w1 /\
    wa_id <$> ws_aio (w_watches w1) = wa_id <$> ws_aio (w_watches w)) as (w1 & E1 & Hs1 & Hq1 & Ei).
  { subst step. unfold get_aio. mrun. rewrite Hx. cbn [deref]. mrun. rewrite Eq. cbn [deref]. mrun.
    destruct (queue_of (w_queues w) q); [by exists w|]. destruct (wa_pending_aio x) eqn:Ep; [by exists w|].
    destruct (submit_safe id x q h w Hx Ep Eq Hs) as [w1 E1]. exists w1. split; [exact E1|].
    split; [by eapply keeps_sized_submit|by eapply submit_keeps_watches]. }
  erewrite bind_done by exact E1. apply IH; [done..|]. rewrite Ei. intros y Hy. apply Hl. by apply list_elem_of_further.
Qed.

Definition listener (w : world) (x : watch) : Prop :=
  flow_ok (wa_flow x) (w_queues w) /\ 0 <= wa_fd x < FD_SETSIZE.

Lemma select_ok w l h : Forall (listener w) l -> exists fds, select_fds l h w = Done (fds, h, w).
Proof.
  induction l as [|x l IH]; [by exists []|]. intros [[Hf Hfd] Hl]%Forall_cons. destruct (IH Hl) as [fds E].
  assert (exists b, watch_flow_blocked (wa_flow x) h (w_queues w) = Done (b, h, w_queues w)) as [b Eb].
  { unfold watch_flow_blocked. destruct (wa_flow x) as [f|]; [|by exists false]. destruct Hf as [n Hn]. mrun. rewrite Hn.
    by eexists. }
  cbn [select_fds]. erewrite bind_done by (erewrite zoom_done by exact Eb; rewrite over_view by done; reflexivity).
  destruct b; [by exists fds|]. rewrite (proj2 (Z.leb_le _ _)), (proj2 (Z.ltb_lt _ _)) by lia. cbn [andb].
  exists (wa_fd x :: fds). by erewrite bind_done by exact E.
Qed.

(** A released packet lowers its flow's counter by one. *)
Lemma release_counts flow f h s s' :
  watch_flow_dec flow h s = Done (tt, h, s') ->
  (forall g, flow = Some g -> 0 < default 0 (q_flows s !! g)) ->
  default 0 (q_flows s' !! f) = default 0 (q_flows s !! f) - (if decide (flow = Some f) then 1 else 0).
Proof.
  destruct flow as [g|]; cbn [watch_flow_dec]; [|intros [= <-]; rewrite decide_False by done; lia]. unfold flow_upd.
  intros (s1 & h1 & s2 & [= <- <- <-] & E)%bind_done_inv Hpos. specialize (Hpos g eq_refl).
  destruct (q_flows s !! g) as [n|] eqn:En; [|discriminate E]. injection E as <-. cbn in *.
  rewrite (proj2 (Z.eqb_neq n 0)) by lia. destruct (decide (g = f)) as [<-|Hne].
  - rewrite decide_True, list_lookup_insert_eq, En by (done || by apply lookup_lt_Some in En). done.
  - rewrite decide_False, list_lookup_insert_ne by congruence. lia.
Qed.

(** ** Properties *)

(** C9 Watching never goes wrong: in every state the program reaches whose
    descriptors fit a descriptor set, choosing what to wait for and submitting
    the queued packets stay within the packets and follow no dangling pointer,
    and releasing a packet the kernel has written succeeds and lowers the
    counter of its flow by one. *)
Theorem watching_safe dec ffs_size ffs_type fuel m udev devs fd n rs e h h' w' :
  main dec ffs_size ffs_type fuel m udev devs fd n rs h (start e) = Done (tt, h', w') ->
  Forall (fun x => 0 <= wa_fd x < FD_SETSIZE) (ws_read (w_watches w')) ->
  (exists fds, select_fds (ws_read (w_watches w')) h' w' = Done (fds, h', w')) /\
  (exists w1, submit_round h' w' = Done (tt, h', w1)) /\
  (forall x b, x ∈ ws_aio (w_watches w') -> wa_is_write x = true -> wa_pending_aio x = Some b ->
    exists w1, aio_complete (wa_cb x) b h' w' = Done (0, h', w1) /\
      forall f, counter f w1 = counter f w' - (if decide (mb_flow b = Some f) then 1 else 0)).
Proof.
  intros E Hfds. assert (refs settled w') as Hr by (eapply refs_main; [apply refs_start|exact E]).
  assert (flow_inv w' /\ sized w') as [Hf Hs].
  { eapply (main_keeps (fun w => flow_inv w /\ sized w)); [|exact E]. split; [apply flow_inv_start|apply sized_start]. }
  split_and!.
  - apply select_ok. rewrite Forall_forall in *. intros x Hx. split; [by apply (rf_read _ _ Hr)|by apply Hfds].
  - apply submit_round_safe; [done|]. intros x Hx. destruct (rf_aio _ _ Hr x Hx) as (_ & q & -> & _). by exists q.
  - intros x b Hx Hwr Hp. pose proof (fi_aio w' Hf) as Hok. rewrite Forall_forall in Hok. specialize (Hok x Hx).
    unfold aio_ok in Hok. rewrite Hwr in Hok. rewrite Hok. cbn [aio_complete]. unfold watch_free_write_aio.
    destruct (sz_pending w' Hs x b Hx Hp) as [_ Hb]. destruct (flow_dec_ok (mb_flow b) h' _ Hb) as (s & Es & _).
    eexists. split; [by erewrite bind_done by (apply zoom_done; exact Es)|]. intros f.
    apply (release_counts _ f _ _ _ Es). intros g Eg. by eapply pending_counted.
Qed.
