(* ===== verification/Drain.v ===== *)
(** * Drain: what is queued is written

    While nothing else happens, the event loop writes one packet of each queue
    in a round: [submit_round] hands it to the kernel, and its completion makes
    room for the next.  So when the kernel accepts and completes the writes,
    every packet that waits is handed over, in order, and the loop goes on. *)

From S2P Require Import Prelude CircBuf Hdlc Masks Queue Watch World Dm Cntl Peripheral AppCmds CommonCmds Router DmRecv Devnode Qrtr Clients EventLoop Keeps Preserve Flow Surplus Stream Packets.

(** ** Quiet rounds *)

(** The packets that wait for a watch. *)
Definition waiting (w : world) (x : watch) : list mbuf :=
  match wa_queue x with Some q => queue_of (w_queues w) q | None => [] end.

Definition writer (w : world) (x : watch) : Prop :=
  wa_is_write x = true /\ wa_cb x = CbFreeWriteAio /\ wa_pending_aio x = None /\ is_Some (wa_queue x) /\
  Forall (mbuf_ok (w_queues w)) (waiting w x).

(** Nothing is being written, and every watch has a descriptor and a queue of
    its own. *)
Record writers (w : world) : Prop := {
  wr_aio : Forall (writer w) (ws_aio (w_watches w));
  wr_ids : NoDup (wa_id <$> ws_aio (w_watches w));
  wr_fds : NoDup (wa_fd <$> ws_aio (w_watches w));
  wr_queues : NoDup (wa_queue <$> ws_aio (w_watches w));
  wr_read : Forall (listener w) (ws_read (w_watches w));
  wr_read_ids : NoDup (wa_id <$> ws_read (w_watches w));
  wr_go : ws_do_quit (w_watches w) = false }.

(** A round, [i] rounds from [w] on, in which no descriptor is ready and
    exactly the writes under way are completed. *)
Definition completes (w : world) (i : nat) (r : round) : Prop :=
  (forall fds t, rd_select r fds t = inr []) /\ rd_evfd r = true /\
  exists evs, rd_events r = Some evs /\ NoDup (ev_obj <$> evs) /\ Forall (fun ev => ev_res ev <> - EAGAIN) evs /\
    (forall id, id ∈ ev_obj <$> evs <->
      exists x, x ∈ ws_aio (w_watches w) /\ wa_id x = id /\ (i < length (waiting w x))%nat).

(** ** Walking a list of watches *)

Lemma find_watch_in l x : NoDup (wa_id <$> l) -> x ∈ l -> find_watch (wa_id x) l = Some x.
Proof.
  induction l as [|y l IH]; intros Hn Hx; [by apply not_elem_of_nil in Hx|]. cbn in Hn. apply NoDup_cons in Hn as [Hy Hn].
  unfold find_watch. cbn. case_bool_decide as E.
  - apply elem_of_cons in Hx as [->|Hx]; [done|]. exfalso. apply Hy. rewrite E. by apply list_elem_of_fmap_2.
  - apply elem_of_cons in Hx as [->|Hx]; [done|]. by apply IH.
Qed.

Lemma next_watch_split l id pre suf :
  NoDup (wa_id <$> l) -> wa_id <$> l = pre ++ id :: suf -> next_watch id l = Done (head suf).
Proof.
  revert pre. induction l as [|y l IH]; intros pre Hn E; [by destruct pre|]. cbn in Hn, E. apply NoDup_cons in Hn as [Hy Hn].
  cbn. destruct pre as [|z pre]; cbn in E; injection E as E1 E2.
  - rewrite bool_decide_eq_true_2 by done. by rewrite <- E2; destruct l.
  - rewrite bool_decide_eq_false_2; [by apply (IH pre)|]. intros E. apply Hy. rewrite E2, E. set_solver.
Qed.

(** What a quiet round leaves alone: peripherals, clients, what descriptors
    have to say, the queues that are empty, and the flows' surplus. *)
Record aside (w w' : world) : Prop := {
  as_pf : w_pf w' = w_pf w;
  as_dm : w_dm w' = w_dm w;
  as_fds : e_fds (w_env w') = e_fds (w_env w);
  as_empty q : queue_of (w_queues w) q = [] -> queue_of (w_queues w') q = [];
  as_surplus f k : surplus f k w -> surplus f k w' }.

Lemma aside_refl w : aside w w.
Proof. by split. Qed.

Lemma aside_trans w1 w2 w3 : aside w1 w2 -> aside w2 w3 -> aside w1 w3.
Proof. intros [A1 A2 A3 A4 A5] [B1 B2 B3 B4 B5]. split; [congruence..|auto|auto]. Qed.

Lemma aside_now now w : aside w (at_time now w).
Proof. split; try done. intros f k. apply surplus_now. Qed.

(** ** Submitting *)

Section round.
Context (w0 : world) (Hw0 : writers w0).

#[local] Notation l0 := (ws_aio (w_watches w0)).

(** The watch with its first packet under way. *)
Definition busy (D : list nat) (x : watch) : watch :=
  if decide (wa_id x ∈ D) then wa_with_pending (head (waiting w0 x)) x else x.

Definition writers_then (l : list watch) (w : world) : Prop :=
  w_watches w = with_aio (fun _ => l) (w_watches w0) /\
  (forall f, is_Some (q_flows (w_queues w0) !! f) -> is_Some (q_flows (w_queues w) !! f)).

(** The submissions for [D] are made, with at most as many results taken, and
    those of [P] are under way. *)
Record handed (P D : list nat) (w : world) : Prop := {
  hd_state : writers_then (busy P <$> l0) w;
  hd_waiting x : x ∈ l0 -> waiting w x = if decide (wa_id x ∈ D) then tail (waiting w0 x) else waiting w0 x;
  hd_results : exists k, (k <= length D)%nat /\ e_results (w_env w) = drop k (e_results (w_env w0));
  hd_sent x : x ∈ l0 -> sent (wa_id x) w = sent (wa_id x) w0 ++
    (if decide (wa_id x ∈ D) then wire <$> take 1 (waiting w0 x) else []);
  hd_aside : aside w0 w }.

Lemma busy_fields D x :
  wa_id (busy D x) = wa_id x /\ wa_fd (busy D x) = wa_fd x /\ wa_queue (busy D x) = wa_queue x /\
  wa_cb (busy D x) = wa_cb x /\ wa_is_write (busy D x) = wa_is_write x.
Proof. unfold busy. by destruct (decide _). Qed.

Lemma busy_ids D : wa_id <$> (busy D <$> l0) = wa_id <$> l0.
Proof. rewrite <- list_fmap_compose. apply list_fmap_ext. intros i x _. apply busy_fields. Qed.

Lemma busy_none : with_aio (fun _ => busy [] <$> l0) (w_watches w0) = w_watches w0.
Proof.
  assert (busy [] <$> l0 = l0) as ->; [|by destruct (w_watches w0)].
  rewrite <- (list_fmap_id l0) at 2. apply list_fmap_ext. intros i x _. unfold busy.
  by rewrite decide_False by apply not_elem_of_nil.
Qed.

Lemma find_busy D x : x ∈ l0 -> find_watch (wa_id x) (busy D <$> l0) = Some (busy D x).
Proof.
  intros Hx. rewrite <- (proj1 (busy_fields D x)). apply find_watch_in; [rewrite busy_ids; apply Hw0|].
  by apply list_elem_of_fmap_2.
Qed.

Lemma waiting_queue w x q : wa_queue x = Some q -> waiting w x = queue_of (w_queues w) q.
Proof. unfold waiting. by intros ->. Qed.

(** The queues of the watches are distinct, and so are their descriptors. *)
Lemma same_watch {A} (f : watch -> A) x y : NoDup (f <$> l0) -> x ∈ l0 -> y ∈ l0 -> f x = f y -> x = y.
Proof.
  intros Hn [i Hi]%list_elem_of_lookup [j Hj]%list_elem_of_lookup E.
  assert (i = j) as -> by (eapply (NoDup_lookup _ _ _ (f x) Hn); rewrite list_lookup_fmap, ?Hi, ?Hj; cbn; congruence).
  congruence.
Qed.

(** A watch is the one that is added, or is in the set as before. *)
Lemma added D x y :
  x ∈ l0 -> y ∈ l0 -> wa_id x ∉ D ->
  y = x \/ wa_id y <> wa_id x /\ (wa_id y ∈ wa_id x :: D <-> wa_id y ∈ D).
Proof.
  intros Hx Hy Hn. destruct (decide (wa_id y = wa_id x)) as [E|Hne]; [left|right].
  - apply (same_watch wa_id); [apply Hw0|done|done|done].
  - split; [done|]. rewrite elem_of_cons. tauto.
Qed.

Lemma busy_added D x y :
  x ∈ l0 -> y ∈ l0 -> wa_id x ∉ D ->
  busy (wa_id x :: D) y = if bool_decide (wa_id y = wa_id x) then wa_with_pending (head (waiting w0 x)) y else busy D y.
Proof.
  intros Hx Hy Hn. unfold busy. destruct (added D x y Hx Hy Hn) as [->|[Hne Hiff]].
  - by rewrite decide_True, bool_decide_eq_true_2 by (apply list_elem_of_here || done).
  - by rewrite bool_decide_eq_false_2, (decide_ext _ _ _ _ Hiff) by done.
Qed.

Lemma set_busy D x :
  x ∈ l0 -> wa_id x ∉ D -> set_aio (wa_id x) (head (waiting w0 x)) (busy D <$> l0) = busy (wa_id x :: D) <$> l0.
Proof.
  intros Hx Hn. unfold set_aio. rewrite <- list_fmap_compose. apply list_fmap_ext. intros i y Hy.
  apply list_elem_of_lookup_2 in Hy. cbn. rewrite busy_added by done. rewrite (proj1 (busy_fields D y)).
  case_bool_decide; [|done]. unfold busy. by destruct (decide _).
Qed.

(** One watch of [submit_round]. *)
#[local] Notation submit_one id :=
  (w ← get_aio id; q ← deref (wa_queue w); s ← get;
   match queue_of (w_queues s) q, wa_pending_aio w with
   | _ :: _, None => watch_submit_aio id
   | _, _ => mret tt
   end).

Lemma get_aio_ok id h w x :
  find_watch id (ws_aio (w_watches w)) = Some x -> get_aio id h w = Done (x, h, w).
Proof. intros E. unfold get_aio. mrun. by rewrite E. Qed.

Lemma submit_ok id x q b rest rs h w :
  find_watch id (ws_aio (w_watches w)) = Some x -> wa_pending_aio x = None -> wa_queue x = Some q ->
  queue_of (w_queues w) q = b :: rest -> 0 <= mb_size b <= zlen (mb_data b) -> e_results (w_env w) = 1 :: rs ->
  watch_submit_aio id h w = Done (tt, h,
    over (with_aio (set_aio id (Some b))) (over (set_queue q rest)
      (over (fun e => Env (e_fds e) rs (e_senders e) (e_udev e)
               (e_aio e ++ [Iocb id (wa_fd x) (wa_is_write x) (wire b)])) w))).
Proof.
  intros Hx Hp Hq Hb Hs Hr. unfold watch_submit_aio. erewrite bind_done by (by apply get_aio_ok). rewrite Hp, Hq.
  erewrite bind_done by done. erewrite bind_done by done. rewrite Hb.
  erewrite bind_done by (unfold lift; rewrite mem_read_ok by lia; reflexivity).
  unfold sys_call. erewrite bind_done by (erewrite zoom_done; [reflexivity|unfold env_call; cbn [view env_lens]; rewrite Hr; reflexivity]).
  reflexivity.
Qed.

(** A watch with nothing to write stays as it is. *)
Lemma busy_idle D x : x ∈ l0 -> wa_id x ∉ D -> waiting w0 x = [] -> busy (wa_id x :: D) <$> l0 = busy D <$> l0.
Proof.
  intros Hx Hn Hw. apply list_fmap_ext. intros i y Hy. apply list_elem_of_lookup_2 in Hy. rewrite busy_added by done.
  case_bool_decide as E; [|done]. assert (y = x) as -> by (by apply (same_watch wa_id); [apply Hw0|..]).
  pose proof (wr_aio _ Hw0) as Haio. rewrite Forall_forall in Haio. destruct (Haio x Hx) as (_ & _ & Hp & _).
  unfold busy. rewrite decide_False, Hw by done. destruct x; cbn in *; by subst.
Qed.

Lemma handed_more D x w : x ∈ l0 -> wa_id x ∉ D -> waiting w0 x = [] -> handed D D w -> handed (wa_id x :: D) (wa_id x :: D) w.
Proof.
  intros Hx Hn He [[Hwa Hfl] Hq (k & Hk & Hr) Hs Has]. split; [split; [by rewrite busy_idle|done]|..|done].
  - intros y Hy. rewrite Hq by done. destruct (added D x y Hx Hy Hn) as [->|[Hne Hiff]].
    + by rewrite decide_False, decide_True, He by (apply list_elem_of_here || done).
    + by rewrite (decide_ext _ _ _ _ Hiff).
  - exists k. split; [cbn; lia|done].
  - intros y Hy. rewrite Hs by done. f_equal. destruct (added D x y Hx Hy Hn) as [->|[Hne Hiff]].
    + by rewrite decide_False, decide_True, He by (apply list_elem_of_here || done).
    + by rewrite (decide_ext _ _ _ _ Hiff).
Qed.

(** What a submission for [x] does to what is known. *)
Lemma handed_submit D x q b rest rs w :
  x ∈ l0 -> wa_id x ∉ D -> wa_queue x = Some q -> waiting w0 x = b :: rest ->
  (exists k, (k <= length D)%nat /\ 1 :: rs = drop k (e_results (w_env w0))) -> handed D D w ->
  aside w0 (over (with_aio (set_aio (wa_id x) (Some b))) (over (set_queue q rest)
    (over (fun e => Env (e_fds e) rs (e_senders e) (e_udev e)
             (e_aio e ++ [Iocb (wa_id x) (wa_fd x) (wa_is_write x) (wire b)])) w))) ->
  handed (wa_id x :: D) (wa_id x :: D) (over (with_aio (set_aio (wa_id x) (Some b))) (over (set_queue q rest)
    (over (fun e => Env (e_fds e) rs (e_senders e) (e_udev e)
             (e_aio e ++ [Iocb (wa_id x) (wa_fd x) (wa_is_write x) (wire b)])) w))).
Proof.
  intros Hx Hn Hxq Ew (k & Hk & Hr) [[Hwa Hfl] Hq _ Hs _] Has. split; [split; [|done]|..|exact Has].
  - cbn. rewrite Hwa. cbn. by rewrite <- (set_busy D x Hx Hn), Ew.
  - intros y Hy. destruct (added D x y Hx Hy Hn) as [->|[Hne Hiff]].
    + rewrite decide_True by apply list_elem_of_here. rewrite (waiting_queue _ x q Hxq). cbn.
      by rewrite queue_of_set, decide_True, Ew.
    + rewrite (decide_ext _ _ _ _ Hiff), <- Hq by done. unfold waiting. destruct (wa_queue y) as [q'|] eqn:Ey; [|done].
      cbn. rewrite queue_of_set, decide_False; [done|]. intros <-. apply Hne. f_equal.
      apply (same_watch wa_queue); [apply Hw0|done|done|congruence].
  - exists (S k). split; [cbn; lia|]. by rewrite <- Nat.add_1_r, <- drop_drop, <- Hr.
  - intros y Hy. unfold sent. cbn. rewrite filter_app, fmap_app, filter_cons, filter_nil. cbn.
    fold (sent (wa_id y) w). rewrite (Hs y Hy). destruct (added D x y Hx Hy Hn) as [->|[Hne Hiff]].
    + rewrite decide_False by done. rewrite !decide_True by (apply list_elem_of_here || done). by rewrite Ew, app_nil_r.
    + rewrite (decide_False (P := wa_id x = wa_id y)) by done. by rewrite (decide_ext _ _ _ _ Hiff), app_nil_r.
Qed.

Lemma handed_step D x h w :
  x ∈ l0 -> wa_id x ∉ D -> Forall (eq 1) (e_results (w_env w0)) -> (S (length D) <= length (e_results (w_env w0)))%nat ->
  handed D D w -> exists w', submit_one (wa_id x) h w = Done (tt, h, w') /\ handed (wa_id x :: D) (wa_id x :: D) w'.
Proof.
  intros Hx Hn Hone Hlen Hw. pose proof Hw as [[Hwa _] Hq (k & Hk & Hr) _ _].
  pose proof (wr_aio _ Hw0) as Haio. rewrite Forall_forall in Haio. specialize (Haio x Hx) as (Hwr & Hcb & Hp & [q Hxq] & Hok).
  assert (find_watch (wa_id x) (ws_aio (w_watches w)) = Some x) as Hf.
  { assert (ws_aio (w_watches w) = busy D <$> l0) as -> by (by rewrite Hwa).
    rewrite find_busy by done. unfold busy. by rewrite decide_False. }
  pose proof (Hq x Hx) as Hqx. rewrite decide_False in Hqx by done. rewrite (waiting_queue w x q Hxq) in Hqx.
  erewrite bind_done by (by apply get_aio_ok). rewrite Hxq. erewrite bind_done by done. erewrite bind_done by done.
  rewrite Hqx, Hp. destruct (waiting w0 x) as [|b rest] eqn:Ew; [exists w; split; [done|by apply handed_more]|].
  apply Forall_cons in Hok as [[Hb _] _].
  destruct (drop k (e_results (w_env w0))) as [|r rs] eqn:Ed.
  { apply (f_equal length) in Ed. rewrite length_drop in Ed. cbn in Ed. lia. }
  assert (r = 1) as ->.
  { apply (Forall_drop _ k) in Hone. rewrite Ed in Hone.
    by apply Forall_cons in Hone as [<- _]. }
  assert (e_results (w_env w) = 1 :: rs) as Er by congruence. pose proof (submit_ok (wa_id x) x q b rest rs h w Hf Hp Hxq Hqx Hb Er) as E.
  eexists. split; [exact E|]. apply handed_submit; try done; [by exists k|].
  destruct (hd_aside _ _ _ Hw) as [A1 A2 A3 A4 A5]. split; try done.
  - intros q' Hq'. cbn. rewrite queue_of_set. case_decide as Eq; [|by apply A4].
    subst q'. rewrite (A4 _ Hq') in Hqx. discriminate Hqx.
  - intros f k' Hk'. eapply surplus_submit; [by apply A5|exact E].
Qed.

Lemma handed_start : handed [] [] w0.
Proof.
  split.
  - split; [|done]. symmetry. apply busy_none.
  - intros x _. by rewrite decide_False by apply not_elem_of_nil.
  - by exists 0%nat.
  - intros x _. by rewrite decide_False, app_nil_r by apply not_elem_of_nil.
  - apply aside_refl.
Qed.

Lemma submit_all l D h w :
  l ⊆ l0 -> NoDup (wa_id <$> l) -> (forall x, x ∈ l -> wa_id x ∉ D) ->
  Forall (eq 1) (e_results (w_env w0)) -> (length D + length l <= length (e_results (w_env w0)))%nat ->
  handed D D w ->
  exists w', for_each (fun id => submit_one id) (wa_id <$> l) h w = Done (tt, h, w') /\
    handed (rev_append (wa_id <$> l) D) (rev_append (wa_id <$> l) D) w'.
Proof.
  revert D w. induction l as [|x l IH]; intros D w Hl Hn Hd Hone Hlen Hw; [by exists w|].
  cbn in Hn, Hlen. apply NoDup_cons in Hn as [Hx Hn].
  destruct (handed_step D x h w) as (w1 & E1 & H1); try done; [apply Hl, list_elem_of_here|apply Hd, list_elem_of_here|lia|].
  destruct (IH (wa_id x :: D) w1) as (w2 & E2 & H2); try done.
  - intros y Hy. by apply Hl, list_elem_of_further.
  - intros y Hy [E|Hin]%elem_of_cons; [|by apply (Hd y); [apply list_elem_of_further|]].
    apply Hx. rewrite <- E. by apply list_elem_of_fmap_2.
  - cbn. lia.
  - exists w2. split; [|done]. cbn [fmap list_fmap for_each]. by erewrite bind_done.
Qed.

Lemma submit_round_ok h :
  Forall (eq 1) (e_results (w_env w0)) -> (length l0 <= length (e_results (w_env w0)))%nat ->
  exists w' D, submit_round h w0 = Done (tt, h, w') /\ handed D D w' /\
    (forall id, id ∈ D <-> id ∈ wa_id <$> l0) /\ length D = length l0.
Proof.
  intros Hone Hlen. destruct (submit_all l0 [] h w0) as (w' & E & Hw); try done.
  - apply Hw0.
  - intros x _. apply not_elem_of_nil.
  - apply handed_start.
  - exists w', (rev_append (wa_id <$> l0) []). split; [exact E|]. split; [done|]. rewrite <- rev_alt. split.
    + intros id. rewrite !list_elem_of_In. symmetry. apply in_rev.
    + by rewrite length_rev, length_fmap.
Qed.

(** ** Completions *)

Context (D : list nat) (HD : forall id, id ∈ D <-> id ∈ wa_id <$> l0).

Lemma clear_busy P x :
  x ∈ l0 -> wa_id x ∉ P -> set_aio (wa_id x) None (busy (wa_id x :: P) <$> l0) = busy P <$> l0.
Proof.
  intros Hx Hn. unfold set_aio. rewrite <- list_fmap_compose. apply list_fmap_ext. intros i y Hy.
  apply list_elem_of_lookup_2 in Hy. cbn. rewrite (proj1 (busy_fields _ y)), busy_added by done.
  case_bool_decide as E; [|done]. assert (y = x) as -> by (by apply (same_watch wa_id); [apply Hw0|..]).
  pose proof (wr_aio _ Hw0) as Haio. rewrite Forall_forall in Haio. destruct (Haio x Hx) as (_ & _ & Hp & _).
  unfold busy. rewrite decide_False by done. destruct x; cbn in *; by subst.
Qed.

(** An event of another watch. *)
Lemma other_event P x y ev h w :
  x ∈ l0 -> y ∈ l0 -> y <> x -> ev_obj ev = wa_id y -> handed P D w -> aio_event (wa_id x) ev h w = Done (tt, h, w).
Proof.
  intros Hx Hy Hne He [[Hwa _] _ _ _ _]. assert (ws_aio (w_watches w) = busy P <$> l0) as Ea by (by rewrite Hwa).
  unfold aio_event. rewrite He. erewrite bind_done by (apply get_aio_ok; rewrite Ea; by apply find_busy).
  erewrite bind_done by (apply get_aio_ok; rewrite Ea; by apply find_busy).
  destruct (busy_fields P x) as (_ & -> & _), (busy_fields P y) as (_ & -> & _).
  destruct (Z.eqb_spec (wa_fd y) (wa_fd x)) as [E|]; [|done].
  by destruct Hne; apply (same_watch wa_fd); [apply Hw0|..].
Qed.

(** The completion of the watch's own write. *)
Lemma own_event P x b rest ev h w :
  x ∈ l0 -> wa_id x ∉ P -> waiting w0 x = b :: rest -> ev_obj ev = wa_id x -> ev_res ev <> - EAGAIN ->
  handed (wa_id x :: P) D w -> exists w', aio_event (wa_id x) ev h w = Done (tt, h, w') /\ handed P D w'.
Proof.
  intros Hx Hn Hb He Hr [[Hwa Hfl] Hq Hres Hs [A1 A2 A3 A4 A5]].
  pose proof (wr_aio _ Hw0) as Haio. rewrite Forall_forall in Haio. destruct (Haio x Hx) as (Hwr & Hcb & _ & _ & Hok).
  rewrite Hb in Hok. apply Forall_cons in Hok as [[_ Hbf] _].
  assert (ws_aio (w_watches w) = busy (wa_id x :: P) <$> l0) as Ea by (by rewrite Hwa).
  assert (forall h, get_aio (wa_id x) h w = Done (wa_with_pending (Some b) x, h, w)) as Eg.
  { intros h'. apply get_aio_ok. rewrite Ea, find_busy by done. unfold busy.
    rewrite decide_True by apply list_elem_of_here. by rewrite Hb. }
  unfold aio_event. rewrite He. erewrite bind_done by apply Eg. erewrite bind_done by apply Eg.
  cbn [wa_with_pending wa_fd wa_pending_aio wa_is_write wa_cb]. rewrite Z.eqb_refl, Hwr, Hcb. cbn [negb andb].
  rewrite (proj2 (Z.eqb_neq _ _) Hr). cbn [aio_complete]. unfold watch_free_write_aio.
  destruct (flow_dec_ok (mb_flow b) h (w_queues w)) as (s' & Ed & El & Ef).
  { destruct (mb_flow b) as [f|]; [|done]. by apply Hfl. }
  erewrite bind_done by (erewrite bind_done by (erewrite zoom_done by exact Ed; reflexivity); reflexivity).
  eexists. split; [reflexivity|]. split; [split|..].
  - cbn. rewrite Hwa. cbn. by rewrite <- (clear_busy P x Hx Hn).
  - intros f Hf. exact (Ef (Some f) (Hfl f Hf)).
  - intros y Hy. rewrite <- Hq by done. unfold waiting. destruct (wa_queue y); [|done]. unfold queue_of. cbn. by rewrite El.
  - exact Hres.
  - exact Hs.
  - split; try done; [intros q Hq0; unfold queue_of; cbn; rewrite El; by apply A4|].
    intros f k Hk. eapply (surplus_release f k _ (wa_with_pending (Some b) x) b); [by apply A5| |done|exact Ed].
    rewrite Ea, find_busy by done. unfold busy. rewrite decide_True by apply list_elem_of_here. by rewrite Hb.
Qed.

(** The events of a round, for one watch. *)
Lemma other_events P x evs h w :
  x ∈ l0 -> (forall id, id ∈ ev_obj <$> evs -> id ∈ wa_id <$> l0) -> wa_id x ∉ ev_obj <$> evs -> handed P D w ->
  for_each (aio_event (wa_id x)) evs h w = Done (tt, h, w).
Proof.
  intros Hx Hin Hn Hw. induction evs as [|ev evs IH]; [done|]. cbn in Hin, Hn. apply not_elem_of_cons in Hn as [Hne Hn].
  destruct (proj1 (list_elem_of_fmap _ _ _) (Hin (ev_obj ev) (list_elem_of_here _ _))) as (y & Ey & Hy).
  cbn [for_each]. erewrite bind_done; [apply IH; [|done]|].
  - intros id Hid. by apply Hin, list_elem_of_further.
  - eapply (other_event P x y); try done. intros ->. by rewrite Ey in Hne.
Qed.

Lemma watch_events P x evs h w :
  x ∈ l0 -> wa_id x ∉ P -> NoDup (ev_obj <$> evs) -> Forall (fun ev => ev_res ev <> - EAGAIN) evs ->
  (forall id, id ∈ ev_obj <$> evs -> id ∈ wa_id <$> l0) ->
  (wa_id x ∈ ev_obj <$> evs <-> waiting w0 x <> []) -> handed (wa_id x :: P) D w ->
  exists w', for_each (aio_event (wa_id x)) evs h w = Done (tt, h, w') /\ handed P D w'.
Proof.
  intros Hx Hn Hnd Hres Hin Hiff Hw. destruct (waiting w0 x) as [|b rest] eqn:Eb.
  - exists w. split; [eapply other_events; try done; by rewrite Hiff; intros []|].
    destruct Hw as [[Hwa Hfl] Hq Hr Hs Has]. split; try done. split; [|done]. by rewrite <- (busy_idle P x).
  - destruct (proj1 (list_elem_of_fmap _ _ _) (proj2 Hiff ltac:(done))) as (ev & Ev & Hev).
    apply list_elem_of_split in Hev as (e1 & e2 & ->). rewrite Forall_app, Forall_cons in Hres. destruct Hres as (_ & Hr & _).
    rewrite fmap_app, fmap_cons in Hnd, Hin. apply NoDup_app in Hnd as (_ & Hd & [H2 _]%NoDup_cons).
    destruct (own_event P x b rest ev h w) as (w' & E' & Hw'); try done.
    exists w'. split; [|done]. rewrite for_each_app. erewrite bind_done.
    2:{ eapply other_events; try done.
        - intros id Hid. apply Hin. apply elem_of_app. by left.
        - intros Hx1. apply (Hd _ Hx1). rewrite Ev. apply list_elem_of_here. }
    cbn [for_each]. erewrite bind_done by exact E'. eapply other_events; try done.
    + intros id Hid. apply Hin. apply elem_of_app. right. by apply list_elem_of_further.
    + by rewrite Ev.
Qed.

(** The loop over the watches. *)
Lemma aio_loop_ok evs n pre l h w :
  l0 = pre ++ l -> (length l <= n)%nat -> NoDup (ev_obj <$> evs) -> Forall (fun ev => ev_res ev <> - EAGAIN) evs ->
  (forall id, id ∈ ev_obj <$> evs <-> exists x, x ∈ l0 /\ wa_id x = id /\ waiting w0 x <> []) ->
  handed (wa_id <$> l) D w ->
  exists w', aio_loop n (wa_id <$> head l) (wa_id <$> head (tail l)) evs h w = Done (tt, h, w') /\ handed [] D w'.
Proof.
  revert n pre h w. induction l as [|x l IH]; intros n pre h w El Hn Hnd Hres Hiff Hw.
  { exists w. split; [by destruct n|done]. }
  destruct n as [|n]; [cbn in Hn; lia|]. cbn [head tail aio_loop fmap option_fmap option_map].
  assert (x ∈ l0) as Hx by (rewrite El; apply elem_of_app; right; apply list_elem_of_here).
  pose proof (wr_ids _ Hw0) as Hids. rewrite El, fmap_app, fmap_cons in Hids. apply NoDup_app in Hids as (_ & _ & [Hxl _]%NoDup_cons).
  destruct (watch_events (wa_id <$> l) x evs h w) as (w1 & E1 & Hw1); try done.
  { intros id Hid. apply Hiff in Hid as (y & Hy & <- & _). by apply list_elem_of_fmap_2. }
  { rewrite Hiff. split; [|by exists x]. intros (y & Hy & E & Hne). by rewrite <- (same_watch wa_id y x (wr_ids _ Hw0) Hy Hx E). }
  destruct (IH n (pre ++ [x]) h w1) as (w2 & E2 & Hw2); try done.
  { by rewrite <- app_assoc. }
  { cbn in Hn. lia. }
  exists w2. split; [|done]. erewrite bind_done by exact E1. erewrite bind_done by done.
  destruct l as [|y l]; cbn [head tail fmap option_fmap option_map] in *.
  - by erewrite bind_done by done.
  - assert (ws_aio (w_watches w1) = busy (wa_id <$> y :: l) <$> l0) as Ea by (by rewrite (proj1 (hd_state _ _ _ Hw1))).
    erewrite bind_done; [exact E2|]. unfold lift. rewrite Ea.
    rewrite (next_watch_split _ (wa_id y) (wa_id <$> pre ++ [x]) (wa_id <$> l)); [by destruct l|rewrite busy_ids; apply Hw0|].
    rewrite busy_ids, El. by rewrite !fmap_app, <- app_assoc.
Qed.

Lemma events_ok evs h w :
  NoDup (ev_obj <$> evs) -> Forall (fun ev => ev_res ev <> - EAGAIN) evs ->
  (forall id, id ∈ ev_obj <$> evs <-> exists x, x ∈ l0 /\ wa_id x = id /\ waiting w0 x <> []) ->
  handed D D w -> exists w', watch_handle_eventfd (Some evs) h w = Done (tt, h, w') /\ handed [] D w'.
Proof.
  intros Hnd Hres Hiff Hw.
  assert (ws_aio (w_watches w) = busy D <$> l0) as Ea by (by rewrite (proj1 (hd_state _ _ _ Hw))).
  assert (handed (wa_id <$> l0) D w) as Hw'.
  { destruct Hw as [[Hwa Hfl] Hq Hr Hs Has]. split; try done. split; [|done].
    assert (busy (wa_id <$> l0) <$> l0 = busy D <$> l0) as ->; [|done].
    apply list_fmap_ext. intros i x _. unfold busy. by rewrite (decide_ext _ _ _ _ (HD (wa_id x))). }
  unfold watch_handle_eventfd. erewrite bind_done by done. cbv zeta. rewrite Ea, length_fmap.
  destruct (aio_loop_ok evs (S (length l0)) [] l0 h w) as (w' & E & H'); try done; [lia|]. exists w'. split; [|done].
  assert (forall x l, l0 = x :: l -> next_watch (wa_id x) (busy D <$> l0) = Done (wa_id <$> head l)) as Hnext.
  { intros x l El. rewrite (next_watch_split _ (wa_id x) [] (wa_id <$> l)); rewrite ?busy_ids; [by destruct l|apply Hw0|by rewrite El]. }
  destruct l0 as [|x l]; [exact E|]. cbn [head fmap list_fmap option_fmap option_map].
  rewrite (proj1 (busy_fields D x)). erewrite bind_done; [exact E|]. unfold lift.
  pose proof (Hnext x l eq_refl) as En. cbn [fmap list_fmap] in En. by rewrite En.
Qed.

(** The watches are as before. *)
Lemma handed_done w : handed [] D w -> w_watches w = w_watches w0.
Proof. intros [[-> _] _ _ _ _]. apply busy_none. Qed.
End round.

(** ** A round *)

(** The clock is read again after [select]. *)
Lemma handed_at_time w0 P D w now : handed w0 P D w -> handed (at_time now w0) P D (at_time now w).
Proof.
  intros [[Hwa Hfl] Hq Hr Hs [A1 A2 A3 A4 A5]]. split; [split|..]; [|exact Hfl|exact Hq|exact Hr|exact Hs|].
  2:{ split; try done. intros f k Hk. apply surplus_now, A5. by apply surplus_before in Hk. }
  change (WState (ws_timers (w_watches w)) (ws_read (w_watches w)) (ws_aio (w_watches w)) (ws_quit (w_watches w))
    (ws_do_quit (w_watches w)) now (ws_fresh (w_watches w)) =
    with_aio (fun _ => busy w0 P <$> ws_aio (w_watches w0)) (w_watches (at_time now w0))). by rewrite Hwa.
Qed.

Lemma select_timeout_ok s h w :
  exists t, select_timeout (watch_get_next_timer (ws_timers s)) s h w = Done (t, h, w).
Proof.
  unfold select_timeout. pose proof (watch_get_next_timer_earliest (ws_timers s)) as H.
  destruct (watch_get_next_timer _) as [k|]; [|by eexists]. destruct H as (t & Hk & _). rewrite Hk.
  by eexists.
Qed.

Section loop.
Context (dec : bytes -> Z -> Z * Z -> Z + qrtr_packet) (ffs_size : Z) (ffs_type : bytes -> ffs_event) (fuel : nat).

(** One visit of the read loop, when the callback leaves the watches alone. *)
Lemma read_loop_step n ready pre x l h w h1 w1 :
  ws_read (w_watches w) = pre ++ x :: l -> NoDup (wa_id <$> ws_read (w_watches w)) -> w_watches w1 = w_watches w ->
  (if bool_decide (wa_fd x ∈ ready) then
     ret ← run_cb dec ffs_size ffs_type fuel (wa_cb x) (wa_fd x);
     if ret <? 0 then list_del_read (wa_id x) else mret tt
   else mret tt) h w = Done (tt, h1, w1) ->
  read_loop dec ffs_size ffs_type fuel (S n) (Some (wa_id x)) (wa_id <$> head l) ready h w =
  read_loop dec ffs_size ffs_type fuel n (wa_id <$> head l) (wa_id <$> head (tail l)) ready h1 w1.
Proof.
  intros El Hnd Ew E. cbn [read_loop]. erewrite bind_done.
  2:{ unfold get_read. mrun. rewrite (find_watch_in _ x Hnd); [reflexivity|].
      rewrite El. apply elem_of_app. right. apply list_elem_of_here. }
  erewrite bind_done by exact E. erewrite bind_done by done. rewrite Ew.
  assert (ws_read (w_watches w) = (pre ++ [x]) ++ l) as El' by (by rewrite <- app_assoc).
  destruct l as [|y l]; cbn [head tail fmap option_fmap option_map] in *; [by erewrite bind_done by done|].
  erewrite bind_done; [done|]. unfold lift.
  rewrite (next_watch_split _ (wa_id y) (wa_id <$> pre ++ [x]) (wa_id <$> l) Hnd); [by destruct l|].
  by rewrite El', fmap_app.
Qed.

Lemma read_loop_idle n ready pre l h w :
  Forall (fun x => wa_fd x ∉ ready) l -> ws_read (w_watches w) = pre ++ l ->
  NoDup (wa_id <$> ws_read (w_watches w)) -> (length l <= n)%nat ->
  read_loop dec ffs_size ffs_type fuel n (wa_id <$> head l) (wa_id <$> head (tail l)) ready h w = Done (tt, h, w).
Proof.
  revert n pre. induction l as [|x l IH]; intros n pre Hl El Hnd Hn; [by destruct n|].
  apply Forall_cons in Hl as [Hx Hl]. destruct n as [|n]; [cbn in Hn; lia|].
  cbn [head tail fmap option_fmap option_map].
  rewrite (read_loop_step n ready pre x l h w h w El Hnd eq_refl) by by rewrite bool_decide_eq_false_2.
  apply (IH n (pre ++ [x]) Hl); [by rewrite <- app_assoc|done|cbn in Hn; lia].
Qed.

(** One descriptor is ready, and one watch is on it. *)
Lemma read_loop_one n pre l x suf h w h1 w1 :
  ws_read (w_watches w) = pre ++ l ++ x :: suf -> NoDup (wa_id <$> ws_read (w_watches w)) ->
  Forall (fun y => wa_fd y <> wa_fd x) (l ++ suf) -> (length (l ++ x :: suf) <= n)%nat ->
  run_cb dec ffs_size ffs_type fuel (wa_cb x) (wa_fd x) h w = Done (0, h1, w1) -> w_watches w1 = w_watches w ->
  read_loop dec ffs_size ffs_type fuel n (wa_id <$> head (l ++ x :: suf)) (wa_id <$> head (tail (l ++ x :: suf)))
    [wa_fd x] h w = Done (tt, h1, w1).
Proof.
  revert n pre. induction l as [|y l IH]; intros n pre El Hnd Hl Hn Hcb Ew; (destruct n as [|n]; [cbn in Hn; lia|]);
    cbn [app head tail fmap option_fmap option_map].
  - rewrite (read_loop_step n _ pre x suf h w h1 w1 El Hnd Ew).
    + apply (read_loop_idle n _ (pre ++ [x])); rewrite ?Ew.
      * eapply Forall_impl; [exact Hl|]. intros y Hy. by rewrite list_elem_of_singleton.
      * by rewrite El, <- app_assoc.
      * done.
      * cbn in Hn. lia.
    + rewrite bool_decide_eq_true_2 by apply list_elem_of_here. by erewrite bind_done by exact Hcb.
  - apply Forall_cons in Hl as [Hy Hl].
    rewrite (read_loop_step n _ pre y (l ++ x :: suf) h w h w El Hnd eq_refl).
    + apply (IH n (pre ++ [y])); try done; [by rewrite El, <- app_assoc|cbn in Hn; lia].
    + rewrite bool_decide_eq_false_2; [done|]. by rewrite list_elem_of_singleton.
Qed.

Lemma read_round_start n ready h w :
  NoDup (wa_id <$> ws_read (w_watches w)) ->
  read_round dec ffs_size ffs_type fuel n ready h w =
  read_loop dec ffs_size ffs_type fuel n (wa_id <$> head (ws_read (w_watches w)))
    (wa_id <$> head (tail (ws_read (w_watches w)))) ready h w.
Proof.
  intros Hnd. unfold read_round. erewrite bind_done by done. cbv zeta. destruct (ws_read (w_watches w)) as [|x l] eqn:El; [done|].
  cbn [head tail fmap option_fmap option_map]. erewrite bind_done; [done|]. unfold lift.
  rewrite (next_watch_split _ (wa_id x) [] (wa_id <$> l)); [by destruct l|done|done].
Qed.

Lemma read_round_idle n h w :
  NoDup (wa_id <$> ws_read (w_watches w)) -> (length (ws_read (w_watches w)) <= n)%nat ->
  read_round dec ffs_size ffs_type fuel n [] h w = Done (tt, h, w).
Proof.
  intros Hnd Hn. rewrite read_round_start by done. apply (read_loop_idle n [] []); try done.
  apply Forall_forall. intros x _. apply not_elem_of_nil.
Qed.

Definition same_watches (w w' : world) : Prop :=
  ws_aio (w_watches w') = ws_aio (w_watches w) /\ ws_read (w_watches w') = ws_read (w_watches w) /\
  ws_do_quit (w_watches w') = ws_do_quit (w_watches w).

(** What a quiet round does. *)
Record stepped (w w' : world) : Prop := {
  sp_watches : same_watches w w';
  sp_flows f : is_Some (q_flows (w_queues w) !! f) -> is_Some (q_flows (w_queues w') !! f);
  sp_waiting x : x ∈ ws_aio (w_watches w) -> waiting w' x = tail (waiting w x);
  sp_results : exists k, (k <= length (ws_aio (w_watches w)))%nat /\ e_results (w_env w') = drop k (e_results (w_env w));
  sp_sent x : x ∈ ws_aio (w_watches w) -> sent (wa_id x) w' = sent (wa_id x) w ++ (wire <$> take 1 (waiting w x));
  sp_aside : aside w w' }.

Lemma stepped_flow w w' flow : stepped w w' -> flow_ok flow (w_queues w) -> flow_ok flow (w_queues w').
Proof. intros Hs. destruct flow as [f|]; [apply (sp_flows _ _ Hs)|done]. Qed.

Lemma stepped_writers w w' : stepped w w' -> writers w -> writers w'.
Proof.
  intros Hs [H1 H2 H3 H4 H5 H6 H7]. destruct (sp_watches _ _ Hs) as (Ea & Er & Eq).
  split; rewrite ?Ea, ?Er, ?Eq; try done.
  - rewrite Forall_forall in *. intros x Hx. destruct (H1 x Hx) as (? & ? & ? & ? & Hok). split_and!; try done.
    rewrite (sp_waiting _ _ Hs) by done. destruct (waiting w x) as [|b l]; [done|]. apply Forall_cons in Hok as [_ Hok].
    eapply Forall_impl; [exact Hok|]. intros b' [Hb Hf]. split; [done|]. by eapply stepped_flow.
  - eapply Forall_impl; [exact H5|]. intros x [Hf Hx]. split; [by eapply stepped_flow|done].
Qed.

Lemma stepped_completes w w' i r : stepped w w' -> completes w (S i) r -> completes w' i r.
Proof.
  intros Hs (H1 & H2 & evs & H3 & H4 & H5 & H6). split_and!; try done. exists evs. split_and!; try done.
  destruct (sp_watches _ _ Hs) as (Ea & _). intros id. rewrite H6, Ea.
  split; intros (x & Hx & E & Hi); exists x; rewrite (sp_waiting _ _ Hs) in * by done; split_and!; try done;
    destruct (waiting w x); cbn in *; lia.
Qed.

Lemma quiet_round n r h w :
  writers w -> completes w 0 r -> Forall (eq 1) (e_results (w_env w)) ->
  (length (ws_aio (w_watches w)) <= length (e_results (w_env w)))%nat -> (length (ws_read (w_watches w)) <= n)%nat ->
  exists w', watch_round dec ffs_size ffs_type fuel n r h w = Done (true, h, w') /\ stepped w w'.
Proof.
  intros Hw (Hsel & Hev & evs & Hevs & Hnd & Hres & Hiff) Hone Hlen Hn.
  set (w0 := at_time (rd_now r) w).
  assert (writers w0) as Hw0 by (by destruct Hw).
  unfold watch_round. rewrite (bind_done _ _ _ _ tt h w0) by done. erewrite bind_done by done.
  destruct (select_ok w0 (ws_read (w_watches w0)) h (wr_read _ Hw0)) as [fds Ef]. erewrite bind_done by exact Ef.
  destruct (submit_round_ok w0 Hw0 h Hone Hlen) as (w1' & D & E1 & H1' & HD & HlD). erewrite bind_done by exact E1.
  clear Ef E1. erewrite bind_done by done. destruct (select_timeout_ok (w_watches w1') h w1') as [t Et].
  erewrite bind_done by exact Et. clear Et.
  rewrite (bind_done _ _ _ _ tt h (at_time (rd_woke r) w1')) by done. set (w1 := at_time (rd_woke r) w1').
  apply (handed_at_time _ _ _ _ (rd_woke r)) in H1' as H1. fold w1 in H1. clear Hw0 H1'. set (w0' := at_time (rd_woke r) w0) in *.
  assert (writers w0') as Hw0 by (by destruct Hw). clearbody w1.
  rewrite Hsel, Hev, Hevs. rewrite filter_nil. cbn [zlen length andb negb]. rewrite andb_false_r.
  erewrite bind_done by done.
  destruct (events_ok w0' Hw0 D HD evs h w1 Hnd Hres) as (w2 & E2 & H2); [|done|].
  { intros id. rewrite Hiff. split; intros (x & Hx & E & Hi); exists x; split_and!; try done;
      change (waiting w x) with (waiting w0' x) in *; destruct (waiting w0' x); cbn in *; (done || lia). }
  erewrite bind_done by exact E2.
  assert (w_watches w2 = w_watches w0') as Ew2 by by apply (handed_done w0' D).
  assert (read_round dec ffs_size ffs_type fuel n [] h w2 = Done (tt, h, w2)) as E3.
  { apply read_round_idle; rewrite Ew2; [apply Hw0|done]. }
  erewrite bind_done by exact E3. exists w2. split; [done|]. destruct H2 as [[_ Hfl] Hq (k & Hk & Hr) Hs Has]. split.
  - unfold same_watches; by rewrite Ew2.
  - exact Hfl.
  - intros x Hx. rewrite (Hq x Hx), decide_True; [done|]. apply HD. by apply list_elem_of_fmap_2.
  - rewrite HlD in Hk. by exists k.
  - intros x Hx. rewrite (Hs x Hx), decide_True; [done|]. apply HD. by apply list_elem_of_fmap_2.
  - eapply aside_trans, Has. eapply aside_trans; apply aside_now.
Qed.

Lemma quiet_loop n rs h w :
  writers w -> (forall i r, rs !! i = Some r -> completes w i r) -> Forall (eq 1) (e_results (w_env w)) ->
  (length (ws_aio (w_watches w)) * length rs <= length (e_results (w_env w)))%nat ->
  (length (ws_read (w_watches w)) <= n)%nat ->
  exists w', watch_loop dec ffs_size ffs_type fuel n rs h w = Done (tt, h, w') /\ aside w w' /\ same_watches w w' /\
    (exists k, (k <= length (ws_aio (w_watches w)) * length rs)%nat /\ e_results (w_env w') = drop k (e_results (w_env w))) /\
    forall x, x ∈ ws_aio (w_watches w) -> waiting w' x = drop (length rs) (waiting w x) /\
      sent (wa_id x) w' = sent (wa_id x) w ++ (wire <$> take (length rs) (waiting w x)).
Proof.
  revert w. induction rs as [|r rs IH]; intros w Hw Hc Hone Hlen Hn.
  { exists w. cbn [watch_loop]. erewrite bind_done by done. rewrite (wr_go _ Hw). split; [done|].
    split; [apply aside_refl|]. split; [by unfold same_watches|]. split; [exists 0%nat; split; [lia|done]|]. intros x _. by rewrite drop_0, app_nil_r. }
  cbn [length] in Hlen. destruct (quiet_round n r h w) as (w1 & E1 & H1); try done; [by apply (Hc 0%nat)|lia|].
  destruct (sp_watches _ _ H1) as (Ea & Er & Eq). destruct (sp_results _ _ H1) as (k & Hk & Ek).
  destruct (IH w1) as (w2 & E2 & Has2 & (Ea2 & Er2 & Eq2) & (k2 & Hk2 & Ek2) & H2).
  - by eapply stepped_writers.
  - intros i r' Hi. eapply stepped_completes; [done|]. by apply Hc.
  - rewrite Ek. by apply Forall_drop.
  - rewrite Ek, Ea, length_drop. lia.
  - by rewrite Er.
  - exists w2. cbn [watch_loop]. erewrite bind_done by done. rewrite (wr_go _ Hw). erewrite bind_done by exact E1.
    split; [exact E2|]. split; [by eapply aside_trans; [apply (sp_aside _ _ H1)|]|]. split; [split_and!; congruence|].
    split; [exists (k + k2)%nat; rewrite Ek2, Ek, drop_drop; split; [rewrite Ea in Hk2; cbn [length]; lia|done]|].
    intros x Hx. rewrite <- Ea in Hx. destruct (H2 x Hx) as [Hw2 Hs2]. rewrite Ea in Hx.
    rewrite Hw2, Hs2, (sp_waiting _ _ H1), (sp_sent _ _ H1) by done. destruct (waiting w x) as [|b l]; cbn.
    + by rewrite drop_nil, take_nil, !app_nil_r.
    + split; [done|]. by rewrite <- app_assoc.
Qed.
End loop.

(** ** All of it *)

(** What is queued is written: when, round after round, no descriptor is
    ready and exactly the writes under way are completed, the loop goes on, and
    after as many rounds as the longest queue holds packets every queue is
    empty and the kernel was handed every packet that waited, in order. *)
Lemma queues_drain dec ffs_size ffs_type fuel n rs h w :
  writers w -> (forall i r, rs !! i = Some r -> completes w i r) -> Forall (eq 1) (e_results (w_env w)) ->
  (length (ws_aio (w_watches w)) * length rs <= length (e_results (w_env w)))%nat ->
  (length (ws_read (w_watches w)) <= n)%nat ->
  (forall x, x ∈ ws_aio (w_watches w) -> (length (waiting w x) <= length rs)%nat) ->
  exists w', watch_loop dec ffs_size ffs_type fuel n rs h w = Done (tt, h, w') /\
    forall x, x ∈ ws_aio (w_watches w) ->
      waiting w' x = [] /\ sent (wa_id x) w' = sent (wa_id x) w ++ (wire <$> waiting w x).
Proof.
  intros Hw Hc Hone Hlen Hn Hlong.
  destruct (quiet_loop dec ffs_size ffs_type fuel n rs h w Hw Hc Hone Hlen Hn) as (w' & E & _ & _ & _ & H).
  exists w'. split; [exact E|]. intros x Hx. destruct (H x Hx) as [-> ->]. specialize (Hlong x Hx).
  by rewrite drop_ge, take_ge by done.
Qed.
