(* ===== verification/Lifetime.v ===== *)
(** * Lifetime: callbacks that free what the event loop still holds

    The loop over the read watches remembers the next watch before it runs a
    callback; completions are matched to watches by descriptor.  Both go wrong
    in states the program reaches. *)

From S2P Require Import Prelude CircBuf Hdlc Masks MaskTables Queue Watch World Dm Cntl CntlProps Peripheral AppCmds CommonCmds Router DmRecv Devnode Qrtr Clients EventLoop Hotplug DataPath QrtrProps QrtrCmd Keeps Preserve Flow Stream Packets Drain.

(** ** A control channel that fails *)

Lemma next_watch_absent id l : id ∉ wa_id <$> l -> next_watch id l = UB.
Proof.
  induction l as [|w l IH]; intros Hid; [done|]. cbn in *. apply not_elem_of_cons in Hid as [Hne Hid].
  rewrite bool_decide_eq_false_2 by congruence. by apply IH.
Qed.

Lemma get_read_ok id x h w :
  find_watch id (ws_read (w_watches w)) = Some x -> get_read id h w = Done (x, h, w).
Proof. intros E. unfold get_read. mrun. by rewrite E. Qed.

(** What closing an rpmsg peripheral leaves of the read watches. *)
Lemma rpmsg_close_reads p perif h w :
  pf_objs (w_pf w) !! p = Some perif -> pf_transport perif = Rpmsg ->
  exists w', peripheral_close p h w = Done (tt, h, w') /\
    ws_read (w_watches w') = filter (not_fd (pf_cmd_fd perif)) (filter (not_fd (pf_cntl_fd perif))
      (filter (not_fd (pf_data_fd perif)) (ws_read (w_watches w)))).
Proof.
  intros Hp Ht. unfold peripheral_close, perif_rpmsg_close.
  erewrite bind_done by (by apply get_perif_ok). rewrite Ht.
  erewrite bind_done by (by apply get_perif_ok). by eexists.
Qed.

(** C31 Use after free: when reading a control channel fails (with anything
    but [EAGAIN]) while the watch after it is the peripheral's data watch, as
    [peripheral_open] lays them out, closing the peripheral frees the watch
    the loop is about to visit. *)
Theorem cntl_failure_frees_next_watch dec ffs_size ffs_type fuel n p perif id x id' y ready errno rest h w :
  find_watch id (ws_read (w_watches w)) = Some x -> wa_cb x = CbRpmsgCntlRecv p ->
  pf_objs (w_pf w) !! p = Some perif -> pf_transport perif = Rpmsg -> wa_fd x ∈ ready ->
  e_fds (w_env w) !! wa_fd x = Some (inl errno :: rest) -> errno <> EAGAIN ->
  NoDup (wa_id <$> ws_read (w_watches w)) ->
  y ∈ ws_read (w_watches w) -> wa_id y = id' -> wa_fd y = pf_data_fd perif ->
  read_loop dec ffs_size ffs_type fuel (S n) (Some id) (Some id') ready h w = UB.
Proof.
  intros Hx Hcb Hp Ht Hr Hfd Herr Hn Hy Hid Hyf. cbn [read_loop].
  erewrite bind_done by (by apply get_read_ok). rewrite bool_decide_eq_true_2 by done. rewrite Hcb. cbn [run_cb].
  set (w1 := over (fun e => Env (<[wa_fd x := rest]> (e_fds e)) (e_results e) (e_senders e) (e_udev e) (e_aio e)) w).
  destruct (rpmsg_close_reads p perif (tick h) w1 Hp Ht) as (w2 & E2 & Ew2).
  assert (rpmsg_perif_cntl_recv p (wa_fd x) h w = Done (0, tick h, w2)) as E.
  { unfold rpmsg_perif_cntl_recv. destruct (stack_ok 4096 h w) as (buf & Eb & _). erewrite bind_done by exact Eb.
    erewrite bind_done; [|unfold sys_read, zoom, env_read; cbn [view env_lens]; rewrite Hfd; reflexivity].
    cbv iota. destruct (Z.eqb_spec errno EAGAIN); [done|]. cbn [negb].
    change (over _ w) with w1. erewrite bind_done by exact E2. done. }
  erewrite bind_done by (erewrite bind_done by exact E; reflexivity).
  erewrite bind_done by reflexivity.
  apply bind_ub. unfold lift. rewrite next_watch_absent; [done|].
  rewrite Ew2. intros (z & Hzi & Hz)%list_elem_of_fmap.
  rewrite !list_elem_of_filter in Hz. destruct Hz as (_ & _ & Hnf & Hz).
  change (ws_read (w_watches w1)) with (ws_read (w_watches w)) in Hz.
  apply Hnf. rewrite <- Hyf. f_equal.
  apply list_elem_of_lookup in Hy as [i Hi], Hz as [j Hj].
  assert (i = j) as -> by (eapply (NoDup_lookup _ _ _ id' Hn); rewrite list_lookup_fmap, ?Hi, ?Hj; cbn; congruence).
  cbn in Hj. congruence.
Qed.

(** ** Announced twice

    A completion is matched to the watches by descriptor, and every watch it
    matches must have a buffer under way. *)

(** The lists of asynchronous watches below have distinct identities. *)
#[local] Notation ids w := (wa_id <$> ws_aio (w_watches w)).

#[local] Notation submit_one id :=
  (w ← get_aio id; q ← deref (wa_queue w); s ← get;
   match queue_of (w_queues s) q, wa_pending_aio w with
   | _ :: _, None => watch_submit_aio id
   | _, _ => mret tt
   end).

Lemma aio_at w pre y suf h :
  NoDup (ids w) -> ws_aio (w_watches w) = pre ++ y :: suf -> get_aio (wa_id y) h w = Done (y, h, w).
Proof.
  intros Hn E. apply get_aio_ok, find_watch_in; [done|]. rewrite E. apply elem_of_app. right. apply list_elem_of_here.
Qed.

(** Setting the pending buffer of one watch. *)
Lemma set_aio_at b pre y suf :
  NoDup (wa_id <$> pre ++ y :: suf) ->
  set_aio (wa_id y) b (pre ++ y :: suf) = pre ++ wa_with_pending b y :: suf.
Proof.
  rewrite fmap_app, fmap_cons. intros (_ & Hpre & [Hsuf _]%NoDup_cons)%NoDup_app.
  assert (forall l, wa_id y ∉ wa_id <$> l -> set_aio (wa_id y) b l = l) as Hother.
  { intros l Hl. rewrite <- (list_fmap_id l) at 2. apply list_fmap_ext. intros k z Hz. cbn.
    rewrite bool_decide_eq_false_2; [done|]. intros E. apply Hl. rewrite <- E. by eapply list_elem_of_fmap_2, list_elem_of_lookup_2. }
  unfold set_aio. rewrite fmap_app, fmap_cons, bool_decide_eq_true_2 by done. fold (set_aio (wa_id y) b).
  rewrite !Hother; [done|done|]. intros Hy. apply (Hpre _ Hy). apply list_elem_of_here.
Qed.

(** A watch with nothing to submit: its queue is empty, or a buffer is under
    way. *)
Definition rests (w : world) (y : watch) : Prop :=
  exists q, wa_queue y = Some q /\ (queue_of (w_queues w) q = [] \/ is_Some (wa_pending_aio y)).

Lemma submit_rests w pre y suf h :
  NoDup (ids w) -> ws_aio (w_watches w) = pre ++ y :: suf -> rests w y ->
  submit_one (wa_id y) h w = Done (tt, h, w).
Proof.
  intros Hn E (q & Hq & Hr). erewrite bind_done by (by eapply aio_at). rewrite Hq.
  erewrite bind_done by done. erewrite bind_done by done.
  destruct Hr as [->|[b ->]]; [done|]. by destruct (queue_of _ _).
Qed.

Lemma for_each_still {S A} (f : A -> M S unit) l h s :
  (forall a, a ∈ l -> f a h s = Done (tt, h, s)) -> for_each f l h s = Done (tt, h, s).
Proof.
  induction l as [|a l IH]; intros Hl; [done|]. cbn [for_each].
  erewrite bind_done by apply Hl, list_elem_of_here. apply IH. intros a' Ha. by apply Hl, list_elem_of_further.
Qed.

(** The submission when one watch has the one packet of its queue to send and
    the others rest, those that share its queue behind it. *)
Lemma submit_round_one base o more q b rs h w :
  NoDup (ids w) -> ws_aio (w_watches w) = base ++ o :: more -> Forall (rests w) base ->
  wa_pending_aio o = None -> wa_queue o = Some q -> Forall (fun y => wa_queue y = Some q) more ->
  queue_of (w_queues w) q = [b] -> mbuf_ok (w_queues w) b -> e_results (w_env w) = 1 :: rs ->
  exists w', submit_round h w = Done (tt, h, w') /\
    ws_aio (w_watches w') = base ++ wa_with_pending (Some b) o :: more /\ q_flows (w_queues w') = q_flows (w_queues w).
Proof.
  intros Hn E Hbase Hp Hq Hmore Hb [Hs _] Hr.
  pose proof (submit_ok (wa_id o) o q b [] rs h w) as Ho. rewrite E in Ho.
  specialize (Ho ltac:(apply find_watch_in; [by rewrite <- E|apply elem_of_app; right; apply list_elem_of_here]) Hp Hq Hb Hs Hr).
  set (w' := over _ _) in Ho.
  assert (ws_aio (w_watches w') = base ++ wa_with_pending (Some b) o :: more) as Ea.
  { subst w'. cbn. rewrite E. apply set_aio_at. by rewrite <- E. }
  assert (NoDup (ids w')) as Hn' by (rewrite Ea, fmap_app, fmap_cons; by rewrite E, fmap_app, fmap_cons in Hn).
  exists w'. split; [|by split]. unfold submit_round. erewrite bind_done by done. rewrite E, fmap_app, fmap_cons, for_each_app.
  erewrite bind_done.
  2:{ apply for_each_still. intros id (y & -> & Hy)%list_elem_of_fmap. pose proof Hy as (pre & suf & ->)%list_elem_of_split.
      eapply (submit_rests w pre y (suf ++ o :: more)); [done|by rewrite E, <- app_assoc|].
      rewrite Forall_forall in Hbase. by apply Hbase. }
  cbn [for_each]. erewrite bind_done.
  2:{ erewrite bind_done by (by eapply aio_at). rewrite Hq. erewrite bind_done by done. erewrite bind_done by done.
      rewrite Hb, Hp. exact Ho. }
  apply for_each_still. intros id (y & -> & Hy)%list_elem_of_fmap. pose proof Hy as (pre & suf & Ey)%list_elem_of_split.
  eapply (submit_rests w' (base ++ wa_with_pending (Some b) o :: pre) y suf); [done|by rewrite Ea, Ey, <- app_assoc|].
  rewrite Forall_forall in Hmore. exists q. split; [by apply Hmore|]. left. cbn. by rewrite queue_of_set, decide_True.
Qed.

(** The loop over the watches, one step and a stretch on which nothing
    happens. *)
Lemma aio_loop_step n id pre suf evs h w h1 w1 :
  for_each (aio_event id) evs h w = Done (tt, h1, w1) -> NoDup (ids w1) -> ids w1 = pre ++ id :: suf ->
  aio_loop (S n) (Some id) (head suf) evs h w = aio_loop n (head suf) (head (tail suf)) evs h1 w1.
Proof.
  intros E Hn Ei. cbn [aio_loop]. erewrite bind_done by exact E. erewrite bind_done by done.
  destruct suf as [|id' suf]; cbn [head tail]; [by erewrite bind_done by done|].
  erewrite bind_done; [reflexivity|]. unfold lift.
  rewrite (next_watch_split _ id' (pre ++ [id]) suf); [done|done|by rewrite Ei, <- app_assoc].
Qed.

Lemma aio_loop_still n pre seg suf evs h w :
  NoDup (ids w) -> ids w = pre ++ seg ++ suf ->
  (forall id, id ∈ seg -> for_each (aio_event id) evs h w = Done (tt, h, w)) ->
  aio_loop (length seg + n) (head (seg ++ suf)) (head (tail (seg ++ suf))) evs h w =
  aio_loop n (head suf) (head (tail suf)) evs h w.
Proof.
  intros Hn. revert pre. induction seg as [|id seg IH]; intros pre E Hs; [done|]. cbn [length app head tail Nat.add].
  rewrite (aio_loop_step _ id pre (seg ++ suf) evs h w h w); [|apply Hs, list_elem_of_here|done|done].
  apply (IH (pre ++ [id])); [by rewrite <- app_assoc|]. intros id' H'. by apply Hs, list_elem_of_further.
Qed.

Lemma watch_handle_eventfd_start evs h w :
  NoDup (ids w) ->
  watch_handle_eventfd (Some evs) h w =
  aio_loop (S (length (ids w))) (head (ids w)) (head (tail (ids w))) evs h w.
Proof.
  intros Hn. unfold watch_handle_eventfd. erewrite bind_done by done. cbv zeta. rewrite length_fmap.
  destruct (ws_aio (w_watches w)) as [|y l] eqn:E; [done|]. cbn [head tail fmap option_fmap option_map list_fmap].
  erewrite bind_done; [reflexivity|]. unfold lift.
  by rewrite (next_watch_split (y :: l) (wa_id y) [] (wa_id <$> l)).
Qed.

(** The completion of the write of [o], for a watch on another descriptor,
    for [o], and for a second watch on its descriptor. *)
Section completion.
Context (o : watch) (ev : io_event) (Hev : ev_obj ev = wa_id o).

Lemma event_elsewhere pre y suf h w :
  NoDup (ids w) -> o ∈ ws_aio (w_watches w) -> ws_aio (w_watches w) = pre ++ y :: suf -> wa_fd y <> wa_fd o ->
  aio_event (wa_id y) ev h w = Done (tt, h, w).
Proof.
  intros Hn Ho E Hfd. unfold aio_event. rewrite Hev.
  erewrite bind_done by (apply get_aio_ok; by apply find_watch_in). erewrite bind_done by (by eapply aio_at).
  by rewrite (proj2 (Z.eqb_neq _ _)) by done.
Qed.

Lemma event_own b pre suf h w :
  NoDup (ids w) -> ws_aio (w_watches w) = pre ++ o :: suf -> wa_pending_aio o = Some b ->
  wa_cb o = CbFreeWriteAio -> wa_is_write o = true -> flow_ok (mb_flow b) (w_queues w) -> ev_res ev <> - EAGAIN ->
  exists w', aio_event (wa_id o) ev h w = Done (tt, h, w') /\ ws_aio (w_watches w') = pre ++ wa_with_pending None o :: suf.
Proof.
  intros Hn E Hp Hcb Hwr Hf Hr. unfold aio_event. rewrite Hev.
  erewrite bind_done by (by eapply aio_at). erewrite bind_done by (by eapply aio_at).
  rewrite Z.eqb_refl, Hp, (proj2 (Z.eqb_neq _ _) Hr), Hwr, Hcb. cbn [negb andb aio_complete]. unfold watch_free_write_aio.
  destruct (flow_dec_ok (mb_flow b) h (w_queues w) Hf) as (s' & Ed & _).
  erewrite bind_done by (erewrite bind_done by (erewrite zoom_done by exact Ed; reflexivity); reflexivity).
  eexists. split; [reflexivity|]. cbn. rewrite E. fold (set_aio (wa_id o) None). apply set_aio_at. by rewrite <- E.
Qed.

Lemma event_second o' pre y suf h w :
  NoDup (ids w) -> o' ∈ ws_aio (w_watches w) -> wa_id o' = wa_id o -> wa_fd o' = wa_fd o ->
  ws_aio (w_watches w) = pre ++ y :: suf -> wa_fd y = wa_fd o -> wa_pending_aio y = None ->
  aio_event (wa_id y) ev h w = Exit.
Proof.
  intros Hn Ho Hid Hofd E Hfd Hp. unfold aio_event. rewrite Hev, <- Hid.
  erewrite bind_done by (apply get_aio_ok; by apply find_watch_in). erewrite bind_done by (by eapply aio_at).
  by rewrite Hofd, Hfd, Z.eqb_refl, Hp.
Qed.

(** The watches before [o] on the list do nothing, [o] is done, and the loop
    goes on with the watches behind it. *)
Lemma completion_handled base b more h w :
  NoDup (ids w) -> ws_aio (w_watches w) = base ++ o :: more -> Forall (not_fd (wa_fd o)) base ->
  wa_pending_aio o = Some b -> wa_cb o = CbFreeWriteAio -> wa_is_write o = true ->
  flow_ok (mb_flow b) (w_queues w) -> ev_res ev <> - EAGAIN ->
  exists w', for_each (fun id => aio_event id ev) (wa_id <$> base ++ [o]) h w = Done (tt, h, w') /\
    ws_aio (w_watches w') = base ++ wa_with_pending None o :: more /\
    watch_handle_eventfd (Some [ev]) h w =
      aio_loop (S (length more)) (wa_id <$> head more) (wa_id <$> head (tail more)) [ev] h w'.
Proof.
  intros Hn E Hbase Hp Hcb Hwr Hf Hr. destruct (event_own b base more h w) as (w' & Eo & Ea); try done. exists w'.
  assert (forall id, id ∈ wa_id <$> base -> aio_event id ev h w = Done (tt, h, w)) as Hstill.
  { intros id (y & -> & Hy)%list_elem_of_fmap. pose proof Hy as (pre & suf & Ey)%list_elem_of_split.
    eapply (event_elsewhere pre y (suf ++ o :: more)); [done| |by rewrite E, Ey, <- app_assoc|].
    - rewrite E. apply elem_of_app. right. apply list_elem_of_here.
    - rewrite Forall_forall in Hbase. by apply Hbase. }
  split; [|split; [exact Ea|]].
  - rewrite fmap_app, for_each_app. erewrite bind_done by (by apply for_each_still). cbn. by erewrite bind_done by exact Eo.
  - rewrite watch_handle_eventfd_start by done. rewrite E, fmap_app, fmap_cons.
    rewrite length_app. cbn [length]. rewrite !length_fmap.
    replace (S (length base + S (length more))) with (length (wa_id <$> base) + S (S (length more)))%nat
      by (rewrite length_fmap; lia).
    rewrite (aio_loop_still _ [] (wa_id <$> base) (wa_id o :: (wa_id <$> more))); [|done|by rewrite E, fmap_app, fmap_cons|].
    2:{ intros id Hid. cbn [for_each]. by erewrite bind_done by (by apply Hstill). }
    cbn [head tail]. rewrite (aio_loop_step _ (wa_id o) (wa_id <$> base) (wa_id <$> more) [ev] h w h w').
    + by destruct more as [|y [|z more]].
    + cbn [for_each]. by erewrite bind_done by exact Eo.
    + by rewrite Ea, fmap_app, fmap_cons; rewrite E, fmap_app, fmap_cons in Hn.
    + by rewrite Ea, fmap_app, fmap_cons.
Qed.
End completion.

(** An announcement of the command service. *)
Lemma announcement_ok dec p perif fd from node port f l r rs h w :
  qrtr_lib_services dec -> alloc_ok h -> pf_objs (w_pf w) !! p = Some perif -> ring_typed (pf_recv_buf perif) ->
  fd_script fd w = inr (ctrl_packet QRTR_TYPE_NEW_SERVER_code node port) :: f ->
  e_senders (w_env w) = (from, QRTR_PORT_CTRL) :: l -> 0 <= node < 2 ^ 32 -> 0 <= port < 2 ^ 32 ->
  ~ (node = 0 /\ port = 0) -> e_results (w_env w) = r :: rs -> 0 <= r ->
  exists w', qrtr_cmd_recv dec p fd h w = Done (0, tick h, w') /\
    w_watches w' = write_watch (pf_cmd_fd perif) (QCmd p) (w_watches w) /\ w_queues w' = w_queues w /\
    e_results (w_env w') = rs.
Proof.
  intros Hsvc Hh Hp Hr Hf Hl Hno Hpo Hnz Hres Hr0.
  destruct (datagram_of_bytes (CmdNewServer from node port)) as [Hd Hn]; [done|].
  destruct (ring_datagram _ _ Hr Hd Hn) as (junk & Ew & Hj & Hz & _). cbn [datagram_of snd] in *.
  unfold qrtr_cmd_recv. erewrite bind_done by (by apply get_perif_ok).
  erewrite bind_done by (by apply recvfrom_ok). cbv beta iota zeta.
  erewrite bind_done by (unfold lift; rewrite Ew; reflexivity).
  erewrite bind_done by (by apply (upd_perif_ok p perif)).
  destruct (ctrl_packet_fields QRTR_TYPE_NEW_SERVER_code node port junk ltac:(done) Hno Hpo) as (R1 & R2 & R3).
  rewrite (qs_new dec Hsvc _ (zlen (ctrl_packet QRTR_TYPE_NEW_SERVER_code node port)) (from, QRTR_PORT_CTRL) _ _
    eq_refl ltac:(done) R1 R2 R3). cbn [qp_type qp_node qp_port].
  destruct ((node =? 0) && (port =? 0)) eqn:Ez; [destruct Hnz; lia|].
  erewrite bind_done by apply sys_call_ok. cbn. rewrite Hres. cbn [hd tl].
  rewrite (proj2 (Z.ltb_ge r 0) Hr0). erewrite bind_done by (by apply zoom_done, watch_add_writeq_ok). by eexists.
Qed.

(** C37 A command service that is announced again, without being withdrawn in
    between, makes the program end: let the socket be watched for writing, by
    [o], with one packet in its queue, while the other watches are on other
    descriptors and rest.  The announcement is accepted and adds a second
    watch [x] on the descriptor; the next round submits the packet for [o];
    when it is completed, with any result but [EAGAIN], the watches up to [o]
    are handled, and then [x] is matched to the completion by its descriptor
    and its assertion that a buffer is under way fails.  Without the
    announcement the same submission and completion go through. *)
Theorem duplicate_announcement_aborts dec p perif fd id base b from node port f l r rs h w :
  let o := Watch id (pf_cmd_fd perif) CbFreeWriteAio (Some (QCmd p)) None true None in
  qrtr_lib_services dec -> alloc_ok h -> pf_objs (w_pf w) !! p = Some perif -> ring_typed (pf_recv_buf perif) ->
  ws_aio (w_watches w) = base ++ [o] -> NoDup (wa_id <$> base ++ [o]) ->
  Forall (fun y => wa_id y < ws_fresh (w_watches w))%nat (base ++ [o]) ->
  Forall (not_fd (pf_cmd_fd perif)) base -> Forall (rests w) base ->
  queue_of (w_queues w) (QCmd p) = [b] -> mbuf_ok (w_queues w) b ->
  fd_script fd w = inr (ctrl_packet QRTR_TYPE_NEW_SERVER_code node port) :: f ->
  e_senders (w_env w) = (from, QRTR_PORT_CTRL) :: l -> 0 <= node < 2 ^ 32 -> 0 <= port < 2 ^ 32 ->
  ~ (node = 0 /\ port = 0) -> e_results (w_env w) = r :: 1 :: rs -> 0 <= r ->
  (exists w1 x w2, qrtr_cmd_recv dec p fd h w = Done (0, tick h, w1) /\
    ws_aio (w_watches w1) = base ++ [o; x] /\ wa_fd x = wa_fd o /\ wa_pending_aio x = None /\
    submit_round (tick h) w1 = Done (tt, tick h, w2) /\
    ws_aio (w_watches w2) = base ++ [wa_with_pending (Some b) o; x] /\
    forall res, res <> - EAGAIN ->
      (exists w3, for_each (fun i => aio_event i (IoEvent id res)) (wa_id <$> base ++ [o]) (tick h) w2 = Done (tt, tick h, w3) /\
        aio_event (wa_id x) (IoEvent id res) (tick h) w3 = Exit) /\
      watch_handle_eventfd (Some [IoEvent id res]) (tick h) w2 = Exit) /\
  (exists w2, submit_round h (with_results (1 :: rs) w) = Done (tt, h, w2) /\
    ws_aio (w_watches w2) = base ++ [wa_with_pending (Some b) o] /\
    forall res, res <> - EAGAIN -> exists w3,
      watch_handle_eventfd (Some [IoEvent id res]) h w2 = Done (tt, h, w3) /\ ws_aio (w_watches w3) = base ++ [o]).
Proof.
  intros o Hsvc Hh Hp Hr E Hn Hfresh Hbase Hrests Hb Hok Hf Hl Hno Hpo Hnz Hres Hr0. split.
  - destruct (announcement_ok dec p perif fd from node port f l r (1 :: rs) h w) as (w1 & E1 & Ew & Eq & Eres); try done.
    set (x := Watch (ws_fresh (w_watches w)) (pf_cmd_fd perif) CbFreeWriteAio (Some (QCmd p)) None true None).
    assert (ws_aio (w_watches w1) = base ++ [o; x]) as Ea1 by (rewrite Ew; cbn; by rewrite E, <- app_assoc).
    assert (NoDup (ids w1)) as Hn1.
    { rewrite Ea1. change [o; x] with ([o] ++ [x]). rewrite app_assoc, fmap_app. apply NoDup_app. split; [done|].
      split; [|apply NoDup_singleton]. intros i (y & -> & Hy)%list_elem_of_fmap Hi%list_elem_of_singleton.
      rewrite Forall_forall in Hfresh. specialize (Hfresh y Hy). cbn in Hi. lia. }
    destruct (submit_round_one base o [x] (QCmd p) b rs (tick h) w1) as (w2 & E2 & Ea2 & Efl); try done;
      [unfold rests in *; by rewrite Eq|by constructor|by rewrite Eq|by rewrite Eq|].
    exists w1, x, w2. split_and!; try done. intros res Hres'.
    assert (NoDup (ids w2)) as Hn2 by (rewrite Ea2, fmap_app; by rewrite Ea1, fmap_app in Hn1).
    destruct (completion_handled (wa_with_pending (Some b) o) (IoEvent id res) eq_refl base b [x] (tick h) w2)
      as (w3 & E3 & Ea3 & E4); try done.
    { destruct Hok as [_ Hfl]. unfold flow_ok in *. by rewrite Efl, Eq. }
    assert (aio_event (wa_id x) (IoEvent id res) (tick h) w3 = Exit) as Ex.
    { eapply (event_second o (IoEvent id res) eq_refl o (base ++ [o]) x []); try done.
      - rewrite Ea3, fmap_app. by rewrite Ea1, fmap_app in Hn1.
      - rewrite Ea3. apply elem_of_app. right. apply list_elem_of_here.
      - by rewrite Ea3, <- app_assoc. }
    split; [exists w3; split; [by rewrite fmap_app; rewrite fmap_app in E3|exact Ex]|].
    rewrite E4. cbn [length head tail aio_loop fmap option_fmap option_map for_each].
    apply bind_exit. by apply bind_exit.
  - destruct (submit_round_one base o [] (QCmd p) b rs h (with_results (1 :: rs) w)) as (w2 & E2 & Ea2 & Efl); try done;
      [by rewrite <- E in Hn|].
    exists w2. split_and!; try done. intros res Hres'.
    destruct (completion_handled (wa_with_pending (Some b) o) (IoEvent id res) eq_refl base b [] h w2)
      as (w3 & E3 & Ea3 & E4); try done.
    { by rewrite Ea2, fmap_app; rewrite fmap_app in Hn. }
    { destruct Hok as [_ Hfl]. unfold flow_ok in *. by rewrite Efl. }
    exists w3. by rewrite E4.
Qed.

(** The modem's service, at node 0 and port 7, announced again with a request
    waiting for the command socket, 42. *)
Definition twice : world :=
  over (fun _ => QState {[QCmd 0 := [packet None [75; 18; 0; 0]]]} [])
    (over (fun _ => WState [] [] [Watch 1 42 CbFreeWriteAio (Some (QCmd 0)) None true None] [] false 0 2)
      (over (fun _ => Env {[42 := [inr (ctrl_packet QRTR_TYPE_NEW_SERVER_code 0 7)]]} [0; 1] [(1, QRTR_PORT_CTRL)] [] []) cmd_world)).

Lemma duplicate_announcement_aborts_witness :
  exists w1 w2, qrtr_cmd_recv services_decode 0 42 never_fails twice = Done (0, tick never_fails, w1) /\
    submit_round (tick never_fails) w1 = Done (tt, tick never_fails, w2) /\
    watch_handle_eventfd (Some [IoEvent 1 4]) (tick never_fails) w2 = Exit.
Proof.
  destruct (duplicate_announcement_aborts services_decode 0 qrtr_modem 42 1 [] (packet None [75; 18; 0; 0]) 1 0 7 [] [] 0 []
    never_fails twice) as [(w1 & x & w2 & E1 & _ & _ & _ & E2 & _ & H) _].
  - exact (proj2 services_decode_documented).
  - exact never_fails_alloc_ok.
  - reflexivity.
  - apply zero_typed.
  - reflexivity.
  - apply NoDup_singleton.
  - repeat constructor.
  - constructor.
  - constructor.
  - reflexivity.
  - split; [|done]. split; by apply Z.leb_le.
  - reflexivity.
  - reflexivity.
  - done.
  - done.
  - intros [_ [=]].
  - reflexivity.
  - done.
  - exists w1, w2. split; [exact E1|]. split; [exact E2|]. by apply H.
Defined.
