(* ===== verification/Reached.v ===== *)
(** * Reached: quiet rounds in a run of the program

    [Drain] is about states that look in a certain way.  Here the state is one
    a run of [main] reaches: what the invariants of the other files say of it
    is most of what [Drain] asks for. *)

From S2P Require Import Prelude CircBuf Hdlc Masks Queue Watch World Dm Cntl Peripheral AppCmds CommonCmds Router DmRecv Devnode Qrtr Clients EventLoop Keeps Preserve Flow Refs Validity Stream Packets Drain.

(** ** The read watches are told apart by their identities *)

Record reading (w : world) : Prop := {
  rg_ids : NoDup (wa_id <$> ws_read (w_watches w));
  rg_fresh : Forall (fun x => (wa_id x < ws_fresh (w_watches w))%nat) (ws_read (w_watches w)) }.

(** What the operations on watches do to the read watches. *)
Definition reads_grow (s s' : wstate) : Prop :=
  (ws_fresh s <= ws_fresh s')%nat /\ ws_read s' `sublist_of` ws_read s \/
  (ws_fresh s < ws_fresh s')%nat /\ exists x, ws_read s' = ws_read s ++ [x] /\ wa_id x = ws_fresh s.

Lemma reading_step w s : reads_grow (w_watches w) s -> reading w -> reading (over (fun _ => s) w).
Proof.
  intros Hs [Hn Hf]. rewrite Forall_forall in Hf. split; cbn.
  - destruct Hs as [[_ Hs]|[_ (x & -> & Hx)]]; [eapply sublist_NoDup; [exact Hn|by apply fmap_sublist]|].
    rewrite fmap_app. apply NoDup_app. split_and!; [done| |apply NoDup_singleton].
    intros id (y & -> & Hy)%list_elem_of_fmap E%list_elem_of_singleton. specialize (Hf y Hy). lia.
  - apply Forall_forall. intros y Hy. destruct Hs as [[Hle Hs]|[Hlt (x & Es & Hx)]].
    + specialize (Hf y (sublist_subseteq _ _ Hs _ Hy)). lia.
    + rewrite Es in Hy. apply elem_of_app in Hy as [Hy| ->%list_elem_of_singleton]; [specialize (Hf y Hy)|]; lia.
Qed.

Lemma reading_ext w w' : w_watches w' = w_watches w -> reading w -> reading w'.
Proof. intros E [H1 H2]. split; by rewrite E. Qed.

Lemma keeps_reading {A} (m : M wstate A) :
  (forall h s a h' s', m h s = Done (a, h', s') -> reads_grow s s') -> keeps reading (zoom m).
Proof. intros Hm h w a h' w' Hw (s & E & ->)%zoom_inv. apply reading_step; [|done]. by eapply Hm. Qed.

Lemma keeps_reading_new {A} (f : nat -> M wstate A) :
  (forall id h s a h' s', f id h s = Done (a, h', s') ->
    ws_fresh s' = ws_fresh s /\ (ws_read s' = ws_read s \/ exists x, ws_read s' = ws_read s ++ [x] /\ wa_id x = id)) ->
  keeps reading (zoom (id ← new_watch; f id)).
Proof.
  intros Hf. apply keeps_reading. intros h s a h' s' (id & h1 & s1 & E1 & E2)%bind_done_inv.
  apply new_watch_shape in E1 as [-> ->]. apply Hf in E2 as [En [Er|(x & Er & Hx)]]; cbn in En, Er.
  - left. rewrite En, Er. split; [lia|done].
  - right. rewrite En. split; [lia|]. by exists x.
Qed.

Lemma reading_readfd fd cb flow : keeps reading (zoom (watch_add_readfd fd cb flow)).
Proof. apply keeps_reading_new. intros id h s a h' s' [= _ _ <-]. split; [done|]. right. by eexists. Qed.

Lemma reading_aio fd cb q b : keeps reading (zoom (
  id ← new_watch; _ ← modify (with_aio (fun l => l ++ [Watch id fd cb (Some q) None b None])); mret 0)).
Proof. apply keeps_reading_new. intros id h s a h' s' [= _ _ <-]. split; [done|]. by left. Qed.

Lemma reading_queues {A} (m : M qstate A) : keeps reading (zoom m).
Proof. apply keeps_zoom. intros w s. by apply reading_ext. Qed.

Lemma reading_dm_add name in_fd out_fd enc : keeps reading (dm_add name in_fd out_fd enc).
Proof.
  apply (keeps_new_client _ (fun _ => True)); [done|intros..].
  - apply reading_queues.
  - apply reading_readfd.
  - apply reading_aio.
  - by apply (reading_ext w).
Qed.

#[export] Instance reading_Inv : Inv reading.
Proof.
  split; try (intros; match goal with H : reading ?w |- _ => by apply (reading_ext w) end);
    try (intros; by apply reading_queues); intros.
  - apply reading_readfd.
  - apply reading_aio.
  - apply reading_aio.
  - apply reading_dm_add.
  - apply keeps_reading. intros h s a h' s' E.
    change (Done (tt, h, with_aio (filter (not_fd fd)) (with_read (filter (not_fd fd)) s)) = Done (a, h', s')) in E.
    injection E as _ _ <-. left. split; [done|apply sublist_filter].
  - apply keeps_reading. intros h s a h' s' [= _ _ <-]. by left.
  - apply keeps_reading. unfold watch_add_timer. intros h s a h' s' (u & h1 & s1 & E1 & E)%bind_done_inv.
    apply silent_calloc_or_die in E1 as ->. injection E as _ _ <-. by left.
  - apply reading_step; [|done]. left. split; [done|]. cbn. auto.
Qed.

#[export] Instance reading_ClockInv : ClockInv reading.
Proof.
  split.
  - intros f w. apply reading_step. by left.
  - intros now. apply keeps_modify. intros w. apply reading_step. by left.
Qed.

#[export] Instance reading_LoopInv : LoopInv (fun w => flow_inv w /\ reading w).
Proof.
  assert (forall f w, reading w -> reading (over (with_aio f) w)) as Haio by (intros f w; apply reading_step; by left).
  split.
  - intros id. apply keeps_and; [apply flow_inv_submit|].
    intros h w a h' w' Hw (x & q & e & _ & _ & _ & [[_ ->]|(b & rest & _ & _ & _ & ->)])%submit_shape;
      [by apply (reading_ext w)|]. apply Haio. by apply (reading_ext w).
  - intros. apply keeps_event; [apply _|intros; apply reading_queues|]. apply keeps_modify. intros w. apply Haio.
Qed.

Lemma reading_start e : reading (start e).
Proof. split; constructor. Qed.

(** ** A calm state *)

(** Nothing is being written, and no two write watches share a descriptor or a
    queue. *)
Record calm (w : world) : Prop := {
  ca_aio : Forall (fun x => wa_is_write x = true /\ wa_pending_aio x = None) (ws_aio (w_watches w));
  ca_fds : NoDup (wa_fd <$> ws_aio (w_watches w));
  ca_queues : NoDup (wa_queue <$> ws_aio (w_watches w));
  ca_read : Forall (fun x => 0 <= wa_fd x < FD_SETSIZE) (ws_read (w_watches w));
  ca_go : ws_do_quit (w_watches w) = false }.

Lemma calm_writers w : refs settled w -> flow_inv w -> sized w -> reading w -> calm w -> writers w.
Proof.
  intros Hr Hf Hs Hg [Ha Hfds Hq Hread Hgo]. split; try done; [|apply Hf| |apply Hg].
  - pose proof (fi_aio w Hf) as Hok. rewrite Forall_forall in *. intros x Hx. destruct (Ha x Hx) as [Hw Hp].
    specialize (Hok x Hx). unfold aio_ok in Hok. rewrite Hw in Hok. destruct (rf_aio _ _ Hr x Hx) as (_ & q & Eq & _).
    split_and!; try done. apply Forall_forall. intros b. unfold waiting. rewrite Eq. apply (sz_queue w Hs).
  - rewrite Forall_forall in *. intros x Hx. split; [apply (rf_read _ _ Hr x Hx)|by apply Hread].
Qed.

(** ** Runs and their continuations *)

(** The system never makes [select] fail. *)
Definition selects (r : round) : Prop := forall fds t, exists ready, rd_select r fds t = inr ready.

Section runs.
Context (dec : bytes -> Z -> Z * Z -> Z + qrtr_packet) (ffs_size : Z) (ffs_type : bytes -> ffs_event) (fuel n : nat).

Lemma round_goes_on r h w go h' w' :
  selects r -> watch_round dec ffs_size ffs_type fuel n r h w = Done (go, h', w') -> go = true.
Proof.
  intros Hr. unfold watch_round. do 7 (intros (? & ? & ? & _ & E)%bind_done_inv; revert E; cbv zeta).
  edestruct Hr as [ready Er]. rewrite Er. do 3 (intros (? & ? & ? & _ & E)%bind_done_inv; revert E). by intros [= <- _ _].
Qed.

(** The rounds that follow continue where the first ones ended. *)
Lemma watch_loop_app rs1 rs2 h w h1 w1 :
  Forall selects rs1 -> watch_loop dec ffs_size ffs_type fuel n rs1 h w = Done (tt, h1, w1) ->
  ws_do_quit (w_watches w1) = false ->
  watch_loop dec ffs_size ffs_type fuel n (rs1 ++ rs2) h w = watch_loop dec ffs_size ffs_type fuel n rs2 h1 w1.
Proof.
  intros Hrs. revert h w. induction Hrs as [|r rs1 Hr _ IH]; intros h w E Hgo; cbn [watch_loop app] in *.
  - rewrite (bind_done _ _ _ _ w h w) in E by done. destruct (ws_do_quit _); by injection E as <- <-.
  - rewrite (bind_done _ _ _ _ w h w) in E by done. rewrite (bind_done _ _ _ _ w h w) by done.
    destruct (ws_do_quit (w_watches w)) eqn:Hq; [injection E as <- <-; congruence|].
    apply bind_done_inv in E as (go & h2 & w2 & E2 & E). rewrite (bind_done _ _ _ _ _ _ _ E2).
    apply round_goes_on in E2 as ->; [|done]. by apply IH.
Qed.

(** A run of the program: what starts it, the rounds, nothing at the end. *)
Lemma main_loop m udev devs fd rs h e h1 w1 :
  main dec ffs_size ffs_type fuel m udev devs fd n rs h (start e) = Done (tt, h1, w1) ->
  exists h0 w0, watch_loop dec ffs_size ffs_type fuel n rs h0 w0 = Done (tt, h1, w1) /\ refs settled w0 /\
    forall rs' h' w', watch_loop dec ffs_size ffs_type fuel n rs' h0 w0 = Done (tt, h', w') ->
      main dec ffs_size ffs_type fuel m udev devs fd n rs' h (start e) = Done (tt, h', w').
Proof.
  unfold main. intros ([] & ha & wa & Ea & E)%bind_done_inv.
  assert (refs settled wa) as Hra by (eapply refs_diag_start; [apply refs_start|exact Ea]).
  unfold watch_run in E. apply bind_done_inv in E as (ev & hb & wb & Eb & E). destruct (ev <? 0) eqn:Hev; [done|].
  assert (refs settled wb) as Hrb by (by eapply refs_call).
  apply bind_done_inv in E as (io & hc & wc & Ec & E). destruct (io <? 0) eqn:Hio; [done|].
  assert (refs settled wc) as Hrc by (by eapply refs_call).
  apply bind_done_inv in E as ([] & hd & wd & Ed & E).
  assert (forall rs' h' w', watch_loop dec ffs_size ffs_type fuel n rs' hc wc = Done (tt, h', w') -> ws_quit (w_watches w') = []) as Hquit.
  { intros rs' h' w' E'. eapply rf_quit, refs_loop; [exact Hrc|exact E']. }
  exists hc, wc. rewrite (bind_done _ _ _ _ wd hd wd), (Hquit _ _ _ Ed) in E by done. injection E as <- <-.
  split; [done|]. split; [done|]. intros rs' h' w' E'. erewrite bind_done by exact Ea. unfold watch_run.
  erewrite bind_done by exact Eb. rewrite Hev. erewrite bind_done by exact Ec. rewrite Hio. erewrite bind_done by exact E'.
  erewrite bind_done by done. by rewrite (Hquit _ _ _ E').
Qed.
(** What every state a run reaches satisfies. *)
Lemma run_invariants m udev devs fd rs h e h1 w1 :
  main dec ffs_size ffs_type fuel m udev devs fd n rs h (start e) = Done (tt, h1, w1) ->
  refs settled w1 /\ flow_inv w1 /\ sized w1 /\ reading w1.
Proof.
  intros E. assert (refs settled w1) as Hr by (eapply refs_main; [apply refs_start|exact E]).
  assert (flow_inv w1 /\ sized w1) as [Hf Hs].
  { eapply (main_keeps (fun w => flow_inv w /\ sized w)); [|exact E]. split; [apply flow_inv_start|apply sized_start]. }
  assert (flow_inv w1 /\ reading w1) as [_ Hg]; [|done].
  eapply (main_keeps (fun w => flow_inv w /\ reading w)); [|exact E]. split; [apply flow_inv_start|apply reading_start].
Qed.

(** A round and what follows it. *)
Lemma loop_round r rs h w h1 w1 :
  ws_do_quit (w_watches w) = false -> watch_round dec ffs_size ffs_type fuel n r h w = Done (true, h1, w1) ->
  watch_loop dec ffs_size ffs_type fuel n (r :: rs) h w = watch_loop dec ffs_size ffs_type fuel n rs h1 w1.
Proof. intros Hq E. cbn [watch_loop]. erewrite bind_done by done. rewrite Hq. by erewrite bind_done by exact E. Qed.

Lemma one_round r h w h1 w1 :
  ws_do_quit (w_watches w) = false -> watch_round dec ffs_size ffs_type fuel n r h w = Done (true, h1, w1) ->
  watch_loop dec ffs_size ffs_type fuel n [r] h w = Done (tt, h1, w1).
Proof.
  intros Hq E. rewrite (loop_round _ _ _ _ _ _ Hq E). cbn [watch_loop].
  rewrite (bind_done _ _ _ _ w1 h1 w1) by done. destruct (ws_do_quit (w_watches w1)); reflexivity.
Qed.
End runs.

(** ** Properties *)

(** C11 What is queued for a write watch is written: take any run of the
    program to a [calm] state, one in which nothing is being written, no two
    write watches share a descriptor or a queue, the descriptors that are read
    fit a descriptor set and no end of the run was asked for.  When in the
    rounds that follow no descriptor is ready, the kernel takes what is
    submitted and exactly the writes under way are completed, the same run goes
    on through them; and once there were as many as the longest queue of a
    write watch holds packets, the queue of every write watch is empty, and the
    kernel was handed every packet that waited in it, in order.  A queue that no
    watch writes (of a QRTR peripheral that is not connected, or of a monitor
    that hung up) is not among them. *)
Theorem run_drains_queues dec ffs_size ffs_type fuel n m udev devs fd rs rs' h e h1 w1 :
  main dec ffs_size ffs_type fuel m udev devs fd n rs h (start e) = Done (tt, h1, w1) -> Forall selects rs -> calm w1 ->
  (forall i r, rs' !! i = Some r -> completes w1 i r) -> Forall (eq 1) (e_results (w_env w1)) ->
  (length (ws_aio (w_watches w1)) * length rs' <= length (e_results (w_env w1)))%nat ->
  (length (ws_read (w_watches w1)) <= n)%nat ->
  (forall x, x ∈ ws_aio (w_watches w1) -> (length (waiting w1 x) <= length rs')%nat) ->
  exists w2, main dec ffs_size ffs_type fuel m udev devs fd n (rs ++ rs') h (start e) = Done (tt, h1, w2) /\
    forall x, x ∈ ws_aio (w_watches w1) ->
      waiting w2 x = [] /\ sent (wa_id x) w2 = sent (wa_id x) w1 ++ (wire <$> waiting w1 x).
Proof.
  intros E Hrs Hc Hcomp Hone Hlen Hn Hlong.
  destruct (run_invariants dec ffs_size ffs_type fuel n m udev devs fd rs h e h1 w1 E) as (Hr & Hf & Hs & Hg).
  destruct (main_loop dec ffs_size ffs_type fuel n m udev devs fd rs h e h1 w1 E) as (h0 & w0 & E0 & _ & Hmain).
  destruct (queues_drain dec ffs_size ffs_type fuel n rs' h1 w1 (calm_writers w1 Hr Hf Hs Hg Hc) Hcomp Hone Hlen Hn Hlong)
    as (w2 & E2 & H2).
  exists w2. split; [|exact H2]. apply Hmain.
  by rewrite (watch_loop_app dec ffs_size ffs_type fuel n rs rs' h0 w0 h1 w1 Hrs E0 (ca_go w1 Hc)).
Qed.
