(* ===== verification/Typed.v ===== *)
(** * Typed: the state is well typed in every run

    The receive state of every peripheral is a ring and a decoder of bytes, and
    every client has one of the three encodings; clients are only added, and
    keep their name and their descriptors. *)

From S2P Require Import Prelude CircBuf Hdlc Masks Queue Watch World Dm Cntl Peripheral DataPath AppCmds CommonCmds Router DmRecv Devnode Qrtr Clients EventLoop Keeps Preserve Flow Refs Validity Reached.

(** ** The invariant *)

Section typed.
(** The clients there were before. *)
Context (cs : list diag_client).

Record typed (w : world) : Prop := {
  ty_perifs : all_typed (w_pf w);
  ty_clients : clients_ok w;
  ty_kept c dm : cs !! c = Some dm -> exists dm', dm_clients (w_dm w) !! c = Some dm' /\ dm_alike dm dm' }.

Lemma typed_ext w w' : w_pf w' = w_pf w -> w_dm w' = w_dm w -> typed w -> typed w'.
Proof. intros E1 E2 [H1 H2 H3]. split; [by rewrite E1|intros c dm; rewrite E2; apply H2|by rewrite E2]. Qed.

Lemma typed_watches {A} (m : M wstate A) : keeps typed (zoom m).
Proof. apply keeps_zoom. intros f w. by apply typed_ext. Qed.
Lemma typed_queues {A} (m : M qstate A) : keeps typed (zoom m).
Proof. apply keeps_zoom. intros f w. by apply typed_ext. Qed.

Lemma typed_dm f w : keeps_clients f -> typed w -> typed (over f w).
Proof.
  intros Hf [H1 H2 H3]. specialize (Hf (w_dm w)). split; [done| |].
  - intros c dm' Hc. destruct (Forall2_lookup_r _ _ _ _ _ Hf Hc) as (dm & Edm & Hdm). by apply Hdm, (H2 c).
  - intros c dm Hc. destruct (H3 c dm Hc) as (dm1 & E1 & Hdm1).
    destruct (Forall2_lookup_l _ _ _ _ _ Hf E1) as (dm2 & E2 & Hdm2). exists dm2. split; [done|]. by trans dm1.
Qed.

(** A new client is raw or HDLC. *)
Lemma typed_dm_add name in_fd out_fd enc : keeps typed (dm_add name in_fd out_fd enc).
Proof.
  apply (keeps_new_client _ (fun _ => True)); [done|intros..].
  - apply typed_queues.
  - apply typed_watches.
  - apply typed_watches.
  - destruct H0 as [H1 H2 H3]. split; [done| |].
    + intros c d. cbn. intros [Hc|[_ [_ <-]%list_lookup_singleton_Some]]%lookup_app_Some; [by apply (H2 c)|done].
    + intros c d Hc. destruct (H3 c d Hc) as (d' & E' & Hd). exists d'. split; [|done]. cbn. by apply lookup_app_l_Some.
Qed.

#[export] Instance typed_Inv : Inv typed.
Proof.
  split; try (intros; match goal with H : typed ?w |- _ => by apply (typed_ext w) end);
    try (intros; by apply typed_queues); try (intros; by apply typed_watches).
  - intros f w Hf [H1 H2 H3]. split; auto.
  - intros f w. apply typed_dm.
  - apply typed_dm_add.
Qed.

#[export] Instance typed_ClockInv : ClockInv typed.
Proof.
  split; [intros f w; by apply typed_ext|]. intros now. apply keeps_modify. intros w. by apply typed_ext.
Qed.

#[export] Instance typed_LoopInv : LoopInv (fun w => flow_inv w /\ typed w).
Proof.
  split.
  - intros id. apply keeps_and; [apply flow_inv_submit|].
    intros h w a h' w' Hw (x & q & e & _ & _ & _ & [[_ ->]|(b & rest & _ & _ & _ & ->)])%submit_shape; by apply (typed_ext w).
  - intros. apply keeps_event; [apply _|intros; apply typed_queues|]. apply keeps_modify. intros w. by apply typed_ext.
Qed.
End typed.

Lemma typed_start e : typed [] (start e).
Proof. split; [by intros p x Hx|by intros c dm Hc|by intros c dm Hc]. Qed.

(** A state that is typed is so relative to itself. *)
Lemma typed_from cs w : typed cs w -> typed (dm_clients (w_dm w)) w.
Proof. intros [H1 H2 H3]. split; [done..|]. intros c dm Hc. by exists dm. Qed.

(** ** In a run *)

Section run.
Context (dec : bytes -> Z -> Z * Z -> Z + qrtr_packet) (ffs_size : Z) (ffs_type : bytes -> ffs_event) (fuel n : nat).

Lemma run_typed m udev devs fd rs h e h1 w1 :
  main dec ffs_size ffs_type fuel m udev devs fd n rs h (start e) = Done (tt, h1, w1) -> typed [] w1.
Proof.
  intros E. assert (flow_inv w1 /\ typed [] w1) as [_ Ht]; [|done].
  eapply (main_keeps (fun w => flow_inv w /\ typed [] w)); [|exact E]. split; [apply flow_inv_start|apply typed_start].
Qed.

Lemma loop_typed rs h w h1 w1 cs :
  flow_inv w -> typed cs w -> watch_loop dec ffs_size ffs_type fuel n rs h w = Done (tt, h1, w1) -> typed cs w1.
Proof.
  intros Hf Ht E. assert (flow_inv w1 /\ typed cs w1) as [_ Ht1]; [|done].
  by eapply (watch_loop_keeps (fun w => flow_inv w /\ typed cs w)); [|exact E].
Qed.
End run.

(** A client whose encoding is one of the three is never refused a message. *)
Lemma dm_send_accepted c dm msg len flow h w r h' w' :
  dm_clients (w_dm w) !! c = Some dm -> client_ok dm -> dm_send_flow c msg len flow h w = Done (r, h', w') -> r = 0.
Proof.
  intros Hc Ht. unfold dm_send_flow. erewrite bind_done by (by apply get_client_ok).
  destruct (negb (dm_enabled dm)); [by intros [= <- _ _]|].
  destruct Ht as [->|[->| ->]]; cbn [Z.eqb DIAG_ENCODE_RAW DIAG_ENCODE_HDLC DIAG_ENCODE_NHDLC Pos.eqb];
    by intros (? & ? & ? & _ & [= <- _ _])%bind_done_inv.
Qed.

(** ** Properties *)

(** C8 The state stays well typed: take any run of the program and any rounds
    that follow it.  The ring and the decoder of every peripheral have their
    positions inside their arrays and hold nothing but bytes; every client has
    one of the three encodings, so no message for it is refused; and the
    clients there were at first are still there, under the same number, with
    the same name and the same descriptors. *)
Theorem run_stays_typed dec ffs_size ffs_type fuel n m udev devs fd rs rs' h e h1 w1 h2 w2 :
  main dec ffs_size ffs_type fuel m udev devs fd n rs h (start e) = Done (tt, h1, w1) ->
  watch_loop dec ffs_size ffs_type fuel n rs' h1 w1 = Done (tt, h2, w2) ->
  (forall p x, pf_objs (w_pf w2) !! p = Some x -> recv_typed x) /\
  (forall c dm, dm_clients (w_dm w2) !! c = Some dm -> client_ok dm /\
     forall msg len flow h3 r h4 w4, dm_send_flow c msg len flow h3 w2 = Done (r, h4, w4) -> r = 0) /\
  (forall c dm, dm_clients (w_dm w1) !! c = Some dm -> exists dm', dm_clients (w_dm w2) !! c = Some dm' /\
     dm_name dm' = dm_name dm /\ dm_in_fd dm' = dm_in_fd dm /\ dm_out_fd dm' = dm_out_fd dm).
Proof.
  intros E1 E2. destruct (run_invariants dec ffs_size ffs_type fuel n m udev devs fd rs h e h1 w1 E1) as (_ & Hf & _).
  pose proof (typed_from _ _ (run_typed dec ffs_size ffs_type fuel n m udev devs fd rs h e h1 w1 E1)) as Ht.
  destruct (loop_typed dec ffs_size ffs_type fuel n rs' h1 w1 h2 w2 _ Hf Ht E2) as [Hp Hc Hk].
  split; [done|]. split.
  - intros c dm Hdm. split; [by apply (Hc c)|]. intros. eapply dm_send_accepted; [exact Hdm|by apply (Hc c)|done].
  - intros c dm Hdm. destruct (Hk c dm Hdm) as (dm' & E' & H1 & H2 & H3 & _). exists dm'. by split_and!.
Qed.
