(* ===== verification/EndToEnd.v ===== *)
(** * EndToEnd: from a peripheral's channel to the kernel

    The pieces of the data path put together: the round of the event loop in
    which a peripheral's channel is ready ([DataPath]) and the quiet rounds that
    follow it ([Drain]). *)

From S2P Require Import Prelude CircBuf Hdlc Masks Queue Watch World Dm Cntl Peripheral AppCmds CommonCmds Router DmRecv Devnode Qrtr Clients EventLoop Keeps Preserve Flow Surplus DataPath Refs Validity Stream Packets Drain Reached Typed.

(** ** An idle router *)

(** Nothing waits for any of the watches. *)
Definition idle (w : world) : Prop := forall x, x ∈ ws_aio (w_watches w) -> waiting w x = [].

(** A watch [select] is asked for. *)
Definition unblocked (w : world) (x : watch) : Prop :=
  forall f, wa_flow x = Some f -> counter f w <= FLOW_WATERMARK.

(** With nothing to write, submitting does nothing. *)
Lemma submit_idle h w : writers w -> idle w -> submit_round h w = Done (tt, h, w).
Proof.
  intros Hw Hi. unfold submit_round. erewrite bind_done by done.
  assert (forall l, l ⊆ ws_aio (w_watches w) ->
    for_each (fun id => x ← get_aio id; q ← deref (wa_queue x); s ← get;
      match queue_of (w_queues s) q, wa_pending_aio x with
      | _ :: _, None => watch_submit_aio id
      | _, _ => mret tt
      end) (wa_id <$> l) h w = Done (tt, h, w)) as H; [|by apply H].
  induction l as [|x l IH]; intros Hl; [done|]. cbn [fmap list_fmap for_each].
  assert (x ∈ ws_aio (w_watches w)) as Hx by apply Hl, list_elem_of_here.
  pose proof (wr_aio w Hw) as Haio. rewrite Forall_forall in Haio. destruct (Haio x Hx) as (_ & _ & _ & [q Hq] & _).
  erewrite bind_done; [apply IH; intros y Hy; by apply Hl, list_elem_of_further|].
  erewrite bind_done by (by apply get_aio_ok, find_watch_in; [apply Hw|]). rewrite Hq.
  erewrite bind_done by done. erewrite bind_done by done.
  specialize (Hi x Hx). rewrite (waiting_queue w x q Hq) in Hi. by rewrite Hi.
Qed.

(** A watch that is not blocked is asked for. *)
Lemma select_asks w l x h fds :
  Forall (listener w) l -> x ∈ l -> unblocked w x -> select_fds l h w = Done (fds, h, w) -> wa_fd x ∈ fds.
Proof.
  intros Hl Hx Hb. revert fds. induction Hl as [|y l [Hy Hfd] Hl IH]; intros fds E; [by apply not_elem_of_nil in Hx|].
  destruct (select_ok w l h Hl) as [fds' E']. cbn [select_fds] in E.
  assert (exists b, watch_flow_blocked (wa_flow y) h (w_queues w) = Done (b, h, w_queues w) /\
    (unblocked w y -> b = false)) as (b & Eb & Hyb).
  { unfold watch_flow_blocked, unblocked, counter. destruct (wa_flow y) as [f|]; [|by exists false]. destruct Hy as [c Hc].
    mrun. rewrite Hc. eexists. split; [done|]. intros Hf. specialize (Hf f eq_refl). rewrite Hc in Hf. cbn in Hf.
    by apply Z.ltb_ge. }
  erewrite bind_done in E by (erewrite zoom_done by exact Eb; rewrite over_view by done; reflexivity).
  rewrite (proj2 (Z.leb_le 0 _)), (proj2 (Z.ltb_lt _ FD_SETSIZE)) in E by lia. cbn [andb] in E.
  assert (fds = if b then fds' else wa_fd y :: fds') as ->.
  { destruct b; [congruence|]. rewrite (bind_done _ _ _ _ _ _ _ E') in E. by injection E as <-. }
  apply elem_of_cons in Hx as [->|Hx].
  - rewrite (Hyb Hb). apply list_elem_of_here.
  - specialize (IH Hx _ E'). destruct b; [done|by apply list_elem_of_further].
Qed.

(** ** The round that reads *)

(** A channel's messages leave the watches ready to write them. *)
Lemma received_waiting p msgs w w' x q :
  received p msgs w w' -> idle w -> x ∈ ws_aio (w_watches w) -> wa_queue x = Some q ->
  Forall (sound (w_queues w')) (waiting w' x) /\
  mb_data <$> waiting w' x =
    match q with
    | QClient c => match dm_clients (w_dm w) !! c with
                   | Some dm => if dm_enabled dm then encoded (dm_encode_type dm) <$> msgs else []
                   | None => mb_data <$> waiting w' x
                   end
    | _ => []
    end.
Proof.
  intros Hr Hi Hx Hq. specialize (Hi x Hx). rewrite (waiting_queue w x q Hq) in Hi.
  rewrite (waiting_queue w' x q Hq). split; [apply (rc_sound _ _ _ _ Hr); rewrite Hi; constructor|].
  fold (payloads (w_queues w') q). assert (payloads (w_queues w) q = []) as E by (unfold payloads; by rewrite Hi).
  destruct q as [c| | | |]; [|by rewrite (rc_queues _ _ _ _ Hr), E..].
  destruct (dm_clients (w_dm w) !! c) as [dm|] eqn:Ec; [|done].
  by rewrite (rc_clients _ _ _ _ Hr c dm Ec), E.
Qed.

Lemma sound_mbuf_ok s b : sound s b -> mbuf_ok s b.
Proof. intros [Hs Hf]. split; [rewrite Hs; pose proof (zlen_nonneg (mb_data b)); lia|done]. Qed.

Lemma sound_wires s l : Forall (sound s) l -> wire <$> l = mb_data <$> l.
Proof.
  induction 1 as [|b l [Hb _] _ IH]; [done|]. cbn. rewrite IH. unfold wire. rewrite Hb. by rewrite slice_0_all.
Qed.

Lemma received_writers p msgs w w' : received p msgs w w' -> idle w -> writers w -> writers w'.
Proof.
  intros Hr Hi [H1 H2 H3 H4 H5 H6 H7]. destruct (rc_rest _ _ _ _ Hr) as (_ & Ew & _).
  split; rewrite ?Ew; try done.
  - rewrite Forall_forall in *. intros x Hx. destruct (H1 x Hx) as (? & ? & ? & [q Hq] & _). split_and!; try done.
    destruct (received_waiting _ _ _ _ x q Hr Hi Hx Hq) as [Hs _]. eapply Forall_impl; [exact Hs|apply sound_mbuf_ok].
  - eapply Forall_impl; [exact H5|]. intros x [Hf Hx]. split; [by apply (rc_flow _ _ _ _ Hr)|done].
Qed.

(** What the clients are to be given for the messages. *)
Definition replies_for (w : world) (msgs : list bytes) (x : watch) : list bytes :=
  match wa_queue x with
  | Some (QClient c) => match dm_clients (w_dm w) !! c with
                        | Some dm => if dm_enabled dm then encoded (dm_encode_type dm) <$> msgs else []
                        | None => []
                        end
  | _ => []
  end.

(** Every client watch is the watch of a client in the list. *)
Definition owned (w : world) : Prop :=
  forall x c, x ∈ ws_aio (w_watches w) -> wa_queue x = Some (QClient c) -> is_Some (dm_clients (w_dm w) !! c).

Lemma refs_owned w : refs settled w -> owned w.
Proof.
  intros Hr y c Hy Hq. destruct (rf_aio _ _ Hr y Hy) as (_ & q & Eq & Hqok). rewrite Hq in Eq. injection Eq as <-.
  by apply lookup_lt_is_Some.
Qed.

Lemma received_wires p msgs w w' x :
  received p msgs w w' -> writers w -> idle w -> owned w -> x ∈ ws_aio (w_watches w) ->
  wire <$> waiting w' x = replies_for w msgs x.
Proof.
  intros Hr Hw Hi Ho Hx. pose proof (wr_aio w Hw) as Haio. rewrite Forall_forall in Haio.
  destruct (Haio x Hx) as (_ & _ & _ & [q Hq] & _). destruct (received_waiting _ _ _ _ x q Hr Hi Hx Hq) as [Hs Hd].
  rewrite (sound_wires _ _ Hs), Hd. unfold replies_for. rewrite Hq. destruct q as [c| | | |]; try done.
  by destruct (Ho x c Hx Hq) as [dm ->].
Qed.

(** A round in which [fd] alone is ready. *)
Definition reports (fd : Z) (r : round) : Prop := (forall fds t, rd_select r fds t = inr [fd]) /\ rd_evfd r = false.

Section loop.
Context (dec : bytes -> Z -> Z * Z -> Z + qrtr_packet) (ffs_size : Z) (ffs_type : bytes -> ffs_event) (fuel : nat).

(** A round in which one descriptor is ready is a call of its callback. *)
Lemma reading_round n r pre x suf h w h1 w1 :
  writers w -> idle w -> reports (wa_fd x) r -> ws_read (w_watches w) = pre ++ x :: suf ->
  Forall (fun y => wa_fd y <> wa_fd x) (pre ++ suf) -> (length (pre ++ x :: suf) <= n)%nat -> unblocked w x ->
  run_cb dec ffs_size ffs_type fuel (wa_cb x) (wa_fd x) h (at_time (rd_woke r) w) = Done (0, h1, w1) ->
  w_watches w1 = w_watches (at_time (rd_woke r) w) ->
  watch_round dec ffs_size ffs_type fuel n r h w = Done (true, h1, w1).
Proof.
  intros Hw Hi [Hsel Hev] El Hothers Hn Hb Hcb Ew. set (w0 := at_time (rd_now r) w).
  assert (writers w0) as Hw0 by (by destruct Hw).
  unfold watch_round. rewrite (bind_done _ _ _ _ tt h w0) by done. erewrite bind_done by done.
  destruct (select_ok w0 (ws_read (w_watches w0)) h (wr_read _ Hw0)) as [fds Ef]. erewrite bind_done by exact Ef.
  assert (wa_fd x ∈ fds) as Hx.
  { apply (select_asks w0 _ x h fds (wr_read _ Hw0)); [|done|exact Ef]. cbn. rewrite El. apply elem_of_app. right. apply list_elem_of_here. }
  erewrite bind_done by (apply submit_idle; [done|exact Hi]). erewrite bind_done by done.
  destruct (select_timeout_ok (w_watches w0) h w0) as [t Et]. erewrite bind_done by exact Et.
  rewrite (bind_done _ _ _ _ tt h (at_time (rd_woke r) w)) by done.
  rewrite Hsel, Hev. cbv zeta. rewrite filter_cons, filter_nil, decide_True by done. cbn [zlen length].
  change (Z.of_nat 1 =? 0) with false. cbn [andb]. erewrite bind_done by done. erewrite bind_done by done.
  set (w2 := at_time (rd_woke r) w) in *. assert (writers w2) as Hw2 by (by destruct Hw).
  assert (ws_read (w_watches w2) = pre ++ x :: suf) as El2 by exact El.
  erewrite bind_done; [done|]. rewrite read_round_start, El2 by apply Hw2.
  apply (read_loop_one dec ffs_size ffs_type fuel n [] pre x suf h w2 h1 w1); try done. apply Hw2.
Qed.

(** The peripheral's channel and its watch. *)
Record channel_watch (w : world) (p : nat) (perif : peripheral) (pre : list watch) (x : watch) (suf : list watch) : Prop := {
  cw_split : ws_read (w_watches w) = pre ++ x :: suf;
  cw_alone : Forall (fun y => wa_fd y <> wa_fd x) (pre ++ suf);
  cw_cb : wa_cb x = CbRpmsgDataRecv p;
  cw_open : unblocked w x;
  cw_encoded : has_feature perif DIAG_FEATURE_APPS_HDLC_ENCODE = false }.

Lemma data_round n r p perif pre x suf acc esc s pos h w :
  writers w -> idle w -> owned w -> clients_ok w -> alloc_ok h ->
  channel_watch w p perif pre x suf -> flow_ok (pf_flow perif) (w_queues w) -> reports (wa_fd x) r ->
  (length (ws_read (w_watches w)) <= n)%nat ->
  at_rest p perif acc esc s pos w -> bytes_ok acc -> is_byte esc -> bytes_ok s ->
  script_errno (fd_script (wa_fd x) w) = EAGAIN ->
  fits (hdlc_stream acc esc (s ++ script_data (fd_script (wa_fd x) w))) ->
  (S (script_size (fd_script (wa_fd x) w)) < fuel)%nat ->
  exists k w1 s1 s2, watch_round dec ffs_size ffs_type fuel n r h w = Done (true, steps k h, w1) /\
    s ++ script_data (fd_script (wa_fd x) w) = s1 ++ s2 /\ fd_script (wa_fd x) w1 = script_rest (fd_script (wa_fd x) w) /\
    (forall f j, surplus f j w -> surplus f j w1) /\
    match hdlc_stream acc esc s1 with
    | (fs, acc', esc') =>
        received p (frame_msg <$> fs) (at_time (rd_woke r) w) w1 /\
        at_rest p perif acc' esc' s2 ((pos + zlen (script_data (fd_script (wa_fd x) w))) mod HDLC_BUF_SIZE) w1
    end.
Proof.
  intros Hw Hi Ho Hcl Hh [El Hal Hcb Hb He] Hf Hr Hn Hrest Ha Hesc Hs Herr Hfit Hfuel.
  destruct (data_recv_loop fuel p perif (wa_fd x) acc esc s pos h (at_time (rd_woke r) w))
    as (k & w1 & s1 & s2 & E & Es & Ef & H); try done.
  { change (fd_script _ (at_time _ w)) with (fd_script (wa_fd x) w). case_decide; lia. }
  exists k, w1, s1, s2. split; [|split; [done|split; [done|split; [|done]]]].
  2:{ intros f j Hj. eapply surplus_data_recv; [by apply surplus_now|exact E]. }
  apply (reading_round n r pre x suf h w (steps k h) w1); try done; [by rewrite <- El| |].
  - rewrite Hcb. cbn [run_cb]. unfold diag_data_recv. destruct Hrest as [(d & b & Hp & _) _].
    erewrite bind_done by (by apply get_perif_ok). change (has_feature (pf_with_recv b d perif)) with (has_feature perif).
    rewrite He. erewrite bind_done by exact E. change (fd_script (wa_fd x) (at_time (rd_woke r) w)) with (fd_script (wa_fd x) w).
    rewrite Herr. by erewrite bind_done by done.
  - destruct (hdlc_stream acc esc s1) as [[fs acc'] esc']. destruct H as [H _]. apply (rc_rest _ _ _ _ H).
Qed.
End loop.

(** ** The rounds together *)

(** From a peripheral's channel to the kernel: an idle router whose
    peripheral's data channel alone becomes ready reads the bytes there are,
    however they are cut, and stays ready to write; and when the kernel then
    takes and completes the writes, for as many quiet rounds as the longest
    queue has packets, it is handed, on every enabled client's descriptor, the
    message of each complete frame once, in order, in the client's encoding,
    and nothing on any other descriptor; after them the router is idle. *)
Lemma frames_reach_the_kernel dec ffs_size ffs_type fuel n r p perif pre x suf acc esc s pos h w :
  writers w -> idle w -> owned w -> clients_ok w -> alloc_ok h ->
  channel_watch w p perif pre x suf -> flow_ok (pf_flow perif) (w_queues w) -> reports (wa_fd x) r ->
  (length (ws_read (w_watches w)) <= n)%nat ->
  at_rest p perif acc esc s pos w -> bytes_ok acc -> is_byte esc -> bytes_ok s ->
  script_errno (fd_script (wa_fd x) w) = EAGAIN ->
  fits (hdlc_stream acc esc (s ++ script_data (fd_script (wa_fd x) w))) ->
  (S (script_size (fd_script (wa_fd x) w)) < fuel)%nat ->
  Forall (eq 1) (e_results (w_env w)) ->
  exists k w1 s1 s2, watch_round dec ffs_size ffs_type fuel n r h w = Done (true, steps k h, w1) /\
    s ++ script_data (fd_script (wa_fd x) w) = s1 ++ s2 /\ fd_script (wa_fd x) w1 = script_rest (fd_script (wa_fd x) w) /\
    (forall f j, surplus f j w -> surplus f j w1) /\
    match hdlc_stream acc esc s1 with
    | (fs, acc', esc') =>
        received p (frame_msg <$> fs) (at_time (rd_woke r) w) w1 /\
        at_rest p perif acc' esc' s2 ((pos + zlen (script_data (fd_script (wa_fd x) w))) mod HDLC_BUF_SIZE) w1 /\
        (forall y, y ∈ ws_aio (w_watches w) -> (length (waiting w1 y) <= length fs)%nat) /\
        forall rs, (forall i r', rs !! i = Some r' -> completes w1 i r') ->
        (forall y, y ∈ ws_aio (w_watches w) -> (length (waiting w1 y) <= length rs)%nat) ->
        (length (ws_aio (w_watches w)) * length rs <= length (e_results (w_env w)))%nat ->
        exists w2, watch_loop dec ffs_size ffs_type fuel n rs (steps k h) w1 = Done (tt, steps k h, w2) /\
          aside w1 w2 /\ same_watches w w2 /\
          (exists j, (j <= length (ws_aio (w_watches w)) * length rs)%nat /\ e_results (w_env w2) = drop j (e_results (w_env w))) /\
          forall y, y ∈ ws_aio (w_watches w) ->
            waiting w2 y = [] /\ sent (wa_id y) w2 = sent (wa_id y) w ++ replies_for w (frame_msg <$> fs) y
    end.
Proof.
  intros Hw Hi Ho Hcl Hh Hx Hf Hr Hn Hrest Ha Hesc Hs Herr Hfit Hfuel Hone.
  destruct (data_round dec ffs_size ffs_type fuel n r p perif pre x suf acc esc s pos h w)
    as (k & w1 & s1 & s2 & E & Es & Ef & Hsl & H); try done.
  exists k, w1, s1, s2. do 4 (split; [done|]). destruct (hdlc_stream acc esc s1) as [[fs acc'] esc'].
  destruct H as [Hrec Hrest']. split; [done|]. split; [done|].
  set (w0 := at_time (rd_woke r) w) in *. assert (writers w0) as Hw0 by (by destruct Hw).
  destruct (rc_rest _ _ _ _ Hrec) as (_ & Ew & _). destruct (rc_kernel _ _ _ _ Hrec) as [Er Ea].
  assert (forall y, y ∈ ws_aio (w_watches w) -> wire <$> waiting w1 y = replies_for w (frame_msg <$> fs) y) as Hwire.
  { intros y Hy. by eapply (received_wires p _ w0). }
  split.
  { intros y Hy. rewrite <- (length_fmap wire), Hwire by done. unfold replies_for. repeat case_match; rewrite ?length_fmap; cbn; lia. }
  intros rs Hc Hl Hres.
  destruct (quiet_loop dec ffs_size ffs_type fuel n rs (steps k h) w1) as (w2 & E2 & Has & Hsame & Hdrop & H2).
  { by eapply received_writers. } { done. } { by rewrite Er. } { by rewrite Ew, Er. } { by rewrite Ew. }
  exists w2. unfold same_watches in *. rewrite Ew in Hsame, Hdrop. rewrite Er in Hdrop. do 4 (split; [done|]).
  intros y Hy. destruct (H2 y) as [-> ->]; [by rewrite Ew|]. rewrite drop_ge, take_ge, Hwire by auto. split; [done|].
  f_equal. unfold sent. by rewrite Ea.
Qed.

(** The receive state as it is in memory: what the decoder holds and what waits
    in the ring are the beginning of the stream. *)
Definition resting (perif : peripheral) : Prop :=
  circ_contents (pf_recv_buf perif) = [] \/ cb_head (pf_recv_buf perif) = 0.

Definition unread (perif : peripheral) (fd : Z) (w : world) : bytes :=
  circ_contents (pf_recv_buf perif) ++ script_data (fd_script fd w).

(** Where the next byte goes after the bytes there are. *)
Definition head_after (perif : peripheral) (fd : Z) (w : world) : Z :=
  (cb_head (pf_recv_buf perif) + zlen (script_data (fd_script fd w))) mod HDLC_BUF_SIZE.

Definition frames_of (perif : peripheral) (s : bytes) : list bytes * bytes * Z :=
  hdlc_stream (dec_acc (pf_recv_decoder perif)) (hd_escape (pf_recv_decoder perif)) s.

Lemma bytes_ok_contents b : ring_typed b -> bytes_ok (circ_contents b).
Proof.
  intros [(Hl & _) Hb]. unfold circ_contents. apply Forall_fmap, Forall_true. intros i. cbn. unfold circ_at.
  apply Forall_lookup_total_1; [exact Hb|]. unfold zlen in Hl.
  pose proof (Z.mod_pos_bound i HDLC_BUF_SIZE). unfold HDLC_BUF_SIZE in *. lia.
Qed.

Lemma typed_at_rest p perif w :
  all_typed (w_pf w) -> pf_objs (w_pf w) !! p = Some perif -> resting perif ->
  at_rest p perif (dec_acc (pf_recv_decoder perif)) (hd_escape (pf_recv_decoder perif)) (circ_contents (pf_recv_buf perif))
    (cb_head (pf_recv_buf perif)) w /\
  bytes_ok (dec_acc (pf_recv_decoder perif)) /\ is_byte (hd_escape (pf_recv_decoder perif)) /\
  bytes_ok (circ_contents (pf_recv_buf perif)).
Proof.
  intros Ht Hp Hrest. destruct (Ht p perif Hp) as [[Hb Hbok] (Hd & Hraw & Hesc)].
  split; [|split_and!; try done; [by apply bytes_ok_slice|by apply bytes_ok_contents]].
  split; [|exact Hrest]. exists (pf_recv_decoder perif), (pf_recv_buf perif). split; [rewrite Hp; by destruct perif|]. by split_and!.
Qed.

(** ** In a run of the program *)

(** From a peripheral's channel to the kernel: take any run of the program,
    to an idle state in which a peripheral's data channel alone becomes ready.
    The next round reads the bytes there are, however they are cut; and when
    the kernel then takes and completes the writes, as many quiet rounds as
    there were complete frames in the bytes hand the kernel, for every enabled
    client, the message of each frame once, in order, in the client's encoding,
    and nothing for anything else; then nothing waits any more. *)
Lemma run_delivers_frames dec ffs_size ffs_type fuel n m udev devs ufd rs r p perif pre x suf h e h1 w :
  main dec ffs_size ffs_type fuel m udev devs ufd n rs h (start e) = Done (tt, h1, w) -> Forall selects rs ->
  calm w -> idle w -> alloc_ok h1 ->
  channel_watch w p perif pre x suf -> reports (wa_fd x) r -> (length (ws_read (w_watches w)) <= n)%nat ->
  pf_objs (w_pf w) !! p = Some perif -> resting perif ->
  script_errno (fd_script (wa_fd x) w) = EAGAIN -> fits (frames_of perif (unread perif (wa_fd x) w)) ->
  (S (script_size (fd_script (wa_fd x) w)) < fuel)%nat ->
  Forall (eq 1) (e_results (w_env w)) ->
  exists k w1 s1 s2, main dec ffs_size ffs_type fuel m udev devs ufd n (rs ++ [r]) h (start e) = Done (tt, steps k h1, w1) /\
    unread perif (wa_fd x) w = s1 ++ s2 /\
    match frames_of perif s1 with
    | (fs, acc', esc') => receiving p perif acc' esc' s2 (head_after perif (wa_fd x) w) w1 /\
        forall rs', length rs' = length fs -> (forall i r', rs' !! i = Some r' -> completes w1 i r') ->
        (length (ws_aio (w_watches w)) * length rs' <= length (e_results (w_env w)))%nat ->
        exists w2, main dec ffs_size ffs_type fuel m udev devs ufd n (rs ++ r :: rs') h (start e) = Done (tt, steps k h1, w2) /\
          forall y, y ∈ ws_aio (w_watches w) ->
            waiting w2 y = [] /\ sent (wa_id y) w2 = sent (wa_id y) w ++ replies_for w (frame_msg <$> fs) y
    end.
Proof.
  intros E Hrs Hc Hi Hh Hx Hr Hn Hp Hrest Herr Hfit Hfuel Hone.
  destruct (run_invariants dec ffs_size ffs_type fuel n m udev devs ufd rs h e h1 w E) as (Hrefs & Hf & Hsz & Hg).
  pose proof (run_typed dec ffs_size ffs_type fuel n m udev devs ufd rs h e h1 w E) as [Hperifs Hcl _].
  destruct (typed_at_rest p perif w Hperifs Hp Hrest) as (Har & Ha & Hesc & Hs).
  pose proof (calm_writers w Hrefs Hf Hsz Hg Hc) as Hw.
  pose proof (refs_owned w Hrefs) as Ho.
  pose proof (pg_flow _ (rf_pf _ _ Hrefs) _ _ Hp) as Hflow.
  destruct (main_loop dec ffs_size ffs_type fuel n m udev devs ufd rs h e h1 w E) as (h0 & w0 & E0 & _ & Hmain).
  pose proof (fun rs' => watch_loop_app dec ffs_size ffs_type fuel n rs rs' h0 w0 h1 w Hrs E0 (ca_go w Hc)) as Happ.
  destruct (frames_reach_the_kernel dec ffs_size ffs_type fuel n r p perif pre x suf _ _ _ _ h1 w Hw Hi Ho Hcl Hh Hx Hflow Hr Hn
    Har Ha Hesc Hs Herr Hfit Hfuel Hone) as (k & w1 & s1 & s2 & E1 & Es & _ & _ & H).
  exists k, w1, s1, s2. split; [apply Hmain; rewrite Happ; exact (one_round _ _ _ _ _ _ _ _ _ _ (ca_go w Hc) E1)|]. split; [done|].
  unfold frames_of. destruct (hdlc_stream _ _ s1) as [[fs acc'] esc']. destruct H as (_ & [Hrest' _] & Hmax & H). split; [exact Hrest'|].
  intros rs' Hlen Hcomp Hres. destruct (H rs' Hcomp) as (w2 & E2 & _ & _ & _ & H2); [intros y; rewrite Hlen; apply Hmax|done|]. 
  exists w2. split; [|exact H2]. apply Hmain. rewrite Happ. by rewrite (loop_round _ _ _ _ _ _ _ _ _ _ _ (ca_go w Hc) E1).
Qed.
