(* ===== verification/Bursts.v ===== *)
(** * Bursts: a peripheral that sends again and again

    [EndToEnd] follows one burst of a peripheral's data.  The state it leaves
    is one the next burst can start from: nothing waits, the flow counter is
    back where it was, and the decoder holds the beginning of the next
    frame. *)

From S2P Require Import Prelude CircBuf Hdlc Masks Queue Watch World Dm Cntl Peripheral AppCmds CommonCmds Router DmRecv Devnode Qrtr Clients EventLoop Keeps Preserve Flow Surplus DataPath Refs Validity Stream Packets Drain Reached Typed EndToEnd.

(** ** A state that is ready for a burst *)

(** Every enabled client has a watch that writes to it. *)
Definition all_served (w : world) : Prop :=
  forall c dm, dm_clients (w_dm w) !! c = Some dm -> dm_enabled dm = true ->
    exists y, y ∈ ws_aio (w_watches w) /\ wa_queue y = Some (QClient c).

Record ready (p : nat) (perif : peripheral) (pre : list watch) (x : watch) (suf : list watch) (w : world) : Prop := {
  ry_calm : calm w;
  ry_empty q : queue_of (w_queues w) q = [];
  ry_served : all_served w;
  ry_watch : channel_watch w p perif pre x suf;
  ry_perif : pf_objs (w_pf w) !! p = Some perif;
  ry_resting : resting perif }.

Lemma queued_empty f m : (forall q, default [] (m !! q) = []) -> queued f m = 0.
Proof.
  apply (map_fold_weak_ind (fun n m => (forall q, default [] (m !! q) = []) -> n = 0)); [done|].
  intros q l m' n Hq IH H. pose proof (H q) as Hl. rewrite lookup_insert_eq in Hl. cbn in Hl. subst l.
  rewrite IH; [done|]. intros q'. destruct (decide (q' = q)) as [->|Hne]; [by rewrite Hq|].
  specialize (H q'). by rewrite lookup_insert_ne in H.
Qed.

(** Nothing stands for a flow. *)
Lemma nothing_outstanding f w : calm w -> (forall q, queue_of (w_queues w) q = []) -> outstanding f w = 0.
Proof.
  intros Hc He. unfold outstanding. rewrite queued_empty by exact He. unfold pending.
  assert (omap wa_pending_aio (ws_aio (w_watches w)) = []) as ->; [|done].
  pose proof (ca_aio w Hc) as Ha. induction Ha as [|y l [_ Hy] _ IH]; [done|]. cbn. by rewrite Hy.
Qed.

Lemma ready_idle p perif pre x suf w : ready p perif pre x suf w -> idle w.
Proof. intros Hr y _. unfold waiting. destruct (wa_queue y); [apply (ry_empty _ _ _ _ _ _ Hr)|done]. Qed.

(** The counter of the channel's flow is back where it was. *)
Lemma counter_back f w w2 :
  flow_inv w -> calm w -> (forall q, queue_of (w_queues w) q = []) ->
  (forall k, surplus f k w -> surplus f k w2) ->
  calm w2 -> (forall q, queue_of (w_queues w2) q = []) -> counter f w2 <= counter f w.
Proof.
  intros Hf Hc He Hs Hc2 He2. destruct (Hs (counter f w)) as [_ H].
  - split; [done|]. rewrite nothing_outstanding by done. lia.
  - rewrite nothing_outstanding in H by done. lia.
Qed.

(** Each queue is empty again: those that were written, and those nothing was
    put in. *)
Lemma empty_again p msgs w w1 w2 :
  received p msgs w w1 -> aside w1 w2 -> all_served w -> (forall q, queue_of (w_queues w) q = []) ->
  (forall y, y ∈ ws_aio (w_watches w) -> waiting w2 y = []) -> forall q, queue_of (w_queues w2) q = [].
Proof.
  intros Hr Has Hs He Hw q. destruct (decide (Some q ∈ wa_queue <$> ws_aio (w_watches w))) as [(y & Ey & Hy)%list_elem_of_fmap|Hq].
  { specialize (Hw y Hy). unfold waiting in Hw. by rewrite <- Ey in Hw. }
  apply (as_empty _ _ Has), (fmap_nil_inv mb_data). fold (payloads (w_queues w1) q).
  assert (payloads (w_queues w) q = []) as E by (unfold payloads; by rewrite He).
  destruct q as [c| | | |]; [|by rewrite (rc_queues _ _ _ _ Hr), E..].
  destruct (dm_clients (w_dm w) !! c) as [dm|] eqn:Ec; [|rewrite (rc_queues _ _ _ _ Hr); [done|by intros c' [= <-]]].
  rewrite (rc_clients _ _ _ _ Hr c dm Ec), E. destruct (dm_enabled dm) eqn:Een; [|done].
  destruct Hq. destruct (Hs c dm Ec Een) as (y & Hy & Ey). rewrite <- Ey. by apply list_elem_of_fmap_2.
Qed.

(** After a burst the state is ready again. *)
Lemma ready_again p perif pre x suf msgs acc esc s pos now w w1 w2 :
  ready p perif pre x suf w -> flow_inv w -> received p msgs (at_time now w) w1 -> at_rest p perif acc esc s pos w1 ->
  aside w1 w2 -> same_watches w w2 -> (forall f k, surplus f k w -> surplus f k w1) ->
  (forall y, y ∈ ws_aio (w_watches w) -> waiting w2 y = []) ->
  exists perif2, ready p perif2 pre x suf w2 /\ circ_contents (pf_recv_buf perif2) = s /\
    dec_acc (pf_recv_decoder perif2) = acc /\ hd_escape (pf_recv_decoder perif2) = esc /\ cb_head (pf_recv_buf perif2) = pos.
Proof.
  intros [Hc He Hs [El Hal Hcb Hopen Henc] Hp Hrest] Hf Hr [(d & b & Hp1 & (_ & Hd & Hesc) & Hb & _ & Hcont & Hpos) Hhd] Has (Ea & Er & Eq) Hsl Hw.
  pose proof (empty_again _ _ _ _ _ Hr Has Hs He Hw) as He2.
  assert (w_dm w2 = w_dm w) as Edm by (rewrite (as_dm _ _ Has); apply (rc_rest _ _ _ _ Hr)).
  assert (calm w2) as Hc2 by (destruct Hc; split; by rewrite ?Ea, ?Er, ?Eq).
  exists (pf_with_recv b d perif). split; [|done]. split; try done.
  - unfold all_served. by rewrite Edm, Ea.
  - split; [by rewrite Er|done|done| |done]. intros f Hx. etrans; [|by apply Hopen].
    apply counter_back; try done. intros k Hk. by apply (as_surplus _ _ Has), Hsl.
  - by rewrite (as_pf _ _ Has).
  - unfold resting. cbn. rewrite Hcont, Hpos. exact Hhd.
Qed.

(** ** The descriptor and the system *)

(** What the descriptor says in the next [k] bursts: data, [EAGAIN], and so on. *)
Fixpoint script_bursts (k : nat) (f : list (Z + bytes)) : bytes :=
  match k with O => [] | S k => script_data f ++ script_bursts k (script_rest f) end.

Fixpoint bursty (fuel k : nat) (f : list (Z + bytes)) : Prop :=
  match k with
  | O => True
  | S k => script_errno f = EAGAIN /\ (S (script_size f) < fuel)%nat /\ bursty fuel k (script_rest f)
  end.

(** A burst: the round that reports the channel and the quiet ones after it. *)
Definition burst : Type := round * list round.

Definition burst_rounds (bs : list burst) : list round := bs ≫= (fun b => b.1 :: b.2).
Definition quiet_rounds (bs : list burst) : list round := bs ≫= snd.

Section bursts.
Context (dec : bytes -> Z -> Z * Z -> Z + qrtr_packet) (ffs_size : Z) (ffs_type : bytes -> ffs_event) (fuel n : nat).

(** The system reports the channel, then takes and completes the writes, until
    nothing waits. *)
Fixpoint cooperates (fd : Z) (bs : list burst) (h : heap) (w : world) : Prop :=
  match bs with
  | [] => True
  | (r, rs) :: bs =>
      reports fd r /\
      forall h1 w1, watch_round dec ffs_size ffs_type fuel n r h w = Done (true, h1, w1) ->
        (forall i r', rs !! i = Some r' -> completes w1 i r') /\
        (forall y, y ∈ ws_aio (w_watches w) -> (length (waiting w1 y) <= length rs)%nat) /\
        forall h2 w2, watch_loop dec ffs_size ffs_type fuel n rs h1 w1 = Done (tt, h2, w2) -> cooperates fd bs h2 w2
  end.

Lemma quiet_selects w rs : (forall i r, rs !! i = Some r -> completes w i r) -> Forall selects rs.
Proof. intros H. apply Forall_lookup. intros i r Hi fds t. destruct (H i r Hi) as [Hs _]. rewrite Hs. by eexists. Qed.

Lemma same_replies w w' msgs y : w_dm w' = w_dm w -> replies_for w' msgs y = replies_for w msgs y.
Proof. intros E. unfold replies_for. by rewrite E. Qed.

Context (m : monitor) (udev : bool) (devs : list udev_device) (ufd : Z) (h : heap) (e : env).

#[local] Notation run rs := (main dec ffs_size ffs_type fuel m udev devs ufd n rs h (start e)).

(** What a burst, or several, make of the state [w]: the bytes up to [s1] have
    been delivered. *)
Record delivered (p : nat) (pre : list watch) (x : watch) (suf : list watch) (perif : peripheral) (s1 s2 : bytes)
    (w w2 : world) (perif2 : peripheral) : Prop := {
  dl_ready : ready p perif2 pre x suf w2;
  dl_rest : circ_contents (pf_recv_buf perif2) = s2;
  dl_decoder : frames_of perif s1 =
    ((frames_of perif s1).1.1, dec_acc (pf_recv_decoder perif2), hd_escape (pf_recv_decoder perif2));
  dl_watches : same_watches w w2;
  dl_dm : w_dm w2 = w_dm w;
  dl_sent y : y ∈ ws_aio (w_watches w) ->
    sent (wa_id y) w2 = sent (wa_id y) w ++ replies_for w (frame_msg <$> (frames_of perif s1).1.1) y }.

(** One burst of a run. *)
Lemma run_burst rs r rs' bs p perif pre x suf h1 w :
  run rs = Done (tt, h1, w) -> Forall selects rs -> alloc_ok h1 -> ready p perif pre x suf w ->
  (length (ws_read (w_watches w)) <= n)%nat ->
  script_errno (fd_script (wa_fd x) w) = EAGAIN -> fits (frames_of perif (unread perif (wa_fd x) w)) ->
  (S (script_size (fd_script (wa_fd x) w)) < fuel)%nat ->
  Forall (eq 1) (e_results (w_env w)) ->
  (length (ws_aio (w_watches w)) * length rs' <= length (e_results (w_env w)))%nat ->
  cooperates (wa_fd x) ((r, rs') :: bs) h1 w ->
  exists k w2 perif2 s1 s2, run (rs ++ r :: rs') = Done (tt, steps k h1, w2) /\ Forall selects (r :: rs') /\
    delivered p pre x suf perif s1 s2 w w2 perif2 /\ unread perif (wa_fd x) w = s1 ++ s2 /\
    cb_head (pf_recv_buf perif2) = head_after perif (wa_fd x) w /\
    fd_script (wa_fd x) w2 = script_rest (fd_script (wa_fd x) w) /\
    (exists j, (j <= length (ws_aio (w_watches w)) * length rs')%nat /\ e_results (w_env w2) = drop j (e_results (w_env w))) /\
    cooperates (wa_fd x) bs (steps k h1) w2.
Proof.
  intros E Hrs Hh Hry Hn Herr Hfit Hfuel Hone Hlen [Hr Hco]. pose proof Hry as [Hc He Hserved Hx Hp Hrest].
  destruct (run_invariants dec ffs_size ffs_type fuel n m udev devs ufd rs h e h1 w E) as (Hrefs & Hf & Hsz & Hg).
  pose proof (run_typed dec ffs_size ffs_type fuel n m udev devs ufd rs h e h1 w E) as [Hperifs Hcl _].
  destruct (typed_at_rest p perif w Hperifs Hp Hrest) as (Har & Ha & Hesc & Hs).
  destruct (frames_reach_the_kernel dec ffs_size ffs_type fuel n r p perif pre x suf _ _ _ _ h1 w
    (calm_writers w Hrefs Hf Hsz Hg Hc) (ready_idle _ _ _ _ _ _ Hry) (refs_owned w Hrefs) Hcl Hh Hx
    (pg_flow _ (rf_pf _ _ Hrefs) _ _ Hp) Hr Hn Har Ha Hesc Hs Herr Hfit Hfuel Hone)
    as (k & w1 & s1 & s2 & E1 & Es & Ef & Hsl & H).
  destruct (Hco _ _ E1) as (Hcomp & Hlong & Hnext).
  destruct (hdlc_stream _ _ s1) as [[fs acc'] esc'] eqn:Efs. destruct H as (Hrec & Hrest' & _ & H).
  destruct (H rs' Hcomp Hlong Hlen) as (w2 & E2 & Has & Hsame & Hres & H2).
  destruct (ready_again p perif pre x suf (frame_msg <$> fs) acc' esc' s2 (head_after perif (wa_fd x) w) (rd_woke r) w w1 w2) as (perif2 & Hry2 & Hc2 & Hd2 & He2 & Hpos2); try done.
  { intros y Hy. by apply H2. }
  exists k, w2, perif2, s1, s2. split; [|split; [|split; [|split; [done|split; [exact Hpos2|split; [|split; [done|by apply (Hnext _ _ E2)]]]]]]].
  - destruct (main_loop dec ffs_size ffs_type fuel n m udev devs ufd rs h e h1 w E) as (h0 & w0 & E0 & _ & Hmain).
    apply Hmain. rewrite (watch_loop_app dec ffs_size ffs_type fuel n rs _ h0 w0 h1 w Hrs E0 (ca_go w Hc)).
    by rewrite (loop_round _ _ _ _ _ _ _ _ _ _ _ (ca_go w Hc) E1).
  - constructor; [intros fds t; destruct Hr as [-> _]; by eexists|by eapply quiet_selects].
  - assert (frames_of perif s1 = (fs, acc', esc')) as Efr by exact Efs. split; try done.
    + rewrite Efr. cbn. congruence.
    + rewrite (as_dm _ _ Has). apply (rc_rest _ _ _ _ Hrec).
    + intros y Hy. rewrite Efr. by apply H2.
  - unfold fd_script in *. by rewrite (as_fds _ _ Has).
Qed.

Lemma delivered_trans p pre x suf perif s1 s2 t1 t2 rest w1 w2 w3 perif2 perif3 :
  delivered p pre x suf perif s1 s2 w1 w2 perif2 -> delivered p pre x suf perif2 t1 t2 w2 w3 perif3 ->
  s2 ++ rest = t1 ++ t2 -> delivered p pre x suf perif (s1 ++ t1) t2 w1 w3 perif3.
Proof.
  intros [A1 A2 A3 (A4 & A5 & A6) A7 A8] [B1 B2 B3 (B4 & B5 & B6) B7 B8] Es.
  assert (frames_of perif (s1 ++ t1) = ((frames_of perif s1).1.1 ++ (frames_of perif2 t1).1.1,
    dec_acc (pf_recv_decoder perif3), hd_escape (pf_recv_decoder perif3))) as E.
  { unfold frames_of at 1. rewrite hdlc_stream_app. fold (frames_of perif s1). rewrite A3.
    fold (frames_of perif2 t1). by rewrite B3. }
  split; try done; [by rewrite E|split_and!; congruence|congruence|].
  intros y Hy. rewrite B8, A8, E by (by rewrite ?A4). rewrite (same_replies w1 w2) by done. cbn [fst]. rewrite <- app_assoc. f_equal.
  unfold replies_for. repeat case_match; rewrite ?app_nil_r, ?fmap_app; done.
Qed.
End bursts.

(** ** Properties *)

(** C2 From a peripheral's channel to the kernel, burst after burst: take any
    run of the program, to a state in which nothing waits and nothing is being
    written, and let the peripheral's data channel become ready any number of
    times, each time with any bytes, however they are cut, the other
    descriptors not, and after each burst let the kernel take and complete the
    writes.  The run goes on, and of the bytes received so far decodes [s1] and
    hands the kernel, for every enabled client, the message of each complete
    frame of [s1], once, in order, in the client's encoding, and nothing for
    anything else; frames may begin in one burst and end in another.  [s1] is
    all there is, except when the bytes end exactly at the end of the ring's
    array: then [s2] waits in the ring for the next burst, complete frames
    included.  The state is ready for the next burst, in particular the flow
    of the channel is not held up.  The frames are to fit the decoder's
    buffer and to have their check sequence. *)
Theorem run_delivers_bursts dec ffs_size ffs_type fuel n m udev devs ufd rs bs p perif pre x suf h e h1 w :
  main dec ffs_size ffs_type fuel m udev devs ufd n rs h (start e) = Done (tt, h1, w) -> Forall selects rs ->
  alloc_ok h1 -> ready p perif pre x suf w -> (length (ws_read (w_watches w)) <= n)%nat ->
  bursty fuel (length bs) (fd_script (wa_fd x) w) ->
  fits (frames_of perif (circ_contents (pf_recv_buf perif) ++ script_bursts (length bs) (fd_script (wa_fd x) w))) ->
  Forall (eq 1) (e_results (w_env w)) ->
  (length (ws_aio (w_watches w)) * length (quiet_rounds bs) <= length (e_results (w_env w)))%nat ->
  cooperates dec ffs_size ffs_type fuel n (wa_fd x) bs h1 w ->
  let data := script_bursts (length bs) (fd_script (wa_fd x) w) in
  let pos' := (cb_head (pf_recv_buf perif) + zlen data) mod HDLC_BUF_SIZE in
  exists k w2 perif2 s1 s2,
    main dec ffs_size ffs_type fuel m udev devs ufd n (rs ++ burst_rounds bs) h (start e) = Done (tt, steps k h1, w2) /\
    circ_contents (pf_recv_buf perif) ++ data = s1 ++ s2 /\ (s2 = [] \/ pos' = 0) /\
    cb_head (pf_recv_buf perif2) = pos' /\ delivered p pre x suf perif s1 s2 w w2 perif2.
Proof.
  revert rs perif h1 w. induction bs as [|[r rs'] bs IH]; intros rs perif h1 w E Hrs Hh Hry Hn Hb Hfit Hone Hlen Hco.
  { pose proof (run_typed dec ffs_size ffs_type fuel n m udev devs ufd rs h e h1 w E) as [Hperifs _ _].
    destruct (Hperifs p perif (ry_perif _ _ _ _ _ _ Hry)) as [[(_ & Hhd & _) _] _].
    intros data pos'. assert (pos' = cb_head (pf_recv_buf perif)) as Epos by (subst pos' data; cbn; rewrite Z.add_0_r; by apply Z.mod_small).
    exists 0%nat, w, perif, [], (circ_contents (pf_recv_buf perif)). subst data. cbn [burst_rounds mbind list_bind script_bursts length].
    rewrite !app_nil_r, Epos. split; [by destruct h1|]. split; [done|]. split; [exact (ry_resting _ _ _ _ _ _ Hry)|].
    split; [done|]. split; try done. intros y _. cbn.
    unfold replies_for. by repeat case_match; rewrite ?app_nil_r. }
  destruct Hb as (Herr & Hfuel & Hb). cbn [length script_bursts] in Hfit. rewrite app_assoc in Hfit.
  pose proof (fits_app _ _ _ _ Hfit) as Hcut.
  assert (fits (frames_of perif (unread perif (wa_fd x) w))) as Hfit1.
  { unfold frames_of, unread. by destruct (hdlc_stream _ _ (_ ++ _)) as [[? ?] ?]; destruct Hcut. }
  clear Hcut. change (quiet_rounds ((r, rs') :: bs)) with (rs' ++ quiet_rounds bs) in Hlen. rewrite length_app in Hlen.
  destruct (run_burst dec ffs_size ffs_type fuel n m udev devs ufd h e rs r rs' bs p perif pre x suf h1 w)
    as (k & w1 & perif1 & s1 & s2 & E1 & Hsel & Hd1 & Es & Epos1 & Ef & (j & Hj & Ej) & Hco1); try done; [lia|].
  pose proof Hd1 as [Hry1 Hc1 Hdec1 (Ea & Er & _) _ _]. fold (unread perif (wa_fd x) w) in Hfit.
  destruct (IH (rs ++ r :: rs') perif1 (steps k h1) w1) as (k2 & w2 & perif2 & t1 & t2 & E2 & Et & Hwait & Epos2 & Hd2); try done.
  - by apply Forall_app.
  - by rewrite Er.
  - by rewrite Ef.
  - rewrite Hc1, Ef. rewrite Es, <- app_assoc in Hfit. apply fits_app in Hfit. fold (frames_of perif s1) in Hfit.
    rewrite Hdec1 in Hfit. apply Hfit.
  - rewrite Ej. by apply Forall_drop.
  - rewrite Ea, Ej, length_drop. lia.
  - rewrite Hc1, Ef in Et. rewrite Ef, Epos1 in Hwait, Epos2. unfold head_after in Hwait, Epos2.
    rewrite Z.add_mod_idemp_l, <- Z.add_assoc, <- zlen_app in Hwait, Epos2 by done.
    exists (k2 + k)%nat, w2, perif2, (s1 ++ t1), t2. split; [|split; [|split; [exact Hwait|split; [exact Epos2|]]]].
    + rewrite steps_steps in E2. by rewrite <- app_assoc in E2.
    + cbn [length script_bursts]. rewrite app_assoc. fold (unread perif (wa_fd x) w). by rewrite Es, <- !app_assoc, Et.
    + by eapply delivered_trans.
Qed.
