(* ===== verification/Scenario.v ===== *)
(** * Scenario: a router with one client and one peripheral

    A concrete state in which the hypotheses of the theorems about the whole
    program hold, and the theorems applied there. *)

From S2P Require Import Prelude Util CircBuf Hdlc Masks MaskTables Queue Watch World Dm Cntl CntlProps DiagIds Peripheral AppCmds CommonCmds Router DmRecv Devnode Qrtr Clients EventLoop Cmdline SendData RouterProps MaskRequests MaskReadback DataPath Requests Keeps RawClients Preserve Flow Stall Stream Packets Drain Lifetime Refs Validity.

Definition demo_client : diag_client :=
  DiagClient "DIAG CLIENT" 3 3 DIAG_ENCODE_HDLC false true (CircBuf [] 0 0).

(** A modem on rpmsg: the data channel is flow controlled. *)
Definition demo_perif : peripheral :=
  Peripheral (Some "modem"%string) (Z.lor DIAG_FEATURE_REQ_RSP_SUPPORT DIAG_FEATURE_APPS_HDLC_ENCODE)
    7 true 8 true 9 (-1) (Some 0%nat) 0 false (CircBuf [] 0 0) decoder_zero Rpmsg.

Definition demo_cmds : list diag_cmd := [DiagCmd 0xffff0021 0xffff0023 (Some 0%nat) None].

Definition demo : world :=
  World masks_ready (QState ∅ [0]) (WState [] [] [] [] false 0 0) (DmState [demo_client] 0)
    (PfState {[0%nat := demo_perif]} [0%nat] 1) (CmdState demo_cmds common_table fallback_table)
    (IdState [] DIAG_ID_APPS) (DevState [] []) (Env ∅ [] [] [] []).

Lemma demo_client_at : dm_clients (w_dm demo) !! 0%nat = Some demo_client.
Proof. reflexivity. Qed.

Lemma demo_live : live_client 0 demo.
Proof. exists demo_client. split; [reflexivity|]. right. left. reflexivity. Qed.

Lemma demo_perif_at : pf_objs (w_pf demo) !! 0%nat = Some demo_perif.
Proof. reflexivity. Qed.

Lemma demo_cntl_open : pf_cntl_fd demo_perif <> -1.
Proof. by apply Z.eqb_neq. Qed.

Lemma demo_pf_wf : pf_wf demo.
Proof. intros p [->|H%not_elem_of_nil]%elem_of_cons; [by exists demo_perif|done]. Qed.

Lemma demo_log_wf : log_wf (w_masks demo).
Proof. exact (proj1 (proj2 (proj2 masks_ready_wf))). Qed.

Lemma demo_msg_wf : msg_wf (w_masks demo).
Proof. exact (proj1 masks_ready_wf). Qed.

(** ** The client side *)

Lemma dm_broadcast_delivers_witness :
  exists k q p, dm_broadcast [1; 0x7e; 3] 2 (Some 0%nat) never_fails demo =
      Done (tt, steps k never_fails, with_queues q demo) /\
    payloads q (QClient 0) = [p] /\ receive DIAG_ENCODE_HDLC p = Some [1; 0x7e].
Proof.
  destruct (dm_broadcast_delivers [1; 0x7e; 3] 2 (Some 0%nat) never_fails demo) as (k & q & E & H & _).
  - intros c dm Hc. destruct c; [|done]. injection Hc as <-. right. left. reflexivity.
  - by exists 0.
  - exact never_fails_alloc_ok.
  - by repeat constructor.
  - by split.
  - done.
  - destruct (H 0%nat demo_client demo_client_at) as (p & Hp & Hr). exists k, q, p. by split_and!.
Defined.

Lemma diag_start_hdlc_recovery_counts_witness :
  exists h' w', for_each (fun _ => _ ← diag_start_hdlc_recovery 0; mret tt) (seq 0 6) never_fails demo =
      Done (tt, h', w') /\
    dm_bad_cmd_counter (w_dm w') = 0 /\
    ws_timers (w_watches w') = [Timer (TmHdlcReset 0) 200 false 200000].
Proof.
  destruct (diag_start_hdlc_recovery_counts 5 0 demo_client never_fails demo never_fails_alloc_ok
    demo_client_at ltac:(cbn; lia)) as (h' & w' & E & _ & Hn & _ & _ & Ht).
  exists h', w'. split; [exact E|]. split; [exact Hn|exact Ht].
Defined.

(** A client that sends two requests, one unknown and one of the modem's, and
    the beginning of a third. *)
Definition requests_client : diag_client := DiagClient "UNIX" 3 3 DIAG_ENCODE_HDLC false true circ_zero.

Definition demo_requests : list bytes := [[0x30; 1]; [0x22; 0x7e; 2]].

Definition requests_bytes : bytes := (demo_requests ≫= hdlc_frame) ++ [0x22; 5].

Definition requests_world (chunks : list (Z + bytes)) : world :=
  World masks_ready (QState ∅ [0]) (WState [] [] [] [] false 0 0) (DmState [requests_client] 0)
    (PfState {[0%nat := demo_perif]} [0%nat] 1) (CmdState demo_cmds common_table fallback_table)
    (IdState [] DIAG_ID_APPS) (DevState [] []) (Env {[3 := chunks]} [] [] [] []).

Definition requests_ring : circ_buf := CircBuf (splice (cb_buf circ_zero) 0 requests_bytes) (zlen requests_bytes) 0.

Lemma requests_read : circ_read [inr requests_bytes] circ_zero = Done (inr tt, [], requests_ring).
Proof. vm_compute. reflexivity. Qed.

Lemma requests_ring_wf : circ_wf requests_ring.
Proof. by split_and!. Qed.

Lemma dm_recv_in_order_witness :
  dm_recv 1 0 never_fails (requests_world [inr requests_bytes]) =
    (_ ← handle_requests 0 demo_requests (replicate (Z.to_nat HDLC_BUF_SIZE) 0);
     _ ← upd_client 0 (dm_with_buf (drained requests_ring)); mret 0)
    never_fails (ring_filled 0 requests_client [] requests_ring (requests_world [inr requests_bytes])).
Proof.
  exact (dm_recv_in_order 1 0 requests_client (inr tt) [] requests_ring demo_requests [0x22; 5] never_fails
    (requests_world [inr requests_bytes]) eq_refl eq_refl requests_read Logic.I requests_ring_wf ltac:(by vm_compute)
    ltac:(by repeat constructor) ltac:(set_solver)).
Defined.

(** What [n] calls leave in the queues of the client and of the modem. *)
Definition answers (n : nat) (chunks : list (Z + bytes)) : option (list bytes * list bytes) :=
  match for_each (fun _ => _ ← dm_recv 1 0; mret tt) (seq 0 n) never_fails (requests_world chunks) with
  | Done (_, _, w) => Some (payloads (w_queues w) (QClient 0), payloads (w_queues w) (QCmd 0))
  | _ => None
  end.

Example both_requests_answered :
  answers 1 [inr requests_bytes] = Some ([hdlc_frame [0x13; 0x30; 1]], [[0x22; 0x7e; 2]]).
Proof. by vm_compute. Qed.

(** The same request in two reads: the modem never sees it, and the client is
    told that its second byte is an unknown command. *)
Example split_request_lost :
  answers 2 [inr (take 1 (hdlc_frame [0x22; 5])); inr (drop 1 (hdlc_frame [0x22; 5]))] =
    Some ([hdlc_frame [0x13; 5]], []).
Proof. by vm_compute. Qed.

(** The same two requests, from a client without framing; then it hangs up. *)
Definition bare_client : diag_client := DiagClient "UNIX" 3 3 DIAG_ENCODE_RAW false true circ_zero.

Definition bare_world (rest : list (Z + bytes)) : world :=
  over (fun s => DmState [bare_client] (dm_bad_cmd_counter s)) (requests_world ((inr <$> demo_requests) ++ rest)).

Lemma dm_recv_raw_in_order_witness :
  dm_recv 3 0 never_fails (bare_world [inr []]) =
    (buf ← stack 4096; _ ← handle_chunks 0 3 demo_requests [inr []] buf; r ← sys_read 3 4096; raw_end 3 r)
    never_fails (bare_world [inr []]).
Proof.
  apply (dm_recv_raw_in_order 3 0 bare_client demo_requests [inr []] never_fails (bare_world [inr []]));
    [done|done|done|done| |cbn; lia].
  constructor; [split; [by repeat constructor|done]|]. constructor; [split; [by repeat constructor|done]|constructor].
Defined.

Example raw_requests_answered :
  match dm_recv 3 0 never_fails (bare_world []) with
  | Done (r, _, w) => Some (r, payloads (w_queues w) (QClient 0), payloads (w_queues w) (QCmd 0))
  | _ => None
  end = Some (0, [[0x13; 0x30; 1]], [[0x22; 0x7e; 2]]).
Proof. by vm_compute. Qed.

(** ** The control channel *)

Definition demo_ranges : list (Z * Z) := [(0, 5); (0x100, 0x1ff)].

Lemma demo_pkt_ok : pkt_ok (PRegister 75 50 demo_ranges).
Proof. unfold pkt_ok, u16_ok, range_ok. split_and!; try done. by repeat constructor. Qed.

Lemma diag_cntl_recv_refines_witness :
  exists m, diag_cntl_recv 0 ((([PRegister 75 50 demo_ranges; PNumPresets 1]) ≫= serialize) ++ [7; 7])
      (zlen ([PRegister 75 50 demo_ranges; PNumPresets 1] ≫= serialize)) never_fails demo =
    Done (0, steps m never_fails, set_cmds
      (demo_cmds ++ [DiagCmd 0x4b320000 0x4b320005 (Some 0%nat) None;
                     DiagCmd 0x4b320100 0x4b3201ff (Some 0%nat) None]) demo).
Proof.
  destruct (diag_cntl_recv_refines 0 [PRegister 75 50 demo_ranges; PNumPresets 1] [7; 7] never_fails demo
    never_fails_alloc_ok) as [m E].
  - constructor; [exact demo_pkt_ok|]. by repeat constructor.
  - exists m. exact E.
Defined.

Lemma diag_cntl_deregister_undoes_witness :
  exists m l, diag_cntl_recv 0
      (([PRegister 75 50 demo_ranges; PDeregister 75 50 demo_ranges] ≫= serialize) ++ [])
      (zlen ([PRegister 75 50 demo_ranges; PDeregister 75 50 demo_ranges] ≫= serialize)) never_fails demo =
    Done (0, steps m never_fails, set_cmds l demo) /\
    diag_cntl_close 0 (steps m never_fails) (set_cmds l demo) =
      Done (tt, steps m never_fails, set_cmds [] demo).
Proof.
  destruct (diag_cntl_deregister_undoes 0 75 50 demo_ranges [] never_fails demo never_fails_alloc_ok
    demo_pkt_ok) as (m & l & E & _ & Hc).
  exists m, l. split; [exact E|exact Hc].
Defined.

Lemma diag_cntl_recv_terminates_witness :
  diag_cntl_recv 0 (replicate 64 0xff) 64 never_fails demo <> Spin.
Proof.
  apply (diag_cntl_recv_terminates 0 (replicate 64 0xff) 64 never_fails demo); [|done].
  by apply bytes_ok_replicate.
Defined.

Lemma diag_cntl_send_log_mask_packet_witness :
  exists k, diag_cntl_send_log_mask 0 2 never_fails demo =
    Done (tt, steps k never_fails, send_cntl 0 (log_mask_packet DIAG_CTRL_MASK_INVALID 0 0 []) demo).
Proof.
  destruct (diag_cntl_send_log_mask_packet 0 demo_perif 2 never_fails demo never_fails_alloc_ok
    demo_log_wf demo_perif_at demo_cntl_open) as [k E].
  exists k. exact E.
Defined.

Lemma diag_cntl_send_msg_mask_packet_witness :
  exists j, diag_cntl_send_msg_mask 0 (Some (3, 5)) never_fails demo =
    Done (Some (3, 5), steps j never_fails,
      send_cntl 0 (msg_mask_packet DIAG_CTRL_MASK_INVALID (3, 5) 0 []) demo).
Proof.
  destruct (diag_cntl_send_msg_mask_packet 0 demo_perif 0 (3, 5) words_ready never_fails demo
    never_fails_alloc_ok demo_msg_wf in_entry_0 words_ready_eq demo_perif_at demo_cntl_open) as [j E].
  exists j. exact E.
Defined.

(** A feature packet: the header, the length of the mask, the mask. *)
Definition demo_feature_packet : bytes := cntl_hdr DIAG_CNTL_CMD_FEATURE_MASK 8 ++ le 4 4 ++ le 4 0x51.

Lemma diag_cntl_feature_mask_handshake_witness :
  exists j w' junk, zlen junk = 2 /\
    diag_cntl_feature_mask 0 demo_feature_packet 0 16 never_fails demo = Done (0, steps j never_fails, w') /\
    pf_objs (w_pf w') !! 0%nat = Some (pf_with_features 0x51 demo_perif) /\
    payloads (w_queues w') (QCntl 0) = handshake demo_perif (w_masks demo) 0x51 junk.
Proof.
  destruct (diag_cntl_feature_mask_handshake 0 demo_perif demo_feature_packet 0 16 0x51 never_fails demo
    never_fails_alloc_ok demo_msg_wf demo_perif_at demo_cntl_open eq_refl)
    as (j & w' & junk & Hj & E & _ & Hp & Hq & _).
  exists j, w', junk. split; [exact Hj|]. split; [exact E|]. split; [exact Hp|exact Hq].
Defined.

(** A version 1 packet for the process "mpss". *)
Definition demo_id_packet : bytes :=
  cntl_hdr DIAG_CNTL_CMD_DIAG_ID 13 ++ le 4 1 ++ le 4 0 ++ [109; 112; 115; 115; 0].

Lemma diag_cntl_process_diag_id_reply_witness :
  exists k w', diag_cntl_process_diag_id 0 demo_id_packet 0 21 never_fails demo =
      Done (0, steps k never_fails, w') /\
    ids_view (w_ids w') [(2, [109; 112; 115; 115])] /\
    w_queues w' = enqueue (QCntl 0) None (cntl_packet DIAG_CNTL_CMD_DIAG_ID
      (le 4 1 ++ le 4 2 ++ [109; 112; 115; 115; 0])) (w_queues demo).
Proof.
  destruct (diag_cntl_process_diag_id_reply 0 demo_perif demo_id_packet 0 21 [109; 112; 115; 115] [] 1 []
    never_fails demo) as (k & w' & E & Hv & (_ & Hq) & _).
  - exact never_fails_alloc_ok.
  - constructor.
  - split; [by repeat constructor; apply Z.ltb_lt|by apply Z.ltb_lt].
  - exact demo_perif_at.
  - done.
  - reflexivity.
  - done.
  - done.
  - reflexivity.
  - exists k, w'. split; [exact E|]. split; [exact Hv|exact Hq].
Defined.

(** ** Requests of the client *)

Lemma demo_registered : Forall (registered_ok demo) (diag_cmds (w_cmds demo)).
Proof. constructor; [|constructor]. split; [reflexivity|]. by exists 0%nat, demo_perif. Qed.

Lemma diag_cmd_dispatch_routes_witness :
  exists k, diag_cmd_dispatch 0 [0x22; 1; 2] 3 never_fails demo =
    Done ((0, [0x22; 1; 2]), steps k never_fails,
      with_queues (enqueue (QCmd 0) None [0x22; 1; 2] (w_queues demo)) demo).
Proof.
  destruct (diag_cmd_dispatch_routes 0 [0x22; 1; 2] 3 0xffff0022 never_fails demo) as [k E].
  - exact never_fails_alloc_ok.
  - by repeat constructor.
  - by split.
  - done.
  - reflexivity.
  - exact demo_registered.
  - exists k. exact E.
Defined.

Lemma unknown_dispatch :
  diag_cmd_dispatch 0 [0x30; 1] 2 never_fails demo = Done ((-2, [0x30; 1]), never_fails, demo).
Proof. reflexivity. Qed.

Lemma diag_client_handle_command_errors_witness :
  exists k, diag_client_handle_command 0 [0x30; 1] 2 never_fails demo =
    Done ([0x30; 1], steps k never_fails, reply 0 [0x13; 0x30; 1] demo).
Proof.
  destruct (diag_client_handle_command_errors 0 [0x30; 1] [0x30; 1] 2 (-2) never_fails demo never_fails demo
    unknown_dispatch never_fails_alloc_ok demo_live) as [k E].
  - by repeat constructor.
  - by split.
  - done.
  - exists k. exact E.
Defined.

Lemma register_cmds_tables_witness :
  exists w', (_ ← register_app_cmds; register_common_cmds) never_fails world_zero =
      Done (tt, steps 11 never_fails, w') /\ w_cmds w' = w_cmds (set_cmds [] demo).
Proof.
  destruct (register_cmds_tables never_fails world_zero never_fails_alloc_ok) as (w' & E & Hc & _); try reflexivity.
  exists w'. split; [exact E|exact Hc].
Defined.

Lemma app_cmds_replies_witness :
  exists k, handle_hdlc_disable_cmd 0 [75; 18; 0x18; 2] 4 never_fails demo =
    Done (0, steps k never_fails,
      over (fun s => DmState (retype DIAG_ENCODE_NHDLC <$> dm_clients s) (dm_bad_cmd_counter s))
        (reply 0 [75; 18; 0x18; 2; 1; 0] demo)).
Proof.
  destruct (app_cmds_replies 0 [75; 18; 0x18; 2] 4 never_fails demo demo_live never_fails_alloc_ok)
    as (_ & _ & _ & _ & _ & k & E).
  - by repeat constructor.
  - by split.
  - exists k. exact E.
Defined.

Definition demo_get_log : bytes := [0x73; 0; 0; 0; 4; 0; 0; 0; 1; 0; 0; 0].

Lemma log_get_mask_replies_witness :
  exists k resp, log_get_mask 0 demo_get_log 12 never_fails demo = Done (0, steps k never_fails,
    reply 0 ([0x73; 0; 0; 0; 4; 0; 0; 0] ++ resp) (broadcast_all (log_mask_packet DIAG_CTRL_MASK_INVALID 0 0 []) demo)).
Proof.
  destruct (log_get_mask_replies 0 demo_get_log 1 never_fails demo) as [k E].
  - exact demo_live.
  - exact never_fails_alloc_ok.
  - by repeat constructor.
  - done.
  - exact demo_log_wf.
  - exact demo_pf_wf.
  - reflexivity.
  - exists k. eexists. exact E.
Defined.

Definition demo_set_log : bytes :=
  [0x73; 0; 0; 0; 3; 0; 0; 0] ++ le 4 1 ++ le 4 32 ++ [0x0f; 0xf0; 0xff; 0].

Lemma log_mask_round_trip_witness :
  exists k (m' : masks) resp k', let w1 := reply 0 resp (broadcast_all (log_mask_packet DIAG_CTRL_MASK_VALID 1 32 [0x0f; 0xf0; 0xff; 0])
      (over (fun _ => m') demo)) in
    log_set_mask 0 demo_set_log 20 never_fails demo = Done ((0, demo_set_log), steps k never_fails, w1) /\
    log_get_mask 0 demo_get_log 12 (steps k never_fails) w1 = Done (0, steps k' (steps k never_fails),
      reply 0 ([0x73; 0; 0; 0; 4; 0; 0; 0] ++ le 4 0 ++ le 4 1 ++ le 4 32 ++ [0x0f; 0xf0; 0xff; 0])
        (broadcast_all (log_mask_packet DIAG_CTRL_MASK_VALID 1 32 [0x0f; 0xf0; 0xff; 0]) w1)).
Proof.
  destruct (log_mask_round_trip 0 demo_set_log 1 32 0 demo_get_log 1 never_fails demo) as (k & m' & resp & k' & E & _ & _ & _ & E').
  - exact demo_live.
  - exact demo_live.
  - exact never_fails_alloc_ok.
  - by repeat constructor.
  - by repeat constructor.
  - exact demo_log_wf.
  - exact demo_pf_wf.
  - reflexivity.
  - reflexivity.
  - by split.
  - by split.
  - done.
  - done.
  - reflexivity.
  - rewrite decide_True in E' by done. rewrite decide_True in E' by done. exists k, m', resp, k'. split; [exact E|exact E'].
Defined.

(** Levels for the ids 3 to 5, which are in the first entry of the table. *)
Definition demo_set_msg : bytes :=
  [0x7d; 4] ++ le 2 3 ++ le 2 5 ++ le 2 0 ++ le 4 1 ++ le 4 2 ++ le 4 3.

(** Asking for the entry of id 7, which is the same entry. *)
Definition demo_get_msg : bytes := [0x7d; 3] ++ le 2 7 ++ le 2 7.

Definition words_set : bytes := splice words_ready 12 (le 4 1 ++ le 4 2 ++ le 4 3).

Lemma msg_mask_round_trip_witness :
  exists j (m' : masks) j', let w1 := reply 0 ([0x7d; 4] ++ ssid_range_bytes (entry_range 0) ++ [1; 0] ++ le 4 1 ++ le 4 2 ++ le 4 3)
        (broadcast_all (msg_packet_of 0 words_set) (over (fun _ => m') demo)) in
    msg_set_msg_mask 0 demo_set_msg 20 never_fails demo = Done (0, steps j never_fails, w1) /\
    msg_get_msg_mask 0 demo_get_msg 6 (steps j never_fails) w1 = Done (0, steps j' (steps j never_fails),
      reply 0 (msg_get_answer demo_get_msg 0 words_set) w1) /\
    slice (msg_get_answer demo_get_msg 0 words_set) 16 12 = le 4 1 ++ le 4 2 ++ le 4 3.
Proof.
  destruct (msg_mask_round_trip 0 demo_set_msg 0 (3, 5) 0 words_ready 0 demo_get_msg (7, 7) never_fails demo)
    as (j & m' & j' & E & _ & _ & _ & E' & Hw).
  - exact demo_live.
  - exact demo_live.
  - exact never_fails_alloc_ok.
  - by repeat constructor.
  - by repeat constructor.
  - exact demo_msg_wf.
  - exact demo_pf_wf.
  - reflexivity.
  - reflexivity.
  - reflexivity.
  - exact in_entry_0.
  - by apply Z.leb_le.
  - exact words_ready_eq.
  - done.
  - reflexivity.
  - reflexivity.
  - exists 0, 120. by repeat split.
  - exists j, m', j'. split; [exact E|]. split; [exact E'|exact Hw].
Defined.

(** Twelve event bits. *)
Definition demo_set_events : bytes := [0x82; 0] ++ le 2 0 ++ le 2 12 ++ [0xff; 0x0f].

Definition demo_get_events : bytes := [0x81; 0; 0; 0].

Lemma event_mask_round_trip_witness :
  exists j (m' : masks) j' n all, let w1 := reply 0 ([0x82; 0] ++ le 2 0 ++ le 2 12 ++ [0xff; 0x0f])
        (broadcast_all (event_mask_packet DIAG_CTRL_MASK_VALID 1 all) (over (fun _ => m') demo)) in
    handle_event_set_mask 0 demo_set_events 8 never_fails demo = Done (0, steps j never_fails, w1) /\
    handle_event_get_mask 0 demo_get_events 4 (steps j never_fails) w1 = Done (0, steps j' (steps j never_fails),
      reply 0 ([0x81; 0] ++ le 2 0 ++ le 2 n ++ all) w1) /\
    n = Z.max 12 (event_max_num_bits (w_masks demo)) /\ take 2 all = [0xff; 0x0f].
Proof.
  destruct (event_mask_round_trip 0 demo_set_events 0x82 0 12 0 demo_get_events 0x81 0 never_fails demo)
    as (j & m' & j' & E & _ & _ & E').
  - exact demo_live.
  - exact demo_live.
  - exact never_fails_alloc_ok.
  - by repeat constructor.
  - by repeat constructor.
  - exact (proj2 (proj2 (proj2 masks_ready_wf))).
  - exact demo_pf_wf.
  - reflexivity.
  - reflexivity.
  - reflexivity.
  - by apply Z.leb_le.
  - reflexivity.
  - reflexivity.
  - exists j, m', j'. eexists _, _. split; [exact E|]. split; [exact E'|]. by split.
Defined.

(** ** The command line *)

(** "-s 10.0.0.1:2501", a word, "-u/dev/tty@9600" *)
Definition demo_settings : list setting :=
  [SHost false [49; 48; 46; 48; 46; 48; 46; 49] (Some 2501); SWord [120]; SUart true [47; 100; 101; 118; 47; 116; 116; 121] (Some 9600)].

Lemma parse_options_roundtrip_witness :
  exists k, parse_options (demo_settings ≫= print) never_fails options_zero =
    Done (tt, steps k never_fails,
      Options (Some [49; 48; 46; 48; 46; 48; 46; 49]) 2501 (Some [47; 100; 101; 118; 47; 116; 116; 121]) 9600 (Some [])).
Proof.
  destruct (parse_options_roundtrip demo_settings never_fails) as [k [E _]].
  - repeat constructor; try done; by apply (bool_decide_unpack _).
  - exact never_fails_alloc_ok.
  - exists k. exact E.
Defined.

Definition options_of (args : list bytes) : option options :=
  match parse_options args never_fails options_zero with Done (_, _, o) => Some o | _ => None end.

(** Asking for help and unknown options end the program; an address that is
    only a colon leaves no address at all; a port above 65535 is cut off when it
    is handed over, and one that is no number is zero. *)
Example options_at_the_edge :
  options_of [[ch_dash; ch_h]] = None /\ options_of [[ch_dash; 120]] = None /\ options_of [[ch_dash; ch_s]] = None /\
  (monitor_of <$> options_of [[ch_dash; ch_s]; [ch_colon]]) = Some NoMonitor /\
  (sock_port <$> options_of [[ch_dash; ch_s]; [49; ch_colon] ++ decimal 67536]) = Some 2000 /\
  (sock_port <$> options_of [[ch_dash; ch_s]; [49; ch_colon; 120]]) = Some 0 /\
  (monitor_of <$> options_of [[ch_dash; ch_u]; [49; ch_at; 45; 49]]) = Some (Uart 4294967295).
Proof. by vm_compute. Qed.

(** ** The tool

    "12 1" is answered, after a log packet; "129" is answered in vain. *)

Lemma send_data_exchange_witness :
  exists h', send_data true [decimal 12; decimal 1] ((arrives <$> [[5; 255]]) ++ arrives [12; 7] :: []) never_fails
      (Tool [3; 0; 2] [] []) =
    Done (Some 0, h', Tool [] [[12; 1]] [53; 32; 45; 49; 10; 49; 50; 32; 55; 10]).
Proof.
  destruct (send_data_exchange true (decimal 12) [decimal 1] [[5; 255]] [12; 7] 12 [] never_fails 3 0 2 [])
    as [h' E]; [exact never_fails_alloc_ok|lia|lia|lia|..].
  - constructor; [|constructor]. exists 5. split; [by split|]. split; apply Z.eqb_neq; by vm_compute.
  - by split.
  - by vm_compute.
  - apply Z.eqb_neq. by vm_compute.
  - exists h'. exact E.
Defined.

Definition vain_rounds : list tool_round := [arrives [129; 1]; arrives [0x13; 129]].

#[local] Notation vain_run := (send_data true [decimal 129] vain_rounds never_fails (Tool [3; 0; 1] [] [])).

Definition ended (r : outcome (option Z * heap * tool)) : bool :=
  match r with Done (Some _, _, _) => true | _ => false end.

Lemma ended_done r : ended r = true -> exists k h' t', r = Done (Some k, h', t').
Proof. destruct r as [[[[k|] h'] t']| | |]; try done. by exists k, h', t'. Qed.

Lemma vain_run_ended : ended vain_run = true.
Proof. by vm_compute. Qed.

Lemma send_data_high_code_witness :
  exists h' t', vain_run = Done (Some 0, h', t') /\ exists pre, tl_out t' = pre ++ bad_command_text.
Proof.
  destruct (ended_done _ vain_run_ended) as (k & h' & t' & E).
  destruct (send_data_high_code (decimal 129) [] vain_rounds never_fails (Tool [3; 0; 1] [] []) k h' t') as [-> H].
  - by vm_compute.
  - by repeat constructor.
  - exact E.
  - exists h', t'. split; [exact E|exact H].
Defined.

(** ** The program, started

    No monitor on the command line, no USB gadget, no devices: the first calls
    fail or succeed as [demo_env] says, then a client connects to the UNIX
    socket and one idle round follows. *)

Definition no_packets (_ : bytes) (_ : Z) (_ : Z * Z) : Z + qrtr_packet := inl (-1).
Definition no_events (_ : bytes) : ffs_event := FUNCTIONFS_OTHER.

(** USB's [open]; [socket], [bind], [listen]; the QRTR sockets; [eventfd] and
    [io_setup]; [accept] and [fcntl]. *)
Definition demo_env : env :=
  Env ∅ ([-2; 3; 0; 0] ++ seqZ 4 28 ++ [40; 0; 41; 0]) [] [] [].

Definition demo_rounds : list round := [Round 0 0 (select_gives [3]) false None; Round 1 1 (select_gives []) false None].

#[local] Notation demo_run :=
  (main no_packets 12 no_events 1 NoMonitor true [] 50 60 demo_rounds never_fails (start demo_env)).

Definition run_ok (r : outcome (unit * heap * world)) : bool :=
  match r with
  | Done (_, _, w) => (length (dm_clients (w_dm w)) =? 1)%nat && (length (pf_list (w_pf w)) =? 7)%nat
  | _ => false
  end.

Lemma demo_run_ok : run_ok demo_run = true.
Proof. by vm_compute. Qed.

Lemma run_ok_done r : run_ok r = true -> exists h' w', r = Done (tt, h', w').
Proof. destruct r as [[[[] h'] w']| | |]; [|done..]. by exists h', w'. Qed.

Lemma flow_accounting_witness :
  exists h' w', demo_run = Done (tt, h', w') /\ forall f, outstanding f w' <= counter f w'.
Proof.
  destruct (run_ok_done _ demo_run_ok) as (h' & w' & E). exists h', w'. split; [exact E|].
  exact (proj1 (flow_accounting no_packets 12 no_events 1 NoMonitor true [] 50 60 demo_rounds demo_env
    never_fails h' w' E)).
Defined.

(** A modem that appears, is opened a second later and goes away: its data
    channel reports an error. *)
Definition modem_devices : list udev_device :=
  [UdevDevice None (Some "/dev/rpmsg0") (Some "DIAG") [None; Some "modem"];
   UdevDevice None (Some "/dev/rpmsg1") (Some "DIAG_CNTL") [None; Some "modem"]]%string.

Definition modem_env : env :=
  Env {[44 := [inl 5]]} ([-2; 3; 0; 0] ++ seqZ 4 28 ++ [40; 0; 44; 45; 0]) [] [] [].

Definition modem_rounds : list round :=
  [Round 1000000 1000000 (select_gives []) false None; Round 1000001 1000001 (select_gives [44]) false None].

#[local] Notation modem_run rounds :=
  (main no_packets 12 no_events 1 NoMonitor true modem_devices 50 60 rounds never_fails (start modem_env)).

(** The peripherals, and the watches on the modem's descriptors. *)
Definition modem_state (r : outcome (unit * heap * world)) : option (nat * nat) :=
  match r with
  | Done (_, _, w) => Some (length (pf_list (w_pf w)),
      length (filter (fun x => wa_fd x = 44 \/ wa_fd x = 45) (ws_read (w_watches w) ++ ws_aio (w_watches w))))
  | _ => None
  end.

Example modem_opened : modem_state (modem_run (take 1 modem_rounds)) = Some (8%nat, 4%nat).
Proof. by vm_compute. Qed.

Lemma modem_closed : modem_state (modem_run modem_rounds) = Some (7%nat, 0%nat).
Proof. by vm_compute. Qed.

Lemma modem_state_done r x : modem_state r = Some x -> exists h' w', r = Done (tt, h', w').
Proof. destruct r as [[[[] h'] w']| | |]; [|done..]. by exists h', w'. Qed.

Lemma references_valid_witness :
  exists h' w', modem_run modem_rounds = Done (tt, h', w') /\ refs settled w'.
Proof.
  destruct (modem_state_done _ _ modem_closed) as (h' & w' & E). exists h', w'. split; [exact E|].
  exact (proj1 (references_valid no_packets 12 no_events 1 NoMonitor true modem_devices 50 60 modem_rounds modem_env
    never_fails h' w' E)).
Defined.

(** The descriptors that are read, after a run. *)
Definition descriptors_fit (r : outcome (unit * heap * world)) : bool :=
  match r with
  | Done (_, _, w) => forallb (fun x => (0 <=? wa_fd x) && (wa_fd x <? FD_SETSIZE)) (ws_read (w_watches w))
  | _ => false
  end.

Lemma modem_descriptors : descriptors_fit (modem_run (take 1 modem_rounds)) = true.
Proof. by vm_compute. Qed.

Lemma descriptors_fit_done r :
  descriptors_fit r = true ->
  exists h' w', r = Done (tt, h', w') /\ Forall (fun x => 0 <= wa_fd x < FD_SETSIZE) (ws_read (w_watches w')).
Proof.
  destruct r as [[[[] h'] w']| | |]; [|done..]. intros H. exists h', w'. split; [done|].
  apply Forall_forall. intros x Hx. apply list_elem_of_In in Hx. apply (proj1 (forallb_forall _ _)) with (x := x) in H; [|done].
  apply andb_true_iff in H as [H1%Z.leb_le H2%Z.ltb_lt]. done.
Qed.

Lemma watching_safe_witness :
  exists h' w', modem_run (take 1 modem_rounds) = Done (tt, h', w') /\
    exists w1, submit_round h' w' = Done (tt, h', w1).
Proof.
  destruct (descriptors_fit_done _ modem_descriptors) as (h' & w' & E & Hfd). exists h', w'. split; [exact E|].
  exact (proj1 (proj2 (watching_safe no_packets 12 no_events 1 NoMonitor true modem_devices 50 60 (take 1 modem_rounds) modem_env
    never_fails h' w' E Hfd))).
Defined.

(** ** The event loop

    The client's write watch; its input descriptor, 3, reports the end of the
    stream; the modem's three channels are watched, and reading the control
    channel fails. *)

Definition raw_client : diag_client := DiagClient "UNIX" 3 3 DIAG_ENCODE_RAW false true circ_zero.

Definition demo_loop : world :=
  World masks_ready (QState {[QClient 0 := [packet None [1; 2]; packet None [3]]]} [0])
    (WState [] [Watch 1 7 (CbRpmsgCntlRecv 0) None None false None;
                Watch 2 8 (CbRpmsgDataRecv 0) None None false (Some 0%nat);
                Watch 3 3 (CbDmRecv 0) None None false None]
       [Watch 0 3 CbFreeWriteAio (Some (QClient 0)) None true None] [] false 0 4)
    (DmState [raw_client] 0) (PfState {[0%nat := demo_perif]} [0%nat] 1)
    (CmdState demo_cmds common_table fallback_table) (IdState [] DIAG_ID_APPS) (DevState [] [])
    (Env {[3 := [inr []]; 7 := [inl 5]]} [1; 1] [] [] []).

Lemma demo_loop_flow : flow_inv demo_loop.
Proof.
  split.
  - intros f. unfold outstanding. cbn [demo_loop w_queues q_lists w_watches ws_aio]. unfold queued.
    rewrite map_fold_singleton. change (0 <= counter f demo_loop).
    unfold counter. destruct f as [|f]; [done|]. by destruct f.
  - intros u. constructor.
  - by repeat constructor.
  - apply NoDup_singleton.
  - repeat constructor.
Qed.

(** The first packet is handed over and completes, then the second. *)
Definition two_writes : list round :=
  [Round 0 0 (select_gives []) true (Some [IoEvent 0 2]); Round 1 1 (select_gives []) true (Some [IoEvent 0 1])].

#[local] Notation demo_writes :=
  (watch_loop no_packets 12 no_events 1 5 two_writes never_fails demo_loop).

Definition writes_ok (r : outcome (unit * heap * world)) : bool :=
  match r with Done (_, _, w) => bool_decide (sent 0 w = [[1; 2]; [3]]) | _ => false end.

Lemma demo_writes_ok : writes_ok demo_writes = true.
Proof. by vm_compute. Qed.

Lemma writes_ok_done r : writes_ok r = true -> exists h' w', r = Done (tt, h', w') /\ sent 0 w' = [[1; 2]; [3]].
Proof. destruct r as [[[[] h'] w']| | |]; [|done..]. intros E%bool_decide_eq_true. by exists h', w'. Qed.

Lemma client_stream_in_order_witness :
  exists h' w', demo_writes = Done (tt, h', w') /\ sent 0 w' = [[1; 2]; [3]] /\
    stream 0 0 demo_loop `prefix_of` stream 0 0 w'.
Proof.
  destruct (writes_ok_done _ demo_writes_ok) as (h' & w' & E & Hs). exists h', w'. split; [exact E|]. split; [exact Hs|].
  refine (client_stream_in_order no_packets 12 no_events 1 5 two_writes 0 0 never_fails demo_loop h' w'
    demo_loop_flow _ _ _ E).
  - repeat constructor.
  - cbn. lia.
  - cbn. lia.
Defined.

(** Two packets for the client and one for the modem, which is charged to its
    flow: two rounds write them all. *)
Definition client_watch : watch := Watch 0 3 CbFreeWriteAio (Some (QClient 0)) None true None.
Definition modem_watch : watch := Watch 4 8 CbFreeWriteAio (Some (QData 0)) None true None.

Definition drain_loop : world :=
  over (fun _ => WState [] (ws_read (w_watches demo_loop)) [client_watch; modem_watch] [] false 0 5)
    (over (fun _ => QState {[QClient 0 := [packet None [1; 2]; packet None [3]]; QData 0 := [packet (Some 0%nat) [9]]]} [1])
      (over (fun e => Env (e_fds e) [1; 1; 1; 1] [] [] []) demo_loop)).

Definition drain_rounds : list round :=
  [Round 0 0 (select_gives []) true (Some [IoEvent 4 1; IoEvent 0 2]); Round 1 1 (select_gives []) true (Some [IoEvent 0 1])].

Lemma drain_writers : writers drain_loop.
Proof.
  split.
  - constructor; [|constructor; [|constructor]]; (split_and!; [done|done|done|by eexists|]).
    + change (Forall (mbuf_ok (w_queues drain_loop)) [packet None [1; 2]; packet None [3]]).
      apply Forall_cons. split; [by split|]. apply Forall_cons. by split; [split|constructor].
    + change (Forall (mbuf_ok (w_queues drain_loop)) [packet (Some 0%nat) [9]]).
      apply Forall_cons. split; [|by constructor]. split; [done|by eexists].
  - apply (bool_decide_unpack (NoDup [0%nat; 4%nat])). by vm_compute.
  - apply (bool_decide_unpack (NoDup [3; 8])). by vm_compute.
  - apply (bool_decide_unpack (NoDup [Some (QClient 0); Some (QData 0)])). by vm_compute.
  - repeat constructor; try done. by eexists.
  - apply (bool_decide_unpack (NoDup [1%nat; 2%nat; 3%nat])). by vm_compute.
  - done.
Qed.

Lemma drain_completes i r : drain_rounds !! i = Some r -> completes drain_loop i r.
Proof.
  destruct i as [|[|i]]; [intros [= <-]|intros [= <-]|done]; (split; [done|]; split; [done|]).
  - exists [IoEvent 4 1; IoEvent 0 2]. split; [done|].
    split; [apply (bool_decide_unpack (NoDup [4%nat; 0%nat])); by vm_compute|]. split; [by repeat constructor|].
    intros id. cbn. rewrite !elem_of_cons, elem_of_nil. split.
    + intros [->|[->|[]]]; [exists modem_watch|exists client_watch]; (split; [|split; [done|apply Nat.ltb_lt; by vm_compute]]).
      * apply list_elem_of_further, list_elem_of_here.
      * apply list_elem_of_here.
    + intros (x & [->|[->|[]%elem_of_nil]%elem_of_cons]%elem_of_cons & <- & _); auto.
  - exists [IoEvent 0 1]. split; [done|]. split; [apply NoDup_singleton|]. split; [by repeat constructor|].
    intros id. cbn. rewrite !elem_of_cons, elem_of_nil. split.
    + intros [->|[]]. exists client_watch. split; [apply list_elem_of_here|]. split; [done|]. apply Nat.ltb_lt. by vm_compute.
    + intros (x & [->|[->|[]%elem_of_nil]%elem_of_cons]%elem_of_cons & <- & Hi); [auto|]. apply Nat.ltb_lt in Hi. by vm_compute in Hi.
Qed.

Lemma queues_drain_witness :
  exists w', watch_loop no_packets 12 no_events 1 3 drain_rounds never_fails drain_loop = Done (tt, never_fails, w') /\
    sent 0 w' = [[1; 2]; [3]] /\ sent 4 w' = [[9]].
Proof.
  destruct (queues_drain no_packets 12 no_events 1 3 drain_rounds never_fails drain_loop drain_writers drain_completes)
    as (w' & E & H).
  - by repeat constructor.
  - cbn. lia.
  - cbn. lia.
  - intros x [->|[->|[]%elem_of_nil]%elem_of_cons]%elem_of_cons; apply Nat.leb_le; by vm_compute.
  - exists w'. split; [exact E|].
    split; [exact (proj2 (H _ (list_elem_of_here _ _)))|exact (proj2 (H _ (list_elem_of_further _ _ _ (list_elem_of_here _ _))))].
Defined.

Lemma hangup_blocks_flow_witness :
  exists h1 w1 h2 w2,
    dm_recv 1 0 never_fails demo_loop = Done (0, h1, w1) /\
    for_each (fun _ => dm_broadcast [9] 1 (Some 0%nat)) (seq 0 11) h1 w1 = Done (tt, h2, w2) /\
    forall n rs h3 w3, watch_loop no_packets 12 no_events 1 n rs h2 w2 = Done (tt, h3, w3) ->
      FLOW_WATERMARK < counter 0 w3 /\ watch_flow_blocked (Some 0%nat) h3 (w_queues w3) = Done (true, h3, w_queues w3).
Proof.
  refine (hangup_blocks_flow no_packets 12 no_events 0 0 raw_client 0 [] [9] 1 never_fails demo_loop
    demo_loop_flow _ eq_refl eq_refl eq_refl _ eq_refl _ never_fails_alloc_ok _ _ _).
  - intros c dm Hc. destruct c; [|done]. injection Hc as <-. by left.
  - by repeat constructor.
  - by exists 0.
  - by repeat constructor.
  - by split.
  - done.
Defined.

Lemma cntl_failure_frees_next_watch_witness :
  read_loop no_packets 12 no_events 1 5 (Some 1%nat) (Some 2%nat) [7] never_fails demo_loop = UB.
Proof.
  refine (cntl_failure_frees_next_watch no_packets 12 no_events 1 4 0 demo_perif 1
    (Watch 1 7 (CbRpmsgCntlRecv 0) None None false None) 2
    (Watch 2 8 (CbRpmsgDataRecv 0) None None false (Some 0%nat)) [7] 5 [] never_fails demo_loop
    eq_refl eq_refl eq_refl eq_refl _ eq_refl _ _ _ eq_refl eq_refl).
  - apply list_elem_of_here.
  - done.
  - cbn. apply (bool_decide_unpack (NoDup [1%nat; 2%nat; 3%nat])). by vm_compute.
  - apply list_elem_of_further, list_elem_of_here.
Defined.

(** ** The data channel *)

Definition modem_perif : peripheral :=
  Peripheral (Some "modem"%string) 0 7 true 8 true 9 0 None 0 false circ_zero decoder_zero Rpmsg.

Lemma diag_data_recv_hdlc_delivers_witness :
  exists k w', diag_data_recv_hdlc 9 0 8 never_fails (one_frame 0) = Done (- EAGAIN, steps k never_fails, w') /\
    fd_script 8 w' = [] /\ received 0 [[0x60]] (one_frame 0) w'.
Proof.
  destruct (diag_data_recv_hdlc_delivers 9 0 modem_perif 8 [] 0 [] 0 never_fails (one_frame 0)) as (k & w' & s1 & s2 & E & Es & Hs & Hf & H).
  - split; [|by left]. exists decoder_zero, circ_zero. destruct circ_zero_wf as [Hw Hb].
    split; [reflexivity|]. split; [apply decoder_zero_state|]. split; [exact Hw|]. split; [exact Hb|].
    split; [by apply circ_contents_empty|done].
  - intros c dm Hc. destruct c; [|done]. injection Hc as <-. right. by left.
  - done.
  - exact never_fails_alloc_ok.
  - constructor.
  - done.
  - constructor.
  - split; [|by vm_compute]. repeat constructor; by vm_compute.
  - apply Nat.ltb_lt. by vm_compute.
  - exists k, w'. split; [exact E|]. split; [exact Hf|]. destruct Hs as [->|Hpos]; [|by vm_compute in Hpos].
    rewrite app_nil_r in Es. rewrite <- Es in H.
    assert (hdlc_stream [] 0 ([] ++ script_data (fd_script 8 (one_frame 0))) = ([[0x60] ++ hdlc_fcs_of [0x60]], [], 0)) as E1 by (by vm_compute).
    rewrite E1 in H. exact (proj1 H).
Defined.
