(* ===== verification/LoopScenario.v ===== *)
(** * LoopScenario: rounds of the event loop on concrete states

    The theorems about timers and about channels that come and go, applied to
    the router of [Scenario]. *)

From S2P Require Import Prelude Util CircBuf Hdlc Masks MaskTables Queue Watch World Dm Cntl CntlProps DiagIds Peripheral AppCmds CommonCmds Router DmRecv Devnode Qrtr Clients EventLoop Keeps Preserve Flow Timers Hotplug RouterProps Scenario.

(** ** Timers

    The modem is to be opened in a second, and the client, on non-HDLC since a
    failed packet, is to be reset after 200 ms. *)

Definition timers_loop : world :=
  over (fun _ => DmState [DiagClient "UNIX" 3 3 DIAG_ENCODE_NHDLC true true circ_zero] 1)
    (over (with_timers (fun _ => [Timer (TmPeripheralOpen 0) 1000 false 1000000;
                                  Timer (TmHdlcReset 0) 200 false 200000])) demo_loop).

(** The process sleeps 50 ms, and is interrupted when it asks for longer. *)
Definition EINTR : Z := 4.

Definition select_sleeps (d : Z) : list Z -> option Z -> Z + list Z :=
  fun _ t => match t with Some t => if t <=? d then inr [] else inl EINTR | None => inl EINTR end.

Definition timeout_round : round := Round 150000 200001 (select_sleeps 50001) false None.

#[local] Notation one_timeout := (watch_round no_packets 12 no_events 1 3 timeout_round never_fails timers_loop).

Lemma timers_loop_flow : flow_inv timers_loop.
Proof. destruct demo_loop_flow. by split. Qed.

Definition goes_on (r : outcome (bool * heap * world)) : bool :=
  match r with Done (go, _, _) => go | _ => false end.

Lemma goes_on_done r : goes_on r = true -> exists h' w', r = Done (true, h', w').
Proof. destruct r as [[[go h'] w']| | |]; try done. cbn. intros ->. by exists h', w'. Qed.

Lemma one_timeout_goes_on : goes_on one_timeout = true.
Proof. by vm_compute. Qed.

Lemma timers_run_when_due_witness :
  exists h' w', one_timeout = Done (true, h', w') /\
    exists new, Forall (set_at 200001) new /\
      ws_timers (w_watches w') = [Timer (TmPeripheralOpen 0) 1000 false 1000000] ++ new.
Proof.
  destruct (goes_on_done _ one_timeout_goes_on) as (h' & w' & E). exists h', w'. split; [exact E|].
  destruct (timers_run_when_due no_packets 12 no_events 1 3 timeout_round never_fails timers_loop h' w'
    timers_loop_flow) as (fds & ready & new & [_ Hr] & Hnew & [[[H|H] _]|(_ & k & t & Hk & _ & Hfirst & _ & El & _)]); [|exact E|..].
  - intros fds t ready E' _ _. revert E'. cbn. unfold select_sleeps. destruct (Z.leb_spec t 50001); [lia|done].
  - destruct H. revert Hr. cbn. unfold select_sleeps. destruct (_ <=? 50001); [|done]. by intros [= <-].
  - discriminate H.
  - exists new. split; [exact Hnew|]. rewrite El. f_equal. unfold expire. rewrite Hk.
    destruct k as [|[|k]]; [| |done]; injection Hk as <-; [|done].
    specialize (Hfirst _ (list_elem_of_further _ _ _ (list_elem_of_here _ _))). cbn in Hfirst. lia.
Defined.

(** The client is back on HDLC. *)
Example client_reset :
  match one_timeout with Done (_, _, w) => dm_encode_type <$> dm_clients (w_dm w) | _ => [] end = [DIAG_ENCODE_HDLC].
Proof. by vm_compute. Qed.

(** ** Hotplug

    A modem's two channels are there at the start; its command channel and an
    audio processor's data channel appear, and the first channel goes away. *)

Definition hot_events : list udev_device :=
  [UdevDevice (Some "add") (Some "/dev/rpmsg2") (Some "DIAG_CMD") [Some "modem"];
   UdevDevice (Some "add") (Some "/dev/rpmsg5") (Some "DIAG") [None; Some "lpass"];
   UdevDevice (Some "remove") (Some "/dev/rpmsg0") None []]%string.

Definition hot_world : world :=
  over (fun _ => masks_ready) (start (Env ∅ [44; 45; 46; 0] [] hot_events [])).

Definition hot_channels_left : list channel :=
  [Channel "/dev/rpmsg1" "DIAG_CNTL" "modem"; Channel "/dev/rpmsg2" "DIAG_CMD" "modem"; Channel "/dev/rpmsg5" "DIAG" "lpass"]%string.

Lemma hot_world_hot : hot (Hotplug [] []) hot_world.
Proof. split; [done|constructor|]. intros p [x Hx]. change ((∅ : gmap nat peripheral) !! p = Some x) in Hx. by rewrite lookup_empty in Hx. Qed.

Lemma hot_events_reported : Forall reported hot_events.
Proof. repeat constructor; by eexists. Qed.

Lemma rpmsg_hotplug_refines_witness :
  exists k1 w1 k2 w2,
    peripheral_rpmsg_init true modem_devices 50 never_fails hot_world = Done (0, steps k1 never_fails, monitored 50 w1) /\
    for_each (fun _ => _ ← peripheral_udev_update; mret tt) hot_events (steps k1 never_fails) (monitored 50 w1) =
      Done (tt, steps k2 never_fails, w2) /\
    hot (Hotplug hot_channels_left ["modem"; "lpass"]%string) w2.
Proof.
  destruct (rpmsg_hotplug_refines modem_devices hot_events 50 [] (Hotplug [] []) never_fails hot_world hot_world_hot
    never_fails_alloc_ok eq_refl hot_events_reported) as (k1 & w1 & k2 & w2 & E1 & _ & E2 & [H _] & _).
  exists k1, w1, k2, w2. split; [exact E1|]. split; [exact E2|]. exact H.
Defined.

(** A modem that appears when the QRTR peripherals are on the list is taken
    for the one there: no peripheral is created for its channels. *)
Example qrtr_name_hides_rpmsg :
  hp_names (foldl hears (Hotplug [] ["modem"; "lpass"; "wcnss"; "sensors"; "cdsp"; "wdsp"; "soccp"])
    [UdevDevice (Some "add") (Some "/dev/rpmsg0") (Some "DIAG") [Some "modem"]])%string
  = ["modem"; "lpass"; "wcnss"; "sensors"; "cdsp"; "wdsp"; "soccp"]%string.
Proof. by vm_compute. Qed.

(** The modem with its three channels in the table. *)
Definition table_channels : list channel :=
  [Channel "/dev/rpmsg0" "DIAG" "modem"; Channel "/dev/rpmsg1" "DIAG_CNTL" "modem"; Channel "/dev/rpmsg2" "DIAG_CMD" "modem"]%string.

Definition table_world : world :=
  over (fun _ => DevState (stored <$> table_channels) [])
    (over (fun _ => PfState {[0%nat := blank "modem" 0]} [0%nat] 1)
      (over (fun s => QState (q_lists s) [0]) hot_world)).

Lemma table_world_hot : hot (Hotplug table_channels ["modem"%string]) table_world.
Proof.
  split; [done| |].
  - constructor; [|constructor]. by exists (blank "modem" 0).
  - intros p [x Hx]. destruct (decide (p = 0%nat)) as [->|Hne]; [cbn; lia|].
    change (({[0%nat := blank "modem" 0]} : gmap nat peripheral) !! p = Some x) in Hx. by rewrite lookup_singleton_ne in Hx.
Qed.

Lemma peripheral_open_connects_witness :
  let msgs := mask_packets (w_masks table_world) in
  length msgs = 25%nat /\ Forall (is_cntl DIAG_CNTL_CMD_MSG_MASK) msgs /\
  exists k, peripheral_open 0 never_fails table_world = Done (tt, steps k never_fails,
      push_cntls 0 msgs (over (watched 0 45 44 46 (Some 0%nat))
        (set_perif 0 (pf_with_fds 45 44 46 (blank "modem" 0)) (with_results [] table_world)))).
Proof.
  exact (peripheral_open_connects 0 (blank "modem" 0) "modem" _ never_fails table_world table_world_hot never_fails_alloc_ok
    (proj1 masks_ready_wf) eq_refl eq_refl).
Defined.

Definition open_modem : peripheral := pf_with_fds 45 44 46 (blank "modem" 0).

Definition open_world : world := over (watched 0 45 44 46 (Some 0%nat)) (set_perif 0 open_modem table_world).

Lemma peripheral_close_undoes_open_witness :
  exists w', peripheral_close 0 never_fails open_world = Done (tt, never_fails, w') /\
    pf_objs (w_pf w') !! 0%nat = None /\ ws_read (w_watches w') = [] /\ ws_aio (w_watches w') = [].
Proof.
  destruct (peripheral_close_undoes_open 0 open_modem never_fails open_world eq_refl eq_refl)
    as (w' & E & Ep & _ & _ & _ & Hs & _).
  exists w'. split; [exact E|]. rewrite Ep. split; [apply lookup_delete_eq|].
  destruct (Hs (w_watches table_world) eq_refl ltac:(constructor)) as (H1 & H2 & _). by split.
Defined.
