(* ===== verification/RunScenario.v ===== *)
(** * RunScenario: runs of the program

    The theorems about what a run goes on to do, applied to runs that start in
    [main]: a modem that is opened, and a client that gets its messages. *)

From S2P Require Import Prelude Util CircBuf Hdlc Masks MaskTables Queue Watch World Dm Cntl CntlProps DiagIds Peripheral AppCmds CommonCmds Router DmRecv Devnode Qrtr Clients EventLoop Keeps Preserve Flow DataPath Stream Packets Drain Reached Typed EndToEnd Bursts RouterProps Scenario.

(** ** The masks reach a modem that was opened

    The run of [Scenario] in which a modem is opened, with a system that takes
    every write: 25 quiet rounds hand it the 25 mask packets. *)

Definition writes_env : env := Env ∅ (e_results modem_env ++ replicate 50 1) [] [] [].

#[local] Notation opening_run rounds :=
  (main no_packets 12 no_events 1 NoMonitor true modem_devices 50 60 rounds never_fails (start writes_env)).

Definition cntl_watch : watch := Watch 23 45 CbFreeWriteAio (Some (QCntl 0)) None true None.
Definition write_watches : list watch := [cntl_watch; Watch 24 44 CbFreeWriteAio (Some (QData 0)) None true None].

(** The watches, what waits for them, what is read, and the system's answers. *)
Definition opened_view (w : world) : list watch * list nat * list Z * bool * list Z * list (list bytes) :=
  (ws_aio (w_watches w), (fun x => length (waiting w x)) <$> write_watches, wa_fd <$> ws_read (w_watches w),
   ws_do_quit (w_watches w), e_results (w_env w), (fun x => sent (wa_id x) w) <$> write_watches).

Definition read_fds : list Z := [3; 50; 4; 6; 5; 8; 10; 9; 12; 14; 13; 16; 18; 17; 20; 22; 21; 24; 26; 25; 28; 30; 29; 45; 44].

Definition opened : list watch * list nat * list Z * bool * list Z * list (list bytes) :=
  (write_watches, [25%nat; 0%nat], read_fds, false, replicate 50 1, [[]; []]).

Definition run_view (r : outcome (unit * heap * world)) : option (list watch * list nat * list Z * bool * list Z * list (list bytes)) :=
  match r with Done (_, _, w) => Some (opened_view w) | _ => None end.

Lemma opening_run_view : run_view (opening_run (take 1 modem_rounds)) = Some opened.
Proof. by vm_compute. Qed.

Lemma viewed_done r :
  run_view r = Some opened -> exists h w, r = Done (tt, h, w) /\ opened_view w = opened.
Proof. destruct r as [[[[] h] w]| | |]; [|done..]. intros E%(inj Some). by exists h, w. Qed.

Definition mask_rounds : list round :=
  replicate 25 (Round 1000001 1000001 (select_gives []) true (Some [IoEvent 23 40])).

Section opened.
Context (w : world) (Hv : opened_view w = opened).

Lemma opened_writes x :
  x ∈ ws_aio (w_watches w) -> x = cntl_watch \/ x = Watch 24 44 CbFreeWriteAio (Some (QData 0)) None true None.
Proof.
  injection Hv as Ha _ _ _ _ _ _ _. rewrite Ha. intros [->|[->|[]%elem_of_nil]%elem_of_cons]%elem_of_cons; [by left|by right].
Qed.

Lemma opened_calm : calm w.
Proof.
  injection Hv as Ha _ _ Hr Hq _ _ _. split; rewrite ?Ha.
  - constructor; [done|]. by apply Forall_singleton.
  - apply (bool_decide_unpack (NoDup [45; 44])). by vm_compute.
  - apply (bool_decide_unpack (NoDup [Some (QCntl 0); Some (QData 0)])). by vm_compute.
  - assert (Forall (fun z => 0 <= z < FD_SETSIZE) (wa_fd <$> ws_read (w_watches w))) as H; [|by apply Forall_fmap in H].
    rewrite Hr. apply (bool_decide_unpack (Forall (fun z => 0 <= z < FD_SETSIZE) read_fds)). by vm_compute.
  - exact Hq.
Qed.

Lemma opened_completes i r : mask_rounds !! i = Some r -> completes w i r.
Proof.
  pose proof opened_writes as Hx. injection Hv as Ha Hc Hd _ _ _ _ _. intros [-> Hi]%lookup_replicate. split; [done|]. split; [done|].
  exists [IoEvent 23 40]. split; [done|]. split; [apply NoDup_singleton|]. split; [by apply Forall_singleton|].
  intros id. cbn [fmap list_fmap ev_obj]. rewrite list_elem_of_singleton. split.
  - intros ->. exists cntl_watch. rewrite Ha, Hc. split; [apply list_elem_of_here|]. by split.
  - intros (x & [->| ->]%Hx & <- & Hl); [done|]. rewrite Hd in Hl. lia.
Qed.
End opened.

Lemma run_drains_queues_witness :
  exists h1 w2, opening_run (take 1 modem_rounds ++ mask_rounds) = Done (tt, h1, w2) /\
    waiting w2 cntl_watch = [] /\ length (sent 23 w2) = 25%nat.
Proof.
  destruct (viewed_done _ opening_run_view) as (h1 & w1 & E & Hv).
  destruct (run_drains_queues no_packets 12 no_events 1 60 NoMonitor true modem_devices 50 (take 1 modem_rounds) mask_rounds
    never_fails writes_env h1 w1 E) as (w2 & E2 & H2); clear E.
  - constructor; [|constructor]. intros fds t. by eexists.
  - by apply opened_calm.
  - by apply opened_completes.
  - injection Hv as _ _ _ _ _ Hres _ _. rewrite Hres. by apply Forall_replicate.
  - injection Hv as Ha _ _ _ _ Hres _ _. rewrite Ha, Hres. by apply Nat.leb_le.
  - injection Hv as _ _ _ Hr _ _ _ _. rewrite <- (length_fmap wa_fd), Hr. by apply Nat.leb_le.
  - intros x Hx%(opened_writes w1 Hv). injection Hv as _ Hc Hd _ _ _ _ _. destruct Hx as [->| ->]; rewrite ?Hc, ?Hd; by apply Nat.leb_le.
  - exists h1, w2. split; [exact E2|]. injection Hv as Ha Hc _ _ _ _ Hs _.
    destruct (H2 cntl_watch) as [Hw1 Hsent]; [rewrite Ha; apply list_elem_of_here|].
    split; [exact Hw1|]. change (wa_id cntl_watch) with 23%nat in Hsent. by rewrite Hsent, Hs, app_nil_l, length_fmap.
Defined.

(** ** From the modem to a client

    A client connects, the modem is opened, the masks are written; then two
    messages arrive in two bursts: the first burst comes in two chunks that
    cut the first message, and ends within the second message. *)

Definition frame0 : bytes := hdlc_frame [0x60; 0x7e].
Definition frame1 : bytes := hdlc_frame [0x61].
Definition data_script : list (Z + bytes) :=
  [inr (take 3 frame0); inr (drop 3 frame0 ++ take 2 frame1); inl EAGAIN; inr (drop 2 frame1)].

Definition data_env : env :=
  Env {[44 := data_script]}
    (take 34 (e_results modem_env) ++ [60; 0] ++ drop 34 (e_results modem_env) ++ replicate 31 1) [] [] [].

Definition first_rounds : list round :=
  [Round 0 0 (select_gives [3]) false None; Round 1000000 1000000 (select_gives []) false None] ++
  replicate 25 (Round 1000001 1000001 (select_gives []) true (Some [IoEvent 25 40])).

Definition data_ready : round := Round 1000002 1000002 (select_gives [44]) false None.

Definition reply_written : round := Round 1000003 1000003 (select_gives []) true (Some [IoEvent 24 5]).

Definition two_bursts : list burst := replicate 2 (data_ready, [reply_written]).

#[local] Notation data_run rounds :=
  (main no_packets 12 no_events 20 NoMonitor true modem_devices 50 60 rounds never_fails (start data_env)).

Definition data_watch : watch := Watch 28 44 (CbRpmsgDataRecv 0) None None false (Some 0%nat).
Definition reply_watch : watch := Watch 24 60 CbFreeWriteAio (Some (QClient 0)) None true None.

Definition three_writes : list watch :=
  [reply_watch; Watch 25 45 CbFreeWriteAio (Some (QCntl 0)) None true None; Watch 26 44 CbFreeWriteAio (Some (QData 0)) None true None].

Definition unix_client : diag_client := DiagClient "UNIX" 60 60 DIAG_ENCODE_RAW false true circ_zero.

Definition opened_perif : peripheral :=
  Peripheral (Some "modem"%string) 0 45 false 44 false (-1) 0 (Some 0%nat) 0 false circ_zero decoder_zero Rpmsg.

(** What the theorem needs to know of the state. *)
Record summary := Summary {
  sm_writes : list watch; sm_queues : bool; sm_reads : list Z; sm_data : option watch; sm_quit : bool;
  sm_results : list Z; sm_clients : list diag_client; sm_flow : Z; sm_perif : option peripheral;
  sm_script : list (Z + bytes); sm_sent : list bytes }.

Definition summarize (w : world) : summary :=
  Summary (ws_aio (w_watches w)) (bool_decide (map_Forall (fun _ l => l = []) (q_lists (w_queues w)))) (wa_fd <$> ws_read (w_watches w))
    (ws_read (w_watches w) !! 25%nat) (ws_do_quit (w_watches w)) (e_results (w_env w)) (dm_clients (w_dm w)) (counter 0 w)
    (pf_objs (w_pf w) !! 0%nat) (fd_script 44 w) (sent 24 w).

Definition summarized (r : outcome (unit * heap * world)) : option summary :=
  match r with Done (_, _, w) => Some (summarize w) | _ => None end.

Definition idle_reads : list Z := [3; 50; 4; 6; 5; 8; 10; 9; 12; 14; 13; 16; 18; 17; 20; 22; 21; 24; 26; 25; 28; 30; 29; 60; 45; 44].

Definition idle_summary : summary :=
  Summary three_writes true idle_reads (Some data_watch) false (replicate 6 1) [unix_client] 0
    (Some opened_perif) data_script [].

Lemma first_rounds_idle : summarized (data_run first_rounds) = Some idle_summary.
Proof. by vm_compute. Qed.

Lemma summarized_done r s : summarized r = Some s -> exists h w, r = Done (tt, h, w) /\ summarize w = s.
Proof. destruct r as [[[[] h] w]| | |]; [|done..]. intros E%(inj Some). by exists h, w. Qed.

Section idle.
Context (w : world) (Hv : summarize w = idle_summary).

Lemma idle_aio : ws_aio (w_watches w) = three_writes.
Proof. exact (f_equal sm_writes Hv). Qed.
Lemma idle_fds : wa_fd <$> ws_read (w_watches w) = idle_reads.
Proof. exact (f_equal sm_reads Hv). Qed.
Lemma idle_counter : counter 0 w = 0.
Proof. exact (f_equal sm_flow Hv). Qed.
Lemma idle_script : fd_script (wa_fd data_watch) w = data_script.
Proof. exact (f_equal sm_script Hv). Qed.
Lemma idle_results : e_results (w_env w) = replicate 6 1.
Proof. exact (f_equal sm_results Hv). Qed.
Lemma idle_clients : dm_clients (w_dm w) = [unix_client].
Proof. exact (f_equal sm_clients Hv). Qed.

Lemma idle_empty q : queue_of (w_queues w) q = [].
Proof.
  pose proof (bool_decide_eq_true_1 _ (f_equal sm_queues Hv)) as H. unfold queue_of.
  destruct (q_lists (w_queues w) !! q) as [l|] eqn:E; [by apply (H q)|done].
Qed.

Lemma idle_calm : calm w.
Proof.
  split; rewrite ?idle_aio.
  - by repeat constructor.
  - apply (bool_decide_unpack (NoDup [60; 45; 44])). by vm_compute.
  - apply (bool_decide_unpack (NoDup [Some (QClient 0); Some (QCntl 0); Some (QData 0)])). by vm_compute.
  - assert (Forall (fun z => 0 <= z < FD_SETSIZE) (wa_fd <$> ws_read (w_watches w))) as H; [|by apply Forall_fmap in H].
    rewrite idle_fds.
    apply (bool_decide_unpack (Forall (fun z => 0 <= z < FD_SETSIZE) idle_reads)). by vm_compute.
  - exact (f_equal sm_quit Hv).
Qed.

(** The data channel's watch is the last one. *)
Lemma idle_channel :
  channel_watch w 0 opened_perif (take 25 (ws_read (w_watches w))) data_watch (drop 26 (ws_read (w_watches w))).
Proof.
  split; [| |done| |done].
  - symmetry. apply take_drop_middle. exact (f_equal sm_data Hv).
  - assert (Forall (fun z => z <> 44) (wa_fd <$> (take 25 (ws_read (w_watches w)) ++ drop 26 (ws_read (w_watches w))))) as H;
      [|exact (proj1 (Forall_fmap _ _ _) H)].
    rewrite fmap_app, fmap_take, fmap_drop, idle_fds.
    apply (bool_decide_unpack (Forall (fun z => z <> 44) (take 25 idle_reads ++ drop 26 idle_reads))). by vm_compute.
  - intros f [= <-]. by rewrite idle_counter.
Qed.

Lemma opened_resting : resting opened_perif.
Proof. left. apply circ_contents_empty; [apply zero_typed|done]. Qed.

Lemma opened_ring : circ_contents (pf_recv_buf opened_perif) = [].
Proof. apply circ_contents_empty; [apply zero_typed|done]. Qed.

Lemma opened_frames : frames_of opened_perif = hdlc_stream [] 0.
Proof. unfold frames_of. cbn [opened_perif pf_recv_decoder]. by rewrite (proj1 (proj2 decoder_zero_state)). Qed.

Lemma idle_ready : ready 0 opened_perif (take 25 (ws_read (w_watches w))) data_watch (drop 26 (ws_read (w_watches w))) w.
Proof.
  split; [apply idle_calm|apply idle_empty| |apply idle_channel|exact (f_equal sm_perif Hv)|apply opened_resting].
  intros c dm. rewrite idle_clients, idle_aio. intros [-> _]%list_lookup_singleton_Some _.
  exists reply_watch. split; [apply list_elem_of_here|done].
Qed.
End idle.

(** The allocator is the one the run starts with. *)
Lemma first_rounds_alloc : match data_run first_rounds with Done (_, h, _) => alloc_ok h | _ => False end.
Proof. vm_compute. intros k. by eexists. Qed.

(** What the rounds that follow make of the state. *)
Definition rounds_after (rs : list round) (r : outcome (unit * heap * world)) : outcome (unit * heap * world) :=
  match r with
  | Done (_, h, w) => watch_loop no_packets 12 no_events 20 60 rs h w
  | r => r
  end.

Definition later (r : outcome (unit * heap * world)) : option (list watch * list nat * bool) :=
  match r with
  | Done (_, _, w) =>
      Some (ws_aio (w_watches w), (fun x => length (waiting w x)) <$> three_writes, ws_do_quit (w_watches w))
  | _ => None
  end.

#[local] Notation after rs := (later (rounds_after rs (data_run first_rounds))).

Lemma burst_views :
  after [data_ready] = Some (three_writes, [1%nat; 0%nat; 0%nat], false) /\
  after [data_ready; reply_written] = Some (three_writes, [0%nat; 0%nat; 0%nat], false) /\
  after [data_ready; reply_written; data_ready] = Some (three_writes, [1%nat; 0%nat; 0%nat], false).
Proof. split_and!; by vm_compute. Qed.

Lemma reply_completes w i r :
  later (Done (tt, never_fails, w)) = Some (three_writes, [1%nat; 0%nat; 0%nat], false) ->
  [reply_written] !! i = Some r -> completes w i r.
Proof.
  intros Hv Hr. apply list_lookup_singleton_Some in Hr as [-> <-]. apply (inj Some) in Hv. cbn [three_writes fmap list_fmap] in Hv.
  injection Hv as Ha H1 H2 H3 _.
  split; [done|]. split; [done|]. exists [IoEvent 24 5]. split; [done|]. split; [apply NoDup_singleton|].
  split; [by apply Forall_singleton|]. intros id. cbn [fmap list_fmap ev_obj]. rewrite list_elem_of_singleton, Ha. split.
  - intros ->. exists reply_watch. split; [apply list_elem_of_here|]. rewrite H1. split; [done|lia].
  - intros (x & [->|[->|[->|[]%elem_of_nil]%elem_of_cons]%elem_of_cons]%elem_of_cons & <- & Hn); [done|lia..].
Qed.

Lemma reply_long w y :
  later (Done (tt, never_fails, w)) = Some (three_writes, [1%nat; 0%nat; 0%nat], false) ->
  y ∈ three_writes -> (length (waiting w y) <= 1)%nat.
Proof.
  intros Hv. apply (inj Some) in Hv. cbn [three_writes fmap list_fmap] in Hv. injection Hv as _ H1 H2 H3 _.
  intros [->|[->|[->|[]%elem_of_nil]%elem_of_cons]%elem_of_cons]%elem_of_cons; lia.
Qed.

(** The rounds after the first ones, from the state they lead to. *)
Definition leads_to (h : heap) (w : world) (rs : list round) (x : list watch * list nat * bool) : Prop :=
  forall h' w', watch_loop no_packets 12 no_events 20 60 rs h w = Done (tt, h', w') ->
    later (Done (tt, never_fails, w')) = Some x.

Lemma later_leads h w rs x : data_run first_rounds = Done (tt, h, w) -> after rs = Some x -> leads_to h w rs x.
Proof. intros E Ha h' w' El. rewrite E in Ha. cbn [rounds_after] in Ha. by rewrite El in Ha. Qed.

Lemma data_reports : reports 44 data_ready.
Proof. done. Qed.

Section rounds.
Context (h : heap) (w : world) (Hv : summarize w = idle_summary)
  (V1 : leads_to h w [data_ready] (three_writes, [1%nat; 0%nat; 0%nat], false))
  (V2 : leads_to h w [data_ready; reply_written] (three_writes, [0%nat; 0%nat; 0%nat], false))
  (V3 : leads_to h w [data_ready; reply_written; data_ready] (three_writes, [1%nat; 0%nat; 0%nat], false)).

Lemma bursts_cooperate : cooperates no_packets 12 no_events 20 60 44 two_bursts h w.
Proof.
  pose proof (f_equal sm_quit Hv : ws_do_quit (w_watches w) = false) as Hq.
  split; [exact data_reports|]. intros h2 w2 E2. pose proof (V1 _ _ (one_round _ _ _ _ _ _ _ _ _ _ Hq E2)) as L2.
  split; [intros i r; by apply reply_completes|]. split; [intros y; rewrite (idle_aio w Hv); by apply reply_long|].
  intros h3 w3 E3. pose proof (loop_round _ _ _ _ _ _ [reply_written] _ _ _ _ Hq E2) as E13. rewrite E3 in E13.
  pose proof (V2 _ _ E13) as L3. pose proof (f_equal (fun x => x.2) (inj Some _ _ L3) : ws_do_quit (w_watches w3) = false) as Hq3.
  pose proof (f_equal (fun x => x.1.1) (inj Some _ _ L3) : ws_aio (w_watches w3) = three_writes) as Ha3.
  split; [exact data_reports|]. intros h4 w4 E4.
  assert (later (Done (tt, never_fails, w4)) = Some (three_writes, [1%nat; 0%nat; 0%nat], false)) as L4.
  { apply (V3 h4). rewrite (watch_loop_app _ _ _ _ _ [data_ready; reply_written] [data_ready] h w h3 w3); [|..].
    - exact (one_round _ _ _ _ _ _ _ _ _ _ Hq3 E4).
    - repeat constructor; intros fds t; by eexists.
    - exact E13.
    - exact Hq3. }
  split; [intros i r; by apply reply_completes|]. split; [intros y; rewrite Ha3; by apply reply_long|].
  intros. exact Logic.I.
Qed.
End rounds.

(** The frames of the two bursts. *)
Lemma bursts_stream :
  hdlc_stream [] 0 (script_bursts (length two_bursts) data_script) =
    ([[0x60; 0x7e] ++ hdlc_fcs_of [0x60; 0x7e]; [0x61] ++ hdlc_fcs_of [0x61]], [], 0).
Proof. by vm_compute. Qed.

Lemma run_delivers_bursts_witness :
  exists h2 w2, data_run (first_rounds ++ burst_rounds two_bursts) = Done (tt, h2, w2) /\
    sent 24 w2 = [[0x60; 0x7e]; [0x61]].
Proof.
  destruct (summarized_done _ _ first_rounds_idle) as (h1 & w & E & Hv).
  pose proof first_rounds_alloc as Hh. rewrite E in Hh. 
  assert (cooperates no_packets 12 no_events 20 60 44 two_bursts h1 w) as Hco.
  { destruct burst_views as (V1 & V2 & V3). exact (bursts_cooperate h1 w Hv (later_leads _ _ _ _ E V1) (later_leads _ _ _ _ E V2) (later_leads _ _ _ _ E V3)). }
  destruct (run_delivers_bursts no_packets 12 no_events 20 60 NoMonitor true modem_devices 50 first_rounds two_bursts
    0 opened_perif (take 25 (ws_read (w_watches w))) data_watch (drop 26 (ws_read (w_watches w))) never_fails data_env h1 w E)
    as (k & w2 & perif2 & s1 & s2 & E2 & Es & Hwait & _ & Hd); clear E.
  - do 2 (constructor; [by eexists|]). apply Forall_replicate. by eexists.
  - exact Hh.
  - by apply idle_ready.
  - rewrite <- (length_fmap wa_fd), (idle_fds w Hv). by apply Nat.leb_le.
  - rewrite (idle_script w Hv). do 2 (split; [done|split; [apply Nat.ltb_lt; by vm_compute|]]). exact Logic.I.
  - rewrite opened_frames, (idle_script w Hv), opened_ring, app_nil_l, bursts_stream. split; [|done]. repeat constructor; by vm_compute.
  - rewrite (idle_results w Hv). by apply Forall_replicate.
  - rewrite (idle_results w Hv), (idle_aio w Hv). by apply Nat.leb_le.
  - exact Hco.
  - destruct Hwait as [->|Hpos]; [|rewrite (idle_script w Hv) in Hpos; by vm_compute in Hpos].
    destruct Hd as [_ _ _ _ _ Hsent]. rewrite app_nil_r, opened_ring, (idle_script w Hv) in Es. cbn [app] in Es.
    rewrite <- Es, opened_frames, bursts_stream in Hsent.
    exists (steps k h1), w2. split; [exact E2|].
    specialize (Hsent reply_watch). rewrite (idle_aio w Hv) in Hsent. specialize (Hsent (list_elem_of_here _ _)).
    change (wa_id reply_watch) with 24%nat in Hsent. rewrite Hsent. unfold replies_for. cbn [wa_queue reply_watch].
    rewrite (idle_clients w Hv). by rewrite (f_equal sm_sent Hv : sent 24 w = []).
Defined.

(** ** The modem's frames arrive and are written: the client is still there *)

Lemma frames_arrived :
  match rounds_after (burst_rounds two_bursts) (data_run first_rounds) with
  | Done (_, _, w) => Some (bool_decide (is_Some (pf_objs (w_pf w) !! 0%nat)), sent 24 w)
  | _ => None
  end = Some (true, [[0x60; 0x7e]; [0x61]]).
Proof. by vm_compute. Qed.

Lemma run_stays_typed_witness :
  exists h1 w1 h2 w2, data_run first_rounds = Done (tt, h1, w1) /\
    watch_loop no_packets 12 no_events 20 60 (burst_rounds two_bursts) h1 w1 = Done (tt, h2, w2) /\
    (exists dm, dm_clients (w_dm w2) !! 0%nat = Some dm /\ client_ok dm /\ dm_in_fd dm = 60) /\
    (exists x, pf_objs (w_pf w2) !! 0%nat = Some x /\ recv_typed x).
Proof.
  destruct (summarized_done _ _ first_rounds_idle) as (h1 & w1 & E1 & Hv).
  pose proof frames_arrived as Ha. rewrite E1 in Ha. cbn [rounds_after] in Ha.
  destruct (watch_loop no_packets 12 no_events 20 60 (burst_rounds two_bursts) h1 w1) as [[[[] h2] w2]| | |] eqn:E2; [|done..].
  destruct (run_stays_typed no_packets 12 no_events 20 60 NoMonitor true modem_devices 50 first_rounds (burst_rounds two_bursts)
    never_fails data_env h1 w1 h2 w2 E1 E2) as (Hp & Hc & Hk).
  exists h1, w1, h2, w2. split; [exact E1|]. split; [done|]. split.
  - destruct (Hk 0%nat unix_client) as (dm & Edm & _ & Hin & _); [by rewrite (idle_clients w1 Hv)|].
    exists dm. split; [exact Edm|]. split; [exact (proj1 (Hc 0%nat dm Edm))|exact Hin].
  - destruct (pf_objs (w_pf w2) !! 0%nat) as [x|] eqn:Ex; [|done]. exists x. split; [done|exact (Hp 0%nat x Ex)].
Defined.
